(** * A shallow embedding of the Markdown-to-HTML translator's parsing core

    The development follows the C++ sources file by file:
    - [token.hpp], [node.hpp]: token and node data;
    - [parsing/state.hpp], [parsing/parsing_helpers.hpp]: tokenizer states,
      the escapable set and the return-state stack;
    - [parsing_tree/tree_builder.hpp]: the tree builder and its cursor;
    - [parsing/emitting_middleware.hpp]: the table manager and the emitter;
    - [parsing/state_handlers.hpp]: the parsing context and one handler per
      state;
    - [parsing/markdown_parser.hpp]: the driver loop.

    Conventions.  A C++ [char] is an [ascii] (one byte), a [std::string] a
    [string].  A [short] and a [size_t] are integers in [Z] with the
    wrap-around of the conversion written out.  A [Node*] is the path of
    child indices from the owning root to the node, [None] being [nullptr].
    A function that can throw returns a [result]; dereferencing a null or
    dangling pointer is reported as [undefined_behaviour]. *)

From Stdlib Require Import String Ascii List Bool ZArith Lia.
Import ListNotations.
Local Open Scope string_scope.
Local Open Scope list_scope.
Local Open Scope Z_scope.
Set Warnings "-register-all".

(** ** Errors and results *)

(** Every exception of the sources is a [std::runtime_error]; it is
    identified here by its message.  [unnamed_enum_value] marks the one
    place where the embedding cannot follow the program: an enum value
    computed by arithmetic that has no enumerator. *)
Inductive Error : Type :=
| runtime_error (what : string)
| undefined_behaviour
| unnamed_enum_value.

Inductive result (A : Type) : Type :=
| Ok (a : A)
| Err (e : Error).
Arguments Ok {A} a.
Arguments Err {A} e.

Definition rbind {A B : Type} (r : result A) (k : A -> result B) : result B :=
  match r with
  | Ok a => k a
  | Err e => Err e
  end.

Definition is_ok {A : Type} (r : result A) : bool :=
  match r with Ok _ => true | Err _ => false end.

Declare Scope result_scope.
Delimit Scope result_scope with result.
Notation "x <- r ;; k" := (rbind r (fun x => k))
  (at level 61, r at next level, right associativity) : result_scope.
Notation "' p <- r ;; k" := (rbind r (fun p => k))
  (at level 61, p pattern, r at next level, right associativity) : result_scope.

(** What the components hand to [Logger::log_warning]: the message and the
    line ([0] when the caller gives none).  [log_info] calls are not
    modelled; a [log_error] call always precedes a [throw] and is carried by
    the [Err]. *)
Inductive LogEntry : Type :=
| log_warning (message : string) (line : Z).

(** ** Characters *)

Definition newline : ascii := "010"%char.
Definition tab : ascii := "009"%char.
Definition backslash : ascii := "\"%char.
Definition dquote : ascii := "034"%char.

Definition nl : string := String newline EmptyString.

(** [std::string(1, c)]. *)
Definition str (c : ascii) : string := String c EmptyString.

(** [s += c] *)
Definition push_back (s : string) (c : ascii) : string := s ++ str c.

(** A [char] obtained from an [int] by the implicit conversion: the value
    modulo 256 as a byte. *)
Definition char_of_int (z : Z) : ascii := ascii_of_N (Z.to_N (z mod 256)).
Definition int_of_char (c : ascii) : Z := Z.of_N (N_of_ascii c).

(** [a + b] on two [char]s is an [int]; handing it to [std::string] picks
    the overload taking one [char]. *)
Definition char_plus_char (a b : ascii) : ascii :=
  char_of_int (int_of_char a + int_of_char b).

(** [isdigit]: true on the characters '0' to '9' (a [char] above 127 is
    not a digit either). *)
Definition isdigit (c : ascii) : bool :=
  (48 <=? int_of_char c) && (int_of_char c <=? 57).

(** [s += c] repeated [n] times: the loops
    [for (short i = 0; i < counter; ++i) consumed += c]. *)
Fixpoint append_n (n : nat) (c : ascii) (s : string) : string :=
  match n with
  | O => s
  | S n' => append_n n' c (push_back s c)
  end.

(** ** Machine integers *)

Definition short_of_int (z : Z) : Z := (z + 32768) mod 65536 - 32768.
Definition size_t_of_int (z : Z) : Z := z mod 18446744073709551616.

(** ** token.hpp *)

Inductive TokenType : Type :=
| OpenToken
| CloseToken
| ContentToken
| EOF_Token.

(** The last enumerator is [EOF_Reached] in the source; it is written
    [ElementType_EOF_Reached] because the context has a field of that
    name. *)
Inductive ElementType : Type :=
| DOCSTART
| Content
| Header_1
| Header_2
| Header_3
| Header_4
| Header_5
| Header_6
| Paragraph
| Codeblock
| Horizontalline
| Hypertext
| ImageType
| Span
| List_Ordered
| List_Unordered
| List_Element
| Table
| Table_Head
| Table_Row
| Table_Cell
| ElementType_EOF_Reached.

Definition ElementType_values : list ElementType :=
  [DOCSTART; Content; Header_1; Header_2; Header_3; Header_4; Header_5;
   Header_6; Paragraph; Codeblock; Horizontalline; Hypertext; ImageType;
   Span; List_Ordered; List_Unordered; List_Element; Table; Table_Head;
   Table_Row; Table_Cell; ElementType_EOF_Reached].

Definition ElementType_to_int (e : ElementType) : Z :=
  match e with
  | DOCSTART => 0 | Content => 1 | Header_1 => 2 | Header_2 => 3
  | Header_3 => 4 | Header_4 => 5 | Header_5 => 6 | Header_6 => 7
  | Paragraph => 8 | Codeblock => 9 | Horizontalline => 10
  | Hypertext => 11 | ImageType => 12 | Span => 13 | List_Ordered => 14
  | List_Unordered => 15 | List_Element => 16 | Table => 17
  | Table_Head => 18 | Table_Row => 19 | Table_Cell => 20
  | ElementType_EOF_Reached => 21
  end.

Definition ElementType_eqb (a b : ElementType) : bool :=
  ElementType_to_int a =? ElementType_to_int b.

Definition TokenType_eqb (a b : TokenType) : bool :=
  match a, b with
  | OpenToken, OpenToken | CloseToken, CloseToken
  | ContentToken, ContentToken | EOF_Token, EOF_Token => true
  | _, _ => false
  end.

Module Token.
Record t : Type := mk {
  type : TokenType;
  element : ElementType;
  content : string;
  alt : string;
  title : string
}.
End Token.

(** The constructor's defaults: [alt = ""], [title = ""]. *)
Definition Token3 (type : TokenType) (el : ElementType) (text : string) : Token.t :=
  Token.mk type el text "" "".

(** ** node.hpp *)

Inductive Attribute : Type :=
| Bold
| Italic
| FontSize1
| FontSize2
| FontSize3
| FontSize4
| FontSize5
| FontSize6
| Inline
| Block
| BlockQuote
| TableStyle
| TableHeader
| TableRow
| TableCell
| ImageAttr.

Definition Attribute_values : list Attribute :=
  [Bold; Italic; FontSize1; FontSize2; FontSize3; FontSize4; FontSize5;
   FontSize6; Inline; Block; BlockQuote; TableStyle; TableHeader; TableRow;
   TableCell; ImageAttr].

Definition Attribute_to_int (a : Attribute) : Z :=
  match a with
  | Bold => 0 | Italic => 1 | FontSize1 => 2 | FontSize2 => 3
  | FontSize3 => 4 | FontSize4 => 5 | FontSize5 => 6 | FontSize6 => 7
  | Inline => 8 | Block => 9 | BlockQuote => 10 | TableStyle => 11
  | TableHeader => 12 | TableRow => 13 | TableCell => 14 | ImageAttr => 15
  end.

(** What the subclasses [ContentNode], [ImageNode] and [HyperlinkNode] add
    to the fields of [Node]. *)
Inductive NodeData : Type :=
| PlainNode
| ContentNode (content : string)
| ImageNode (src alt title : string)
| HyperlinkNode (href displayed title : string).

(** [Node]: the [parent] back-pointer is not a field here; it is the path
    of the node without its last index. *)
Inductive Node : Type := mkNode {
  element : ElementType;
  attributes : list Attribute;
  children : list Node;
  data : NodeData
}.

Definition set_element (e : ElementType) (n : Node) : Node :=
  mkNode e (attributes n) (children n) (data n).
Definition set_children (ch : list Node) (n : Node) : Node :=
  mkNode (element n) (attributes n) ch (data n).

(** [Node::add_child], [Node::add_attribute]: both [push_back]. *)
Definition add_child (child : Node) (n : Node) : Node :=
  mkNode (element n) (attributes n) (children n ++ [child])%list (data n).
Definition node_add_attribute (a : Attribute) (n : Node) : Node :=
  mkNode (element n) (attributes n ++ [a])%list (children n) (data n).

(** [Node::remove_last_child]: the removed child and the node without it,
    or [None] ([std::nullopt]) when there is no child. *)
Definition remove_last_child (n : Node) : option (Node * Node) :=
  match rev (children n) with
  | [] => None
  | last_child :: _ => Some (last_child, set_children (removelast (children n)) n)
  end.

(** *** Pointers into a tree *)

Definition path : Type := list nat.

Fixpoint get_node (n : Node) (p : path) : option Node :=
  match p with
  | [] => Some n
  | i :: p' =>
      match nth_error (children n) i with
      | Some c => get_node c p'
      | None => None
      end
  end.

Fixpoint replace_nth {A : Type} (i : nat) (x : A) (l : list A) : list A :=
  match l, i with
  | [], _ => []
  | _ :: l', O => x :: l'
  | y :: l', S i' => y :: replace_nth i' x l'
  end.

Fixpoint update_node (f : Node -> Node) (n : Node) (p : path) : option Node :=
  match p with
  | [] => Some (f n)
  | i :: p' =>
      match nth_error (children n) i with
      | Some c =>
          match update_node f c p' with
          | Some c' => Some (set_children (replace_nth i c' (children n)) n)
          | None => None
          end
      | None => None
      end
  end.

(** [p->parent]: [nullptr] for the root. *)
Definition parent (p : path) : option path :=
  match p with
  | [] => None
  | _ :: _ => Some (removelast p)
  end.

(** The Content leaves of a tree, in document order. *)
Fixpoint content_leaves (n : Node) : list string :=
  match n with
  | mkNode _ _ ch d =>
      match d with
      | ContentNode s => [s]
      | _ => []
      end ++ flat_map content_leaves ch
  end%list.

Definition concat_all (l : list string) : string :=
  fold_right String.append "" l.

Definition content_text (n : Node) : string := concat_all (content_leaves n).

(** ** parsing/state.hpp *)

Inductive State : Type :=
| Data
| DataHashtag
| DataAsterisk
| DataAsteriskData
| DataDoubleAsterisk
| DataDoubleAsteriskData
| DataTripleAsterisk
| DataTripleAsteriskData
| DataConsumingNumber
| DataOrdinalNumber
| HorizontalLine
| DataBacktick
| DataDoubleBacktick
| CodeInline
| CodeBlock
| UnorderedListPrep
| UnorderedList
| OrderedListPrep
| Image
| AltOpenSquared
| AltClosedSquared
| UrlOpenRound
| TitleOpenRound
| TitleConsuming
| TitleClosedRound
| TableHeaderNames
| TableHeaderSeparationPipeAwaiting
| TableHeaderSeparation
| TableCellPipeAwaiting
| TableCellData.

Definition State_to_nat (s : State) : nat :=
  match s with
  | Data => 0 | DataHashtag => 1 | DataAsterisk => 2 | DataAsteriskData => 3
  | DataDoubleAsterisk => 4 | DataDoubleAsteriskData => 5
  | DataTripleAsterisk => 6 | DataTripleAsteriskData => 7
  | DataConsumingNumber => 8 | DataOrdinalNumber => 9 | HorizontalLine => 10
  | DataBacktick => 11 | DataDoubleBacktick => 12 | CodeInline => 13
  | CodeBlock => 14 | UnorderedListPrep => 15 | UnorderedList => 16
  | OrderedListPrep => 17 | Image => 18 | AltOpenSquared => 19
  | AltClosedSquared => 20 | UrlOpenRound => 21 | TitleOpenRound => 22
  | TitleConsuming => 23 | TitleClosedRound => 24 | TableHeaderNames => 25
  | TableHeaderSeparationPipeAwaiting => 26 | TableHeaderSeparation => 27
  | TableCellPipeAwaiting => 28 | TableCellData => 29
  end%nat.

Definition State_eqb (a b : State) : bool :=
  Nat.eqb (State_to_nat a) (State_to_nat b).

(** [EnumArithmetic]: the enumerator [offset] places after [enum_val], when
    there is one. *)
Definition enumOp_ElementType (enum_val : ElementType) (offset : Z) : option ElementType :=
  find (fun e => ElementType_to_int e =? ElementType_to_int enum_val + offset)
       ElementType_values.
Definition enumOp_Attribute (enum_val : Attribute) (offset : Z) : option Attribute :=
  find (fun a => Attribute_to_int a =? Attribute_to_int enum_val + offset)
       Attribute_values.

(** ** parsing/parsing_helpers.hpp *)

Definition escaped_chars : list ascii :=
  ["\"; "`"; "*"; "_"; "{"; "}"; "["; "]"; "<"; ">"; "("; ")"; "#";
   "+"; "-"; "."; "!"; "|"]%char.

Definition is_escaped_char (c : ascii) : bool :=
  existsb (Ascii.eqb c) escaped_chars.

Module ReturnStateStack.

(** The top of the [std::stack] is the head of the list. *)
Definition t : Type := list State.

Definition allowed_return_states : list State :=
  [Data; UnorderedListPrep; OrderedListPrep; TableHeaderNames; TableCellData].

Definition is_a_return_state (state : State) : bool :=
  existsb (fun allowed => State_eqb allowed state) allowed_return_states.

(** [state + " should not be in the stack"] is pointer arithmetic: the
    pointer moves into the literal by the value of [state], and the
    message is what is read from there up to the terminating zero.  The
    literal has 27 characters and its zero: the pointer of a state up to
    27 reads a suffix of the literal, that of a greater state is beyond
    the zero and what it reads is outside the array ([None]). *)
Definition push_message (state : State) : option string :=
  let lit := " should not be in the stack" in
  if (State_to_nat state <=? String.length lit)%nat
  then Some (substring (State_to_nat state) (String.length lit - State_to_nat state) lit)
  else None.

Definition push (state : State) (return_stack : t) : result t :=
  if negb (is_a_return_state state)
  then match push_message state with
       | Some what => Err (runtime_error what)
       | None => Err undefined_behaviour
       end
  else Ok (state :: return_stack).

Definition top_warning : LogEntry :=
  log_warning "Topping an empty stack. Returning State::Data instead." 0.
Definition pop_warning : LogEntry :=
  log_warning "Popping an empty stack. Returning State::Data instead." 0.

(** [top]: the state returned and what is logged. *)
Definition top (return_stack : t) : State * list LogEntry :=
  match return_stack with
  | [] => (Data, [top_warning])
  | s :: _ => (s, [])
  end.

(** [top_n_pop]: the state returned, the stack left and what is logged. *)
Definition top_n_pop (return_stack : t) : State * t * list LogEntry :=
  match return_stack with
  | [] => (Data, [], [pop_warning])
  | s :: rest => (s, rest, [])
  end.

End ReturnStateStack.

(** ** parsing_tree/tree_builder.hpp *)

Module TreeBuilder.

(** [root] is the [unique_ptr] ([None] once moved out by [get_root]),
    [current] the raw pointer into the tree. *)
Record t : Type := mk {
  root : option Node;
  current : option path
}.

Definition init : t := mk (Some (mkNode DOCSTART [] [] PlainNode)) (Some []).

Definition docstart_warning : LogEntry :=
  log_warning "Moving 'current' above DOCTYPE element making it a nullptr." 0.

(** [*current], without any check. *)
Definition deref_current (b : t) : result Node :=
  match root b, current b with
  | Some r, Some p =>
      match get_node r p with
      | Some n => Ok n
      | None => Err undefined_behaviour
      end
  | _, _ => Err undefined_behaviour
  end.

(** [current->add_child(new_node)], with [current = new_node.get()]
    before it when [descend] is set. *)
Definition attach (new_node : Node) (descend : bool) (b : t) : result t :=
  match root b, current b with
  | Some r, Some p =>
      match get_node r p, update_node (add_child new_node) r p with
      | Some n, Some r' =>
          Ok (mk (Some r')
                 (Some (if descend then p ++ [length (children n)] else p)))
      | _, _ => Err undefined_behaviour
      end
  | _, _ => Err undefined_behaviour
  end.

Definition consume_token (token : Token.t) (b : t) : result (t * list LogEntry) :=
  match Token.type token with
  | OpenToken =>
      let new_node :=
        match Token.element token with
        | ImageType =>
            mkNode ImageType [] []
              (ImageNode (Token.content token) (Token.alt token) (Token.title token))
        | Hypertext =>
            mkNode Hypertext [] []
              (HyperlinkNode (Token.content token) (Token.alt token) (Token.title token))
        | el => mkNode el [] [] PlainNode
        end in
      (b' <- attach new_node true b ;; Ok (b', []))%result
  | CloseToken =>
      (n <- deref_current b ;;
       if negb (ElementType_eqb (Token.element token) (element n))
       then Err (runtime_error "incorrectly parsed tree")
       else
         let w := if ElementType_eqb (element n) DOCSTART
                  then [docstart_warning] else [] in
         match current b with
         | Some p => Ok (mk (root b) (parent p), w)
         | None => Err undefined_behaviour
         end)%result
  | ContentToken =>
      (b' <- attach (mkNode (Token.element token) [] []
                       (ContentNode (Token.content token))) false b ;;
       Ok (b', []))%result
  | EOF_Token => Ok (b, [])
  end.

Definition null_current : Error := runtime_error "Error during tree parsing".

Definition append_subtree (subtree_root : option Node) (b : t) : result t :=
  match current b with
  | None => Err null_current
  | Some _ =>
      match subtree_root with
      | None => Err undefined_behaviour
      | Some sub => attach sub false b
      end
  end.

Definition get_current_element (b : t) : result ElementType :=
  match current b with
  | None => Err null_current
  | Some _ => (n <- deref_current b ;; Ok (element n))%result
  end.

Definition add_attribute (att : Attribute) (b : t) : result t :=
  match root b, current b with
  | _, None => Err null_current
  | Some r, Some p =>
      match update_node (node_add_attribute att) r p with
      | Some r' => Ok (mk (Some r') (Some p))
      | None => Err undefined_behaviour
      end
  | None, Some _ => Err undefined_behaviour
  end.

(** [get_root]: the root moves out of the builder. *)
Definition get_root (b : t) : option Node * t :=
  (root b, mk None (current b)).

End TreeBuilder.

(** ** parsing/emitting_middleware.hpp *)

Inductive ParseWarningFlags : Type :=
| TableFailed
| TableSuccess.

Module TableManager.

(** The [builder] member is the builder shared with the emitter: the
    functions that use it take it and give it back.  The [logger] member
    is never initialised. *)
Record t : Type := mk {
  table_root : option Node;
  current : option path;
  col_dims : Z
}.

Definition init : t := mk None None 0.

Definition deref_current (tm : t) : result Node :=
  match table_root tm, current tm with
  | Some r, Some p =>
      match get_node r p with
      | Some n => Ok n
      | None => Err undefined_behaviour
      end
  | _, _ => Err undefined_behaviour
  end.

(** [current->add_child(node)], with [current = node.get()] before it when
    [descend] is set. *)
Definition attach (node : Node) (descend : bool) (tm : t) : result t :=
  match table_root tm, current tm with
  | Some r, Some p =>
      match get_node r p, update_node (add_child node) r p with
      | Some n, Some r' =>
          Ok (mk (Some r')
                 (Some (if descend then p ++ [length (children n)] else p))
                 (col_dims tm))
      | _, _ => Err undefined_behaviour
      end
  | _, _ => Err undefined_behaviour
  end.

(** [current = current->parent]. *)
Definition ascend (tm : t) : result t :=
  (_ <- deref_current tm ;;
   match current tm with
   | Some p => Ok (mk (table_root tm) (parent p) (col_dims tm))
   | None => Err undefined_behaviour
   end)%result.

Definition create_new_node (token : Token.t) (tm : t) : result t :=
  let el := Token.element token in
  let attrs :=
    match el with
    | Table_Row => [TableRow]
    | Table_Head => [TableHeader]
    | Table_Cell => [TableCell]
    | _ => []
    end in
  attach (mkNode el attrs [] PlainNode) true tm.

(** The padding loop of a closed body row:
    [for (t = children.size(); t < col_dims; ++t) add_child(empty cell)]. *)
Fixpoint pad_row (n : nat) (row : Node) : Node :=
  match n with
  | O => row
  | S n' => pad_row n' (add_child (mkNode Table_Cell [] [] PlainNode) row)
  end.

Definition update_current (f : Node -> Node) (tm : t) : result t :=
  match table_root tm, current tm with
  | Some r, Some p =>
      match update_node f r p with
      | Some r' => Ok (mk (Some r') (Some p) (col_dims tm))
      | None => Err undefined_behaviour
      end
  | _, _ => Err undefined_behaviour
  end.

Definition is_open (token : Token.t) : bool :=
  TokenType_eqb (Token.type token) OpenToken.

Definition consume_token (token : Token.t) (tm : t) : result t :=
  match Token.element token with
  | Table =>
      if is_open token then
        match table_root tm with
        | Some _ => Err (runtime_error "Should have been nulled by now")
        | None => Ok (mk (Some (mkNode Table [TableStyle] [] PlainNode))
                         (Some []) (col_dims tm))
        end
      else Err (runtime_error "You should not be here")
  | Table_Row =>
      if is_open token then create_new_node token tm
      else if negb (col_dims tm =? 0) then
        (n <- deref_current tm ;;
         tm1 <- update_current
                  (pad_row (Z.to_nat (col_dims tm - Z.of_nat (length (children n))))) tm ;;
         ascend tm1)%result
      else
        (n <- deref_current tm ;;
         match children n with
         | [] => Err undefined_behaviour
         | _ :: _ =>
             tm1 <- update_current (fun r => set_children (removelast (children r)) r) tm ;;
             let dims := Z.of_nat (length (removelast (children n))) in
             if dims =? 0
             then Err (runtime_error "Table header should not be empty")
             else ascend (mk (table_root tm1) (current tm1) dims)
         end)%result
  | Table_Head =>
      if is_open token then create_new_node token tm else ascend tm
  | Table_Cell =>
      (n <- deref_current tm ;;
       if is_open token then
         if Z.of_nat (length (children n)) <? col_dims tm
         then create_new_node token tm
         else Ok tm
       else
         if ElementType_eqb (element n) Table_Cell then ascend tm else Ok tm)%result
  | Content =>
      (n <- deref_current tm ;;
       if ElementType_eqb (element n) Table_Row then Ok tm
       else attach (mkNode Content [] [] (ContentNode (Token.content token))) false tm)%result
  | Hypertext =>
      if is_open token then
        attach (mkNode Hypertext [] []
                  (HyperlinkNode (Token.content token) (Token.alt token) (Token.title token)))
               true tm
      else
        (* no [break]: control falls into the [Span]/[Codeblock] case *)
        (tm1 <- ascend tm ;; ascend tm1)%result
  | Span | Codeblock =>
      if is_open token then create_new_node token tm else ascend tm
  | _ => Ok tm
  end.

Definition add_attribute (attr : Attribute) (tm : t) : result t :=
  update_current (node_add_attribute attr) tm.

Definition emit_on_success (tm : t) (builder : TreeBuilder.t)
  : result (t * TreeBuilder.t) :=
  (b' <- TreeBuilder.append_subtree (table_root tm) builder ;;
   Ok (mk None (current tm) (col_dims tm), b'))%result.

(** The children a demoted row gets: for each cell a "|" leaf, then the
    cell's own children. *)
Definition row_paragraph_children (cells : list Node) : list Node :=
  flat_map (fun td_node => mkNode Content [] [] (ContentNode "|") :: children td_node)
           cells.

Definition emit_row_as_paragraph (row_p : Node) (builder : TreeBuilder.t)
  : result TreeBuilder.t :=
  match children row_p with
  | [] => Ok builder
  | _ :: _ =>
      let row_p1 := set_element Paragraph row_p in
      let row_p2 := set_children (row_paragraph_children (children row_p1)) row_p1 in
      TreeBuilder.append_subtree (Some row_p2) builder
  end.

Definition emit_on_failure (tm : t) (builder : TreeBuilder.t)
  : result (t * TreeBuilder.t) :=
  match table_root tm with
  | None => Err undefined_behaviour
  | Some r =>
      match remove_last_child r with
      | None => Ok (tm, builder)
      | Some (last_row, r') =>
          let tm1 := mk (Some r') (current tm) (col_dims tm) in
          ('(tm2, b1) <-
             (if negb (Nat.eqb (length (children r')) 0)
              then emit_on_success tm1 builder
              else Ok (tm1, builder)) ;;
           b2 <- emit_row_as_paragraph last_row b1 ;;
           Ok (mk None (current tm2) 0, b2))%result
      end
  end.

Definition get_col_dims (tm : t) : Z := col_dims tm.

End TableManager.

Module Token_Emitter.

Record t : Type := mk {
  builder : TreeBuilder.t;
  table_manager : TableManager.t;
  table_parsing_flag : bool
}.

Definition init : t := mk TreeBuilder.init TableManager.init false.

Definition emit_token (to_emit : Token.t) (e : t) : result (t * list LogEntry) :=
  if table_parsing_flag e then
    (tm <- TableManager.consume_token to_emit (table_manager e) ;;
     Ok (mk (builder e) tm true, []))%result
  else if ElementType_eqb (Token.element to_emit) Table then
    (tm <- TableManager.consume_token to_emit (table_manager e) ;;
     Ok (mk (builder e) tm true, []))%result
  else
    ('(b, w) <- TreeBuilder.consume_token to_emit (builder e) ;;
     Ok (mk b (table_manager e) false, w))%result.

Definition handle_flag (flag : ParseWarningFlags) (e : t) : result t :=
  match flag with
  | TableFailed =>
      ('(tm, b) <- TableManager.emit_on_failure (table_manager e) (builder e) ;;
       Ok (mk b tm false))%result
  | TableSuccess =>
      ('(tm, b) <- TableManager.emit_on_success (table_manager e) (builder e) ;;
       Ok (mk b tm false))%result
  end.

Definition fetch_current_element (e : t) : result ElementType :=
  TreeBuilder.get_current_element (builder e).

Definition add_attribute (attr : Attribute) (e : t) : result t :=
  if table_parsing_flag e then
    (tm <- TableManager.add_attribute attr (table_manager e) ;;
     Ok (mk (builder e) tm true))%result
  else
    (b <- TreeBuilder.add_attribute attr (builder e) ;;
     Ok (mk b (table_manager e) false))%result.

Definition get_col_dims (e : t) : Z :=
  TableManager.get_col_dims (table_manager e).

End Token_Emitter.

(** ** parsing/state_handlers.hpp: the parsing context *)

(** [counter], [alt_counter], [indent_level] are [short]s, [newline_counter]
    a [size_t].  [logged] is not a member of the C++ struct: it is what the
    shared [Logger] has been handed so far, oldest first. *)
Record Context : Type := mkContext {
  EOF_Reached : bool;
  consumed : string;
  counter : Z;
  alt_counter : Z;
  indent_level : Z;
  newline_counter : Z;
  src : string;
  alt : string;
  blockquote_in_list : bool;
  is_escaped : bool;
  is_image : bool;
  state : State;
  warning_msg : string;
  emitter : Token_Emitter.t;
  return_stack : ReturnStateStack.t;
  logged : list LogEntry
}.

Definition set_EOF_Reached (v : bool) (c : Context) : Context :=
  mkContext v (consumed c) (counter c) (alt_counter c) (indent_level c) (newline_counter c) (src c) (alt c) (blockquote_in_list c) (is_escaped c) (is_image c) (state c) (warning_msg c) (emitter c) (return_stack c) (logged c).
Definition set_consumed (v : string) (c : Context) : Context :=
  mkContext (EOF_Reached c) v (counter c) (alt_counter c) (indent_level c) (newline_counter c) (src c) (alt c) (blockquote_in_list c) (is_escaped c) (is_image c) (state c) (warning_msg c) (emitter c) (return_stack c) (logged c).
Definition set_counter (v : Z) (c : Context) : Context :=
  mkContext (EOF_Reached c) (consumed c) v (alt_counter c) (indent_level c) (newline_counter c) (src c) (alt c) (blockquote_in_list c) (is_escaped c) (is_image c) (state c) (warning_msg c) (emitter c) (return_stack c) (logged c).
Definition set_alt_counter (v : Z) (c : Context) : Context :=
  mkContext (EOF_Reached c) (consumed c) (counter c) v (indent_level c) (newline_counter c) (src c) (alt c) (blockquote_in_list c) (is_escaped c) (is_image c) (state c) (warning_msg c) (emitter c) (return_stack c) (logged c).
Definition set_indent_level (v : Z) (c : Context) : Context :=
  mkContext (EOF_Reached c) (consumed c) (counter c) (alt_counter c) v (newline_counter c) (src c) (alt c) (blockquote_in_list c) (is_escaped c) (is_image c) (state c) (warning_msg c) (emitter c) (return_stack c) (logged c).
Definition set_newline_counter (v : Z) (c : Context) : Context :=
  mkContext (EOF_Reached c) (consumed c) (counter c) (alt_counter c) (indent_level c) v (src c) (alt c) (blockquote_in_list c) (is_escaped c) (is_image c) (state c) (warning_msg c) (emitter c) (return_stack c) (logged c).
Definition set_src (v : string) (c : Context) : Context :=
  mkContext (EOF_Reached c) (consumed c) (counter c) (alt_counter c) (indent_level c) (newline_counter c) v (alt c) (blockquote_in_list c) (is_escaped c) (is_image c) (state c) (warning_msg c) (emitter c) (return_stack c) (logged c).
Definition set_alt (v : string) (c : Context) : Context :=
  mkContext (EOF_Reached c) (consumed c) (counter c) (alt_counter c) (indent_level c) (newline_counter c) (src c) v (blockquote_in_list c) (is_escaped c) (is_image c) (state c) (warning_msg c) (emitter c) (return_stack c) (logged c).
Definition set_blockquote_in_list (v : bool) (c : Context) : Context :=
  mkContext (EOF_Reached c) (consumed c) (counter c) (alt_counter c) (indent_level c) (newline_counter c) (src c) (alt c) v (is_escaped c) (is_image c) (state c) (warning_msg c) (emitter c) (return_stack c) (logged c).
Definition set_is_escaped (v : bool) (c : Context) : Context :=
  mkContext (EOF_Reached c) (consumed c) (counter c) (alt_counter c) (indent_level c) (newline_counter c) (src c) (alt c) (blockquote_in_list c) v (is_image c) (state c) (warning_msg c) (emitter c) (return_stack c) (logged c).
Definition set_is_image (v : bool) (c : Context) : Context :=
  mkContext (EOF_Reached c) (consumed c) (counter c) (alt_counter c) (indent_level c) (newline_counter c) (src c) (alt c) (blockquote_in_list c) (is_escaped c) v (state c) (warning_msg c) (emitter c) (return_stack c) (logged c).
Definition set_state (v : State) (c : Context) : Context :=
  mkContext (EOF_Reached c) (consumed c) (counter c) (alt_counter c) (indent_level c) (newline_counter c) (src c) (alt c) (blockquote_in_list c) (is_escaped c) (is_image c) v (warning_msg c) (emitter c) (return_stack c) (logged c).
Definition set_warning_msg (v : string) (c : Context) : Context :=
  mkContext (EOF_Reached c) (consumed c) (counter c) (alt_counter c) (indent_level c) (newline_counter c) (src c) (alt c) (blockquote_in_list c) (is_escaped c) (is_image c) (state c) v (emitter c) (return_stack c) (logged c).
Definition set_emitter (v : Token_Emitter.t) (c : Context) : Context :=
  mkContext (EOF_Reached c) (consumed c) (counter c) (alt_counter c) (indent_level c) (newline_counter c) (src c) (alt c) (blockquote_in_list c) (is_escaped c) (is_image c) (state c) (warning_msg c) v (return_stack c) (logged c).
Definition set_return_stack (v : ReturnStateStack.t) (c : Context) : Context :=
  mkContext (EOF_Reached c) (consumed c) (counter c) (alt_counter c) (indent_level c) (newline_counter c) (src c) (alt c) (blockquote_in_list c) (is_escaped c) (is_image c) (state c) (warning_msg c) (emitter c) v (logged c).
Definition set_logged (v : list LogEntry) (c : Context) : Context :=
  mkContext (EOF_Reached c) (consumed c) (counter c) (alt_counter c) (indent_level c) (newline_counter c) (src c) (alt c) (blockquote_in_list c) (is_escaped c) (is_image c) (state c) (warning_msg c) (emitter c) (return_stack c) v.

(** A [void] member function or handler: it changes the context or
    throws. *)
Definition action : Type := Context -> result Context.

Definition upd (f : Context -> Context) : action := fun c => Ok (f c).
Definition seq (a b : action) : action := fun c => rbind (a c) b.
Definition skip : action := fun c => Ok c.
Notation "a >> b" := (seq a b) (at level 65, left associativity).

Fixpoint repeat_action (n : nat) (a : action) : action :=
  match n with
  | O => skip
  | S n' => a >> repeat_action n' a
  end.

Definition INDENTATION : Z := 4.

Definition empty (s : string) : bool :=
  match s with EmptyString => true | String _ _ => false end.

Definition add_log (w : list LogEntry) (c : Context) : Context :=
  set_logged (logged c ++ w) c.

(** [consumed += next], [++counter], [counter++] and the like. *)
Definition append_consumed (next : ascii) (c : Context) : Context :=
  set_consumed (push_back (consumed c) next) c.
Definition incr_counter (c : Context) : Context :=
  set_counter (short_of_int (counter c + 1)) c.
Definition incr_alt_counter (c : Context) : Context :=
  set_alt_counter (short_of_int (alt_counter c + 1)) c.
Definition incr_newline_counter (c : Context) : Context :=
  set_newline_counter (size_t_of_int (newline_counter c + 1)) c.

(** [for (short i = 0; i < counter; ++i) consumed += ch]. *)
Definition append_counter_times (ch : ascii) (c : Context) : Context :=
  set_consumed (append_n (Z.to_nat (counter c)) ch (consumed c)) c.

(** *** The return stack seen from the context *)

Definition push (s : State) : action := fun c =>
  (st <- ReturnStateStack.push s (return_stack c) ;; Ok (set_return_stack st c))%result.

Definition top (c : Context) : State * Context :=
  let '(s, w) := ReturnStateStack.top (return_stack c) in (s, add_log w c).

(** [state = return_stack->top_n_pop()]. *)
Definition state_top_n_pop (c : Context) : Context :=
  let '(s, st, w) := ReturnStateStack.top_n_pop (return_stack c) in
  set_state s (set_return_stack st (add_log w c)).

(** [if (return_stack->top() == a || return_stack->top() == b)]: the second
    call is made only when the first comparison fails. *)
Definition if_top_is (a b : State) (then_ else_ : action) : action := fun c =>
  let '(s1, c1) := top c in
  if State_eqb s1 a then then_ c1
  else
    let '(s2, c2) := top c1 in
    if State_eqb s2 b then then_ c2 else else_ c2.

(** *** Member functions of [Context] *)

Definition emit_token (type : TokenType) (element : ElementType) : action := fun c =>
  let text := match type with ContentToken => consumed c | _ => "" end in
  let c1 := match type with
            | CloseToken | ContentToken => set_consumed "" c
            | _ => c
            end in
  ('(e, w) <- Token_Emitter.emit_token (Token3 type element text) (emitter c1) ;;
   Ok (add_log w (set_emitter e c1)))%result.

Definition fetch_current_element (c : Context) : result ElementType :=
  Token_Emitter.fetch_current_element (emitter c).

Definition add_attribute (attr : Attribute) : action := fun c =>
  (e <- Token_Emitter.add_attribute attr (emitter c) ;; Ok (set_emitter e c))%result.

Definition handle_flag (flag : ParseWarningFlags) : action := fun c =>
  (e <- Token_Emitter.handle_flag flag (emitter c) ;; Ok (set_emitter e c))%result.

Definition emit_content_token : action := fun c =>
  if empty (consumed c) then Ok c
  else
    (el <- fetch_current_element c ;;
     if ElementType_eqb el DOCSTART
     then (emit_token OpenToken Paragraph >> emit_token ContentToken Content) c
     else emit_token ContentToken Content c)%result.

Definition handle_pipe_in_table (to_emit : string) (full : bool) : action := fun c =>
  let '(s, c1) := top c in
  let to_close := if State_eqb s TableCellData then Table_Cell else Table_Head in
  (upd (fun c => set_consumed (if full then to_emit else to_emit ++ consumed c)%string c)
   >> emit_token ContentToken Content
   >> upd state_top_n_pop
   >> emit_token CloseToken to_close
   >> emit_token OpenToken to_close) c1.

(** [to_emit] is an rvalue reference.  Where a handler passes
    [std::move(context.consumed)], it names [consumed] itself; the function
    reads it only before it changes [consumed], so passing the value at the
    call is the same (and [consumed += to_emit] doubles the buffer). *)
Definition handle_unexpected_newline (to_emit : string) (EOF_Reached : bool) : action :=
  if_top_is TableHeaderNames TableCellData
    (upd (fun c => set_consumed (consumed c ++ to_emit)%string c)
     >> emit_token ContentToken Content
     >> handle_flag TableFailed
     >> upd state_top_n_pop)
    ((if negb (empty to_emit)
      then upd (fun c => set_consumed (consumed c ++ to_emit)%string c) >> emit_content_token
      else skip)
     >> (fun c =>
           currElement <- fetch_current_element c ;;
           if ElementType_eqb currElement Paragraph && negb EOF_Reached
           then Ok (incr_newline_counter c)
           else emit_token CloseToken currElement (set_newline_counter 0 c))%result
     >> upd (set_counter 0)
     >> upd state_top_n_pop).

Definition setup_list_parsing (c : Context) : Context :=
  set_indent_level 0 (set_counter 0 c).

Definition move_up_the_tree : action := fun c =>
  (el <- fetch_current_element c ;; emit_token CloseToken el c)%result.

Definition only_whitespace (s : string) : bool :=
  forallb (fun ch => Ascii.eqb ch " " || Ascii.eqb ch tab) (list_ascii_of_string s).

Definition consumed_only_whitespace (c : Context) : bool :=
  only_whitespace (consumed c).

(** The loops over [move_up_the_tree] counted by a [short i] stepping by
    [INDENTATION].  With a bound near the top of the [short] range [i]
    wraps around and the test never fails: the loop then ends by the
    exception of a [move_up_the_tree] or not at all, which is an error
    either way. *)
Definition rounds_le (bound : Z) : option nat :=
  if bound <? 0 then Some O
  else if bound <=? 32763 then Some (Z.to_nat (Z.quot bound INDENTATION + 1))
  else None.

Definition rounds_lt (bound : Z) : option nat :=
  if bound <=? 0 then Some O
  else if bound <=? 32764 then Some (Z.to_nat (Z.quot (bound + 3) INDENTATION))
  else None.

Definition cursor_depth (c : Context) : nat :=
  match TreeBuilder.current (Token_Emitter.builder (emitter c)) with
  | Some p => length p
  | None => O
  end.

Definition move_up_rounds (rounds : option nat) : action := fun c =>
  match rounds with
  | Some n => repeat_action n move_up_the_tree c
  | None =>
      match repeat_action (cursor_depth c + 2) move_up_the_tree c with
      | Err e => Err e
      | Ok _ => Err undefined_behaviour
      end
  end.

Definition emit_image : action := fun c =>
  ('(e, w) <- Token_Emitter.emit_token
                (Token.mk OpenToken ImageType (src c) (alt c) (consumed c)) (emitter c) ;;
   (emit_token CloseToken ImageType
    >> upd (set_src "") >> upd (set_alt "") >> upd (set_consumed ""))
     (add_log w (set_emitter e c)))%result.

Definition emit_hyperlink : action := fun c =>
  ('(e, w) <- Token_Emitter.emit_token
                (Token.mk OpenToken Hypertext (src c) (alt c) (consumed c)) (emitter c) ;;
   (emit_token CloseToken Hypertext
    >> upd (set_src "") >> upd (set_alt "") >> upd (set_consumed ""))
     (add_log w (set_emitter e c)))%result.

(** An enumerator computed by [EnumArithmetic]; the embedding stops, with
    [unnamed_enum_value], when the value has no enumerator. *)

Definition emit_open_header (c : Context) : result Context :=
  match enumOp_ElementType Header_1 (counter c - 1) with
  | Some el => emit_token OpenToken el c
  | None => Err unnamed_enum_value
  end.

Definition add_fontsize_attribute (c : Context) : result Context :=
  match enumOp_Attribute FontSize1 (counter c - 1) with
  | Some a => add_attribute a c
  | None => Err unnamed_enum_value
  end.

(** ** parsing/state_handlers.hpp: one handler per state *)

Module handlers.

Definition handler : Type := Context -> ascii -> result Context.

Definition asterisk_warning (what : string) : string :=
  ("Unclosed asterisk signifying bold text - converting " ++ what ++ "to plain text")%string.
Definition backtick_warning : string :=
  "Unclosed backtick signifying a code element - handling as plain text".

Definition handleData : handler := fun context next =>
  if (next =? "#")%char then
    if empty (consumed context)
    then (push Data >> upd incr_counter >> upd (set_state DataHashtag)) context
    else Ok (append_consumed next context)
  else if (next =? "*")%char then
    (emit_content_token >> push Data >> upd (set_state DataAsterisk)) context
  else if (next =? "-")%char then
    if empty (consumed context)
    then (upd incr_counter >> push Data >> upd (set_state HorizontalLine)) context
    else Ok (append_consumed next context)
  else if (next =? "`")%char then
    (emit_content_token >> push Data >> upd (set_state DataBacktick)) context
  else if (next =? ">")%char then
    if empty (consumed context)
    then (emit_token OpenToken Span >> add_attribute BlockQuote >> push Data) context
    else Ok (append_consumed next context)
  else if (next =? "[")%char then
    (emit_content_token >> push Data >> upd (set_is_image false)
     >> upd (set_state AltOpenSquared)) context
  else if (next =? "!")%char then
    (emit_content_token >> upd (set_state Image) >> upd (set_is_image true)
     >> push Data) context
  else if (next =? "|")%char then
    if consumed_only_whitespace context
    then (upd (set_consumed "") >> upd (set_state TableHeaderNames) >> push Data
          >> emit_token OpenToken Table
          >> emit_token OpenToken Table_Row
          >> emit_token OpenToken Table_Head) context
    else Ok (append_consumed "|" context)
  else if (next =? newline)%char then
    (curr_el <- fetch_current_element context ;;
     (emit_content_token
      >> (fun c =>
            if (newline_counter c =? 1) && ElementType_eqb curr_el Paragraph
            then emit_token CloseToken Paragraph c
            else if negb (ElementType_eqb curr_el DOCSTART)
                    && negb (ElementType_eqb curr_el Paragraph)
            then (emit_token CloseToken curr_el
                  >> (fun c =>
                        if blockquote_in_list c
                        then (emit_token CloseToken List_Element
                              >> upd (set_blockquote_in_list false)) c
                        else Ok c)
                  >> upd state_top_n_pop) c
            else Ok c)
      >> (fun c =>
            if ElementType_eqb curr_el Paragraph
            then Ok (incr_newline_counter c)
            else Ok c)) context)%result
  else
    if empty (consumed context) && isdigit next
    then (upd (append_consumed next) >> push Data
          >> upd (set_state DataConsumingNumber)) context
    else Ok (append_consumed next context).

Definition handleHashtag : handler := fun context next =>
  if (next =? "#")%char && (counter context <? 6) then Ok (incr_counter context)
  else if (next =? " ")%char then
    (emit_open_header >> add_attribute Bold >> add_fontsize_attribute
     >> upd (set_counter 0) >> push Data >> upd (set_state Data)) context
  else if (next =? newline)%char then
    let context1 := append_counter_times "#" context in
    handle_unexpected_newline (consumed context1) (EOF_Reached context1) context1
  else
    Ok (state_top_n_pop (append_counter_times "#" context)).

Definition handleDataAsterisk : handler := fun context next =>
  if (next =? "*")%char then Ok (set_state DataDoubleAsterisk context)
  else if (next =? newline)%char then
    handle_unexpected_newline "*" (EOF_Reached context)
      (set_warning_msg (asterisk_warning "'*' ") context)
  else if (next =? "|")%char then
    if_top_is TableHeaderNames TableCellData
      (upd (set_warning_msg (asterisk_warning "'*' ")) >> handle_pipe_in_table "*" false)
      (upd (append_consumed next) >> upd (set_state DataAsteriskData))
      context
  else
    Ok (set_state DataAsteriskData (append_consumed next context)).

Definition handleAsteriskData : handler := fun context next =>
  if (next =? "*")%char then
    (emit_token OpenToken Span >> add_attribute Italic
     >> emit_token ContentToken Content >> emit_token CloseToken Span
     >> upd state_top_n_pop) context
  else if (next =? newline)%char then
    handle_unexpected_newline ("*" ++ consumed context)%string (EOF_Reached context)
      (set_warning_msg (asterisk_warning "") context)
  else if (next =? "|")%char then
    if_top_is TableCellData TableHeaderNames
      (upd (set_warning_msg (asterisk_warning "")) >> handle_pipe_in_table "*" false)
      (upd (append_consumed next))
      context
  else Ok (append_consumed next context).

Definition handleDoubleAsterisk : handler := fun context next =>
  let default := upd (append_consumed next) >> upd (set_state DataDoubleAsteriskData) in
  if (next =? "*")%char then Ok (set_state DataTripleAsterisk context)
  else if (next =? newline)%char then
    handle_unexpected_newline "**" (EOF_Reached context)
      (set_warning_msg (asterisk_warning "'**' ") context)
  else if (next =? "|")%char then
    if_top_is TableHeaderNames TableCellData
      (upd (set_warning_msg (asterisk_warning "'**' ")) >> handle_pipe_in_table "**" false)
      default context
  else default context.

Definition handleDataDoubleAsteriskData : handler := fun context next =>
  let default :=
    upd (fun c => if negb (counter c =? 0) then set_counter 0 c else c)
    >> upd (append_consumed next) in
  if (next =? "*")%char then
    let context1 := incr_counter context in
    if counter context1 =? 2 then
      (upd (set_counter 0)
       >> emit_token OpenToken Span >> add_attribute Bold
       >> emit_token ContentToken Content >> emit_token CloseToken Span
       >> upd state_top_n_pop) context1
    else Ok context1
  else if (next =? newline)%char then
    let context1 := set_warning_msg (asterisk_warning "") context in
    let context2 := set_consumed ("**" ++ consumed context1)%string context1 in
    let context3 := if counter context2 =? 1 then append_consumed "*" context2
                    else context2 in
    handle_unexpected_newline (consumed context3) (EOF_Reached context3) context3
  else if (next =? "|")%char then
    if_top_is TableCellData TableHeaderNames
      (upd (set_warning_msg (asterisk_warning "")) >> handle_pipe_in_table "**" false)
      default context
  else default context.

Definition handleDataTripleAsterisk : handler := fun context next =>
  let default := upd (append_consumed next) >> upd (set_state DataTripleAsteriskData) in
  if (next =? "*")%char then
    Ok (state_top_n_pop (set_consumed (consumed context ++ "****")%string context))
  else if (next =? newline)%char then
    handle_unexpected_newline "***" (EOF_Reached context)
      (set_warning_msg (asterisk_warning "'***' ") context)
  else if (next =? "|")%char then
    if_top_is TableHeaderNames TableCellData
      (upd (set_warning_msg (asterisk_warning "'***' ")) >> handle_pipe_in_table "***" false)
      default context
  else default context.

Definition handleDataTripleAsteriskData : handler := fun context next =>
  let default :=
    upd (fun c => if negb (counter c =? 0) then set_counter 0 c else c)
    >> upd (append_consumed next) in
  if (next =? "*")%char then
    let context1 := incr_counter context in
    if counter context1 =? 3 then
      (upd (set_counter 0)
       >> emit_token OpenToken Span >> add_attribute Bold >> add_attribute Italic
       >> emit_token ContentToken Content >> emit_token CloseToken Span
       >> upd state_top_n_pop) context1
    else Ok context1
  else if (next =? newline)%char then
    let context1 := set_warning_msg (asterisk_warning "") context in
    let context2 := set_consumed ("***" ++ consumed context1)%string context1 in
    let context3 := append_counter_times "*" context2 in
    handle_unexpected_newline (consumed context3) (EOF_Reached context3) context3
  else if (next =? "|")%char then
    if_top_is TableCellData TableHeaderNames
      (upd (set_warning_msg (asterisk_warning "")) >> handle_pipe_in_table "***" false)
      default context
  else default context.

Definition handleDataConsumingNumber : handler := fun context next =>
  if (next =? ".")%char then
    Ok (set_state DataOrdinalNumber (append_consumed "." context))
  else if (next =? newline)%char then
    handle_unexpected_newline (consumed context) (EOF_Reached context) context
  else Ok (state_top_n_pop (append_consumed next context)).

(** [if (blockquote_in_list) { Open Span; add BlockQuote }]. *)
Definition open_blockquote_in_list : action := fun c =>
  if blockquote_in_list c
  then (emit_token OpenToken Span >> add_attribute BlockQuote) c
  else Ok c.

Definition is_list (el : ElementType) : bool :=
  ElementType_eqb el List_Ordered || ElementType_eqb el List_Unordered.

(** The indentation arithmetic shared by the two list handlers, from
    [if (counter % INDENTATION != 0) --counter] to the loop over
    [curr_indent]. *)
Definition dedent : action := fun c =>
  let c1 := if negb (Z.rem (counter c) INDENTATION =? 0)
            then set_counter (short_of_int (counter c - 1)) c else c in
  let curr_indent := short_of_int (Z.quot (indent_level c1 - counter c1) INDENTATION) in
  let c2 := set_counter 0 (set_indent_level (counter c1) c1) in
  repeat_action (Z.to_nat (size_t_of_int curr_indent)) move_up_the_tree c2.

Definition indent (c : Context) : Context :=
  set_counter 0 (set_indent_level (counter c) c).

Definition handleDataOrdinalNumber : handler := fun context next =>
  if (next =? " ")%char then
    let context1 := set_consumed "" context in
    (el <- fetch_current_element context1 ;;
     if is_list el then
       if counter context1 >=? indent_level context1 + INDENTATION then
         (upd indent
          >> emit_token OpenToken List_Ordered >> emit_token OpenToken List_Element
          >> open_blockquote_in_list
          >> push OrderedListPrep >> upd (set_state Data)) context1
       else
         (dedent
          >> push OrderedListPrep >> emit_token OpenToken List_Element
          >> open_blockquote_in_list
          >> upd (set_state Data)) context1
     else
       (emit_token OpenToken List_Ordered >> emit_token OpenToken List_Element
        >> push OrderedListPrep >> upd (set_state Data)) context1)%result
  else if (next =? newline)%char then
    handle_unexpected_newline (consumed context) (EOF_Reached context) context
  else Ok (state_top_n_pop (append_consumed next context)).

Definition handleHorizontalLine : handler := fun context next =>
  if (next =? "-")%char then Ok (incr_counter context)
  else if (next =? newline)%char then
    if counter context >=? 3 then
      (emit_token OpenToken Horizontalline >> emit_token CloseToken Horizontalline
       >> upd state_top_n_pop >> upd (set_counter 0)) context
    else
      (upd (append_counter_times "-") >> upd (set_counter 0)
       >> emit_content_token >> upd state_top_n_pop) context
  else
    if ((next =? " ")%char || (next =? tab)%char) && (counter context =? 1) then
      (emit_token OpenToken List_Unordered >> emit_token OpenToken List_Element
       >> upd (set_state Data) >> push UnorderedListPrep
       >> upd setup_list_parsing) context
    else
      (upd (append_counter_times "-") >> upd (set_counter 0)
       >> upd (append_consumed next)
       >> emit_content_token >> upd state_top_n_pop) context.

Definition handleDataBacktick : handler := fun context next =>
  let default := upd (append_consumed next) >> upd (set_state CodeInline) in
  if (next =? "`")%char then
    if_top_is TableHeaderNames TableCellData
      (upd (set_consumed "``") >> emit_token ContentToken Content
       >> upd state_top_n_pop)
      (upd (set_state DataDoubleBacktick))
      context
  else if (next =? newline)%char then
    handle_unexpected_newline "`" (EOF_Reached context)
      (set_warning_msg backtick_warning context)
  else if (next =? "|")%char then
    if_top_is TableHeaderNames TableCellData
      (upd (set_warning_msg backtick_warning) >> handle_pipe_in_table "`" false)
      default context
  else default context.

Definition handleDataDoubleBacktick : handler := fun context next =>
  if (next =? "`")%char then Ok (set_state CodeBlock context)
  else if (next =? newline)%char then
    handle_unexpected_newline "``" (EOF_Reached context) context
  else
    (upd (set_consumed "``") >> emit_content_token >> upd state_top_n_pop) context.

Definition handleCodeInlineState : handler := fun context next =>
  if (next =? "`")%char then
    (emit_token OpenToken Codeblock >> add_attribute Inline
     >> emit_token ContentToken Content >> emit_token CloseToken Codeblock
     >> upd state_top_n_pop) context
  else if (next =? newline)%char then
    handle_unexpected_newline ("`" ++ consumed context)%string (EOF_Reached context)
      (set_warning_msg backtick_warning context)
  else if (next =? "|")%char then
    if_top_is TableHeaderNames TableCellData
      (upd (set_warning_msg backtick_warning) >> handle_pipe_in_table "`" false)
      (upd (append_consumed next))
      context
  else Ok (append_consumed next context).

Definition handleCodeBlock : handler := fun context next =>
  if (next =? "`")%char then
    let context1 := incr_counter context in
    if counter context1 =? 3 then
      (emit_token OpenToken Codeblock >> add_attribute Block
       >> emit_token ContentToken Content >> emit_token CloseToken Codeblock
       >> upd (set_counter 0) >> upd state_top_n_pop) context1
    else Ok context1
  else
    let context1 :=
      if negb (counter context =? 0)
      then set_counter 0 (append_counter_times "`" context)
      else context in
    Ok (append_consumed next context1).

(** The exit shared by the list-preparation handlers: close the open
    lists, go back to the return state, reset the list counters. *)
Definition leave_lists : action := fun c =>
  move_up_rounds (rounds_le (indent_level c)) c.

Definition is_list_marker (next : ascii) : bool :=
  (next =? "*")%char || (next =? "+")%char || (next =? ">")%char || (next =? "-")%char.

Definition list_marker : handler := fun context next =>
  if counter context >? indent_level context + INDENTATION then
    (leave_lists >> upd state_top_n_pop >> upd setup_list_parsing
     >> upd (set_consumed (str next))) context
  else
    let context1 := if (next =? ">")%char
                    then set_blockquote_in_list true context else context in
    Ok (set_state UnorderedList context1).

Definition handleUnorderedListPrep : handler := fun context next =>
  if (next =? newline)%char then
    (upd state_top_n_pop >> leave_lists >> upd setup_list_parsing) context
  else if (next =? " ")%char then Ok (incr_counter context)
  else if (next =? tab)%char then
    Ok (set_counter (short_of_int (counter context + INDENTATION)) context)
  else if is_list_marker next then list_marker context next
  else
    let context1 := append_consumed next context in
    if isdigit next then Ok (set_state DataConsumingNumber context1)
    else (leave_lists >> upd state_top_n_pop >> upd setup_list_parsing) context1.

Definition handleUnorderedList : handler := fun context next =>
  if (next =? tab)%char || (next =? " ")%char then
    if counter context >=? indent_level context + INDENTATION then
      (upd indent
       >> emit_token OpenToken List_Unordered >> emit_token OpenToken List_Element
       >> upd (set_state Data)
       >> open_blockquote_in_list
       >> push UnorderedListPrep) context
    else
      (dedent
       >> upd (set_state Data) >> emit_token OpenToken List_Element
       >> open_blockquote_in_list
       >> push UnorderedListPrep) context
  else
    ((fun c => move_up_rounds (rounds_lt (indent_level c)) c)
     >> upd (set_consumed (str (char_plus_char "-" next)))
     >> upd (set_counter 0)
     >> upd state_top_n_pop
     >> upd (set_indent_level 0)) context.

Definition handleOrderedListPrep : handler := fun context next =>
  if (next =? newline)%char then
    (upd state_top_n_pop >> leave_lists >> upd setup_list_parsing) context
  else if (next =? tab)%char then
    Ok (set_counter (short_of_int (counter context + INDENTATION)) context)
  else if (next =? " ")%char then Ok (incr_counter context)
  else if is_list_marker next then list_marker context next
  else
    if isdigit next
    then Ok (set_state DataConsumingNumber (append_consumed next context))
    else (leave_lists >> upd (append_consumed next) >> upd state_top_n_pop
          >> upd setup_list_parsing) context.

Definition handleImage : handler := fun context next =>
  if (next =? "[")%char then Ok (set_state AltOpenSquared context)
  else if (next =? newline)%char then
    handle_unexpected_newline "!" (EOF_Reached context) context
  else
    Ok (state_top_n_pop (set_consumed (str (char_plus_char "!" next)) context)).

(** [if (is_image) consumed = '!' + consumed]. *)
Definition prefix_bang_if_image (c : Context) : Context :=
  if is_image c then set_consumed ("!" ++ consumed c)%string c else c.

(** [if (!is_image && (top() == a || top() == b))]. *)
Definition if_link_in_table (then_ else_ : action) : action := fun c =>
  if negb (is_image c)
  then if_top_is TableHeaderNames TableCellData then_ else_ c
  else else_ c.

(** In the two handlers below the argument of [handle_pipe_in_table] is
    built from [std::move(context.alt)], which leaves [alt] empty. *)
Definition handleAltOpenSquared : handler := fun context next =>
  let default := upd (fun c => set_alt (push_back (alt c) next) c) in
  if (next =? "]")%char then Ok (set_state AltClosedSquared context)
  else if (next =? newline)%char then
    let context1 :=
      prefix_bang_if_image (set_consumed ("[" ++ alt context)%string context) in
    (handle_unexpected_newline (consumed context1) (EOF_Reached context1)
     >> upd (set_alt "")) context1
  else if (next =? "|")%char then
    (* no [break] after the call: control falls into [default] *)
    if_link_in_table
      ((fun c => handle_pipe_in_table ("[" ++ alt c)%string true (set_alt "" c))
       >> default)
      default context
  else default context.

Definition handleAltClosedSquared : handler := fun context next =>
  let default :=
    upd (fun c => set_consumed ("[" ++ alt c ++ "]" ++ str next)%string c)
    >> upd prefix_bang_if_image
    >> upd state_top_n_pop
    >> upd (set_alt "") in
  if (next =? "(")%char then Ok (set_state UrlOpenRound context)
  else if (next =? newline)%char then
    let context1 :=
      prefix_bang_if_image
        (set_consumed ("[" ++ alt context ++ "]" ++ consumed context)%string context) in
    (handle_unexpected_newline (consumed context1) (EOF_Reached context1)
     >> upd (set_alt "")) context1
  else if (next =? "|")%char then
    if_link_in_table
      (fun c => handle_pipe_in_table ("[" ++ alt c ++ "]")%string true (set_alt "" c))
      default context
  else default context.

Definition emit_image_or_hyperlink : action := fun c =>
  if is_image c then emit_image c else emit_hyperlink c.

Definition handleUrlOpenRound : handler := fun context next =>
  let default := upd (fun c => set_src (push_back (src c) next) c) in
  if (next =? ")")%char then
    (emit_image_or_hyperlink >> upd state_top_n_pop) context
  else if (next =? " ")%char then Ok (set_state TitleOpenRound context)
  else if (next =? newline)%char then
    let context1 :=
      prefix_bang_if_image
        (set_consumed ("[" ++ alt context ++ "](" ++ consumed context)%string context) in
    (handle_unexpected_newline (consumed context1) (EOF_Reached context1)
     >> upd (set_alt "") >> upd (set_src "")) context1
  else if (next =? "|")%char then
    if_link_in_table
      (fun c => handle_pipe_in_table ("[" ++ alt c ++ "[(")%string false c)
      default context
  else default context.

Definition handleTitleOpenRound : handler := fun context next =>
  let default :=
    upd (fun c => set_consumed ("[" ++ alt c ++ "](" ++ src c ++ " " ++ str next)%string c)
    >> upd prefix_bang_if_image
    >> upd (set_alt "") >> upd (set_src "")
    >> upd state_top_n_pop in
  if (next =? dquote)%char then Ok (set_state TitleConsuming context)
  else if (next =? newline)%char then
    let context1 :=
      prefix_bang_if_image
        (set_consumed ("[" ++ alt context ++ "](" ++ src context ++ " ")%string context) in
    (handle_unexpected_newline (consumed context1) (EOF_Reached context1)
     >> upd (set_alt "") >> upd (set_src "")) context1
  else if (next =? "|")%char then
    if_link_in_table
      (fun c => handle_pipe_in_table ("[" ++ alt c ++ "](" ++ src c ++ " ")%string true c)
      default context
  else default context.

Definition handleTitleConsuming : handler := fun context next =>
  let default := upd (append_consumed next) in
  if (next =? dquote)%char then Ok (set_state TitleClosedRound context)
  else if (next =? newline)%char then
    let context1 :=
      prefix_bang_if_image
        (set_consumed
           ("![" ++ alt context ++ "](" ++ src context ++ " " ++ str dquote
                 ++ consumed context)%string context) in
    (handle_unexpected_newline (consumed context1) (EOF_Reached context1)
     >> upd (set_alt "") >> upd (set_src "")) context1
  else if (next =? "|")%char then
    if_link_in_table
      (fun c => handle_pipe_in_table
                  ("[" ++ alt c ++ "](" ++ src c ++ str dquote)%string false c)
      default context
  else default context.

Definition handleTitleClosedRound : handler := fun context next =>
  let default :=
    upd (fun c => set_consumed
                    ("![" ++ alt c ++ "](" ++ src c ++ " " ++ str dquote
                          ++ consumed c ++ str next)%string c)
    >> upd (set_alt "") >> upd (set_src "")
    >> upd state_top_n_pop in
  if (next =? ")")%char then
    (emit_image_or_hyperlink >> upd state_top_n_pop) context
  else if (next =? newline)%char then
    let context1 :=
      prefix_bang_if_image
        (set_consumed
           ("[" ++ alt context ++ "](" ++ src context ++ " " ++ str dquote
                ++ consumed context ++ str dquote)%string context) in
    (handle_unexpected_newline (consumed context1) (EOF_Reached context1)
     >> upd (set_alt "") >> upd (set_src "")) context1
  else if (next =? "|")%char then
    if_link_in_table
      (fun c => handle_pipe_in_table
                  ("[" ++ alt c ++ "](" ++ src c ++ " " ++ str dquote
                       ++ consumed c ++ str dquote)%string false c)
      default context
  else default context.

(** The three inline openers shared by the header row and the body cells:
    flush the cell text, enter the inline state, remember the cell
    state. *)
Definition table_inline (inline_state cell_state : State) : action :=
  emit_token ContentToken Content >> upd (set_state inline_state) >> push cell_state.

Definition handleTableHeaderNames : handler := fun context next =>
  if (next =? newline)%char then
    if consumed_only_whitespace context then
      (emit_token CloseToken Table_Head >> emit_token CloseToken Table_Row
       >> upd (set_state TableHeaderSeparationPipeAwaiting)
       >> upd (set_counter 0)) context
    else
      (emit_token ContentToken Content >> handle_flag TableFailed
       >> upd state_top_n_pop) context
  else if (next =? "|")%char then
    (emit_token ContentToken Content >> emit_token CloseToken Table_Head
     >> emit_token OpenToken Table_Head) context
  else if (next =? "*")%char then table_inline DataAsterisk TableHeaderNames context
  else if (next =? "`")%char then table_inline DataBacktick TableHeaderNames context
  else if (next =? "[")%char then table_inline AltOpenSquared TableHeaderNames context
  else Ok (append_consumed next context).

Definition handleTableHeaderSeparationPipeAwaiting : handler := fun context next =>
  if (next =? newline)%char then
    (handle_flag TableFailed >> emit_content_token >> upd state_top_n_pop) context
  else if (next =? " ")%char || (next =? tab)%char then
    Ok (append_consumed next context)
  else if (next =? "|")%char then
    Ok (set_state TableHeaderSeparation
          (set_alt_counter 0 (set_counter 0 (append_consumed "|" context))))
  else
    (upd (append_consumed next) >> handle_flag TableFailed
     >> emit_content_token >> upd state_top_n_pop) context.

Definition handleTableHeaderSeparation : handler := fun context next =>
  if (next =? newline)%char then
    if Token_Emitter.get_col_dims (emitter context)
       =? size_t_of_int (alt_counter context)
    then
      (upd (set_alt_counter 0) >> upd (set_consumed "") >> upd (set_counter 0)
       >> upd (set_state TableCellPipeAwaiting)
       >> emit_token OpenToken Table_Row
       >> (fun c => if EOF_Reached c then handle_flag TableFailed c else Ok c)) context
    else
      (upd (set_alt_counter 0) >> upd (set_counter 0)
       >> emit_token ContentToken Content >> handle_flag TableFailed
       >> upd state_top_n_pop) context
  else if (next =? "|")%char then
    let context1 := append_consumed "|" (incr_alt_counter context) in
    if counter context1 <? 3 then
      (handle_flag TableFailed >> emit_content_token >> upd state_top_n_pop) context1
    else Ok (set_counter 0 context1)
  else if (next =? " ")%char || (next =? tab)%char then
    Ok (append_consumed next context)
  else if (next =? "-")%char then
    Ok (append_consumed "-" (incr_counter context))
  else
    (upd (append_consumed next) >> handle_flag TableFailed
     >> emit_content_token >> upd state_top_n_pop) context.

Definition handleTableCellPipeAwaiting : handler := fun context next =>
  if (next =? newline)%char then
    (handle_flag TableFailed >> upd state_top_n_pop) context
  else if (next =? " ")%char || (next =? tab)%char then Ok context
  else if (next =? "|")%char then
    (emit_token OpenToken Table_Cell >> upd (set_state TableCellData)) context
  else
    (handle_flag TableFailed >> upd state_top_n_pop
     >> upd (append_consumed next)) context.

Definition handleTableCellData : handler := fun context next =>
  if (next =? newline)%char then
    if negb (consumed_only_whitespace context) then
      (emit_token ContentToken Content >> handle_flag TableFailed
       >> upd state_top_n_pop) context
    else
      (emit_token CloseToken Table_Cell >> emit_token CloseToken Table_Row
       >> emit_token OpenToken Table_Row
       >> (fun c => if EOF_Reached c then handle_flag TableFailed c else Ok c)
       >> upd (set_state TableCellPipeAwaiting)
       >> upd (set_consumed "")) context
  else if (next =? "|")%char then
    (emit_token ContentToken Content >> emit_token CloseToken Table_Cell
     >> emit_token OpenToken Table_Cell) context
  else if (next =? "*")%char then table_inline DataAsterisk TableCellData context
  else if (next =? "`")%char then table_inline DataBacktick TableCellData context
  else if (next =? "[")%char then table_inline AltOpenSquared TableCellData context
  else Ok (append_consumed next context).

End handlers.

(** The vector linking each state to its handler, in the order of the
    [State] enum: the driver indexes it by the value of the state. *)
Definition state_handlers : list (State * handlers.handler) :=
  [ (Data, handlers.handleData);
    (DataHashtag, handlers.handleHashtag);
    (DataAsterisk, handlers.handleDataAsterisk);
    (DataAsteriskData, handlers.handleAsteriskData);
    (DataDoubleAsterisk, handlers.handleDoubleAsterisk);
    (DataDoubleAsteriskData, handlers.handleDataDoubleAsteriskData);
    (DataTripleAsterisk, handlers.handleDataTripleAsterisk);
    (DataTripleAsteriskData, handlers.handleDataTripleAsteriskData);
    (DataConsumingNumber, handlers.handleDataConsumingNumber);
    (DataOrdinalNumber, handlers.handleDataOrdinalNumber);
    (HorizontalLine, handlers.handleHorizontalLine);
    (DataBacktick, handlers.handleDataBacktick);
    (DataDoubleBacktick, handlers.handleDataDoubleBacktick);
    (CodeInline, handlers.handleCodeInlineState);
    (CodeBlock, handlers.handleCodeBlock);
    (UnorderedListPrep, handlers.handleUnorderedListPrep);
    (UnorderedList, handlers.handleUnorderedList);
    (OrderedListPrep, handlers.handleOrderedListPrep);
    (Image, handlers.handleImage);
    (AltOpenSquared, handlers.handleAltOpenSquared);
    (AltClosedSquared, handlers.handleAltClosedSquared);
    (UrlOpenRound, handlers.handleUrlOpenRound);
    (TitleOpenRound, handlers.handleTitleOpenRound);
    (TitleConsuming, handlers.handleTitleConsuming);
    (TitleClosedRound, handlers.handleTitleClosedRound);
    (TableHeaderNames, handlers.handleTableHeaderNames);
    (TableHeaderSeparationPipeAwaiting, handlers.handleTableHeaderSeparationPipeAwaiting);
    (TableHeaderSeparation, handlers.handleTableHeaderSeparation);
    (TableCellPipeAwaiting, handlers.handleTableCellPipeAwaiting);
    (TableCellData, handlers.handleTableCellData) ].

(** ** parsing/markdown_parser.hpp *)

Module Md_Parser.

(** The stream is the input of [parse_document]; the logger is the
    [logged] field of the context. *)
Record t : Type := mk {
  curr_line : Z;
  context : Context
}.

(** The context after its constructor and [reset_context]. *)
Definition reset_context : Context :=
  {| EOF_Reached := false; consumed := ""; counter := 0; alt_counter := 0;
     indent_level := 0; newline_counter := 0; src := ""; alt := "";
     blockquote_in_list := false; is_escaped := false; is_image := false;
     state := Data; warning_msg := "";
     emitter := Token_Emitter.init; return_stack := []; logged := [] |}.

Definition init : t := mk 1 reset_context.

(** Inside [Md_Parser] the name [EOF_Reached] is the last enumerator of
    [ElementType]; as the [bool] argument of [handle_unexpected_newline]
    it is [true]. *)
Definition EOF_Reached_argument : bool :=
  negb (ElementType_to_int ElementType_EOF_Reached =? 0).

Definition handle_escape_sequence (next : ascii) : action := fun context =>
  if is_escaped_char next then Ok (append_consumed next context)
  else if (next =? newline)%char then
    handle_unexpected_newline (str backslash) EOF_Reached_argument context
  else Ok (append_consumed (char_plus_char backslash next) context).

Definition escapes_in (s : State) : bool :=
  negb (State_eqb s CodeInline) && negb (State_eqb s CodeBlock)
  && negb (State_eqb s DataBacktick).

(** [logger->log_warning(warning_msg, curr_line); warning_msg.clear()]
    when there is a message. *)
Definition drain_warning (line : Z) (c : Context) : Context :=
  if negb (empty (warning_msg c))
  then set_warning_msg "" (add_log [log_warning (warning_msg c) line] c)
  else c.

(** One round of the [while (true)] loop.  [next_flag] is the result of
    [md_stream.get()], [None] standing for -1; the [bool] tells whether
    the round ends in [break]. *)
Definition round (next_flag : option ascii) (p : t) : result (t * bool) :=
  let next := match next_flag with Some ch => ch | None => newline end in
  let context0 := match next_flag with
                  | Some _ => context p
                  | None => set_EOF_Reached true (context p)
                  end in
  let line := if (next =? newline)%char
              then size_t_of_int (curr_line p + 1) else curr_line p in
  if is_escaped context0 then
    (context1 <- handle_escape_sequence next context0 ;;
     Ok (mk line (set_is_escaped false context1), false))%result
  else if (next =? backslash)%char && escapes_in (state context0) then
    Ok (mk line (set_is_escaped true context0), false)
  else
    match nth_error state_handlers (State_to_nat (state context0)) with
    | None => Err undefined_behaviour
    | Some (state_key, handler) =>
        if negb (State_eqb state_key (state context0))
        then Err (runtime_error "State error")
        else
          (context1 <- handler context0 next ;;
           let context2 := drain_warning line context1 in
           if EOF_Reached context2 then Ok (mk line context2, true)
           else
             let context3 :=
               if negb (newline_counter context2 =? 0) && negb (next =? newline)%char
               then set_newline_counter 0 context2 else context2 in
             Ok (mk line context3, false))%result
    end.

(** The rounds at the end of the stream: [get()] keeps answering -1.  A
    round that does not break there is the one that resolves a pending
    escape; the round after it dispatches to a handler and breaks
    ([eof_round_breaks] below). *)
Definition rounds_at_eof (p : t) : result t :=
  ('(p1, stop) <- round None p ;;
   if stop then Ok p1
   else
     '(p2, stop2) <- round None p1 ;;
     if stop2 then Ok p2 else Err undefined_behaviour)%result.

(** The rounds on the characters of the input, then those at the end of
    the stream.  A round on a character never breaks ([char_round_goes_on]
    below). *)
Fixpoint rounds (input : list ascii) (p : t) : result t :=
  match input with
  | [] => rounds_at_eof p
  | ch :: rest =>
      ('(p1, stop) <- round (Some ch) p ;;
       if stop then Ok p1 else rounds rest p1)%result
  end.

(** The parser when the loop of [parse_document] is left. *)
Definition parse (input : string) : result t :=
  rounds (list_ascii_of_string input) init.

(** [get_builder()->get_root()] after the loop. *)
Definition parse_document (input : string) : result Node :=
  (p <- parse input ;;
   match fst (TreeBuilder.get_root (Token_Emitter.builder (emitter (context p)))) with
   | Some root => Ok root
   | None => Err undefined_behaviour
   end)%result.

(** The builder's cursor when the loop is left. *)
Definition final_cursor (p : t) : option path :=
  TreeBuilder.current (Token_Emitter.builder (emitter (context p))).

End Md_Parser.

(** ** Trees written as in the specification *)

Definition Element (el : ElementType) (attrs : list Attribute) (kids : list Node) : Node :=
  mkNode el attrs kids PlainNode.
Definition Text (s : string) : Node := mkNode Content [] [] (ContentNode s).

(** * Notions used by the statements

    ** Pointers and the table manager *)

(** One step up from a pointer, [nullptr] staying [nullptr]. *)
Definition up (p : option path) : option path :=
  match p with
  | Some q => parent q
  | None => None
  end.

(** The Close tokens the table manager has a case for and does not answer
    by an exception. *)
Definition table_close_element (el : ElementType) : bool :=
  match el with
  | Table_Row | Table_Head | Table_Cell | Span | Codeblock | Hypertext => true
  | _ => false
  end.

(** The tenth claim read literally, for one manager and one Close token:
    two levels up for a Hyperlink, one level up for every other accepted
    Close token. *)
Definition close_ascends_as_claimed (tm : TableManager.t) (token : Token.t) : Prop :=
  forall tm',
    Token.type token = CloseToken ->
    table_close_element (Token.element token) = true ->
    TableManager.consume_token token tm = Ok tm' ->
    TableManager.current tm' =
      match Token.element token with
      | Hypertext => up (up (TableManager.current tm))
      | _ => up (TableManager.current tm)
      end.

(** A table stopped in a body row that already holds its two cells, the
    cursor on the row: the state in which the Close of the cell opened by a
    trailing [|] arrives. *)
Definition full_row_table : TableManager.t :=
  TableManager.mk
    (Some (Element Table [TableStyle]
             [Element Table_Row [TableRow]
                [Element Table_Head [TableHeader] [Text "A"];
                 Element Table_Head [TableHeader] [Text "B"]];
              Element Table_Row [TableRow]
                [Element Table_Cell [TableCell] [Text "1"];
                 Element Table_Cell [TableCell] [Text "2"]]]))
    (Some [1%nat]) 2.

(** A body row whose second cell holds a link, the cursor on the link: the
    state in which the Close token of the link arrives. *)
Definition link_cell_table : TableManager.t :=
  TableManager.mk
    (Some (Element Table [TableStyle]
             [Element Table_Row [TableRow]
                [Element Table_Head [TableHeader] [Text "A"];
                 Element Table_Head [TableHeader] [Text "B"]];
              Element Table_Row [TableRow]
                [Element Table_Cell [TableCell] [Text "1"];
                 Element Table_Cell [TableCell]
                   [mkNode Hypertext [] [] (HyperlinkNode "u" "l" "")]]]))
    (Some [1; 1; 0]%nat) 2.

(** ** End-to-end scenarios *)

(** The tree of the second claim. *)
Definition two_by_two_table : Node :=
  Element DOCSTART []
    [Element Table [TableStyle]
       [Element Table_Row [TableRow]
          [Element Table_Head [TableHeader] [Text "A"];
           Element Table_Head [TableHeader] [Text "B"]];
        Element Table_Row [TableRow]
          [Element Table_Cell [TableCell] [Text "1"];
           Element Table_Cell [TableCell] [Text "2"]]]].

(** ** Plain text *)

(** The characters of a text without Markdown sigils: ASCII, and outside
    the punctuation that the parser gives a meaning to (the escapable
    set). *)
Definition plain_char (c : ascii) : bool :=
  negb (is_escaped_char c) && (int_of_char c <? 128).

Definition plain_text (s : string) : bool :=
  forallb plain_char (list_ascii_of_string s).

Fixpoint remove_newlines (s : string) : string :=
  match s with
  | EmptyString => EmptyString
  | String c rest =>
      if (c =? newline)%char then remove_newlines rest
      else String c (remove_newlines rest)
  end.

Fixpoint trim_trailing_newlines (s : string) : string :=
  match s with
  | EmptyString => EmptyString
  | String c rest =>
      match trim_trailing_newlines rest with
      | EmptyString => if (c =? newline)%char then EmptyString else str c
      | rest' => String c rest'
      end
  end.

(** The lines of a text: the pieces between newlines. *)
Fixpoint split_lines (s : string) : list string :=
  match s with
  | EmptyString => [EmptyString]
  | String c rest =>
      if (c =? newline)%char then EmptyString :: split_lines rest
      else
        match split_lines rest with
        | l :: ls => String c l :: ls
        | [] => [str c]
        end
  end.

(** A line made of one decimal digit and nothing else. *)
Definition lone_digit (l : string) : bool :=
  match l with
  | String d EmptyString => isdigit d
  | _ => false
  end.

Definition no_lone_digit_line (s : string) : bool :=
  forallb (fun l => negb (lone_digit l)) (split_lines s).

(** [n] newlines and [n] hashes. *)
Fixpoint newlines (n : nat) : string :=
  match n with
  | O => ""
  | S n' => String newline (newlines n')
  end.

Fixpoint hashes (n : nat) : string :=
  match n with
  | O => ""
  | S n' => String "#" (hashes n')
  end.

(** *** The parser on plain text

    On plain text the parser stays in [Data] and [DataConsumingNumber],
    the tree is a sequence of closed Paragraphs followed by at most one
    open Paragraph, and the table manager is idle.  [Plain] holds what
    varies; [plain_parser] is the parser in that state. *)
Record Plain : Type := mkPlain {
  p_closed : list Node;           (* the children of DocStart that are closed *)
  p_open : option (list Node);    (* the children of the open Paragraph *)
  p_number : bool;                (* in DataConsumingNumber *)
  p_consumed : string;
  p_newlines : Z;
  p_counter : Z;
  p_logged : list LogEntry;
  p_line : Z
}.

(** The children of DocStart: the closed ones, then the open Paragraph. *)
Definition plain_children (closed : list Node) (open : option (list Node)) : list Node :=
  match open with
  | None => closed
  | Some kids => closed ++ [Element Paragraph [] kids]
  end.

Definition plain_builder (closed : list Node) (open : option (list Node)) : TreeBuilder.t :=
  TreeBuilder.mk
    (Some (Element DOCSTART [] (plain_children closed open)))
    (Some match open with
          | None => []
          | Some _ => [length closed]
          end).

Definition plain_emitter (closed : list Node) (open : option (list Node)) : Token_Emitter.t :=
  Token_Emitter.mk (plain_builder closed open) TableManager.init false.

Definition plain_context (eof : bool) (a : Plain) : Context :=
  {| EOF_Reached := eof; consumed := p_consumed a; counter := p_counter a;
     alt_counter := 0; indent_level := 0; newline_counter := p_newlines a;
     src := ""; alt := ""; blockquote_in_list := false; is_escaped := false;
     is_image := false;
     state := if p_number a then DataConsumingNumber else Data;
     warning_msg := "";
     emitter := plain_emitter (p_closed a) (p_open a);
     return_stack := if p_number a then [Data] else [];
     logged := p_logged a |}.

Definition plain_parser (eof : bool) (a : Plain) : Md_Parser.t :=
  Md_Parser.mk (p_line a) (plain_context eof a).

Definition plain_init : Plain := mkPlain [] None false "" 0 0 [] 1.

(** The children of the Paragraph that receives a leaf: the open one, or a
    new one. *)
Definition with_leaf (open : option (list Node)) (s : string) : option (list Node) :=
  Some (match open with Some kids => kids | None => [] end ++ [Text s]).

(** What one round of the driver does to a [Plain] state on a plain
    character (proved in [round_plain]). *)
Definition plain_step (a : Plain) (ch : ascii) : Plain :=
  if (ch =? newline)%char then
    let line := size_t_of_int (p_line a + 1) in
    if p_number a then
      mkPlain (p_closed a) (with_leaf (p_open a) (p_consumed a ++ p_consumed a))
              false "" (size_t_of_int (p_newlines a + 1)) 0 (p_logged a) line
    else
      let opened := if empty (p_consumed a) then p_open a
                    else with_leaf (p_open a) (p_consumed a) in
      match p_open a with
      | Some _ =>
          if p_newlines a =? 1 then
            mkPlain (plain_children (p_closed a) opened)
                    None false "" (size_t_of_int (p_newlines a + 1))
                    (p_counter a) (p_logged a) line
          else
            mkPlain (p_closed a) opened false "" (size_t_of_int (p_newlines a + 1))
                    (p_counter a) (p_logged a) line
      | None =>
          mkPlain (p_closed a) opened false "" (p_newlines a)
                  (p_counter a) (p_logged a) line
      end
  else
    mkPlain (p_closed a) (p_open a)
            (negb (p_number a) && empty (p_consumed a) && isdigit ch)
            (push_back (p_consumed a) ch) 0 (p_counter a) (p_logged a) (p_line a).

(** What the round at the end of the stream does (proved in
    [rounds_at_eof_plain]): in [DataConsumingNumber] the pending digit is
    emitted, doubled as on any newline there, and the Paragraph is closed;
    in [Data] the injected newline is an ordinary one. *)
Definition plain_eof_step (a : Plain) : Plain :=
  if p_number a then
    mkPlain (plain_children (p_closed a)
               (with_leaf (p_open a) (p_consumed a ++ p_consumed a)))
            None false "" 0 0 (p_logged a) (size_t_of_int (p_line a + 1))
  else plain_step a newline.

(** In [DataConsumingNumber] the buffer holds the digit. *)
Definition plain_wf (a : Plain) : Prop :=
  p_number a = true -> p_consumed a <> "".

Definition plain_run (input : list ascii) (a : Plain) : Plain :=
  fold_left plain_step input a.

(** *** The text and the cursor of a plain state *)

Definition plain_leaves (a : Plain) : list string :=
  flat_map content_leaves (plain_children (p_closed a) (p_open a)).

Definition newline_free (s : string) : bool :=
  forallb (fun c => negb (c =? newline)%char) (list_ascii_of_string s).

(** The state invariant behind the content theorem: the buffer is the
    current line so far, and the parser is in [DataConsumingNumber] exactly
    when that line is one digit. *)
Definition line_inv (a : Plain) : Prop :=
  newline_free (p_consumed a) = true
  /\ p_number a = lone_digit (p_consumed a).

(** The first claim read literally, for one input: the Content leaves, in
    order, spell the input without its trailing newlines. *)
Definition content_preserved (input : string) : Prop :=
  exists tree : Node,
    Md_Parser.parse_document input = Ok tree
    /\ content_text tree = trim_trailing_newlines input.

(** The fifth claim read literally, for one input: when the loop of
    [parse_document] is left the cursor is the root (the empty path). *)
Definition cursor_closed (input : string) : Prop :=
  exists p : Md_Parser.t,
    Md_Parser.parse input = Ok p /\ Md_Parser.final_cursor p = Some [].

(** Inside an open Paragraph the newline counter is 0 or 1, and it is 0
    while the buffer holds text. *)
Definition newline_inv (a : Plain) : Prop :=
  plain_wf a
  /\ (p_open a <> None -> p_newlines a = 0 \/ p_newlines a = 1)
  /\ (p_consumed a <> "" -> p_newlines a = 0).

(** The plain state reached after seven hashes and [n] more: the six
    counted hashes and the [n] later ones are in the buffer, the seventh is
    lost, [counter] is left at 6. *)
Definition after_hashes (n : nat) : Plain :=
  mkPlain [] None false (hashes (6 + n)) 0 6 [] 1.

(** ** The end of the stream *)

(** An action that leaves [EOF_Reached] as it finds it. *)
Definition keeps_eof (a : action) : Prop :=
  forall c c' : Context, a c = Ok c' -> EOF_Reached c' = EOF_Reached c.

(** A function on contexts that leaves [EOF_Reached] as it finds it. *)
Definition pure_keeps_eof (f : Context -> Context) : Prop :=
  forall c : Context, EOF_Reached (f c) = EOF_Reached c.

(** *** A header line *)

(** The header and the font size of level [k] (1 to 6). *)
Definition header_of (k : nat) : ElementType :=
  match k with
  | 1 => Header_1 | 2 => Header_2 | 3 => Header_3
  | 4 => Header_4 | 5 => Header_5 | _ => Header_6
  end%nat.

Definition fontsize_of (k : nat) : Attribute :=
  match k with
  | 1 => FontSize1 | 2 => FontSize2 | 3 => FontSize3
  | 4 => FontSize4 | 5 => FontSize5 | _ => FontSize6
  end%nat.

(** The emitter with the header of level [k] open as the only child of
    DocStart. *)
Definition header_emitter (k : nat) (kids : list Node) : Token_Emitter.t :=
  Token_Emitter.mk
    (TreeBuilder.mk
       (Some (Element DOCSTART [] [Element (header_of k) [Bold; fontsize_of k] kids]))
       (Some [0%nat]))
    TableManager.init false.

(** The parser inside the text of a header line of level [k]: the header
    is open and still empty, [Data] is twice on the return stack.  Of the
    [Plain] state only the buffer, the counters and the log are used. *)
Definition header_context (k : nat) (a : Plain) : Context :=
  {| EOF_Reached := false; consumed := p_consumed a; counter := p_counter a;
     alt_counter := 0; indent_level := 0; newline_counter := p_newlines a;
     src := ""; alt := ""; blockquote_in_list := false; is_escaped := false;
     is_image := false;
     state := if p_number a then DataConsumingNumber else Data;
     warning_msg := "";
     emitter := header_emitter k [];
     return_stack := if p_number a then [Data; Data; Data] else [Data; Data];
     logged := p_logged a |}.

Definition header_parser (k : nat) (a : Plain) : Md_Parser.t :=
  Md_Parser.mk (p_line a) (header_context k a).

(** The [Plain] state when the header has just been opened. *)
Definition header_start : Plain := mkPlain [] None false "" 0 0 [] 1.

(** * Further properties: definitions

    ** The tree builder *)

(** The builder's pointers are sound: the root is owned and [current]
    points to a node of the tree. *)
Definition builder_wf (b : TreeBuilder.t) : bool :=
  match TreeBuilder.root b, TreeBuilder.current b with
  | Some r, Some p =>
      match get_node r p with
      | Some _ => true
      | None => false
      end
  | _, _ => false
  end.

(** A sequence of tokens handed to the builder one after the other, the
    warnings left aside. *)
Fixpoint consume_tokens (tokens : list Token.t) (b : TreeBuilder.t)
  : result TreeBuilder.t :=
  match tokens with
  | [] => Ok b
  | token :: rest =>
      ('(b1, _) <- TreeBuilder.consume_token token b ;; consume_tokens rest b1)%result
  end.

(** The text a token carries into the tree: that of a Content token. *)
Definition token_text (token : Token.t) : list string :=
  match Token.type token with
  | ContentToken => [Token.content token]
  | _ => []
  end.

(** The path [p] runs down the last children of [n]: what is added below
    its end comes last in document order. *)
Fixpoint on_spine (n : Node) (p : path) : Prop :=
  match p with
  | [] => True
  | i :: p' =>
      exists c : Node,
        nth_error (children n) i = Some c
        /\ S i = length (children n)
        /\ on_spine c p'
  end.

(** The invariant of a builder fed from its initial state. *)
Definition builder_inv (b : TreeBuilder.t) (leaves : list string) : Prop :=
  exists r : Node,
    TreeBuilder.root b = Some r
    /\ content_leaves r = leaves
    /\ match TreeBuilder.current b with
       | Some p => on_spine r p
       | None => True
       end.

(** ** The table manager *)

(** The cell the table manager pads a short body row with: a [Table_Cell]
    that has no attribute. *)
Definition padding_cell : Node := mkNode Table_Cell [] [] PlainNode.

(** The Paragraph a failed row is turned into. *)
Definition row_as_paragraph (row : Node) : Node :=
  mkNode Paragraph (attributes row)
         (TableManager.row_paragraph_children (children row)) (data row).

(** What [emit_on_failure] appends to the builder's current node for a
    table whose rows are [rows ++ [last]]. *)
Definition failure_subtrees (troot : Node) (rows : list Node) (last : Node) : list Node :=
  (match rows with
   | [] => []
   | _ :: _ => [set_children rows troot]
   end
   ++
   match children last with
   | [] => []
   | _ :: _ => [row_as_paragraph last]
   end)%list.

(** [current->children] grows by [extra]. *)
Definition add_children (extra : list Node) (n : Node) : Node :=
  set_children (children n ++ extra) n.

(** ** The driver, one round in two steps *)

(** The line counter after a round on [ch]. *)
Definition next_line (ch : ascii) (line : Z) : Z :=
  if (ch =? newline)%char then size_t_of_int (line + 1) else line.

(** The lookup in [state_handlers] and the call of the handler. *)
Definition dispatch (c : Context) (ch : ascii) : result Context :=
  match nth_error state_handlers (State_to_nat (state c)) with
  | None => Err undefined_behaviour
  | Some (state_key, handler) =>
      if negb (State_eqb state_key (state c))
      then Err (runtime_error "State error")
      else handler c ch
  end.

(** What the loop does after the handler on a character of the input: the
    warning is logged, and the newline counter is reset by a character that
    is no newline. *)
Definition after_handler (ch : ascii) (line : Z) (c1 : Context) : Context :=
  let c2 := Md_Parser.drain_warning line c1 in
  if negb (newline_counter c2 =? 0) && negb (ch =? newline)%char
  then set_newline_counter 0 c2 else c2.

(** ** Code *)

(** The parser inside a code block opened at the start of the document,
    [x] being the text read so far. *)
Definition code_block_context (x : string) : Context :=
  {| EOF_Reached := false; consumed := x; counter := 0; alt_counter := 0;
     indent_level := 0; newline_counter := 0; src := ""; alt := "";
     blockquote_in_list := false; is_escaped := false; is_image := false;
     state := CodeBlock; warning_msg := "";
     emitter := Token_Emitter.init; return_stack := [Data]; logged := [] |}.

(** No character of [s] is [ch]. *)
Definition free_of (ch : ascii) (s : string) : bool :=
  forallb (fun c => negb (c =? ch)%char) (list_ascii_of_string s).

(** The line counter after the characters [l]. *)
Definition lines_after (l : list ascii) (line : Z) : Z :=
  fold_left (fun n ch => next_line ch n) l line.

(** The parser in the inline state [st] entered from [Data] at the start
    of the document, [x] being the text read so far. *)
Definition span_context (st : State) (x : string) : Context :=
  {| EOF_Reached := false; consumed := x; counter := 0; alt_counter := 0;
     indent_level := 0; newline_counter := 0; src := ""; alt := "";
     blockquote_in_list := false; is_escaped := false; is_image := false;
     state := st; warning_msg := "";
     emitter := Token_Emitter.init; return_stack := [Data]; logged := [] |}.

(** Text of an inline code span: not empty, no backtick, no newline. *)
Definition code_text (x : string) : bool :=
  negb (empty x) && free_of "`" x && free_of newline x.

(** A character of emphasised text: no asterisk, no newline, no
    backslash. *)
Definition emphasis_char (c : ascii) : bool :=
  negb (c =? "*")%char && negb (c =? newline)%char && negb (c =? backslash)%char.

Definition emphasis_text (x : string) : bool :=
  negb (empty x) && forallb emphasis_char (list_ascii_of_string x).

(** [n] times the character [c]. *)
Fixpoint replicate (n : nat) (c : ascii) : string :=
  match n with
  | O => ""
  | S n' => String c (replicate n' c)
  end.

(** The parser counting the dashes of a line that began with a dash. *)
Definition dashes_context (cnt : Z) : Context :=
  {| EOF_Reached := false; consumed := ""; counter := cnt; alt_counter := 0;
     indent_level := 0; newline_counter := 0; src := ""; alt := "";
     blockquote_in_list := false; is_escaped := false; is_image := false;
     state := HorizontalLine; warning_msg := "";
     emitter := Token_Emitter.init; return_stack := [Data]; logged := [] |}.

(** The states that collect the text of a span. *)
Definition emphasis_data (st : State) : bool :=
  State_eqb st DataAsteriskData || State_eqb st DataDoubleAsteriskData
  || State_eqb st DataTripleAsteriskData.

(** ** Links and images *)

(** The parser inside a link or an image opened at the start of the
    document: [a] is the text between the square brackets, [u] the address
    and [t] the title read so far. *)
Definition link_context (st : State) (img : bool) (a u t : string) : Context :=
  {| EOF_Reached := false; consumed := t; counter := 0; alt_counter := 0;
     indent_level := 0; newline_counter := 0; src := u; alt := a;
     blockquote_in_list := false; is_escaped := false; is_image := img;
     state := st; warning_msg := "";
     emitter := Token_Emitter.init; return_stack := [Data]; logged := [] |}.

(** The characters the three parts of a link may hold for what follows. *)
Definition alt_char (c : ascii) : bool :=
  negb (c =? "]")%char && negb (c =? newline)%char && negb (c =? backslash)%char.
Definition url_char (c : ascii) : bool :=
  negb (c =? ")")%char && negb (c =? " ")%char && negb (c =? newline)%char
  && negb (c =? backslash)%char.
Definition title_char (c : ascii) : bool :=
  negb (c =? dquote)%char && negb (c =? newline)%char && negb (c =? backslash)%char.

Definition all_chars (f : ascii -> bool) (s : string) : bool :=
  forallb f (list_ascii_of_string s).

(** The node of a link or of an image. *)
Definition link_node (img : bool) (u a t : string) : Node :=
  if img then mkNode ImageType [] [] (ImageNode u a t)
  else mkNode Hypertext [] [] (HyperlinkNode u a t).

(** The source text of a link or of an image, without and with a title. *)
Definition link_source (img : bool) (a u : string) : string :=
  (if img then "!" else "") ++ "[" ++ a ++ "](" ++ u ++ ")".
Definition titled_link_source (img : bool) (a u t : string) : string :=
  (if img then "!" else "") ++ "[" ++ a ++ "](" ++ u ++ " " ++ str dquote ++ t
    ++ str dquote ++ ")".

(** ** What the parser leaves behind *)

(** The tree and the log when the loop of [parse_document] is left. *)
Definition final_root (p : Md_Parser.t) : option Node :=
  TreeBuilder.root (Token_Emitter.builder (emitter (Md_Parser.context p))).
Definition final_log (p : Md_Parser.t) : list LogEntry :=
  logged (Md_Parser.context p).

(** ** A header row without cells *)

(** The parser at the start of the document with blanks [w] read. *)
Definition blanks_context (w : string) : Context :=
  {| EOF_Reached := false; consumed := w; counter := 0; alt_counter := 0;
     indent_level := 0; newline_counter := 0; src := ""; alt := "";
     blockquote_in_list := false; is_escaped := false; is_image := false;
     state := Data; warning_msg := "";
     emitter := Token_Emitter.init; return_stack := []; logged := [] |}.

(** The emitter after the pipe that opens a table at the start of the
    document: the manager holds the table, its first row and the first
    header cell, the cursor on the cell. *)
Definition first_head_emitter : Token_Emitter.t :=
  Token_Emitter.mk TreeBuilder.init
    (TableManager.mk
       (Some (Element Table [TableStyle]
                [Element Table_Row [TableRow] [Element Table_Head [TableHeader] []]]))
       (Some [0; 0]%nat) 0)
    true.

(** The parser in the first header cell with blanks [w] read. *)
Definition first_head_context (w : string) : Context :=
  {| EOF_Reached := false; consumed := w; counter := 0; alt_counter := 0;
     indent_level := 0; newline_counter := 0; src := ""; alt := "";
     blockquote_in_list := false; is_escaped := false; is_image := false;
     state := TableHeaderNames; warning_msg := "";
     emitter := first_head_emitter; return_stack := [Data]; logged := [] |}.

Definition empty_header : Error := runtime_error "Table header should not be empty".

(** ** Lists *)

(** The emitter inside a list of kind [kind] (List_Unordered or
    List_Ordered) that is the only child of DocStart: [done] are the items
    closed so far, [open] the children of the item that is open, if one
    is. *)
Definition list_emitter (kind : ElementType) (done : list Node)
           (open : option (list Node)) : Token_Emitter.t :=
  Token_Emitter.mk
    (TreeBuilder.mk
       (Some (Element DOCSTART []
                [Element kind []
                   (done ++ match open with
                            | Some kids => [Element List_Element [] kids]
                            | None => []
                            end)]))
       (Some match open with
             | Some _ => [0%nat; length done]
             | None => [0%nat]
             end))
    TableManager.init false.

(** The parser inside an item, [x] being the text read so far; [prep] is
    the state the parser goes back to at the end of the item. *)
Definition item_context (kind : ElementType) (prep : State) (done : list Node)
           (x : string) : Context :=
  {| EOF_Reached := false; consumed := x; counter := 0; alt_counter := 0;
     indent_level := 0; newline_counter := 0; src := ""; alt := "";
     blockquote_in_list := false; is_escaped := false; is_image := false;
     state := Data; warning_msg := "";
     emitter := list_emitter kind done (Some []);
     return_stack := [prep; Data]; logged := [] |}.

(** The parser in the state [st] between two items or on the marker of
    the next one. *)
Definition between_items (kind : ElementType) (st : State) (done : list Node)
           (x : string) : Context :=
  {| EOF_Reached := false; consumed := x; counter := 0; alt_counter := 0;
     indent_level := 0; newline_counter := 0; src := ""; alt := "";
     blockquote_in_list := false; is_escaped := false; is_image := false;
     state := st; warning_msg := "";
     emitter := list_emitter kind done None;
     return_stack := [Data]; logged := [] |}.

(** The text of an item, for what follows: plain characters, no newline,
    and the first character no digit. *)
Definition item_text (x : string) : bool :=
  match x with
  | EmptyString => false
  | String c0 _ => negb (isdigit c0)
  end
  && plain_text x && newline_free x.

(** An item of the tree. *)
Definition item_node (x : string) : Node := Element List_Element [] [Text x].

(** The source of an unordered list. *)
Definition unordered_source (items : list string) : string :=
  concat_all (map (fun x => ("- " ++ x ++ nl)%string) items).

(** The source of an ordered list, each item with the digit before its
    dot. *)
Definition ordered_source (items : list (ascii * string)) : string :=
  concat_all (map (fun it => (str (fst it) ++ ". " ++ snd it ++ nl)%string) items).

(** ** Block quotes *)

(** The emitter with the closed children [done] under DocStart and, if
    one is open, a block quote with the children [open] after them. *)
Definition quote_emitter (done : list Node) (open : option (list Node)) : Token_Emitter.t :=
  Token_Emitter.mk
    (TreeBuilder.mk
       (Some (Element DOCSTART []
                (done ++ match open with
                         | Some kids => [Element Span [BlockQuote] kids]
                         | None => []
                         end)))
       (Some match open with
             | Some _ => [length done]
             | None => []
             end))
    TableManager.init false.

(** The parser at the start of a line, the quotes [done] behind it, ... *)
Definition quote_between (done : list Node) : Context :=
  {| EOF_Reached := false; consumed := ""; counter := 0; alt_counter := 0;
     indent_level := 0; newline_counter := 0; src := ""; alt := "";
     blockquote_in_list := false; is_escaped := false; is_image := false;
     state := Data; warning_msg := "";
     emitter := quote_emitter done None;
     return_stack := []; logged := [] |}.

(** ... and inside a quote, [x] being the text read so far. *)
Definition quote_context (done : list Node) (x : string) : Context :=
  {| EOF_Reached := false; consumed := x; counter := 0; alt_counter := 0;
     indent_level := 0; newline_counter := 0; src := ""; alt := "";
     blockquote_in_list := false; is_escaped := false; is_image := false;
     state := Data; warning_msg := "";
     emitter := quote_emitter done (Some []);
     return_stack := [Data]; logged := [] |}.

Definition quote_node (x : string) : Node := Element Span [BlockQuote] [Text x].

(** The source of quoted lines. *)
Definition quote_source (lines : list string) : string :=
  concat_all (map (fun x => (">" ++ x ++ nl)%string) lines).

(** ** Tables *)

(** The characters of a cell for what follows: no newline, no pipe, none
    of the three that open an inline element inside a cell, no
    backslash. *)
Definition table_char (c : ascii) : bool :=
  negb (c =? newline)%char && negb (c =? "|")%char && negb (c =? "*")%char
  && negb (c =? "`")%char && negb (c =? "[")%char && negb (c =? backslash)%char.

Definition head_node (x : string) : Node := Element Table_Head [TableHeader] [Text x].
Definition cell_node (x : string) : Node := Element Table_Cell [TableCell] [Text x].
Definition row_node (cells : list Node) : Node := Element Table_Row [TableRow] cells.

(** Where the cursor of the table manager is: on the table, on the row
    that is open (the last one), or on the cell that is open in it (the
    last one). *)
Inductive table_cursor : Type :=
| on_table
| on_row (cells : list Node)
| on_cell (cells : list Node) (cell : Node).

(** The table manager with the closed rows [rows] and the cursor [cur]. *)
Definition table_manager_at (rows : list Node) (cur : table_cursor) (dims : Z)
  : TableManager.t :=
  TableManager.mk
    (Some (Element Table [TableStyle]
             (rows ++ match cur with
                      | on_table => []
                      | on_row cells => [row_node cells]
                      | on_cell cells cell => [row_node (cells ++ [cell])]
                      end)))
    (Some match cur with
          | on_table => []
          | on_row _ => [length rows]
          | on_cell cells _ => [length rows; length cells]
          end)
    dims.

(** The emitter while the table at the start of the document is read. *)
Definition table_emitter (rows : list Node) (cur : table_cursor) (dims : Z)
  : Token_Emitter.t :=
  Token_Emitter.mk TreeBuilder.init (table_manager_at rows cur dims) true.

(** The parser in the state [st] of a table, with the text [x] and the
    two counters. *)
Definition table_context (st : State) (x : string) (cnt altc : Z) (rows : list Node)
           (cur : table_cursor) (dims : Z) : Context :=
  {| EOF_Reached := false; consumed := x; counter := cnt; alt_counter := altc;
     indent_level := 0; newline_counter := 0; src := ""; alt := "";
     blockquote_in_list := false; is_escaped := false; is_image := false;
     state := st; warning_msg := "";
     emitter := table_emitter rows cur dims;
     return_stack := [Data]; logged := [] |}.

(** The source of a row, a pipe and then every cell with a pipe after
    it; of the separator line for [n] columns; of a table. *)
Definition row_source (cells : list string) : string :=
  ("|" ++ concat_all (map (fun x => x ++ "|") cells) ++ nl)%string.

Definition separator_source (n : nat) : string :=
  ("|" ++ concat_all (repeat "---|" n) ++ nl)%string.

Definition table_source (heads : list string) (rows : list (list string)) : string :=
  (row_source heads ++ separator_source (length heads)
   ++ concat_all (map row_source rows))%string.

(** A body row of the tree for the cells [r] of the source, in a table
    of [n] columns: the cells beyond the [n]th are dropped; a row that is
    too short has one more cell with the attribute TableCell, the one
    opened by its last pipe, and is then filled up with cells without an
    attribute. *)
Definition body_row (n : nat) (r : list string) : Node :=
  row_node
    (if (n <=? length r)%nat
     then map cell_node (firstn n r)
     else map cell_node r ++ Element Table_Cell [TableCell] []
          :: repeat (Element Table_Cell [] []) (n - length r - 1))%list.

Definition table_node (heads : list string) (rows : list (list string)) : Node :=
  Element Table [TableStyle]
    (row_node (map head_node heads) :: map (body_row (length heads)) rows).

(** The cell that an Open token makes, before it has text. *)
Definition empty_head : Node := Element Table_Head [TableHeader] [].
Definition empty_cell : Node := Element Table_Cell [TableCell] [].

(** The cursor in a body row of a table of [n] columns after the cells
    [read]: on a new cell while the row is not full, else on the row. *)
Definition row_cursor (n : nat) (read : list string) : table_cursor :=
  if (length read <? n)%nat
  then on_cell (map cell_node read) empty_cell
  else on_row (map cell_node (firstn n read)).

(** ** Links and inline code that are not closed *)

(** The source text of a link or an image up to the end of the text in
    brackets, and up to the opening parenthesis. *)
Definition link_open (img : bool) (a : string) : string :=
  (if img then "!" else "") ++ "[" ++ a.
Definition link_address_open (img : bool) (a : string) : string :=
  (if img then "!" else "") ++ "[" ++ a ++ "](".

(** The document of one Paragraph with one Content leaf. *)
Definition one_paragraph (text : string) : Node :=
  Element DOCSTART [] [Element Paragraph [] [Text text]].

(** ** A sigil and the character after it *)

(** The parser in [Data] on the first line of the document, nothing
    emitted yet, with the text [x], the counter [cnt] and the image flag
    [img]. *)
Definition data_context (img : bool) (cnt : Z) (x : string) : Context :=
  {| EOF_Reached := false; consumed := x; counter := cnt; alt_counter := 0;
     indent_level := 0; newline_counter := 0; src := ""; alt := "";
     blockquote_in_list := false; is_escaped := false; is_image := img;
     state := Data; warning_msg := "";
     emitter := Token_Emitter.init; return_stack := []; logged := [] |}.

(** The rest of a line: plain characters, no newline. *)
Definition plain_rest (y : string) : bool := plain_text y && newline_free y.

(** A character that is none of [others], no newline and no backslash. *)
Definition other_than (others : list ascii) (ch : ascii) : bool :=
  negb (existsb (Ascii.eqb ch) others) && negb (ch =? newline)%char
  && negb (ch =? backslash)%char.

(** The parser after [cnt] hashes at the start of the document. *)
Definition hash_context (cnt : Z) : Context :=
  {| EOF_Reached := false; consumed := ""; counter := cnt; alt_counter := 0;
     indent_level := 0; newline_counter := 0; src := ""; alt := "";
     blockquote_in_list := false; is_escaped := false; is_image := false;
     state := DataHashtag; warning_msg := "";
     emitter := Token_Emitter.init; return_stack := [Data]; logged := [] |}.

(** ** token.hpp, node.hpp: the names of the elements and of the attributes *)

(** [element_to_html_name.find]: the map has an entry for every element
    but EOF_Reached.  No token that the parser emits has that element, so
    none of the [element_to_html_name[...]] of the emitter and of the tree
    builder adds an entry: the map is the same in the whole run. *)
Definition element_to_html_name (e : ElementType) : option string :=
  match e with
  | DOCSTART => Some "!DOCTYPE html"
  | Content => Some "content"
  | Header_1 => Some "h1"
  | Header_2 => Some "h2"
  | Header_3 => Some "h3"
  | Header_4 => Some "h4"
  | Header_5 => Some "h5"
  | Header_6 => Some "h6"
  | Paragraph => Some "p"
  | Codeblock => Some "code"
  | Horizontalline => Some "hr"
  | ImageType => Some "img"
  | Hypertext => Some "a"
  | Span => Some "span"
  | List_Ordered => Some "ol"
  | List_Unordered => Some "ul"
  | List_Element => Some "li"
  | Table => Some "table"
  | Table_Head => Some "th"
  | Table_Row => Some "tr"
  | Table_Cell => Some "td"
  | ElementType_EOF_Reached => None
  end.

(** The vector [attr_enum_to_name], indexed by the enumerator; it has one
    name for each of the sixteen. *)
Definition attr_enum_to_name : list string :=
  ["Bold"; "Italic"; "FontSize1"; "FontSize2"; "FontSize3"; "FontSize4";
   "FontSize5"; "FontSize6"; "Inline"; "Block"; "BlockQuote"; "TableStyle";
   "TableHeader"; "TableRow"; "TableCell"; "ImageAttr"].

Definition attr_name (a : Attribute) : string :=
  nth (Z.to_nat (Attribute_to_int a)) attr_enum_to_name "".

Definition Attribute_eqb (a b : Attribute) : bool :=
  Attribute_to_int a =? Attribute_to_int b.

(** ** building/css_constructor.hpp *)

(** A stream is the text written to it so far; [std::endl] is a newline. *)
Module CSS_Constructor.

Record t : Type := mk {
  used_attributes : list Attribute;
  styles_stream : string
}.

Definition init (stream : string) : t := mk [] stream.

(** [attr_to_css.find]. *)
Definition attr_to_css (attr : Attribute) : option string :=
  match attr with
  | Bold => Some "font-weight: bold;"
  | Italic => Some "font-style: italic;"
  | FontSize1 => Some "font-size: 32px;"
  | FontSize2 => Some "font-size: 24px;"
  | FontSize3 => Some "font-size: 20.8px;"
  | FontSize4 => Some "font-size: 16px;"
  | FontSize5 => Some "font-size: 12.8px;"
  | FontSize6 => Some "font-size: 11.2px;"
  | Inline => Some "display: inline;"
  | Block => Some "display: block;"
  | BlockQuote =>
      Some ("padding-left: 1em;" ++ nl ++ "border-left: 2px solid purple;" ++ nl
            ++ "display: block;")
  | TableRow => Some "border-bottom: 1px solid #ddd;"
  | TableHeader => Some ("background-color: #ddd;" ++ nl ++ "padding: .4rem .8rem")
  | TableStyle => Some "border-collapse: collapse;"
  | TableCell => Some "padding: .4rem, .8rem"
  | ImageAttr => Some ("max-width: 100%;" ++ nl ++ "height: auto;")
  end%string.

Definition setup_css_class (attr : Attribute) (c : t) : result t :=
  let s := (styles_stream c ++ "." ++ attr_name attr ++ " {" ++ nl)%string in
  match attr_to_css attr with
  | None => Err (runtime_error "unknown attribute")
  | Some css =>
      Ok (mk (used_attributes c) (s ++ css ++ nl ++ "}" ++ nl)%string)
  end.

(** [used_attributes] is a [std::set]; only membership is ever asked of
    it, so the list keeps the attributes in the order they were added. *)
Definition add_css_attr_class (attr : Attribute) (c : t) : result t :=
  if existsb (Attribute_eqb attr) (used_attributes c)
  then Ok c
  else setup_css_class attr (mk (used_attributes c ++ [attr]) (styles_stream c)).

Definition create_default_styling (c : t) : t :=
  mk (used_attributes c)
     (styles_stream c ++ "body {" ++ nl ++ "margin: 2rem auto;" ++ nl
      ++ "width: 80%;" ++ nl ++ "}" ++ nl)%string.

End CSS_Constructor.

(** ** building/html_visitor.hpp *)

Module HTML_Visitor.

(** [css_builder] points to the constructor that the builder owns; while
    the visitor lives nobody else uses it, so its state is kept here and
    handed back at the end. *)
Record t : Type := mk {
  stream : string;
  css_builder : CSS_Constructor.t;
  prev_token_content : bool;
  prev_token_indent : Z;
  SPACE_INDENT : Z
}.

Definition init (stream : string) (css_builder : CSS_Constructor.t) (indent : Z) : t :=
  mk stream css_builder false 0 indent.

Definition write (s : string) (v : t) : t :=
  mk (stream v ++ s) (css_builder v) (prev_token_content v) (prev_token_indent v)
     (SPACE_INDENT v).

Definition set_prev_token_content (b : bool) (v : t) : t :=
  mk (stream v) (css_builder v) b (prev_token_indent v) (SPACE_INDENT v).

Definition set_prev_token_indent (i : Z) (v : t) : t :=
  mk (stream v) (css_builder v) (prev_token_content v) i (SPACE_INDENT v).

Definition set_css_builder (c : CSS_Constructor.t) (v : t) : t :=
  mk (stream v) c (prev_token_content v) (prev_token_indent v) (SPACE_INDENT v).

Fixpoint spaces (n : nat) : string :=
  match n with
  | O => ""
  | S n' => String " " (spaces n')
  end.

Definition fill_in_indenting (indent : Z) (v : t) : t :=
  write (spaces (Z.to_nat indent)) v.

(** The loop over the attributes of [visit(Node&)]: the names, a space
    between two of them, and a CSS class for each. *)
Fixpoint write_attributes (first : bool) (attrs : list Attribute) (v : t) : result t :=
  match attrs with
  | [] => Ok v
  | attr :: rest =>
      let v1 := if first then v else write " " v in
      let v2 := write (attr_name attr) v1 in
      (c <- CSS_Constructor.add_css_attr_class attr (css_builder v2) ;;
       write_attributes false rest (set_css_builder c v2))%result
  end.

(** [node.element == Codeblock && node.attributes[0] == Block]: the index
    is not checked, so a Codeblock without an attribute is read out of
    bounds. *)
Definition is_block_code (el : ElementType) (attrs : list Attribute) : result bool :=
  if ElementType_eqb el Codeblock
  then match attrs with
       | [] => Err undefined_behaviour
       | a :: _ => Ok (Attribute_eqb a Block)
       end
  else Ok false.

Definition visit_ContentNode (content : string) (indent : Z) (v : t) : t :=
  let v1 :=
    if negb (prev_token_content v) || negb (prev_token_indent v =? indent)
    then fill_in_indenting indent
           (write nl (set_prev_token_indent indent (set_prev_token_content true v)))
    else v in
  write content v1.

Definition visit_ImageNode (src alt title : string) (indent : Z) (v : t) : result t :=
  let v1 := fill_in_indenting indent (write nl (set_prev_token_content false v)) in
  let v2 :=
    write ("<img src=" ++ str dquote ++ src ++ str dquote
           ++ " alt=" ++ str dquote ++ alt ++ str dquote
           ++ " title=" ++ str dquote ++ title ++ str dquote
           ++ " class=" ++ str dquote ++ "ImageAttr" ++ str dquote ++ "/>") v1 in
  (c <- CSS_Constructor.add_css_attr_class ImageAttr (css_builder v2) ;;
   Ok (set_css_builder c v2))%result.

Definition visit_HyperlinkNode (href displayed title : string) (indent : Z) (v : t) : t :=
  let v1 := fill_in_indenting indent (write nl (set_prev_token_content false v)) in
  write ("<a href=" ++ str dquote ++ href ++ str dquote
         ++ " title=" ++ str dquote ++ title ++ str dquote ++ ">"
         ++ displayed ++ "</a>") v1.

(** The parts of [visit(Node&)] around the loop over the children: the
    opening tag up to its name, ... *)
Definition open_tag (name : string) (indent : Z) (v : t) : t :=
  write ("<" ++ name) (fill_in_indenting indent (write nl v)).

(** ... the class attribute, ... *)
Definition write_class (attrs : list Attribute) (v : t) : result t :=
  match attrs with
  | [] => Ok v
  | _ :: _ =>
      (v' <- write_attributes true attrs (write (" class= " ++ str dquote) v) ;;
       Ok (write (str dquote) v'))%result
  end.

(** ... the end of the opening tag, ... *)
Definition before_children (el : ElementType) (attrs : list Attribute) (v : t) : result t :=
  (v2 <- write_class attrs v ;;
   let v3 := write ">" v2 in
   pre <- is_block_code el attrs ;;
   Ok (if pre then write "<pre>" v3 else v3))%result.

(** ... and the closing tag. *)
Definition after_children (el : ElementType) (attrs : list Attribute) (name : string)
           (indent : Z) (v : t) : result t :=
  (let v1 := fill_in_indenting indent (write nl v) in
   post <- is_block_code el attrs ;;
   let v2 := if post then write "</pre>" v1 else v1 in
   Ok (write ("</" ++ name ++ ">") v2))%result.

(** [Node::accept] and the four [visit]s: the dynamic type of the node
    chooses the [visit]. *)
Fixpoint accept (n : Node) (indent : Z) (v : t) {struct n} : result t :=
  match n with
  | mkNode el attrs kids d =>
      match d with
      | ContentNode content => Ok (visit_ContentNode content indent v)
      | ImageNode src alt title => visit_ImageNode src alt title indent v
      | HyperlinkNode href displayed title =>
          Ok (visit_HyperlinkNode href displayed title indent v)
      | PlainNode =>
          let v0 := set_prev_token_content false v in
          match element_to_html_name el with
          | None => Err (runtime_error "unknown element")
          | Some name =>
              let v1 := open_tag name indent v0 in
              if ElementType_eqb el Horizontalline
              then Ok (write "/>" v1)
              else
               (v2 <- before_children el attrs v1 ;;
                v3 <- (fix accept_children (kids : list Node) (v : t) : result t :=
                         match kids with
                         | [] => Ok v
                         | child :: rest =>
                             v' <- accept child
                                     (size_t_of_int (indent + SPACE_INDENT v)) v ;;
                             accept_children rest v'
                         end) kids v2 ;;
                after_children el attrs name indent v3)%result
          end
      end
  end.

(** The loop over the children of [visit(Node&)], each visited one level
    deeper than [indent]. *)
Fixpoint accept_children (kids : list Node) (indent : Z) (v : t) : result t :=
  match kids with
  | [] => Ok v
  | child :: rest =>
      (v' <- accept child (size_t_of_int (indent + SPACE_INDENT v)) v ;;
       accept_children rest indent v')%result
  end.

(** The loop of [build_document] over the children of the root, all
    visited with the same indent. *)
Fixpoint accept_all (kids : list Node) (indent : Z) (v : t) : result t :=
  match kids with
  | [] => Ok v
  | child :: rest =>
      (v' <- accept child indent v ;;
       accept_all rest indent v')%result
  end.

End HTML_Visitor.

(** ** building/html_constructor.hpp *)

Definition ELEMENT_INDENTATION : Z := 4.

Module HTML_Builder.

(** The member [logger] is not set by the constructor, so the one use of
    it is a call through an indeterminate pointer.  [css_builder] is null
    until [set_css_builder]. *)
Record t : Type := mk {
  css_builder : option CSS_Constructor.t;
  prev_token_content : bool;
  prev_token_indent : Z
}.

Definition init : t := mk None false 0.

Definition set_css_builder (styles_stream : string) (b : t) : t :=
  mk (Some (CSS_Constructor.init styles_stream)) (prev_token_content b)
     (prev_token_indent b).

Definition setup_html_meta_tags (stream stylesheet_name : string) : string :=
  (stream ++ "<head>" ++ nl
   ++ HTML_Visitor.spaces 1 ++ "<meta charset=" ++ str dquote ++ "utf-8" ++ str dquote
   ++ ">" ++ nl
   ++ HTML_Visitor.spaces 1 ++ "<meta name=" ++ str dquote ++ "viewport" ++ str dquote
   ++ " content=" ++ str dquote ++ "width=device-width, initial-scale=1.0" ++ str dquote
   ++ ">" ++ nl
   ++ HTML_Visitor.spaces 1 ++ "<link rel=" ++ str dquote ++ "stylesheet" ++ str dquote
   ++ " href=" ++ str dquote ++ stylesheet_name ++ str dquote ++ ">" ++ nl
   ++ "</head>" ++ nl)%string.

(** The result is the text of the output stream and the builder, whose
    CSS constructor holds the text of the styles stream. *)
Definition build_document (output_stream stylesheet_name : string) (root : Node) (b : t)
  : result (string * t) :=
  if negb (ElementType_eqb (element root) DOCSTART)
  then Err undefined_behaviour
  else
    match css_builder b with
    | None => Err undefined_behaviour
    | Some css =>
        let css1 := CSS_Constructor.create_default_styling css in
        let out1 := (output_stream ++ "<" ++ "!DOCTYPE html" ++ ">" ++ nl)%string in
        let out2 := setup_html_meta_tags out1 stylesheet_name in
        let out3 := (out2 ++ "<body>" ++ nl)%string in
        (v <- HTML_Visitor.accept_all (children root) 0
                (HTML_Visitor.init out3 css1 ELEMENT_INDENTATION) ;;
         Ok ((HTML_Visitor.stream v ++ nl ++ nl ++ "</body>" ++ nl)%string,
             mk (Some (HTML_Visitor.css_builder v)) (prev_token_content b)
                (prev_token_indent b)))%result
    end.

End HTML_Builder.

(** ** main.cpp *)

(** The [try] block of [main] on the text of the input file, both output
    files new: the texts of the HTML file and of the CSS file. *)
Definition main_try (input styles_file : string) : result (string * string) :=
  (root <- Md_Parser.parse_document input ;;
   let html_builder := HTML_Builder.set_css_builder "" HTML_Builder.init in
   ' (html, b) <- HTML_Builder.build_document "" styles_file root html_builder ;;
   match HTML_Builder.css_builder b with
   | Some css => Ok (html, CSS_Constructor.styles_stream css)
   | None => Err undefined_behaviour
   end)%result.

(** *** What the HTML and the CSS are made of *)

(** The class that [setup_css_class] writes for an attribute. *)
Definition css_class (attr : Attribute) : string :=
  match CSS_Constructor.attr_to_css attr with
  | Some css => "." ++ attr_name attr ++ " {" ++ nl ++ css ++ nl ++ "}" ++ nl
  | None => ""
  end%string.

Definition css_text (used : list Attribute) : string := concat_all (map css_class used).

(** The rule for the body that every CSS file begins with. *)
Definition default_styling : string :=
  ("body {" ++ nl ++ "margin: 2rem auto;" ++ nl ++ "width: 80%;" ++ nl ++ "}" ++ nl)%string.

(** The attributes that the visitor writes for a tree, in the order of
    the visit: a Horizontalline returns before its attributes and its
    children, an image has the one class ImageAttr, a link and a Content
    leaf have none. *)
Fixpoint styled_attributes (n : Node) : list Attribute :=
  match n with
  | mkNode el attrs kids d =>
      match d with
      | PlainNode =>
          if ElementType_eqb el Horizontalline then []
          else attrs ++ flat_map styled_attributes kids
      | ImageNode _ _ _ => [ImageAttr]
      | ContentNode _ | HyperlinkNode _ _ _ => []
      end
  end%list.

Definition empty_attributes (attrs : list Attribute) : bool :=
  match attrs with
  | [] => true
  | _ :: _ => false
  end.

(** The trees that the visitor can write: every plain node has a name
    and every Codeblock an attribute; what is below a Horizontalline is
    never looked at. *)
Fixpoint visitable (n : Node) : bool :=
  match n with
  | mkNode el attrs kids d =>
      match d with
      | PlainNode =>
          match element_to_html_name el with
          | None => false
          | Some _ =>
              ElementType_eqb el Horizontalline
              || (negb (ElementType_eqb el Codeblock && empty_attributes attrs)
                  && forallb visitable kids)
          end
      | _ => true
      end
  end.

(** The page around the body that [build_document] writes. *)
Definition html_page (stylesheet_name body : string) : string :=
  (HTML_Builder.setup_html_meta_tags ("<!DOCTYPE html>" ++ nl) stylesheet_name
   ++ "<body>" ++ nl ++ body ++ nl ++ nl ++ "</body>" ++ nl)%string.

(** What the CSS constructor keeps while classes are added to the text
    [base]: no attribute twice, and after [base] one class for each, in the
    order they were added. *)
Definition css_inv (base : string) (c : CSS_Constructor.t) : Prop :=
  NoDup (CSS_Constructor.used_attributes c)
  /\ CSS_Constructor.styles_stream c =
       (base ++ css_text (CSS_Constructor.used_attributes c))%string.

(** From [c] to [c'] the attributes [l] were added. *)
Definition css_grows (c c' : CSS_Constructor.t) (l : list Attribute) : Prop :=
  (forall base : string, css_inv base c -> css_inv base c')
  /\ (forall a : Attribute,
         In a (CSS_Constructor.used_attributes c') <->
         In a (CSS_Constructor.used_attributes c) \/ In a l).

(** What [build_document] needs: a root that is DocStart, a CSS
    constructor, and children that the visitor can write. *)
Definition buildable (root : Node) (b : HTML_Builder.t) : bool :=
  ElementType_eqb (element root) DOCSTART
  && match HTML_Builder.css_builder b with
     | Some _ => true
     | None => false
     end
  && forallb visitable (children root).

(** The name of the header of level [k]. *)
Definition header_tag (k : nat) : string :=
  match element_to_html_name (header_of k) with
  | Some name => name
  | None => ""
  end.

(** The text the parser keeps for a heading whose text is [x]: a text of
    one lone digit is kept twice, [handleDataConsumingNumber] handing
    [std::move(context.consumed)] to [handle_unexpected_newline], which
    appends its argument to [consumed], that is to itself. *)
Definition heading_text (x : string) : string :=
  if lone_digit x then (x ++ x)%string else x.

(** The lines of the HTML for a header of level [k] around the text [x]. *)
Definition header_html (k : nat) (x : string) : string :=
  (nl ++ "<" ++ header_tag k ++ " class= " ++ str dquote ++ "Bold "
   ++ attr_name (fontsize_of k) ++ str dquote ++ ">" ++ nl
   ++ "    " ++ x ++ nl
   ++ "</" ++ header_tag k ++ ">")%string.

(** ** argument_parser.hpp *)

Inductive Arg_Types : Type :=
| InputFile
| OutputFile
| StylesFile
| Logging.

(** [print_tree] has no initialiser and nothing sets or reads it; it is
    left out. *)
Record Arguments : Type := mkArguments {
  input_file : string;
  output_file : string;
  styles_file : string;
  log_verbosity : Z
}.

(** What a call of [std::stoul] can do: return a number, or throw one of
    its two exceptions. *)
Inductive stoul_result : Type :=
| stoul_value (n : Z)
| stoul_invalid_argument
| stoul_out_of_range.

(** A call that returns, or one that an exception leaves which nothing
    catches: [set_parsed_arg] catches [std::invalid_argument] only, and
    neither [parse_arguments] nor [main] has a handler around it. *)
Inductive outcome (A : Type) : Type :=
| Returned (a : A)
| Uncaught_out_of_range.

Arguments Returned {A} a.
Arguments Uncaught_out_of_range {A}.

Module ArgumentParser.
Section WithStoul.

(** The library function, as the platform has it. *)
Variable stoul : string -> stoul_result.

Definition set_parsed_arg (parsed : Arguments) (val : string) (type : Arg_Types)
  : outcome Arguments :=
  match type with
  | InputFile =>
      Returned (mkArguments val (output_file parsed) (styles_file parsed)
                  (log_verbosity parsed))
  | OutputFile =>
      Returned (mkArguments (input_file parsed) val (styles_file parsed)
                  (log_verbosity parsed))
  | StylesFile =>
      Returned (mkArguments (input_file parsed) (output_file parsed) val
                  (log_verbosity parsed))
  | Logging =>
      match stoul val with
      | stoul_value n =>
          Returned (mkArguments (input_file parsed) (output_file parsed)
                      (styles_file parsed) n)
      | stoul_invalid_argument => Returned parsed
      | stoul_out_of_range => Uncaught_out_of_range
      end
  end.

(** The [switch] on the second character. *)
Definition arg_type (c : ascii) : option Arg_Types :=
  if (c =? "i")%char then Some InputFile
  else if (c =? "o")%char then Some OutputFile
  else if (c =? "s")%char then Some StylesFile
  else if (c =? "v")%char then Some Logging
  else None.

(** The loop over the arguments, from the state [arg_set], [last_type],
    [parsed]: [None] is the early [return std::nullopt], else the record
    when the arguments are used up. *)
Fixpoint parse_loop (args : list string) (arg_set : bool) (last_type : Arg_Types)
         (parsed : Arguments) : outcome (option Arguments) :=
  match args with
  | [] => Returned (Some parsed)
  | next_arg :: rest =>
      if arg_set
      then match set_parsed_arg parsed next_arg last_type with
           | Returned parsed' => parse_loop rest false last_type parsed'
           | Uncaught_out_of_range => Uncaught_out_of_range
           end
      else
        match next_arg with
        | EmptyString | String _ EmptyString => Returned None
        | String c0 (String c1 val) =>
            if negb (c0 =? "-")%char then Returned None
            else
              match arg_type c1 with
              | None => Returned None
              | Some type =>
                  match val with
                  | EmptyString => parse_loop rest true type parsed
                  | String _ _ =>
                      match set_parsed_arg parsed val type with
                      | Returned parsed' => parse_loop rest false type parsed'
                      | Uncaught_out_of_range => Uncaught_out_of_range
                      end
                  end
              end
        end
  end.

(** The two defaults at the end, with what they print. *)
Definition default_files (parsed : Arguments) : Arguments * string :=
  let '(parsed1, cout1) :=
    if empty (output_file parsed)
    then (mkArguments (input_file parsed) "output.html" (styles_file parsed)
            (log_verbosity parsed),
          ("Output file not specified. Defaulting to output.html" ++ nl)%string)
    else (parsed, "") in
  if empty (styles_file parsed1)
  then (mkArguments (input_file parsed1) (output_file parsed1) "styles.css"
          (log_verbosity parsed1),
        (cout1 ++ "Styles file not specified. Defaulting to styles.css" ++ nl)%string)
  else (parsed1, cout1).

(** The result and the text written to the standard output. *)
Definition parse_arguments (args : list string) : outcome (option Arguments * string) :=
  match parse_loop args false InputFile (mkArguments "" "" "" 0) with
  | Returned None => Returned (None, "")
  | Returned (Some parsed) =>
      let '(parsed', cout) := default_files parsed in
      Returned (Some parsed', cout)
  | Uncaught_out_of_range => Uncaught_out_of_range
  end.

End WithStoul.
End ArgumentParser.

(** The text of an option's flag. *)
Definition flag (type : Arg_Types) : string :=
  match type with
  | InputFile => "-i"
  | OutputFile => "-o"
  | StylesFile => "-s"
  | Logging => "-v"
  end.

(** An option as it is written on the command line: the flag and its
    value in one argument (the value not empty), or in two. *)
Inductive written_option : Type :=
| joined (type : Arg_Types) (c : ascii) (val : string)
| separate (type : Arg_Types) (val : string).

Definition option_args (o : written_option) : list string :=
  match o with
  | joined type c val => [(flag type ++ String c val)%string]
  | separate type val => [flag type; val]
  end.

Definition option_type (o : written_option) : Arg_Types :=
  match o with
  | joined type _ _ | separate type _ => type
  end.

Definition option_value (o : written_option) : string :=
  match o with
  | joined _ c val => String c val
  | separate _ val => val
  end.

(** The options applied one after the other to the record. *)
Fixpoint set_all (stoul : string -> stoul_result) (options : list written_option)
         (parsed : Arguments) : outcome Arguments :=
  match options with
  | [] => Returned parsed
  | o :: rest =>
      match ArgumentParser.set_parsed_arg stoul parsed (option_value o) (option_type o) with
      | Returned parsed' => set_all stoul rest parsed'
      | Uncaught_out_of_range => Uncaught_out_of_range
      end
  end.

(** * Properties

    ** The end of the stream *)

Lemma keeps_upd (f : Context -> Context) : pure_keeps_eof f -> keeps_eof (upd f).
Proof. intros Hf c c' H. injection H as <-. apply Hf. Qed.

Lemma keeps_skip : keeps_eof skip.
Proof. intros c c' H. injection H as <-. reflexivity. Qed.

Lemma keeps_seq (a b : action) : keeps_eof a -> keeps_eof b -> keeps_eof (a >> b).
Proof.
  intros Ha Hb c c' H. unfold seq, rbind in H.
  destruct (a c) as [ c1 | e ] eqn:E; [ | discriminate ].
  rewrite (Hb _ _ H). apply (Ha _ _ E).
Qed.

Lemma keeps_ite (P : Context -> bool) (a b : action) :
  keeps_eof a -> keeps_eof b -> keeps_eof (fun c => if P c then a c else b c).
Proof. intros Ha Hb c c' H. destruct (P c); [ apply (Ha _ _ H) | apply (Hb _ _ H) ]. Qed.

Lemma keeps_after (f : Context -> Context) (a : action) :
  pure_keeps_eof f -> keeps_eof a -> keeps_eof (fun c => a (f c)).
Proof. intros Hf Ha c c' H. rewrite (Ha _ _ H). apply Hf. Qed.

Lemma keeps_repeat (n : nat) (a : action) : keeps_eof a -> keeps_eof (repeat_action n a).
Proof.
  intros Ha. induction n as [ | n IH ]; cbn [repeat_action].
  - apply keeps_skip.
  - apply keeps_seq; assumption.
Qed.

Ltac pure_eof :=
  let c := fresh "c" in
  intros c; destruct c as [? ? ? ? ? ? ? ? ? ? ? ? ? ? ? ?];
  cbv [set_EOF_Reached set_consumed set_counter set_alt_counter set_indent_level
       set_newline_counter set_src set_alt set_blockquote_in_list set_is_escaped
       set_is_image set_state set_warning_msg set_emitter set_return_stack
       set_logged add_log append_consumed incr_counter incr_alt_counter
       incr_newline_counter append_counter_times state_top_n_pop top
       setup_list_parsing handlers.indent handlers.prefix_bang_if_image
       ReturnStateStack.top_n_pop ReturnStateStack.top];
  cbn [EOF_Reached consumed counter alt_counter indent_level newline_counter
       src alt blockquote_in_list is_escaped is_image state warning_msg emitter
       return_stack logged];
  repeat match goal with
         | |- context [match ?x with _ => _ end] => destruct x
         end;
  reflexivity.

Lemma pure_state_top_n_pop : pure_keeps_eof state_top_n_pop.
Proof. unfold pure_keeps_eof. pure_eof. Qed.

Lemma keeps_push (s : State) : keeps_eof (push s).
Proof.
  intros c c' H. unfold push, rbind in H.
  destruct (ReturnStateStack.push s (return_stack c)); [ | discriminate ].
  injection H as <-. reflexivity.
Qed.

Lemma keeps_emit_token (ty : TokenType) (el : ElementType) : keeps_eof (emit_token ty el).
Proof.
  intros c c' H. unfold emit_token, rbind in H.
  destruct (Token_Emitter.emit_token _ _) as [ [e w] | ]; [ | discriminate ].
  injection H as <-. destruct ty; reflexivity.
Qed.

Lemma keeps_add_attribute (a : Attribute) : keeps_eof (add_attribute a).
Proof.
  intros c c' H. unfold add_attribute, rbind in H.
  destruct (Token_Emitter.add_attribute _ _); [ | discriminate ].
  injection H as <-. reflexivity.
Qed.

Lemma keeps_handle_flag (f : ParseWarningFlags) : keeps_eof (handle_flag f).
Proof.
  intros c c' H. unfold handle_flag, rbind in H.
  destruct (Token_Emitter.handle_flag _ _); [ | discriminate ].
  injection H as <-. reflexivity.
Qed.

Lemma keeps_emit_content_token : keeps_eof emit_content_token.
Proof.
  intros c c' H. unfold emit_content_token, rbind in H.
  destruct (empty (consumed c)); [ injection H as <-; reflexivity | ].
  destruct (fetch_current_element c); [ | discriminate ].
  destruct (ElementType_eqb _ _).
  - revert H. apply keeps_seq; apply keeps_emit_token.
  - revert H. apply keeps_emit_token.
Qed.

Lemma keeps_if_top_is (a b : State) (x y : action) :
  keeps_eof x -> keeps_eof y -> keeps_eof (if_top_is a b x y).
Proof.
  intros Hx Hy c c' H. unfold if_top_is in H.
  assert (T : forall c0, EOF_Reached (snd (top c0)) = EOF_Reached c0).
  { intros c0. unfold top. destruct (ReturnStateStack.top (return_stack c0)). reflexivity. }
  destruct (top c) as [s1 c1] eqn:E1.
  assert (T1 := T c). rewrite E1 in T1. cbn in T1.
  destruct (State_eqb s1 a).
  - rewrite (Hx _ _ H). exact T1.
  - destruct (top c1) as [s2 c2] eqn:E2.
    assert (T2 := T c1). rewrite E2 in T2. cbn in T2.
    destruct (State_eqb s2 b); [ rewrite (Hx _ _ H) | rewrite (Hy _ _ H) ]; congruence.
Qed.

Lemma keeps_handle_pipe_in_table (s : string) (full : bool) :
  keeps_eof (handle_pipe_in_table s full).
Proof.
  intros c c' H. unfold handle_pipe_in_table in H.
  destruct (top c) as [s1 c1] eqn:E1.
  assert (T1 : EOF_Reached c1 = EOF_Reached c).
  { unfold top in E1. destruct (ReturnStateStack.top (return_stack c)).
    injection E1 as _ <-. reflexivity. }
  rewrite <- T1. revert H.
  repeat apply keeps_seq; try apply keeps_emit_token; apply keeps_upd;
    unfold pure_keeps_eof; pure_eof.
Qed.

Lemma keeps_handle_unexpected_newline (s : string) (eof : bool) :
  keeps_eof (handle_unexpected_newline s eof).
Proof.
  unfold handle_unexpected_newline.
  apply keeps_if_top_is.
  - repeat apply keeps_seq; try apply keeps_emit_token; try apply keeps_handle_flag;
      apply keeps_upd; unfold pure_keeps_eof; pure_eof.
  - repeat apply keeps_seq.
    + destruct (negb (empty s)); [ | apply keeps_skip ].
      apply keeps_seq; [ apply keeps_upd; unfold pure_keeps_eof; pure_eof
                       | apply keeps_emit_content_token ].
    + intros c c' H. unfold rbind in H.
      destruct (fetch_current_element c); [ | discriminate ].
      destruct (_ && _).
      * injection H as <-. reflexivity.
      * apply keeps_emit_token in H. rewrite H. reflexivity.
    + apply keeps_upd; unfold pure_keeps_eof; pure_eof.
    + apply keeps_upd; unfold pure_keeps_eof; pure_eof.
Qed.

Lemma keeps_move_up_the_tree : keeps_eof move_up_the_tree.
Proof.
  intros c c' H. unfold move_up_the_tree, rbind in H.
  destruct (fetch_current_element c); [ | discriminate ].
  apply (keeps_emit_token _ _ _ _ H).
Qed.

Lemma keeps_move_up_rounds (r : option nat) : keeps_eof (move_up_rounds r).
Proof.
  intros c c' H. unfold move_up_rounds in H. destruct r as [ n | ].
  - revert H. apply keeps_repeat, keeps_move_up_the_tree.
  - destruct (repeat_action _ _ _); discriminate.
Qed.

Lemma keeps_emit_image : keeps_eof emit_image.
Proof.
  intros c c' H. unfold emit_image, rbind in H.
  destruct (Token_Emitter.emit_token _ _) as [ [e w] | ]; [ | discriminate ].
  assert (K : keeps_eof (emit_token CloseToken ImageType >> upd (set_src "")
                        >> upd (set_alt "") >> upd (set_consumed ""))).
  { repeat apply keeps_seq; try apply keeps_emit_token;
      apply keeps_upd; unfold pure_keeps_eof; pure_eof. }
  rewrite (K _ _ H). reflexivity.
Qed.

Lemma keeps_emit_hyperlink : keeps_eof emit_hyperlink.
Proof.
  intros c c' H. unfold emit_hyperlink, rbind in H.
  destruct (Token_Emitter.emit_token _ _) as [ [e w] | ]; [ | discriminate ].
  assert (K : keeps_eof (emit_token CloseToken Hypertext >> upd (set_src "")
                        >> upd (set_alt "") >> upd (set_consumed ""))).
  { repeat apply keeps_seq; try apply keeps_emit_token;
      apply keeps_upd; unfold pure_keeps_eof; pure_eof. }
  rewrite (K _ _ H). reflexivity.
Qed.

Lemma keeps_emit_open_header : keeps_eof emit_open_header.
Proof.
  intros c c' H. unfold emit_open_header in H.
  destruct (enumOp_ElementType _ _); [ | discriminate ].
  apply (keeps_emit_token _ _ _ _ H).
Qed.

Lemma keeps_add_fontsize_attribute : keeps_eof add_fontsize_attribute.
Proof.
  intros c c' H. unfold add_fontsize_attribute in H.
  destruct (enumOp_Attribute _ _); [ | discriminate ].
  apply (keeps_add_attribute _ _ _ H).
Qed.

Lemma eof_state_top_n_pop (c : Context) :
  EOF_Reached (state_top_n_pop c) = EOF_Reached c.
Proof. apply pure_state_top_n_pop. Qed.

Lemma eof_prefix_bang_if_image (c : Context) :
  EOF_Reached (handlers.prefix_bang_if_image c) = EOF_Reached c.
Proof. unfold handlers.prefix_bang_if_image. destruct (is_image c); reflexivity. Qed.

Lemma eof_if (b : bool) (c1 c2 : Context) :
  EOF_Reached (if b then c1 else c2) = if b then EOF_Reached c1 else EOF_Reached c2.
Proof. destruct b; reflexivity. Qed.

Lemma if_same {A : Type} (b : bool) (x : A) : (if b then x else x) = x.
Proof. destruct b; reflexivity. Qed.

Ltac pure_eof_goal :=
  match goal with
  | |- EOF_Reached _ = EOF_Reached _ =>
      repeat (rewrite ?eof_state_top_n_pop, ?eof_prefix_bang_if_image, ?eof_if;
              cbn [EOF_Reached
                   set_consumed set_counter set_alt_counter set_indent_level
                   set_newline_counter set_src set_alt set_blockquote_in_list
                   set_is_escaped set_is_image set_state set_warning_msg set_emitter
                   set_return_stack set_logged add_log append_consumed incr_counter
                   incr_alt_counter incr_newline_counter append_counter_times
                   setup_list_parsing handlers.indent]);
      rewrite ?if_same;
      reflexivity
  end.

Ltac keeps_base :=
  repeat match goal with
  | |- keeps_eof (seq _ _) => apply keeps_seq
  | |- keeps_eof skip => apply keeps_skip
  | |- keeps_eof (push _) => apply keeps_push
  | |- keeps_eof (emit_token _ _) => apply keeps_emit_token
  | |- keeps_eof (add_attribute _) => apply keeps_add_attribute
  | |- keeps_eof (handle_flag _) => apply keeps_handle_flag
  | |- keeps_eof emit_content_token => apply keeps_emit_content_token
  | |- keeps_eof (handle_pipe_in_table _ _) => apply keeps_handle_pipe_in_table
  | |- keeps_eof (handle_unexpected_newline _ _) => apply keeps_handle_unexpected_newline
  | |- keeps_eof move_up_the_tree => apply keeps_move_up_the_tree
  | |- keeps_eof (move_up_rounds _) => apply keeps_move_up_rounds
  | |- keeps_eof emit_image => apply keeps_emit_image
  | |- keeps_eof emit_hyperlink => apply keeps_emit_hyperlink
  | |- keeps_eof emit_open_header => apply keeps_emit_open_header
  | |- keeps_eof add_fontsize_attribute => apply keeps_add_fontsize_attribute
  | |- keeps_eof (if_top_is _ _ _ _) => apply keeps_if_top_is
  | |- keeps_eof (repeat_action _ _) => apply keeps_repeat
  | |- keeps_eof (upd _) =>
      apply keeps_upd; let c := fresh "c" in intros c; pure_eof_goal
  | |- keeps_eof (fun c => if @?P c then @?a c else @?b c) =>
      apply (keeps_ite P a b); cbv beta
  | |- keeps_eof (fun c => Ok c) => apply keeps_skip
  | |- keeps_eof (fun c => ?a c) => change (keeps_eof a)
  end.

Lemma keeps_open_blockquote_in_list : keeps_eof handlers.open_blockquote_in_list.
Proof. unfold handlers.open_blockquote_in_list. keeps_base. Qed.

Lemma keeps_dedent : keeps_eof handlers.dedent.
Proof.
  intros c c' H. unfold handlers.dedent in H. cbv zeta in H.
  apply keeps_repeat in H; [ | apply keeps_move_up_the_tree ].
  rewrite H. destruct (negb _); reflexivity.
Qed.

Lemma keeps_leave_lists : keeps_eof handlers.leave_lists.
Proof. intros c c'. unfold handlers.leave_lists. apply keeps_move_up_rounds. Qed.

Lemma keeps_if_link_in_table (x y : action) :
  keeps_eof x -> keeps_eof y -> keeps_eof (handlers.if_link_in_table x y).
Proof.
  intros Hx Hy c c'. unfold handlers.if_link_in_table.
  destruct (negb (is_image c)); [ apply keeps_if_top_is; assumption | apply Hy ].
Qed.

Lemma keeps_emit_image_or_hyperlink : keeps_eof handlers.emit_image_or_hyperlink.
Proof. unfold handlers.emit_image_or_hyperlink. keeps_base. Qed.

Lemma keeps_table_inline (s1 s2 : State) : keeps_eof (handlers.table_inline s1 s2).
Proof. unfold handlers.table_inline. keeps_base. Qed.

(** A goal [keeps_eof a] is taken apart along the shape of [a]; a leaf of
    a handler is an action applied to the context, maybe after a change of
    the context that does not touch [EOF_Reached]. *)
Ltac keeps_step :=
  repeat match goal with
  | |- keeps_eof handlers.open_blockquote_in_list => apply keeps_open_blockquote_in_list
  | |- keeps_eof handlers.dedent => apply keeps_dedent
  | |- keeps_eof handlers.leave_lists => apply keeps_leave_lists
  | |- keeps_eof (handlers.if_link_in_table _ _) => apply keeps_if_link_in_table
  | |- keeps_eof handlers.emit_image_or_hyperlink => apply keeps_emit_image_or_hyperlink
  | |- keeps_eof (handlers.table_inline _ _) => apply keeps_table_inline
  | |- keeps_eof (fun _ => _) =>
      first
        [ progress keeps_base
        | let c0 := fresh "c" in
          let c1 := fresh "c'" in
          intros c0 c1; cbv beta; keeps_leaf ]
  | |- keeps_eof _ => progress keeps_base
  end
with keeps_leaf :=
  let H := fresh "H" in
  intros H;
  first
    [ injection H as <-; pure_eof_goal
    | discriminate H
    | match type of H with
      | ?A ?x = Ok ?y =>
          transitivity (EOF_Reached x);
          [ revert H; apply (fun K : keeps_eof A => K x y); keeps_step
          | pure_eof_goal ]
      end ].

Ltac keeps_handler :=
  let next := fresh "next" in
  let c := fresh "c" in
  let c' := fresh "c'" in
  intros next c c';
  cbv zeta;
  repeat match goal with
         | |- (if ?b then _ else _) = _ -> _ => destruct b
         end;
  try keeps_leaf.

Lemma keeps_list_marker : forall next, keeps_eof (fun c => handlers.list_marker c next).
Proof. unfold handlers.list_marker. keeps_handler. Qed.

Lemma keeps_handleHashtag : forall next, keeps_eof (fun c => handlers.handleHashtag c next).
Proof. unfold handlers.handleHashtag. keeps_handler. Qed.

Lemma keeps_handleDataAsterisk :
  forall next, keeps_eof (fun c => handlers.handleDataAsterisk c next).
Proof. unfold handlers.handleDataAsterisk. keeps_handler. Qed.

Lemma keeps_handleAsteriskData :
  forall next, keeps_eof (fun c => handlers.handleAsteriskData c next).
Proof. unfold handlers.handleAsteriskData. keeps_handler. Qed.

Lemma keeps_handleDoubleAsterisk :
  forall next, keeps_eof (fun c => handlers.handleDoubleAsterisk c next).
Proof. unfold handlers.handleDoubleAsterisk. keeps_handler. Qed.

Lemma keeps_handleDataDoubleAsteriskData :
  forall next, keeps_eof (fun c => handlers.handleDataDoubleAsteriskData c next).
Proof. unfold handlers.handleDataDoubleAsteriskData. keeps_handler. Qed.

Lemma keeps_handleDataTripleAsterisk :
  forall next, keeps_eof (fun c => handlers.handleDataTripleAsterisk c next).
Proof. unfold handlers.handleDataTripleAsterisk. keeps_handler. Qed.

Lemma keeps_handleDataTripleAsteriskData :
  forall next, keeps_eof (fun c => handlers.handleDataTripleAsteriskData c next).
Proof. unfold handlers.handleDataTripleAsteriskData. keeps_handler. Qed.

Lemma keeps_handleDataConsumingNumber :
  forall next, keeps_eof (fun c => handlers.handleDataConsumingNumber c next).
Proof. unfold handlers.handleDataConsumingNumber. keeps_handler. Qed.

Lemma keeps_handleData : forall next, keeps_eof (fun c => handlers.handleData c next).
Proof.
  unfold handlers.handleData. keeps_handler.
  unfold rbind. destruct (fetch_current_element c) as [ el | ]; [ | discriminate ].
  keeps_leaf.
Qed.

Lemma keeps_handleDataOrdinalNumber :
  forall next, keeps_eof (fun c => handlers.handleDataOrdinalNumber c next).
Proof.
  unfold handlers.handleDataOrdinalNumber. keeps_handler.
  unfold rbind. destruct (fetch_current_element _) as [ el | ]; [ | discriminate ].
  destruct (handlers.is_list el); [ destruct (_ >=? _) | ]; keeps_leaf.
Qed.

Lemma keeps_handleHorizontalLine :
  forall next, keeps_eof (fun c => handlers.handleHorizontalLine c next).
Proof. unfold handlers.handleHorizontalLine. keeps_handler. Qed.

Lemma keeps_handleDataBacktick :
  forall next, keeps_eof (fun c => handlers.handleDataBacktick c next).
Proof. unfold handlers.handleDataBacktick. keeps_handler. Qed.

Lemma keeps_handleDataDoubleBacktick :
  forall next, keeps_eof (fun c => handlers.handleDataDoubleBacktick c next).
Proof. unfold handlers.handleDataDoubleBacktick. keeps_handler. Qed.

Lemma keeps_handleCodeInlineState :
  forall next, keeps_eof (fun c => handlers.handleCodeInlineState c next).
Proof. unfold handlers.handleCodeInlineState. keeps_handler. Qed.

Lemma keeps_handleCodeBlock :
  forall next, keeps_eof (fun c => handlers.handleCodeBlock c next).
Proof. unfold handlers.handleCodeBlock. keeps_handler. Qed.

Lemma keeps_handleUnorderedListPrep :
  forall next, keeps_eof (fun c => handlers.handleUnorderedListPrep c next).
Proof.
  unfold handlers.handleUnorderedListPrep. keeps_handler.
  apply keeps_list_marker.
Qed.

Lemma keeps_handleUnorderedList :
  forall next, keeps_eof (fun c => handlers.handleUnorderedList c next).
Proof.
  unfold handlers.handleUnorderedList. keeps_handler.
Qed.

Lemma keeps_handleOrderedListPrep :
  forall next, keeps_eof (fun c => handlers.handleOrderedListPrep c next).
Proof.
  unfold handlers.handleOrderedListPrep. keeps_handler.
  apply keeps_list_marker.
Qed.

Lemma keeps_handleImage : forall next, keeps_eof (fun c => handlers.handleImage c next).
Proof. unfold handlers.handleImage. keeps_handler. Qed.

Lemma keeps_handleAltOpenSquared :
  forall next, keeps_eof (fun c => handlers.handleAltOpenSquared c next).
Proof. unfold handlers.handleAltOpenSquared. keeps_handler. Qed.

Lemma keeps_handleAltClosedSquared :
  forall next, keeps_eof (fun c => handlers.handleAltClosedSquared c next).
Proof. unfold handlers.handleAltClosedSquared. keeps_handler. Qed.

Lemma keeps_handleUrlOpenRound :
  forall next, keeps_eof (fun c => handlers.handleUrlOpenRound c next).
Proof. unfold handlers.handleUrlOpenRound. keeps_handler. Qed.

Lemma keeps_handleTitleOpenRound :
  forall next, keeps_eof (fun c => handlers.handleTitleOpenRound c next).
Proof. unfold handlers.handleTitleOpenRound. keeps_handler. Qed.

Lemma keeps_handleTitleConsuming :
  forall next, keeps_eof (fun c => handlers.handleTitleConsuming c next).
Proof. unfold handlers.handleTitleConsuming. keeps_handler. Qed.

Lemma keeps_handleTitleClosedRound :
  forall next, keeps_eof (fun c => handlers.handleTitleClosedRound c next).
Proof. unfold handlers.handleTitleClosedRound. keeps_handler. Qed.

Lemma keeps_handleTableHeaderNames :
  forall next, keeps_eof (fun c => handlers.handleTableHeaderNames c next).
Proof. unfold handlers.handleTableHeaderNames. keeps_handler. Qed.

Lemma keeps_handleTableHeaderSeparationPipeAwaiting :
  forall next,
    keeps_eof (fun c => handlers.handleTableHeaderSeparationPipeAwaiting c next).
Proof. unfold handlers.handleTableHeaderSeparationPipeAwaiting. keeps_handler. Qed.

Lemma keeps_handleTableHeaderSeparation :
  forall next, keeps_eof (fun c => handlers.handleTableHeaderSeparation c next).
Proof. unfold handlers.handleTableHeaderSeparation. keeps_handler. Qed.

Lemma keeps_handleTableCellPipeAwaiting :
  forall next, keeps_eof (fun c => handlers.handleTableCellPipeAwaiting c next).
Proof. unfold handlers.handleTableCellPipeAwaiting. keeps_handler. Qed.

Lemma keeps_handleTableCellData :
  forall next, keeps_eof (fun c => handlers.handleTableCellData c next).
Proof. unfold handlers.handleTableCellData. keeps_handler. Qed.

(** Every handler of the dispatch vector leaves [EOF_Reached] as it finds
    it: only the driver sets it. *)
Lemma state_handlers_keep_eof (n : nat) (key : State) (h : handlers.handler) :
  nth_error state_handlers n = Some (key, h) ->
  forall next, keeps_eof (fun c => h c next).
Proof.
  unfold state_handlers.
  do 30 (destruct n as [ | n ];
         [ intros E; injection E as _ <-;
           first
             [ apply keeps_handleData | apply keeps_handleHashtag
             | apply keeps_handleDataAsterisk | apply keeps_handleAsteriskData
             | apply keeps_handleDoubleAsterisk | apply keeps_handleDataDoubleAsteriskData
             | apply keeps_handleDataTripleAsterisk
             | apply keeps_handleDataTripleAsteriskData
             | apply keeps_handleDataConsumingNumber | apply keeps_handleDataOrdinalNumber
             | apply keeps_handleHorizontalLine | apply keeps_handleDataBacktick
             | apply keeps_handleDataDoubleBacktick | apply keeps_handleCodeInlineState
             | apply keeps_handleCodeBlock | apply keeps_handleUnorderedListPrep
             | apply keeps_handleUnorderedList | apply keeps_handleOrderedListPrep
             | apply keeps_handleImage | apply keeps_handleAltOpenSquared
             | apply keeps_handleAltClosedSquared | apply keeps_handleUrlOpenRound
             | apply keeps_handleTitleOpenRound | apply keeps_handleTitleConsuming
             | apply keeps_handleTitleClosedRound | apply keeps_handleTableHeaderNames
             | apply keeps_handleTableHeaderSeparationPipeAwaiting
             | apply keeps_handleTableHeaderSeparation
             | apply keeps_handleTableCellPipeAwaiting | apply keeps_handleTableCellData ]
         | cbn [nth_error] ]).
  destruct n; discriminate.
Qed.

Lemma eof_drain_warning (line : Z) (c : Context) :
  EOF_Reached (Md_Parser.drain_warning line c) = EOF_Reached c.
Proof. unfold Md_Parser.drain_warning. destruct (negb (empty (warning_msg c))); reflexivity. Qed.

(** At the end of the stream a round that is not resolving an escape
    dispatches to a handler and breaks. *)
Lemma eof_round_breaks (p p1 : Md_Parser.t) (stop : bool) :
  is_escaped (Md_Parser.context p) = false ->
  Md_Parser.round None p = Ok (p1, stop) ->
  stop = true.
Proof.
  intros Hesc H. unfold Md_Parser.round in H.
  cbn [is_escaped set_EOF_Reached] in H. rewrite Hesc in H.
  cbn [Ascii.eqb newline backslash Bool.eqb andb state] in H.
  destruct (nth_error state_handlers _) as [ [key h] | ] eqn:E; [ | discriminate ].
  destruct (negb (State_eqb key _)); [ discriminate | ].
  unfold rbind in H.
  destruct (h _ newline) as [ c1 | ] eqn:Eh; [ | discriminate ].
  apply (state_handlers_keep_eof _ _ _ E newline) in Eh. cbn in Eh.
  rewrite eof_drain_warning, Eh in H. injection H as _ <-. reflexivity.
Qed.

(** So the two rounds of [rounds_at_eof] are all the rounds there are: its
    last branch is never taken. *)
Lemma rounds_at_eof_second_round_breaks (p p1 p2 : Md_Parser.t) (stop2 : bool) :
  Md_Parser.round None p = Ok (p1, false) ->
  Md_Parser.round None p1 = Ok (p2, stop2) ->
  stop2 = true.
Proof.
  intros H1 H2. apply (eof_round_breaks p1 p2 stop2); [ | exact H2 ].
  destruct (is_escaped (Md_Parser.context p)) eqn:Hesc.
  - unfold Md_Parser.round in H1. cbn [is_escaped set_EOF_Reached] in H1.
    rewrite Hesc in H1. unfold rbind in H1.
    destruct (Md_Parser.handle_escape_sequence _ _); [ | discriminate ].
    injection H1 as <-. reflexivity.
  - apply (eof_round_breaks p p1 false Hesc) in H1. discriminate H1.
Qed.

Lemma keeps_handle_escape_sequence (next : ascii) :
  keeps_eof (Md_Parser.handle_escape_sequence next).
Proof.
  intros c c'. unfold Md_Parser.handle_escape_sequence.
  destruct (is_escaped_char next); [ keeps_leaf | ].
  destruct (next =? newline)%char; keeps_leaf.
Qed.

(** Before the end of the stream no round breaks: [EOF_Reached] stays
    unset. *)
Lemma char_round_goes_on (ch : ascii) (p p1 : Md_Parser.t) (stop : bool) :
  EOF_Reached (Md_Parser.context p) = false ->
  Md_Parser.round (Some ch) p = Ok (p1, stop) ->
  stop = false /\ EOF_Reached (Md_Parser.context p1) = false.
Proof.
  intros Heof H. unfold Md_Parser.round in H.
  destruct (is_escaped (Md_Parser.context p)).
  - unfold rbind in H.
    destruct (Md_Parser.handle_escape_sequence _ _) as [ c1 | ] eqn:E; [ | discriminate ].
    apply keeps_handle_escape_sequence in E.
    injection H as <- <-. split; [ reflexivity | ]. cbn. congruence.
  - destruct (_ && _).
    + injection H as <- <-. split; [ reflexivity | exact Heof ].
    + destruct (nth_error state_handlers _) as [ [key h] | ] eqn:E; [ | discriminate ].
      destruct (negb (State_eqb key _)); [ discriminate | ].
      unfold rbind in H.
      destruct (h _ ch) as [ c1 | ] eqn:Eh; [ | discriminate ].
      apply (state_handlers_keep_eof _ _ _ E ch) in Eh.
      rewrite eof_drain_warning, Eh, Heof in H.
      injection H as <- <-. split; [ reflexivity | ].
      cbn [Md_Parser.context].
      destruct (_ && _); cbn; rewrite ?eof_drain_warning; congruence.
Qed.

(** ** The return-state stack *)

(** C9.  [push] accepts exactly [Data], [UnorderedListPrep],
    [OrderedListPrep], [TableHeaderNames] and [TableCellData].  For
    [TableCellPipeAwaiting], whose value is 28, the message pointer
    [state + " should not be in the stack"] lies beyond the terminating
    zero of the literal: the message is read outside the array and the
    behaviour is undefined, no [runtime_error] is thrown.  Each of the 24
    states left is answered by a [runtime_error], whose message is the
    literal without its first [state] characters.  [top] and [top_n_pop]
    on the empty stack answer [Data], leave the stack empty and log one
    warning. *)
Theorem return_stack_discipline :
  (forall st : ReturnStateStack.t,
      ReturnStateStack.push TableCellPipeAwaiting st = Err undefined_behaviour)
  /\ (forall (s : State) (st : ReturnStateStack.t),
      ReturnStateStack.push s st =
        match s with
        | Data | UnorderedListPrep | OrderedListPrep
        | TableHeaderNames | TableCellData => Ok (s :: st)
        | TableCellPipeAwaiting => Err undefined_behaviour
        | _ =>
            Err (runtime_error
                   (substring (State_to_nat s) 27 " should not be in the stack"))
        end)
  /\ ReturnStateStack.top [] = (Data, [ReturnStateStack.top_warning])
  /\ ReturnStateStack.top_n_pop [] = (Data, [], [ReturnStateStack.pop_warning]).
Proof.
  split; [ reflexivity | ].
  split; [ | split; reflexivity ].
  intros s st; destruct s; reflexivity.
Qed.

(** ** Escapes *)

Lemma string_app_nil_r (s : string) : (s ++ "")%string = s.
Proof. induction s as [ | c s IH ]; simpl; [ reflexivity | now rewrite IH ]. Qed.

Lemma string_app_assoc (s t u : string) :
  ((s ++ t) ++ u)%string = (s ++ (t ++ u))%string.
Proof. induction s as [ | c s IH ]; simpl; [ reflexivity | now rewrite IH ]. Qed.

Lemma string_length_app (s t : string) :
  String.length (s ++ t) = (String.length s + String.length t)%nat.
Proof. induction s as [ | c s IH ]; simpl; [ reflexivity | now rewrite IH ]. Qed.

Lemma string_app_inv_head (s t u : string) :
  (s ++ t)%string = (s ++ u)%string -> t = u.
Proof.
  induction s as [ | c s IH ]; simpl; intros H; [ exact H | ].
  injection H as H; auto.
Qed.

Lemma list_ascii_of_string_app (s t : string) :
  list_ascii_of_string (s ++ t) = (list_ascii_of_string s ++ list_ascii_of_string t)%list.
Proof. induction s as [ | c s IH ]; cbn; [ reflexivity | now rewrite IH ]. Qed.

(** C7.  A character after a backslash that is neither escapable nor a
    newline: [consumed += '\\' + next] adds the two characters as integers
    and appends the one byte of value (92 + next) mod 256.  The buffer
    grows by one character, not by the backslash followed by the
    character. *)
Theorem escape_of_other_char_appends_one_byte :
  forall (context : Context) (next : ascii),
    is_escaped_char next = false ->
    next <> newline ->
    exists context',
      Md_Parser.handle_escape_sequence next context = Ok context'
      /\ consumed context' =
           (consumed context ++ str (char_of_int (92 + int_of_char next)))%string
      /\ String.length (consumed context') = S (String.length (consumed context))
      /\ consumed context' <> (consumed context ++ str backslash ++ str next)%string.
Proof.
  intros context next Hesc Hnl.
  unfold Md_Parser.handle_escape_sequence.
  rewrite Hesc.
  destruct (Ascii.eqb_spec next newline) as [ -> | _ ]; [ contradiction | ].
  eexists; split; [ reflexivity | ].
  unfold append_consumed, push_back, char_plus_char; simpl consumed.
  repeat split.
  - rewrite string_length_app; simpl. lia.
  - intros H. apply string_app_inv_head in H. discriminate H.
Qed.

Lemma escape_of_other_char_appends_one_byte_witness :
  exists context',
    Md_Parser.handle_escape_sequence "a" Md_Parser.reset_context = Ok context'
    /\ consumed context' = str "189"
    /\ String.length (consumed context') = 1%nat
    /\ consumed context' <> "\a".
Proof.
  apply (escape_of_other_char_appends_one_byte Md_Parser.reset_context "a"%char);
    [ reflexivity | discriminate ].
Defined.

(** C8.  For every character [c] of the escapable set the input made of a
    backslash and [c] gives one Content leaf holding exactly [c]: the leaf
    sits in the Paragraph that any text gets, no node carries an attribute
    and no other element is opened. *)
Theorem escaped_char_is_plain_content :
  forall c : ascii,
    is_escaped_char c = true ->
    Md_Parser.parse_document (String backslash (str c)) =
      Ok (Element DOCSTART [] [Element Paragraph [] [Text (str c)]]).
Proof.
  intros c H.
  unfold is_escaped_char in H.
  apply existsb_exists in H.
  destruct H as [x [Hin Heq]].
  apply Ascii.eqb_eq in Heq; subst x.
  unfold escaped_chars in Hin.
  repeat (destruct Hin as [ <- | Hin ]; [ vm_compute; reflexivity | ]).
  destruct Hin.
Qed.

Lemma escaped_char_is_plain_content_witness :
  Md_Parser.parse_document "\*" =
    Ok (Element DOCSTART [] [Element Paragraph [] [Text "*"]]).
Proof.
  apply (escaped_char_is_plain_content "*"%char); reflexivity.
Defined.

(** ** The table manager's cursor on Close tokens *)

Lemma ascend_current (tm tm' : TableManager.t) :
  TableManager.ascend tm = Ok tm' ->
  TableManager.current tm' = up (TableManager.current tm)
  /\ TableManager.current tm <> None
  /\ TableManager.table_root tm' = TableManager.table_root tm
  /\ TableManager.col_dims tm' = TableManager.col_dims tm.
Proof.
  unfold TableManager.ascend, rbind.
  destruct (TableManager.deref_current tm) as [ n | e ]; [ | discriminate ].
  destruct (TableManager.current tm) as [ p | ]; [ | discriminate ].
  intros H; injection H as <-; simpl.
  repeat split; discriminate.
Qed.

Lemma update_current_current (f : Node -> Node) (tm tm' : TableManager.t) :
  TableManager.update_current f tm = Ok tm' ->
  TableManager.current tm' = TableManager.current tm.
Proof.
  unfold TableManager.update_current.
  destruct (TableManager.table_root tm) as [ r | ]; [ | discriminate ].
  destruct (TableManager.current tm) as [ p | ]; [ | discriminate ].
  destruct (update_node f r p); [ | discriminate ].
  intros H; injection H as <-; reflexivity.
Qed.

Lemma parent_snoc (q : path) (i : nat) : parent (q ++ [i]) = Some q.
Proof.
  unfold parent. destruct (q ++ [i]) eqn:E.
  - destruct q; discriminate E.
  - rewrite <- E, removelast_last. reflexivity.
Qed.

(** C10, as the code has it.  A Close token for a Hyperlink moves the
    cursor two levels up (the [Hypertext] case does not [break] and runs
    into the [Span] case): from the node at [q ++ [i]] to the parent of
    [q].  The Close tokens of Table_Row, Table_Head, Span and Codeblock move
    it one level up; the Close of a Table_Cell moves it one level up when it
    is on a Table_Cell and leaves it in place otherwise. *)
Theorem table_manager_close_ascent :
  forall (tm tm' : TableManager.t) (token : Token.t),
    Token.type token = CloseToken ->
    TableManager.consume_token token tm = Ok tm' ->
    match Token.element token with
    | Hypertext =>
        exists (q : path) (i : nat),
          TableManager.current tm = Some (q ++ [i])
          /\ TableManager.current tm' = parent q
    | Table_Row | Table_Head | Span | Codeblock =>
        TableManager.current tm' = up (TableManager.current tm)
    | Table_Cell =>
        exists n : Node,
          TableManager.deref_current tm = Ok n
          /\ TableManager.current tm' =
               if ElementType_eqb (element n) Table_Cell
               then up (TableManager.current tm)
               else TableManager.current tm
    | _ => True
    end.
Proof.
  intros tm tm' [ty el content alt title] Hty H.
  simpl in Hty; subst ty.
  unfold TableManager.consume_token in H; simpl in H.
  destruct el; simpl; trivial.
  - (* Codeblock *)
    apply ascend_current in H. tauto.
  - (* Hypertext *)
    unfold rbind in H.
    destruct (TableManager.ascend tm) as [ tm1 | e ] eqn:H1; [ | discriminate ].
    apply ascend_current in H1. destruct H1 as (H1 & Hne & _).
    apply ascend_current in H. destruct H as (H2 & Hne2 & _).
    destruct (TableManager.current tm) as [ p | ]; [ | contradiction ].
    simpl in H1.
    destruct p as [ | j p ]; [ simpl in H1; congruence | ].
    destruct (exists_last (l := j :: p)) as (q & i & Hq); [ discriminate | ].
    rewrite Hq in *.
    exists q, i. split; [ reflexivity | ].
    rewrite H2, H1, parent_snoc. reflexivity.
  - (* Span *)
    apply ascend_current in H. tauto.
  - (* Table_Head *)
    apply ascend_current in H. tauto.
  - (* Table_Row *)
    unfold rbind in H.
    destruct (negb (TableManager.col_dims tm =? 0)).
    + destruct (TableManager.deref_current tm) as [ n | e ]; [ | discriminate ].
      destruct (TableManager.update_current _ tm) as [ tm1 | e ] eqn:H1; [ | discriminate ].
      apply update_current_current in H1.
      apply ascend_current in H. destruct H as (H & _). congruence.
    + destruct (TableManager.deref_current tm) as [ n | e ]; [ | discriminate ].
      destruct (children n); [ discriminate | ].
      destruct (TableManager.update_current _ tm) as [ tm1 | e ] eqn:H1; [ | discriminate ].
      apply update_current_current in H1.
      destruct (_ =? 0); [ discriminate | ].
      apply ascend_current in H. destruct H as (H & _). simpl in H. congruence.
  - (* Table_Cell *)
    unfold rbind in H.
    destruct (TableManager.deref_current tm) as [ n | e ]; [ | discriminate ].
    exists n. split; [ reflexivity | ].
    destruct (ElementType_eqb (element n) Table_Cell).
    + apply ascend_current in H. tauto.
    + injection H as <-. reflexivity.
Qed.

(** The Close of the link of [link_cell_table]: from the link, at
    [[1; 1; 0]], to the row, at [[1]]. *)
Lemma table_manager_close_ascent_witness :
  exists (q : path) (i : nat),
    Some [1; 1; 0]%nat = Some (q ++ [i]) /\ Some [1%nat] = parent q.
Proof.
  exact (table_manager_close_ascent
           link_cell_table
           (TableManager.mk (TableManager.table_root link_cell_table) (Some [1%nat]) 2)
           (Token3 CloseToken Hypertext "") eq_refl eq_refl).
Defined.

(** The counterexample to C10 as stated: on [full_row_table] the Close of a
    Table_Cell is accepted and the cursor stays on the row. *)
Lemma cell_close_on_a_row_stays :
  ~ close_ascends_as_claimed full_row_table (Token3 CloseToken Table_Cell "").
Proof.
  intros H.
  specialize (H full_row_table eq_refl eq_refl eq_refl).
  discriminate H.
Qed.

(** ** End-to-end scenarios *)

(** The counterexample to C2 as stated: with one dash per column the
    separator row fails the [counter < 3] test of
    [handleTableHeaderSeparation]; no Table node is built, and the rows
    come out as text. *)
Lemma one_dash_separator_gives_no_table :
  Md_Parser.parse_document ("|A|B|" ++ nl ++ "|-|-|" ++ nl ++ "|1|2|" ++ nl) =
    Ok (Element DOCSTART []
          [Element Paragraph [TableRow] [Text "|"; Text "A"; Text "|"; Text "B"];
           Element Paragraph []
             [Text "|-|"; Text "--|";
              Element Paragraph [TableRow] [Text "|"; Text "1"; Text "|"; Text "2"]]])
  /\ Md_Parser.parse_document ("|A|B|" ++ nl ++ "|-|-|" ++ nl ++ "|1|2|" ++ nl)
     <> Ok two_by_two_table.
Proof.
  split; [ vm_compute; reflexivity | vm_compute; discriminate ].
Qed.

(** C2, amended.  With three dashes per column in the separator row the
    input parses as a table of exactly the claimed shape. *)
Theorem three_dash_separator_gives_table :
  Md_Parser.parse_document ("|A|B|" ++ nl ++ "|---|---|" ++ nl ++ "|1|2|" ++ nl) =
    Ok two_by_two_table.
Proof. vm_compute; reflexivity. Qed.

(** The counterexample to C3 as stated: the tree is not the single
    Paragraph of the claim, whatever attributes that Paragraph may carry. *)
Lemma failed_separator_is_not_one_paragraph :
  ~ exists attrs : list Attribute,
      Md_Parser.parse_document ("|A|B|" ++ nl ++ "|--|" ++ nl) =
        Ok (Element DOCSTART []
              [Element Paragraph attrs [Text "|"; Text "A"; Text "|"; Text "B"]]).
Proof. intros [attrs H]. vm_compute in H. discriminate H. Qed.

(** C3, amended.  The tree has two children under DocStart.  The first
    is the failed header row re-emitted as one Paragraph, whose children
    are the cells' contents, each cell led by a "|" leaf; which attributes
    this Paragraph carries is not stated.  No Table node is emitted.  The
    second is a Paragraph without attribute that holds the text of the
    separator row read so far. *)
Theorem failed_separator_tree :
  exists attrs : list Attribute,
    Md_Parser.parse_document ("|A|B|" ++ nl ++ "|--|" ++ nl) =
      Ok (Element DOCSTART []
            [Element Paragraph attrs [Text "|"; Text "A"; Text "|"; Text "B"];
             Element Paragraph [] [Text "|--|"]]).
Proof. eexists. vm_compute; reflexivity. Qed.

(** The counterexample to C4 as stated: the tree is not the one of the
    claim, where the Span is a child of the Paragraph. *)
Lemma bold_span_is_not_in_the_paragraph :
  ~ exists attrs : list Attribute,
      Md_Parser.parse_document ("**bold** tail" ++ nl) =
        Ok (Element DOCSTART []
              [Element Paragraph attrs
                 [Element Span [Bold] [Text "bold"]; Text " tail"]]).
Proof. intros [attrs H]. vm_compute in H. discriminate H. Qed.

(** C4, amended.  The bold Span is a child of DocStart: a Paragraph is
    opened by text only, and none precedes the Span.  The Paragraph opened
    by " tail" follows the Span. *)
Theorem bold_then_tail_tree :
  Md_Parser.parse_document ("**bold** tail" ++ nl) =
    Ok (Element DOCSTART []
          [Element Span [Bold] [Text "bold"];
           Element Paragraph [] [Text " tail"]]).
Proof. vm_compute; reflexivity. Qed.

(** The first half of C6 holds: one to six hashes and a space open the
    header of that level, with Bold and the font size of that level. *)
Lemma one_to_six_hashes_give_headers :
  Md_Parser.parse_document ("# x" ++ nl) =
    Ok (Element DOCSTART [] [Element Header_1 [Bold; FontSize1] [Text "x"]])
  /\ Md_Parser.parse_document ("## x" ++ nl) =
    Ok (Element DOCSTART [] [Element Header_2 [Bold; FontSize2] [Text "x"]])
  /\ Md_Parser.parse_document ("### x" ++ nl) =
    Ok (Element DOCSTART [] [Element Header_3 [Bold; FontSize3] [Text "x"]])
  /\ Md_Parser.parse_document ("#### x" ++ nl) =
    Ok (Element DOCSTART [] [Element Header_4 [Bold; FontSize4] [Text "x"]])
  /\ Md_Parser.parse_document ("##### x" ++ nl) =
    Ok (Element DOCSTART [] [Element Header_5 [Bold; FontSize5] [Text "x"]])
  /\ Md_Parser.parse_document ("###### x" ++ nl) =
    Ok (Element DOCSTART [] [Element Header_6 [Bold; FontSize6] [Text "x"]]).
Proof. repeat split; vm_compute; reflexivity. Qed.

(** ** Plain text: the parser follows [plain_step] *)

Lemma plain_char_not_special (c : ascii) :
  plain_char c = true ->
  (c =? "#")%char = false /\ (c =? "*")%char = false /\ (c =? "-")%char = false
  /\ (c =? "`")%char = false /\ (c =? ">")%char = false /\ (c =? "[")%char = false
  /\ (c =? "!")%char = false /\ (c =? "|")%char = false
  /\ (c =? backslash)%char = false /\ (c =? ".")%char = false.
Proof.
  destruct c as [[] [] [] [] [] [] [] []]; vm_compute; intros H;
    try discriminate H; repeat split.
Qed.

Lemma nth_error_snoc {A : Type} (l : list A) (x : A) :
  nth_error (l ++ [x]) (length l) = Some x.
Proof. induction l as [ | y l IH ]; simpl; [ reflexivity | exact IH ]. Qed.

Lemma replace_nth_snoc {A : Type} (l : list A) (x y : A) :
  replace_nth (length l) y (l ++ [x]) = l ++ [y].
Proof. induction l as [ | z l IH ]; simpl; [ reflexivity | now rewrite IH ]. Qed.

Lemma get_node_last (e : ElementType) (at_ : list Attribute) (kids : list Node)
      (P : Node) (d : NodeData) :
  get_node (mkNode e at_ (kids ++ [P]) d) [length kids] = Some P.
Proof. simpl. rewrite nth_error_snoc. reflexivity. Qed.

Lemma update_node_last (f : Node -> Node) (e : ElementType) (at_ : list Attribute)
      (kids : list Node) (P : Node) (d : NodeData) :
  update_node f (mkNode e at_ (kids ++ [P]) d) [length kids] =
    Some (mkNode e at_ (kids ++ [f P]) d).
Proof.
  simpl. rewrite nth_error_snoc. unfold set_children; simpl.
  rewrite replace_nth_snoc. reflexivity.
Qed.

(** A context of the plain-text regime, field by field. *)
Abbreviation PlainCtx eof cons cnt nc st rs closed open lg :=
  (mkContext eof cons cnt 0 0 nc "" "" false false false st ""
             (plain_emitter closed open) rs lg).

Ltac ctx_norm :=
  cbv [set_EOF_Reached set_consumed set_counter set_alt_counter set_indent_level
       set_newline_counter set_src set_alt set_blockquote_in_list set_is_escaped
       set_is_image set_state set_warning_msg set_emitter set_return_stack
       set_logged
       add_log append_consumed incr_newline_counter state_top_n_pop
       ReturnStateStack.top_n_pop ReturnStateStack.top top
       seq upd skip Token3 add_child];
  cbn [EOF_Reached consumed counter alt_counter indent_level newline_counter
       src alt blockquote_in_list is_escaped is_image state warning_msg emitter
       return_stack logged
       rbind
       Token.type Token.element Token.content
       Token_Emitter.table_parsing_flag Token_Emitter.builder Token_Emitter.table_manager
       TreeBuilder.root TreeBuilder.current
       element attributes children data
       ElementType_eqb ElementType_to_int Z.eqb Pos.eqb negb andb orb];
  rewrite ?app_nil_r.

Lemma get_node_nil (r : Node) : get_node r [] = Some r.
Proof. reflexivity. Qed.

Lemma update_node_nil (f : Node -> Node) (r : Node) : update_node f r [] = Some (f r).
Proof. reflexivity. Qed.

Ltac tree_norm :=
  repeat (ctx_norm;
          rewrite ?get_node_nil, ?update_node_nil, ?get_node_last, ?update_node_last,
            ?app_nil_r).

Lemma fetch_plain eof cons cnt nc st rs closed open lg :
  fetch_current_element (PlainCtx eof cons cnt nc st rs closed open lg) =
    Ok (match open with Some _ => Paragraph | None => DOCSTART end).
Proof.
  unfold fetch_current_element, Token_Emitter.fetch_current_element,
    TreeBuilder.get_current_element, TreeBuilder.deref_current, plain_emitter,
    plain_builder, plain_children, Element.
  destruct open as [ kids | ]; tree_norm; reflexivity.
Qed.

Lemma emit_content_plain eof cons cnt nc st rs closed open lg :
  cons <> "" ->
  emit_content_token (PlainCtx eof cons cnt nc st rs closed open lg) =
    Ok (PlainCtx eof "" cnt nc st rs closed (with_leaf open cons) lg).
Proof.
  intros Hne. unfold emit_content_token. ctx_norm.
  destruct cons as [ | c0 cons0 ]; [ contradiction | ]. cbn [empty].
  rewrite fetch_plain.
  unfold emit_token, Token_Emitter.emit_token, plain_emitter,
    TreeBuilder.consume_token, TreeBuilder.attach, plain_builder, plain_children,
    with_leaf, Element, Text.
  destruct open as [ kids | ]; tree_norm.
  - reflexivity.
  - cbn [length app]. tree_norm. reflexivity.
Qed.

Lemma close_paragraph_plain eof cons cnt nc st rs closed kids lg :
  emit_token CloseToken Paragraph (PlainCtx eof cons cnt nc st rs closed (Some kids) lg) =
    Ok (PlainCtx eof "" cnt nc st rs (closed ++ [Element Paragraph [] kids]) None lg).
Proof.
  unfold emit_token, Token_Emitter.emit_token, plain_emitter,
    TreeBuilder.consume_token, TreeBuilder.deref_current, plain_builder, plain_children,
    Element.
  tree_norm. unfold parent. cbn [removelast]. reflexivity.
Qed.

(** [handleData] on a newline, the cursor on DocStart or on a Paragraph. *)
Lemma handleData_newline_plain eof cons cnt nc rs closed open lg :
  handlers.handleData (PlainCtx eof cons cnt nc Data rs closed open lg) newline =
    Ok (let opened := if empty cons then open else with_leaf open cons in
        match open with
        | Some _ =>
            if nc =? 1
            then PlainCtx eof "" cnt (size_t_of_int (nc + 1)) Data rs
                          (plain_children closed opened) None lg
            else PlainCtx eof "" cnt (size_t_of_int (nc + 1)) Data rs closed opened lg
        | None => PlainCtx eof "" cnt nc Data rs closed opened lg
        end).
Proof.
  unfold handlers.handleData.
  cbn [Ascii.eqb newline Bool.eqb].
  rewrite fetch_plain. cbn [rbind]. unfold seq at 1 2. cbn [rbind].
  destruct cons as [ | c0 cons0 ].
  - unfold emit_content_token at 1. ctx_norm. cbn [empty].
    destruct open as [ kids | ]; ctx_norm.
    + destruct (nc =? 1); ctx_norm.
      * rewrite close_paragraph_plain. ctx_norm. reflexivity.
      * reflexivity.
    + rewrite Bool.andb_false_r. reflexivity.
  - rewrite emit_content_plain by discriminate. cbn [rbind empty].
    destruct open as [ kids | ]; ctx_norm.
    + destruct (nc =? 1); ctx_norm.
      * unfold with_leaf at 1. rewrite close_paragraph_plain. ctx_norm. reflexivity.
      * reflexivity.
    + rewrite Bool.andb_false_r. reflexivity.
Qed.

Lemma number_newline_plain eof cons cnt nc closed open lg :
  cons <> "" ->
  handlers.handleDataConsumingNumber
    (PlainCtx eof cons cnt nc DataConsumingNumber [Data] closed open lg) newline =
    Ok (if eof
        then PlainCtx eof "" 0 0 Data []
                      (plain_children closed (with_leaf open (cons ++ cons))) None lg
        else PlainCtx eof "" 0 (size_t_of_int (nc + 1)) Data []
                      closed (with_leaf open (cons ++ cons)) lg).
Proof.
  intros Hne.
  unfold handlers.handleDataConsumingNumber.
  cbn [Ascii.eqb newline Bool.eqb].
  unfold handle_unexpected_newline, if_top_is. ctx_norm.
  cbn [State_eqb State_to_nat Nat.eqb].
  destruct cons as [ | c0 cons0 ]; [ contradiction | ].
  cbn [empty negb]. ctx_norm.
  rewrite emit_content_plain by discriminate. ctx_norm.
  rewrite fetch_plain. unfold with_leaf. ctx_norm.
  destruct eof; ctx_norm.
  - rewrite close_paragraph_plain. ctx_norm. rewrite ?app_nil_r. reflexivity.
  - reflexivity.
Qed.

Ltac round_finish :=
  unfold Md_Parser.drain_warning;
  repeat (progress (ctx_norm; cbn [empty]; rewrite ?Bool.andb_false_r));
  try reflexivity.

Lemma round_plain (a : Plain) (ch : ascii) :
  plain_wf a ->
  plain_char ch = true ->
  Md_Parser.round (Some ch) (plain_parser false a) =
    Ok (plain_parser false (plain_step a ch), false).
Proof.
  intros Hwf Hp.
  destruct (plain_char_not_special ch Hp) as (H1 & H2 & H3 & H4 & H5 & H6 & H7 & H8 & H9 & H10).
  destruct a as [closed open number cons nc cnt lg line].
  unfold plain_wf in Hwf; cbn [p_number p_consumed] in Hwf.
  unfold Md_Parser.round, plain_parser, plain_context, plain_step.
  cbn [Md_Parser.context Md_Parser.curr_line is_escaped state p_number p_line p_consumed p_open p_closed p_newlines p_counter p_logged].
  rewrite H9. cbn [andb].
  destruct number.
  - cbn [State_to_nat nth_error state_handlers negb State_eqb Nat.eqb].
    destruct (ch =? newline)%char eqn:Hnl.
    + apply Ascii.eqb_eq in Hnl. subst ch.
      rewrite number_newline_plain by (apply Hwf; reflexivity).
      round_finish.
    + unfold handlers.handleDataConsumingNumber. rewrite H10, Hnl.
      round_finish.
      destruct (nc =? 0) eqn:Hnc; round_finish.
      apply Z.eqb_eq in Hnc. subst nc. reflexivity.
  - cbn [State_to_nat nth_error state_handlers negb State_eqb Nat.eqb].
    destruct (ch =? newline)%char eqn:Hnl.
    + apply Ascii.eqb_eq in Hnl. subst ch.
      rewrite handleData_newline_plain.
      destruct open as [ kids | ]; [ destruct (nc =? 1) | ]; round_finish.
    + unfold handlers.handleData. rewrite H1, H2, H3, H4, H5, H6, H7, H8, Hnl.
      ctx_norm.
      destruct (empty cons && isdigit ch) eqn:Hd.
      * unfold push, ReturnStateStack.push. ctx_norm.
        cbn [ReturnStateStack.is_a_return_state ReturnStateStack.allowed_return_states existsb State_eqb State_to_nat Nat.eqb orb negb].
        round_finish.
        destruct (nc =? 0) eqn:Hnc; round_finish.
        apply Z.eqb_eq in Hnc. subst nc. reflexivity.
      * round_finish.
        destruct (nc =? 0) eqn:Hnc; round_finish.
        apply Z.eqb_eq in Hnc. subst nc. reflexivity.
Qed.

Lemma plain_step_wf (a : Plain) (ch : ascii) : plain_wf (plain_step a ch).
Proof.
  unfold plain_wf, plain_step.
  destruct (ch =? newline)%char.
  - destruct (p_number a); [ discriminate | ].
    destruct (p_open a); [ destruct (p_newlines a =? 1) | ]; discriminate.
  - cbn [p_number p_consumed]. intros _.
    unfold push_back. destruct (p_consumed a); discriminate.
Qed.

Lemma rounds_at_eof_plain (a : Plain) :
  plain_wf a ->
  Md_Parser.rounds_at_eof (plain_parser false a) = Ok (plain_parser true (plain_eof_step a)).
Proof.
  intros Hwf.
  destruct a as [closed open number cons nc cnt lg line].
  unfold plain_wf in Hwf; cbn [p_number p_consumed] in Hwf.
  unfold Md_Parser.rounds_at_eof, Md_Parser.round, plain_parser, plain_context,
    plain_eof_step, plain_step.
  cbn [Md_Parser.context Md_Parser.curr_line is_escaped state p_number p_line p_consumed p_open p_closed p_newlines p_counter p_logged].
  ctx_norm. cbn [Ascii.eqb newline backslash Bool.eqb andb].
  destruct number.
  - cbn [State_to_nat nth_error state_handlers negb State_eqb Nat.eqb].
    rewrite number_newline_plain by (apply Hwf; reflexivity).
    round_finish.
  - cbn [State_to_nat nth_error state_handlers negb State_eqb Nat.eqb].
    rewrite handleData_newline_plain.
    destruct open as [ kids | ]; [ destruct (nc =? 1) | ]; round_finish.
Qed.

Lemma rounds_plain (input : list ascii) :
  forall a : Plain,
    plain_wf a ->
    forallb plain_char input = true ->
    Md_Parser.rounds input (plain_parser false a) =
      Ok (plain_parser true (plain_eof_step (plain_run input a))).
Proof.
  induction input as [ | ch rest IH ]; intros a Hwf Hp.
  - apply rounds_at_eof_plain, Hwf.
  - cbn [forallb] in Hp. apply andb_prop in Hp. destruct Hp as [Hch Hrest].
    cbn [Md_Parser.rounds plain_run fold_left].
    rewrite round_plain by assumption. cbn [rbind].
    apply IH; [ apply plain_step_wf | exact Hrest ].
Qed.

(** ** Plain text: the Content leaves *)

Lemma concat_all_app (l1 l2 : list string) :
  concat_all (l1 ++ l2) = (concat_all l1 ++ concat_all l2)%string.
Proof.
  induction l1 as [ | x l1 IH ]; simpl; [ reflexivity | ].
  rewrite IH, string_app_assoc. reflexivity.
Qed.

Lemma content_leaves_paragraph (kids : list Node) :
  content_leaves (Element Paragraph [] kids) = flat_map content_leaves kids.
Proof. reflexivity. Qed.

Lemma leaves_children_with_leaf closed open s :
  flat_map content_leaves (plain_children closed (with_leaf open s)) =
    flat_map content_leaves (plain_children closed open) ++ [s].
Proof.
  unfold plain_children, with_leaf.
  destruct open as [ kids | ].
  - rewrite !flat_map_app. cbn [flat_map]. rewrite !content_leaves_paragraph.
    rewrite flat_map_app. cbn. rewrite !app_nil_r, app_assoc. reflexivity.
  - rewrite flat_map_app. cbn. reflexivity.
Qed.

Lemma leaves_children_closed closed open :
  flat_map content_leaves (plain_children (plain_children closed open) None) =
    flat_map content_leaves (plain_children closed open).
Proof. reflexivity. Qed.

(** A newline in [Data] moves the buffer into the tree. *)
Lemma plain_step_newline_text (a : Plain) :
  p_number a = false ->
  concat_all (plain_leaves (plain_step a newline)) =
    (concat_all (plain_leaves a) ++ p_consumed a)%string
  /\ p_consumed (plain_step a newline) = ""
  /\ p_number (plain_step a newline) = false.
Proof.
  intros Hn. unfold plain_step, plain_leaves.
  cbn [Ascii.eqb newline Bool.eqb]. rewrite Hn.
  assert (E : concat_all
                (flat_map content_leaves
                   (plain_children (p_closed a)
                      (if empty (p_consumed a) then p_open a
                       else with_leaf (p_open a) (p_consumed a)))) =
              (concat_all (flat_map content_leaves (plain_children (p_closed a) (p_open a)))
                 ++ p_consumed a)%string).
  { destruct (p_consumed a) as [ | c s ]; cbn [empty].
    - now rewrite string_app_nil_r.
    - rewrite leaves_children_with_leaf, concat_all_app. cbn [concat_all fold_right].
      now rewrite string_app_nil_r. }
  destruct (p_open a) as [ kids | ] eqn:Ho.
  - destruct (p_newlines a =? 1); cbn [p_closed p_open p_consumed p_number];
      rewrite ?leaves_children_closed; auto.
  - cbn [p_closed p_open p_consumed p_number]. auto.
Qed.

Lemma plain_step_char_text (a : Plain) (ch : ascii) :
  (ch =? newline)%char = false ->
  plain_leaves (plain_step a ch) = plain_leaves a
  /\ p_consumed (plain_step a ch) = push_back (p_consumed a) ch
  /\ p_number (plain_step a ch) = negb (p_number a) && empty (p_consumed a) && isdigit ch.
Proof.
  intros Hnl. unfold plain_step, plain_leaves. rewrite Hnl. cbn. auto.
Qed.

Lemma split_lines_nonempty (s : string) : split_lines s <> [].
Proof.
  destruct s as [ | c s ]; cbn; [ discriminate | ].
  destruct (c =? newline)%char; [ discriminate | ].
  destruct (split_lines s); discriminate.
Qed.

Lemma split_lines_app_newline (l rest : string) :
  newline_free l = true ->
  split_lines (l ++ String newline rest) = l :: split_lines rest.
Proof.
  induction l as [ | c l IH ]; intros Hl.
  - reflexivity.
  - cbn in Hl. apply andb_prop in Hl. destruct Hl as [Hc Hl].
    cbn [String.append split_lines].
    apply negb_true_iff in Hc. rewrite Hc.
    rewrite (IH Hl). reflexivity.
Qed.

Lemma split_lines_newline_free (l : string) :
  newline_free l = true -> split_lines l = [l].
Proof.
  induction l as [ | c l IH ]; intros Hl; [ reflexivity | ].
  cbn in Hl. apply andb_prop in Hl. destruct Hl as [Hc Hl].
  cbn [split_lines]. apply negb_true_iff in Hc. rewrite Hc, (IH Hl). reflexivity.
Qed.

Lemma newline_free_push_back (l : string) (ch : ascii) :
  newline_free l = true -> (ch =? newline)%char = false ->
  newline_free (push_back l ch) = true.
Proof.
  intros Hl Hc. unfold push_back.
  induction l as [ | c l IH ]; cbn.
  - now rewrite Hc.
  - cbn in Hl. apply andb_prop in Hl. destruct Hl as [H1 H2].
    rewrite H1. cbn. apply IH, H2.
Qed.

Lemma push_back_app (l : string) (ch : ascii) (rest : string) :
  (push_back l ch ++ rest)%string = (l ++ String ch rest)%string.
Proof. unfold push_back, str. now rewrite string_app_assoc. Qed.

Lemma lone_digit_push_back (l : string) (ch : ascii) :
  lone_digit (push_back l ch) = empty l && isdigit ch.
Proof.
  destruct l as [ | c l ]; cbn; [ reflexivity | ].
  destruct l; reflexivity.
Qed.

Lemma plain_run_text (rest : string) :
  forall a : Plain,
    line_inv a ->
    no_lone_digit_line (p_consumed a ++ rest) = true ->
    let a' := plain_run (list_ascii_of_string rest) a in
    p_number a' = false
    /\ (concat_all (plain_leaves a') ++ p_consumed a')%string =
         (concat_all (plain_leaves a) ++ p_consumed a ++ remove_newlines rest)%string.
Proof.
  induction rest as [ | ch rest IH ]; intros a [Hfree Hnum] Hlines.
  - cbn. rewrite string_app_nil_r in *. split; [ | reflexivity ].
    unfold no_lone_digit_line in Hlines.
    rewrite (split_lines_newline_free _ Hfree) in Hlines. cbn in Hlines.
    rewrite Hnum. destruct (lone_digit (p_consumed a)); [ discriminate | reflexivity ].
  - cbn [list_ascii_of_string plain_run fold_left remove_newlines].
    fold (plain_run (list_ascii_of_string rest) (plain_step a ch)).
    destruct (ch =? newline)%char eqn:Hnl.
    + apply Ascii.eqb_eq in Hnl. subst ch.
      unfold no_lone_digit_line in Hlines.
      rewrite (split_lines_app_newline _ _ Hfree) in Hlines.
      cbn [forallb] in Hlines. apply andb_prop in Hlines. destruct Hlines as [Hl Hlines].
      assert (Hn : p_number a = false).
      { rewrite Hnum. now apply negb_true_iff in Hl. }
      destruct (plain_step_newline_text a Hn) as (Ht & Hc & Hn').
      specialize (IH (plain_step a newline)).
      cbv zeta in IH. rewrite Hc, Ht in IH.
      destruct IH as [IH1 IH2];
        [ unfold line_inv; rewrite Hc, Hn'; split; reflexivity | exact Hlines | ].
      split; [ exact IH1 | ].
      rewrite IH2. cbn [String.append]. now rewrite string_app_assoc.
    + destruct (plain_step_char_text a ch Hnl) as (Ht & Hc & Hn').
      specialize (IH (plain_step a ch)).
      cbv zeta in IH. rewrite Hc, Ht in IH.
      destruct IH as [IH1 IH2].
      * unfold line_inv. rewrite Hc, Hn'.
        split; [ now apply newline_free_push_back | ].
        rewrite lone_digit_push_back, Hnum.
        destruct (p_consumed a) as [ | c0 [ | c1 l ] ]; cbn; try reflexivity.
        now destruct (isdigit c0).
      * rewrite push_back_app. exact Hlines.
      * split; [ exact IH1 | ].
        rewrite IH2. unfold push_back, str. rewrite !string_app_assoc. reflexivity.
Qed.

Lemma parse_plain (input : string) :
  plain_text input = true ->
  Md_Parser.parse input =
    Ok (plain_parser true
          (plain_eof_step (plain_run (list_ascii_of_string input) plain_init))).
Proof.
  intros Hp. unfold Md_Parser.parse.
  change Md_Parser.init with (plain_parser false plain_init).
  apply rounds_plain; [ discriminate | exact Hp ].
Qed.

Lemma parse_document_plain (input : string) :
  plain_text input = true ->
  Md_Parser.parse_document input =
    let a := plain_eof_step (plain_run (list_ascii_of_string input) plain_init) in
    Ok (Element DOCSTART [] (plain_children (p_closed a) (p_open a))).
Proof.
  intros Hp. unfold Md_Parser.parse_document. rewrite (parse_plain _ Hp). reflexivity.
Qed.

(** The text held by the plain state in which the parse of a plain text
    ends. *)
Lemma plain_final_text (input : string) :
  no_lone_digit_line input = true ->
  concat_all (plain_leaves
                (plain_eof_step (plain_run (list_ascii_of_string input) plain_init))) =
    remove_newlines input.
Proof.
  intros Hl.
  destruct (plain_run_text input plain_init) as [Hn Ht];
    [ split; reflexivity | exact Hl | ].
  unfold plain_eof_step. rewrite Hn.
  destruct (plain_step_newline_text _ Hn) as (Ht' & Hc & _).
  rewrite Ht', Ht. reflexivity.
Qed.

(** C1, amended.  For every input of ASCII text without sigil characters
    in which no line is one lone digit, the parse succeeds and the Content
    leaves, in order, spell the input with every newline removed: a newline
    ends a leaf or a Paragraph and is never part of the text.  (On a line of
    one lone digit see [lone_digit_is_doubled].) *)
Theorem plain_text_content :
  forall input : string,
    plain_text input = true ->
    no_lone_digit_line input = true ->
    exists tree : Node,
      Md_Parser.parse_document input = Ok tree
      /\ content_text tree = remove_newlines input.
Proof.
  intros input Hp Hl.
  rewrite (parse_document_plain _ Hp). cbv zeta.
  eexists; split; [ reflexivity | ].
  rewrite <- (plain_final_text input Hl). reflexivity.
Qed.

Lemma plain_text_content_witness :
  exists tree : Node,
    Md_Parser.parse_document ("ab" ++ nl ++ "cd") = Ok tree
    /\ content_text tree = "abcd".
Proof.
  apply (plain_text_content ("ab" ++ nl ++ "cd")); reflexivity.
Defined.

(** The counterexample to C1 as stated: the newline between two lines of
    text is not part of any leaf, so the leaves spell "ab". *)
Lemma interior_newline_is_dropped :
  plain_text ("a" ++ nl ++ "b") = true
  /\ ~ content_preserved ("a" ++ nl ++ "b").
Proof.
  split; [ reflexivity | ].
  intros [tree [H1 H2]].
  vm_compute in H1. injection H1 as <-.
  vm_compute in H2. discriminate H2.
Qed.

(** A line of one lone digit comes out twice:
    [handleDataConsumingNumber] passes [std::move(context.consumed)] to
    [handle_unexpected_newline], which appends its argument to
    [consumed], that is to itself. *)
Lemma lone_digit_is_doubled :
  Md_Parser.parse_document "7" =
    Ok (Element DOCSTART [] [Element Paragraph [] [Text "77"]]).
Proof. vm_compute; reflexivity. Qed.

Lemma remove_newlines_line (l : string) (n : nat) :
  newline_free l = true -> remove_newlines (l ++ newlines n) = l.
Proof.
  intros Hl. induction l as [ | c l IH ].
  - induction n as [ | n IHn ]; [ reflexivity | exact IHn ].
  - cbn in Hl. apply andb_prop in Hl. destruct Hl as [Hc Hl].
    apply negb_true_iff in Hc. cbn. rewrite Hc, (IH Hl). reflexivity.
Qed.

Lemma trim_newlines (n : nat) : trim_trailing_newlines (newlines n) = "".
Proof. induction n as [ | n IH ]; [ reflexivity | cbn; now rewrite IH ]. Qed.

Lemma trim_trailing_newlines_line (l : string) (n : nat) :
  newline_free l = true -> trim_trailing_newlines (l ++ newlines n) = l.
Proof.
  intros Hl. induction l as [ | c l IH ].
  - apply trim_newlines.
  - cbn in Hl. apply andb_prop in Hl. destruct Hl as [Hc Hl].
    apply negb_true_iff in Hc. cbn. rewrite (IH Hl), Hc.
    destruct l; reflexivity.
Qed.

Lemma split_lines_newlines (n : nat) :
  forallb (fun l => negb (lone_digit l)) (split_lines (newlines n)) = true.
Proof. induction n as [ | n IH ]; [ reflexivity | exact IH ]. Qed.

Lemma no_lone_digit_line_single (l : string) (n : nat) :
  newline_free l = true -> lone_digit l = false ->
  no_lone_digit_line (l ++ newlines n) = true.
Proof.
  intros Hl Hd. unfold no_lone_digit_line.
  destruct n as [ | n ].
  - rewrite string_app_nil_r, (split_lines_newline_free _ Hl). cbn. now rewrite Hd.
  - cbn [newlines]. rewrite (split_lines_app_newline _ _ Hl). cbn [forallb].
    rewrite Hd. apply split_lines_newlines.
Qed.

Lemma plain_text_app (s t : string) :
  plain_text (s ++ t) = plain_text s && plain_text t.
Proof. unfold plain_text. now rewrite list_ascii_of_string_app, forallb_app. Qed.

Lemma plain_text_newlines (n : nat) : plain_text (newlines n) = true.
Proof. induction n as [ | n IH ]; [ reflexivity | exact IH ]. Qed.

(** On one line of plain text, followed by any number of newlines, the
    first claim holds as it is stated. *)
Lemma single_line_content_preserved (l : string) (n : nat) :
  plain_text l = true -> newline_free l = true -> lone_digit l = false ->
  content_preserved (l ++ newlines n).
Proof.
  intros Hp Hl Hd.
  assert (Hp' : plain_text (l ++ newlines n) = true).
  { now rewrite plain_text_app, Hp, plain_text_newlines. }
  unfold content_preserved.
  rewrite (parse_document_plain _ Hp'). cbv zeta.
  eexists; split; [ reflexivity | ].
  rewrite trim_trailing_newlines_line by exact Hl.
  transitivity (remove_newlines (l ++ newlines n));
    [ | apply remove_newlines_line, Hl ].
  rewrite <- (plain_final_text (l ++ newlines n));
    [ reflexivity | now apply no_lone_digit_line_single ].
Qed.

(** ** Plain text: the cursor *)

Lemma plain_step_newline_inv (a : Plain) (ch : ascii) :
  newline_inv a -> newline_inv (plain_step a ch).
Proof.
  intros (Hwf & Ho & Hc).
  split; [ apply plain_step_wf | ].
  unfold plain_step. unfold plain_wf in Hwf.
  destruct (ch =? newline)%char.
  - destruct (p_number a) eqn:Hn.
    + cbn [p_open p_newlines p_consumed].
      rewrite (Hc (Hwf eq_refl)). split; [ intros _; right; reflexivity | congruence ].
    + destruct (p_open a) as [ kids | ] eqn:Hop.
      * destruct (Ho ltac:(discriminate)) as [ E | E ]; rewrite E; cbn;
          (split; [ | congruence ]); [ intros _; right; reflexivity | congruence ].
      * cbn [p_open p_newlines p_consumed]. split; [ | congruence ].
        destruct (p_consumed a) as [ | c s ] eqn:Hcons; cbn [empty].
        -- congruence.
        -- intros _. left. apply Hc. discriminate.
  - cbn [p_open p_newlines p_consumed]. split; intros _; [ left | ]; reflexivity.
Qed.

Lemma plain_run_newline_inv (input : list ascii) :
  forall a : Plain, newline_inv a -> newline_inv (plain_run input a).
Proof.
  induction input as [ | ch rest IH ]; intros a Ha; [ exact Ha | ].
  cbn. apply IH, plain_step_newline_inv, Ha.
Qed.

(** Three newlines in a row leave no Paragraph open. *)
Lemma three_newlines_close (a : Plain) :
  newline_inv a ->
  p_open (plain_step (plain_step (plain_step a newline) newline) newline) = None
  /\ p_number (plain_step (plain_step a newline) newline) = false.
Proof.
  intros (Hwf & Ho & Hc). unfold plain_wf in Hwf.
  destruct a as [closed open number cons nc cnt lg line].
  cbn [p_open p_newlines p_consumed p_number] in *.
  destruct number.
  - rewrite (Hc (Hwf eq_refl)). split; reflexivity.
  - destruct open as [ kids | ].
    + destruct (Ho ltac:(discriminate)) as [ -> | -> ]; destruct cons; split; reflexivity.
    + destruct cons as [ | c s ].
      * split; reflexivity.
      * rewrite (Hc ltac:(discriminate)). split; reflexivity.
Qed.

(** After a blank line the cursor is the root: for every input of ASCII
    text without sigil characters that is followed by two newlines, the
    second newline has closed the Paragraph when the loop of
    [parse_document] is left. *)
Lemma blank_line_closes_cursor :
  forall input : string,
    plain_text input = true ->
    cursor_closed (input ++ nl ++ nl).
Proof.
  intros input Hp.
  assert (Hl : list_ascii_of_string (input ++ nl ++ nl) =
               (list_ascii_of_string input ++ [newline; newline])%list).
  { now rewrite list_ascii_of_string_app. }
  assert (Hp' : plain_text (input ++ nl ++ nl) = true).
  { unfold plain_text in *. rewrite Hl, forallb_app, Hp. reflexivity. }
  exists (plain_parser true
            (plain_eof_step (plain_run (list_ascii_of_string (input ++ nl ++ nl)) plain_init))).
  split; [ apply parse_plain, Hp' | ].
  rewrite Hl. unfold plain_run. rewrite fold_left_app. cbn [fold_left].
  fold (plain_run (list_ascii_of_string input) plain_init).
  destruct (three_newlines_close (plain_run (list_ascii_of_string input) plain_init))
    as [H1 H2].
  { apply plain_run_newline_inv. repeat split; try discriminate.
    intros _; left; reflexivity. }
  unfold plain_eof_step. rewrite H2.
  unfold Md_Parser.final_cursor, plain_parser, plain_context, plain_emitter, plain_builder.
  cbn [Md_Parser.context emitter Token_Emitter.builder TreeBuilder.current].
  rewrite H1. reflexivity.
Qed.

Lemma blank_line_closes_cursor_witness : cursor_closed ("a" ++ nl ++ nl).
Proof. apply (blank_line_closes_cursor "a"); reflexivity. Defined.

(** C5.  The failing input: the Paragraph opened for "a" is still open
    when the loop of [parse_document] is left.  The newline injected at the
    end of the stream is the first one [handleData] sees after the text,
    and [handleData] closes a Paragraph on the second newline only; the
    cursor rests on the Paragraph, the first child of the root, and is not
    the root. *)
Theorem open_paragraph_keeps_cursor :
  (exists p : Md_Parser.t,
      Md_Parser.parse "a" = Ok p
      /\ Md_Parser.final_cursor p = Some [0%nat])
  /\ ~ cursor_closed "a".
Proof.
  split.
  - eexists. split; vm_compute; reflexivity.
  - intros [p [H1 H2]].
    vm_compute in H1. injection H1 as <-.
    vm_compute in H2. discriminate H2.
Qed.

(** ** Seven hashes and more *)

Lemma round_hash_plain (a : Plain) :
  p_consumed a <> "" ->
  Md_Parser.round (Some "#"%char) (plain_parser false a) =
    Ok (plain_parser false (plain_step a "#"), false).
Proof.
  intros Hne.
  destruct a as [closed open number cons nc cnt lg line].
  cbn [p_consumed] in Hne.
  destruct cons as [ | c0 cons0 ]; [ contradiction | ].
  unfold Md_Parser.round, plain_parser, plain_context, plain_step.
  cbn [Md_Parser.context Md_Parser.curr_line is_escaped state p_number p_line p_consumed p_open p_closed p_newlines p_counter p_logged].
  cbn [Ascii.eqb newline backslash Bool.eqb andb].
  destruct number.
  - cbn [State_to_nat nth_error state_handlers negb State_eqb Nat.eqb].
    unfold handlers.handleDataConsumingNumber.
    cbn [Ascii.eqb newline Bool.eqb].
    round_finish.
    destruct (nc =? 0) eqn:Hnc; round_finish.
    apply Z.eqb_eq in Hnc. subst nc. reflexivity.
  - cbn [State_to_nat nth_error state_handlers negb State_eqb Nat.eqb].
    unfold handlers.handleData.
    cbn [Ascii.eqb newline Bool.eqb empty].
    round_finish.
    destruct (nc =? 0) eqn:Hnc; round_finish.
    apply Z.eqb_eq in Hnc. subst nc. reflexivity.
Qed.

Lemma hashes_snoc (n : nat) : push_back (hashes n) "#" = hashes (S n).
Proof.
  unfold push_back, str. induction n as [ | n IH ]; [ reflexivity | ].
  cbn. now rewrite IH.
Qed.

Lemma plain_step_after_hashes (n : nat) :
  plain_step (after_hashes n) "#" = after_hashes (S n).
Proof.
  unfold plain_step, after_hashes.
  cbn [Ascii.eqb newline Bool.eqb p_closed p_open p_number p_consumed p_counter p_logged p_line negb andb].
  rewrite hashes_snoc. reflexivity.
Qed.

Lemma rounds_seven_hashes (rest : list ascii) :
  Md_Parser.rounds (list_ascii_of_string (hashes 7) ++ rest) Md_Parser.init =
    Md_Parser.rounds rest (plain_parser false (after_hashes 0)).
Proof.
  cbn [hashes list_ascii_of_string app Md_Parser.rounds].
  repeat match goal with
  | |- context [Md_Parser.round (Some ?c) ?p] =>
      let r := eval vm_compute in (Md_Parser.round (Some c) p) in
      change (Md_Parser.round (Some c) p) with r; cbn [rbind]
  end.
  reflexivity.
Qed.

Lemma rounds_more_hashes (n : nat) :
  forall (m : nat) (rest : list ascii),
    Md_Parser.rounds (list_ascii_of_string (hashes n) ++ rest)
                     (plain_parser false (after_hashes m)) =
      Md_Parser.rounds rest (plain_parser false (after_hashes (n + m))).
Proof.
  induction n as [ | n IH ]; intros m rest; [ reflexivity | ].
  cbn [hashes list_ascii_of_string app Md_Parser.rounds].
  rewrite round_hash_plain by discriminate. cbn [rbind].
  rewrite plain_step_after_hashes, IH. now rewrite Nat.add_succ_r.
Qed.

Lemma plain_run_line (l : list ascii) :
  forall (closed : list Node) (open : option (list Node)) (cons : string)
         (nc cnt : Z) (lg : list LogEntry) (line : Z),
    cons <> "" ->
    forallb (fun c => negb (c =? newline)%char) l = true ->
    plain_run l (mkPlain closed open false cons nc cnt lg line) =
      mkPlain closed open false (cons ++ string_of_list_ascii l)
              (match l with [] => nc | _ :: _ => 0 end) cnt lg line.
Proof.
  induction l as [ | c l IH ]; intros closed open cons nc cnt lg line Hne Hl.
  - cbn. now rewrite string_app_nil_r.
  - cbn in Hl. apply andb_prop in Hl. destruct Hl as [Hc Hl].
    apply negb_true_iff in Hc.
    cbn [plain_run fold_left]. unfold plain_step at 2. rewrite Hc.
    cbn [p_closed p_open p_number p_consumed p_newlines p_counter p_logged p_line negb].
    destruct cons as [ | c0 cons0 ]; [ contradiction | ]. cbn [empty andb].
    fold (plain_run l).
    rewrite IH; [ | unfold push_back; cbn; discriminate | exact Hl ].
    unfold push_back, str. rewrite string_app_assoc. cbn [String.append string_of_list_ascii].
    destruct l; reflexivity.
Qed.

Lemma hashes_add (a b : nat) : hashes (a + b) = (hashes a ++ hashes b)%string.
Proof. induction a as [ | a IH ]; [ reflexivity | cbn; now rewrite IH ]. Qed.

Lemma newline_free_forallb (x : string) :
  newline_free x = true ->
  forallb (fun c => negb (c =? newline)%char) (" "%char :: list_ascii_of_string x) = true.
Proof. intros H. cbn. exact H. Qed.

(** C6 for seven hashes and more.  On the seventh hash [handleHashtag]
    gives up: it puts the six counted hashes back into the buffer and drops
    the character it is looking at.  A line of [7 + n] hashes, a space and
    plain text [x] gives one Paragraph whose text begins with [6 + n]
    hashes: one fewer than the line has. *)
Theorem seven_or_more_hashes_lose_one :
  forall (n : nat) (x : string),
    plain_text x = true ->
    newline_free x = true ->
    Md_Parser.parse_document (hashes (7 + n) ++ " " ++ x ++ nl) =
      Ok (Element DOCSTART []
            [Element Paragraph [] [Text (hashes (6 + n) ++ " " ++ x)]]).
Proof.
  intros n x Hp Hl.
  assert (Hin : list_ascii_of_string (hashes (7 + n) ++ " " ++ x ++ nl) =
                (list_ascii_of_string (hashes 7)
                   ++ list_ascii_of_string (hashes n)
                   ++ (" "%char :: list_ascii_of_string x) ++ [newline])%list).
  { rewrite hashes_add, !list_ascii_of_string_app, <- app_assoc. reflexivity. }
  unfold Md_Parser.parse_document, Md_Parser.parse.
  rewrite Hin, rounds_seven_hashes, rounds_more_hashes, Nat.add_0_r.
  rewrite rounds_plain.
  - cbn [rbind]. unfold plain_run. rewrite fold_left_app.
    fold (plain_run (" "%char :: list_ascii_of_string x) (after_hashes n)).
    unfold after_hashes.
    rewrite plain_run_line;
      [ | cbn; discriminate | apply newline_free_forallb, Hl ].
    cbn [string_of_list_ascii]. rewrite string_of_list_ascii_of_string.
    reflexivity.
  - discriminate.
  - rewrite forallb_app. cbn [forallb]. unfold plain_text in Hp. rewrite Hp. reflexivity.
Qed.

Lemma seven_or_more_hashes_lose_one_witness :
  Md_Parser.parse_document ("#######" ++ " " ++ "x" ++ nl) =
    Ok (Element DOCSTART [] [Element Paragraph [] [Text ("######" ++ " " ++ "x")]]).
Proof.
  apply (seven_or_more_hashes_lose_one 0 "x"); reflexivity.
Defined.

(** ** One to six hashes *)

Abbreviation HeaderCtx k eof cons cnt nc st rs kids lg :=
  (mkContext eof cons cnt 0 0 nc "" "" false false false st ""
             (header_emitter k kids) rs lg).

Ltac header_levels k Hk :=
  let E := fresh "E" in
  assert (E : (k = 1 \/ k = 2 \/ k = 3 \/ k = 4 \/ k = 5 \/ k = 6)%nat) by lia;
  clear Hk;
  destruct E as [ -> | [ -> | [ -> | [ -> | [ -> | -> ] ] ] ] ].

Lemma fetch_header k eof cons cnt nc st rs kids lg :
  fetch_current_element (HeaderCtx k eof cons cnt nc st rs kids lg) = Ok (header_of k).
Proof. reflexivity. Qed.

Lemma header_not_docstart (k : nat) :
  (1 <= k <= 6)%nat ->
  ElementType_eqb (header_of k) DOCSTART = false
  /\ ElementType_eqb (header_of k) Paragraph = false.
Proof. intros Hk. header_levels k Hk; split; reflexivity. Qed.

Lemma emit_content_header k eof cons cnt nc st rs kids lg :
  (1 <= k <= 6)%nat ->
  cons <> "" ->
  emit_content_token (HeaderCtx k eof cons cnt nc st rs kids lg) =
    Ok (HeaderCtx k eof "" cnt nc st rs (kids ++ [Text cons]) lg).
Proof.
  intros Hk Hne.
  destruct (header_not_docstart k Hk) as [Hd _].
  unfold emit_content_token. ctx_norm.
  destruct cons as [ | c0 cons0 ]; [ contradiction | ]. cbn [empty].
  rewrite fetch_header. cbn [rbind]. rewrite Hd. clear Hd.
  unfold emit_token, Token_Emitter.emit_token, header_emitter,
    TreeBuilder.consume_token, TreeBuilder.attach, Element, Text.
  header_levels k Hk;
    ctx_norm;
    cbn [header_of fontsize_of get_node update_node nth_error replace_nth
         children element attributes data];
    ctx_norm; reflexivity.
Qed.

Lemma close_header k eof cons cnt nc st rs kids lg :
  (1 <= k <= 6)%nat ->
  emit_token CloseToken (header_of k) (HeaderCtx k eof cons cnt nc st rs kids lg) =
    Ok (PlainCtx eof "" cnt nc st rs
                 [Element (header_of k) [Bold; fontsize_of k] kids] None lg).
Proof.
  intros Hk.
  unfold emit_token, Token_Emitter.emit_token, header_emitter, plain_emitter,
    plain_builder, plain_children,
    TreeBuilder.consume_token, TreeBuilder.deref_current, Element.
  header_levels k Hk;
    ctx_norm;
    cbn [header_of fontsize_of get_node nth_error children element attributes data
         parent removelast app];
    ctx_norm; reflexivity.
Qed.

Lemma round_header_char (k : nat) (a : Plain) (ch : ascii) :
  plain_char ch = true ->
  (ch =? newline)%char = false ->
  Md_Parser.round (Some ch) (header_parser k a) =
    Ok (header_parser k (plain_step a ch), false).
Proof.
  intros Hp Hnl.
  destruct (plain_char_not_special ch Hp) as (H1 & H2 & H3 & H4 & H5 & H6 & H7 & H8 & H9 & H10).
  destruct a as [closed open number cons nc cnt lg line].
  unfold Md_Parser.round, header_parser, header_context, plain_step.
  cbn [Md_Parser.context Md_Parser.curr_line is_escaped state p_number p_line p_consumed p_open p_closed p_newlines p_counter p_logged].
  rewrite H9, Hnl. cbn [andb].
  destruct number.
  - cbn [State_to_nat nth_error state_handlers negb State_eqb Nat.eqb].
    unfold handlers.handleDataConsumingNumber. rewrite H10, Hnl.
    round_finish.
    destruct (nc =? 0) eqn:Hnc; round_finish.
    apply Z.eqb_eq in Hnc. subst nc. reflexivity.
  - cbn [State_to_nat nth_error state_handlers negb State_eqb Nat.eqb].
    unfold handlers.handleData. rewrite H1, H2, H3, H4, H5, H6, H7, H8, Hnl.
    ctx_norm.
    destruct (empty cons && isdigit ch) eqn:Hd.
    + unfold push, ReturnStateStack.push. ctx_norm.
      cbn [ReturnStateStack.is_a_return_state ReturnStateStack.allowed_return_states existsb State_eqb State_to_nat Nat.eqb orb negb].
      round_finish.
      destruct (nc =? 0) eqn:Hnc; round_finish.
      apply Z.eqb_eq in Hnc. subst nc. reflexivity.
    + round_finish.
      destruct (nc =? 0) eqn:Hnc; round_finish.
      apply Z.eqb_eq in Hnc. subst nc. reflexivity.
Qed.

Lemma rounds_header_text (k : nat) (l rest : list ascii) :
  forall a : Plain,
    forallb plain_char l = true ->
    forallb (fun c => negb (c =? newline)%char) l = true ->
    Md_Parser.rounds (l ++ rest) (header_parser k a) =
      Md_Parser.rounds rest (header_parser k (plain_run l a)).
Proof.
  induction l as [ | ch l IH ]; intros a Hp Hl; [ reflexivity | ].
  cbn [forallb] in Hp, Hl.
  apply andb_prop in Hp. destruct Hp as [Hp1 Hp2].
  apply andb_prop in Hl. destruct Hl as [Hl1 Hl2].
  apply negb_true_iff in Hl1.
  cbn [app Md_Parser.rounds plain_run fold_left].
  rewrite round_header_char by assumption. cbn [rbind].
  apply IH; assumption.
Qed.

Lemma rounds_header_prefix (k : nat) (rest : list ascii) :
  (1 <= k <= 6)%nat ->
  Md_Parser.rounds (list_ascii_of_string (hashes k ++ " ") ++ rest) Md_Parser.init =
    Md_Parser.rounds rest (header_parser k header_start).
Proof.
  intros Hk.
  assert (E : (k = 1 \/ k = 2 \/ k = 3 \/ k = 4 \/ k = 5 \/ k = 6)%nat) by lia.
  destruct E as [ -> | [ -> | [ -> | [ -> | [ -> | -> ] ] ] ] ];
    cbn [hashes String.append list_ascii_of_string app Md_Parser.rounds];
    repeat match goal with
    | |- context [Md_Parser.round (Some ?c) ?p] =>
        let r := eval vm_compute in (Md_Parser.round (Some c) p) in
        change (Md_Parser.round (Some c) p) with r; cbn [rbind]
    end;
    reflexivity.
Qed.

(** The newline that ends the header line. *)
Lemma round_header_newline (k : nat) (x : string) (cnt : Z) (lg : list LogEntry) (line : Z) :
  (1 <= k <= 6)%nat ->
  x <> "" ->
  Md_Parser.round (Some newline)
    (header_parser k (mkPlain [] None false x 0 cnt lg line)) =
    Ok (Md_Parser.mk (size_t_of_int (line + 1))
          (PlainCtx false "" cnt 0 Data [Data]
                    [Element (header_of k) [Bold; fontsize_of k] [Text x]] None lg),
        false).
Proof.
  intros Hk Hx.
  destruct (header_not_docstart k Hk) as [Hd Hp].
  unfold Md_Parser.round, header_parser, header_context.
  cbn [Md_Parser.context Md_Parser.curr_line is_escaped state p_number p_line
       p_consumed p_open p_closed p_newlines p_counter p_logged].
  cbn [Ascii.eqb newline backslash Bool.eqb andb].
  cbn [State_to_nat nth_error state_handlers negb State_eqb Nat.eqb].
  unfold handlers.handleData.
  cbn [Ascii.eqb newline Bool.eqb].
  rewrite fetch_header. cbn [rbind]. unfold seq at 1 2. cbn [rbind].
  rewrite emit_content_header by assumption. cbn [rbind newline_counter app].
  rewrite Hd, Hp. cbn [Z.eqb andb negb].
  unfold seq at 1 2. rewrite close_header by assumption.
  round_finish.
Qed.

(** The end of the stream after the header line. *)
Lemma rounds_at_eof_after_header (line cnt : Z) (closed : list Node) (lg : list LogEntry) :
  Md_Parser.rounds_at_eof
    (Md_Parser.mk line (PlainCtx false "" cnt 0 Data [Data] closed None lg)) =
    Ok (Md_Parser.mk (size_t_of_int (line + 1))
          (PlainCtx true "" cnt 0 Data [Data] closed None lg)).
Proof.
  unfold Md_Parser.rounds_at_eof, Md_Parser.round.
  cbn [Md_Parser.context Md_Parser.curr_line].
  ctx_norm. cbn [Ascii.eqb newline backslash Bool.eqb andb].
  cbn [State_to_nat nth_error state_handlers negb State_eqb Nat.eqb].
  rewrite handleData_newline_plain.
  round_finish.
Qed.

(** The text of the header line in the buffer. *)
Lemma plain_run_header_text (x : string) :
  x <> "" ->
  newline_free x = true ->
  lone_digit x = false ->
  plain_run (list_ascii_of_string x) header_start = mkPlain [] None false x 0 0 [] 1.
Proof.
  intros Hx Hl Hd.
  destruct x as [ | c0 x0 ]; [ contradiction | ].
  unfold newline_free in Hl. cbn [list_ascii_of_string forallb] in Hl.
  apply andb_prop in Hl. destruct Hl as [Hc0 Hl]. apply negb_true_iff in Hc0.
  cbn [list_ascii_of_string plain_run fold_left].
  unfold plain_step at 2, header_start. rewrite Hc0.
  cbn [p_closed p_open p_number p_consumed p_newlines p_counter p_logged p_line
       negb empty andb].
  fold (plain_run (list_ascii_of_string x0)).
  destruct x0 as [ | c1 x1 ].
  - cbn [lone_digit] in Hd. rewrite Hd. reflexivity.
  - cbn [list_ascii_of_string forallb] in Hl.
    apply andb_prop in Hl. destruct Hl as [Hc1 Hl]. apply negb_true_iff in Hc1.
    cbn [list_ascii_of_string plain_run fold_left].
    unfold plain_step at 2. rewrite Hc1.
    cbn [p_closed p_open p_number p_consumed p_newlines p_counter p_logged p_line].
    replace (negb (isdigit c0) && empty (push_back "" c0) && isdigit c1) with false
      by (unfold push_back; cbn [String.append str empty]; now rewrite Bool.andb_false_r).
    fold (plain_run (list_ascii_of_string x1)).
    rewrite plain_run_line; [ | unfold push_back; cbn; discriminate | exact Hl ].
    unfold push_back, str. cbn [String.append].
    rewrite string_of_list_ascii_of_string.
    destruct (list_ascii_of_string x1); reflexivity.
Qed.

(** The first half of C6 in general: [k] hashes (1 to 6), a space and plain
    text [x] on a line give the header of level [k] around [x], with Bold
    and the font size of that level. *)
Lemma one_to_six_hashes_make_header (k : nat) (x : string) :
  (1 <= k <= 6)%nat ->
  plain_text x = true ->
  newline_free x = true ->
  x <> "" ->
  lone_digit x = false ->
  Md_Parser.parse_document (hashes k ++ " " ++ x ++ nl) =
    Ok (Element DOCSTART [] [Element (header_of k) [Bold; fontsize_of k] [Text x]]).
Proof.
  intros Hk Hp Hl Hx Hd.
  assert (Hin : list_ascii_of_string (hashes k ++ " " ++ x ++ nl) =
                (list_ascii_of_string (hashes k ++ " ")
                   ++ list_ascii_of_string x ++ [newline])%list).
  { rewrite <- (string_app_assoc (hashes k) " " (x ++ nl)), !list_ascii_of_string_app.
    reflexivity. }
  unfold Md_Parser.parse_document, Md_Parser.parse.
  rewrite Hin, rounds_header_prefix by exact Hk.
  rewrite rounds_header_text by assumption.
  rewrite plain_run_header_text by assumption.
  cbn [Md_Parser.rounds].
  rewrite round_header_newline by assumption. cbn [rbind].
  rewrite rounds_at_eof_after_header.
  reflexivity.
Qed.

(** * Further properties: proofs *)

(** ** Paths *)

Lemma update_node_get (f : Node -> Node) (p : path) :
  forall r n : Node,
    get_node r p = Some n ->
    exists r' : Node,
      update_node f r p = Some r' /\ get_node r' p = Some (f n).
Proof.
  induction p as [ | i p IH ]; intros r n H; cbn [get_node update_node] in *.
  - injection H as <-. eexists; split; reflexivity.
  - destruct (nth_error (children r) i) as [ c | ] eqn:E; [ | discriminate ].
    destruct (IH c n H) as (c' & U & G). rewrite U.
    eexists; split; [ reflexivity | ].
    cbn [set_children children].
    assert (R : nth_error (replace_nth i c' (children r)) i = Some c').
    { clear - E. revert i E. induction (children r) as [ | y l IHl ]; intros [ | i ] E;
        cbn in *; try discriminate; [ reflexivity | apply IHl, E ]. }
    rewrite R. exact G.
Qed.

Lemma get_node_app (p q : path) :
  forall r : Node,
    get_node r (p ++ q) =
      match get_node r p with
      | Some n => get_node n q
      | None => None
      end.
Proof.
  induction p as [ | i p IH ]; intros r; cbn [app get_node]; [ reflexivity | ].
  destruct (nth_error (children r) i); [ apply IH | reflexivity ].
Qed.

Lemma get_node_parent (r n : Node) (p q : path) :
  get_node r p = Some n -> parent p = Some q -> exists m : Node, get_node r q = Some m.
Proof.
  intros G P.
  destruct (exists_last (l := p)) as (q' & j & E); [ intros ->; discriminate | ].
  subst p. rewrite parent_snoc in P. injection P as <-.
  rewrite get_node_app in G.
  destruct (get_node r q') as [ m | ]; [ eexists; reflexivity | discriminate ].
Qed.

(** ** The tree builder *)

Lemma builder_wf_inv (b : TreeBuilder.t) :
  builder_wf b = true ->
  exists (r : Node) (p : path) (n : Node),
    TreeBuilder.root b = Some r /\ TreeBuilder.current b = Some p
    /\ get_node r p = Some n.
Proof.
  unfold builder_wf. intros H.
  destruct (TreeBuilder.root b) as [ r | ]; [ | discriminate ].
  destruct (TreeBuilder.current b) as [ p | ]; [ | discriminate ].
  destruct (get_node r p) as [ n | ] eqn:G; [ | discriminate ].
  exists r, p, n. repeat split; assumption.
Qed.

Lemma attach_sound (new_node : Node) (descend : bool) (b : TreeBuilder.t)
      (r : Node) (p : path) (n : Node) :
  TreeBuilder.root b = Some r ->
  TreeBuilder.current b = Some p ->
  get_node r p = Some n ->
  exists r' : Node,
    update_node (add_child new_node) r p = Some r'
    /\ get_node r' p = Some (add_child new_node n)
    /\ TreeBuilder.attach new_node descend b =
         Ok (TreeBuilder.mk (Some r')
               (Some (if descend then p ++ [length (children n)] else p))).
Proof.
  intros Hr Hp G.
  destruct (update_node_get (add_child new_node) p r n G) as (r' & U & G').
  exists r'. repeat split; try assumption.
  unfold TreeBuilder.attach. rewrite Hr, Hp, G, U. reflexivity.
Qed.

Lemma get_new_child (r n new_node : Node) (p : path) :
  get_node r p = Some (add_child new_node n) ->
  get_node r (p ++ [length (children n)]) = Some new_node.
Proof.
  intros G. rewrite get_node_app, G. cbn [get_node add_child children].
  rewrite nth_error_snoc. reflexivity.
Qed.

(** X1: the builder never dereferences a bad pointer.  On a builder whose
    root is owned and whose [current] points to the node [n] of the tree,
    a token is consumed without undefined behaviour.  A Close token whose
    element is not that of [n] throws "incorrectly parsed tree".  A Close
    token that matches [n] when [n] is the root leaves the root in place
    and [current] null: this is the only token after which [current] is
    null.  Every other token (Open, Content, EOF, a matching Close below
    the root) is consumed without exception and leaves the pointers
    sound. *)
Theorem builder_consume_token_sound (token : Token.t) (b : TreeBuilder.t)
        (r : Node) (p : path) (n : Node) :
  TreeBuilder.root b = Some r ->
  TreeBuilder.current b = Some p ->
  get_node r p = Some n ->
  match Token.type token with
  | CloseToken =>
      if ElementType_eqb (Token.element token) (element n)
      then match p with
           | [] =>
               exists w : list LogEntry,
                 TreeBuilder.consume_token token b =
                   Ok (TreeBuilder.mk (Some r) None, w)
           | _ :: _ =>
               exists (b' : TreeBuilder.t) (w : list LogEntry),
                 TreeBuilder.consume_token token b = Ok (b', w)
                 /\ builder_wf b' = true
           end
      else TreeBuilder.consume_token token b =
             Err (runtime_error "incorrectly parsed tree")
  | _ =>
      exists (b' : TreeBuilder.t) (w : list LogEntry),
        TreeBuilder.consume_token token b = Ok (b', w) /\ builder_wf b' = true
  end.
Proof.
  intros Hr Hp G.
  unfold TreeBuilder.consume_token.
  destruct (Token.type token).
  - (* Open *)
    match goal with
    | |- context [TreeBuilder.attach ?new true b] =>
        destruct (attach_sound new true b r p n Hr Hp G) as (r' & U & G' & ->)
    end.
    cbn [rbind]. eexists; eexists; split; [ reflexivity | ].
    unfold builder_wf. cbn [TreeBuilder.root TreeBuilder.current].
    rewrite (get_new_child _ _ _ _ G'). reflexivity.
  - (* Close *)
    unfold TreeBuilder.deref_current. rewrite Hr, Hp, G. cbn [rbind].
    destruct (ElementType_eqb (Token.element token) (element n));
      cbn [negb]; [ | reflexivity ].
    destruct p as [ | i p' ].
    + eexists; reflexivity.
    + eexists; eexists; split; [ reflexivity | ].
      unfold builder_wf. cbn [TreeBuilder.root TreeBuilder.current].
      destruct (get_node_parent r n (i :: p') (removelast (i :: p')) G eq_refl)
        as (m & E).
      unfold parent. rewrite E. reflexivity.
  - (* Content *)
    match goal with
    | |- context [TreeBuilder.attach ?new false b] =>
        destruct (attach_sound new false b r p n Hr Hp G) as (r' & U & G' & ->)
    end.
    cbn [rbind]. eexists; eexists; split; [ reflexivity | ].
    unfold builder_wf. cbn [TreeBuilder.root TreeBuilder.current].
    rewrite G'. reflexivity.
  - (* EOF *)
    eexists; eexists; split; [ reflexivity | ].
    unfold builder_wf. rewrite Hr, Hp, G. reflexivity.
Qed.

Lemma builder_consume_token_sound_witness :
  (exists (b' : TreeBuilder.t) (w : list LogEntry),
      TreeBuilder.consume_token (Token3 CloseToken Paragraph "")
        (TreeBuilder.mk (Some (Element DOCSTART [] [Element Paragraph [] []]))
                        (Some [0%nat]))
      = Ok (b', w)
      /\ builder_wf b' = true)
  /\ (exists w : list LogEntry,
        TreeBuilder.consume_token (Token3 CloseToken DOCSTART "") TreeBuilder.init =
          Ok (TreeBuilder.mk (Some (Element DOCSTART [] [])) None, w)).
Proof.
  split.
  - exact (builder_consume_token_sound (Token3 CloseToken Paragraph "")
             (TreeBuilder.mk (Some (Element DOCSTART [] [Element Paragraph [] []]))
                             (Some [0%nat]))
             (Element DOCSTART [] [Element Paragraph [] []]) [0%nat]
             (Element Paragraph [] []) eq_refl eq_refl eq_refl).
  - exact (builder_consume_token_sound (Token3 CloseToken DOCSTART "")
             TreeBuilder.init (Element DOCSTART [] []) [] (Element DOCSTART [] [])
             eq_refl eq_refl eq_refl).
Defined.

(** X2: an Open token and the Close token of the same element bring the
    cursor back to where it was; the tree has one more node, a childless
    node of that element at the end of the current node's children.  The
    Close logs the DOCSTART warning when the element is DOCSTART. *)
Theorem builder_open_close (b : TreeBuilder.t) (el : ElementType)
        (text alt title : string) (r : Node) (p : path) (n : Node) :
  TreeBuilder.root b = Some r ->
  TreeBuilder.current b = Some p ->
  get_node r p = Some n ->
  exists r' new_node : Node,
    update_node (add_child new_node) r p = Some r'
    /\ element new_node = el /\ attributes new_node = [] /\ children new_node = []
    /\ ('(b1, w1) <- TreeBuilder.consume_token (Token.mk OpenToken el text alt title) b ;;
        '(b2, w2) <- TreeBuilder.consume_token (Token3 CloseToken el "") b1 ;;
        Ok (b2, w1 ++ w2))%result
       = Ok (TreeBuilder.mk (Some r') (Some p),
             if ElementType_eqb el DOCSTART then [TreeBuilder.docstart_warning] else []).
Proof.
  intros Hr Hp G.
  unfold TreeBuilder.consume_token at 1.
  cbn [Token.type Token.element Token.content Token.alt Token.title].
  match goal with
  | |- context [TreeBuilder.attach ?new true b] =>
      destruct (attach_sound new true b r p n Hr Hp G) as (r' & U & G' & E);
      exists r', new
  end.
  split; [ exact U | ].
  split; [ destruct el; reflexivity | ].
  split; [ destruct el; reflexivity | ].
  split; [ destruct el; reflexivity | ].
  rewrite E. cbn [rbind].
  unfold TreeBuilder.consume_token, Token3. cbn [Token.type Token.element].
  unfold TreeBuilder.deref_current. cbn [TreeBuilder.root TreeBuilder.current].
  rewrite (get_new_child _ _ _ _ G'). cbn [rbind].
  destruct el; cbn [element ElementType_eqb ElementType_to_int Z.eqb Pos.eqb negb];
    rewrite parent_snoc; reflexivity.
Qed.

Lemma builder_open_close_witness :
  exists r' new_node : Node,
    update_node (add_child new_node) (Element DOCSTART [] []) [] = Some r'
    /\ element new_node = Span /\ attributes new_node = [] /\ children new_node = []
    /\ ('(b1, w1) <- TreeBuilder.consume_token (Token.mk OpenToken Span "" "" "")
                       TreeBuilder.init ;;
        '(b2, w2) <- TreeBuilder.consume_token (Token3 CloseToken Span "") b1 ;;
        Ok (b2, w1 ++ w2))%result
       = Ok (TreeBuilder.mk (Some r') (Some []), []).
Proof.
  exact (builder_open_close TreeBuilder.init Span "" "" "" (Element DOCSTART [] []) [] _
           eq_refl eq_refl eq_refl).
Defined.

(** *** Document order *)

Lemma content_leaves_node (n : Node) :
  content_leaves n =
    match data n with
    | ContentNode s => [s]
    | _ => []
    end ++ flat_map content_leaves (children n).
Proof. destruct n; reflexivity. Qed.

Lemma last_child_split (n c : Node) (i : nat) :
  nth_error (children n) i = Some c ->
  S i = length (children n) ->
  children n = firstn i (children n) ++ [c] /\ length (firstn i (children n)) = i.
Proof.
  intros E L. generalize dependent i.
  induction (children n) as [ | y l IH ]; intros i E L; [ destruct i; discriminate | ].
  destruct i as [ | i ].
  - cbn in E, L. injection E as ->. destruct l; [ split; reflexivity | discriminate ].
  - cbn in E, L. injection L as L. destruct (IH i E L) as [H1 H2].
    cbn [firstn app length]. split; [ now rewrite <- H1 | now rewrite H2 ].
Qed.

(** Adding a subtree below the end of the spine adds its leaves at the end
    of the document. *)
Lemma spine_add_child (new_node : Node) (p : path) :
  forall r n : Node,
    on_spine r p ->
    get_node r p = Some n ->
    exists r' : Node,
      update_node (add_child new_node) r p = Some r'
      /\ content_leaves r' = content_leaves r ++ content_leaves new_node
      /\ on_spine r' p
      /\ on_spine r' (p ++ [length (children n)]).
Proof.
  induction p as [ | i p IH ]; intros r n S G.
  - cbn in G. injection G as <-. eexists. split; [ reflexivity | ].
    split; [ | split ].
    + rewrite (content_leaves_node (add_child new_node r)), (content_leaves_node r).
      cbn [add_child data children].
      rewrite flat_map_app. cbn [flat_map]. now rewrite app_nil_r, app_assoc.
    + exact I.
    + cbn [app on_spine add_child children]. exists new_node.
      rewrite nth_error_snoc, length_app. cbn [length].
      repeat split. lia.
  - cbn [on_spine] in S. destruct S as (c & E & L & S).
    cbn [get_node] in G. rewrite E in G.
    destruct (IH c n S G) as (c' & U & Hl & S1 & S2).
    cbn [update_node]. rewrite E, U. eexists. split; [ reflexivity | ].
    destruct (last_child_split r c i E L) as [Hc Hi].
    assert (R : replace_nth i c' (children r) = firstn i (children r) ++ [c']).
    { rewrite Hc at 1. rewrite <- Hi at 1. apply replace_nth_snoc. }
    split; [ | split ].
    + rewrite (content_leaves_node r), (content_leaves_node (set_children _ r)).
      cbn [set_children data children]. rewrite R.
      rewrite Hc at 2. rewrite !flat_map_app. cbn [flat_map].
      rewrite !app_nil_r, Hl, !app_assoc. reflexivity.
    + cbn [on_spine set_children children]. exists c'. rewrite R.
      rewrite <- Hi at 2. rewrite nth_error_snoc, length_app, Hi. cbn [length].
      repeat split; [ lia | exact S1 ].
    + cbn [app on_spine set_children children]. exists c'. rewrite R.
      rewrite <- Hi at 2. rewrite nth_error_snoc, length_app, Hi. cbn [length].
      repeat split; [ lia | exact S2 ].
Qed.

Lemma spine_get (p : path) :
  forall r : Node, on_spine r p -> exists n : Node, get_node r p = Some n.
Proof.
  induction p as [ | i p IH ]; intros r S; [ eexists; reflexivity | ].
  destruct S as (c & E & _ & S). cbn [get_node]. rewrite E. apply IH, S.
Qed.

Lemma spine_parent (p : path) (i : nat) :
  forall r : Node, on_spine r (p ++ [i]) -> on_spine r p.
Proof.
  induction p as [ | j p IH ]; intros r S; [ exact I | ].
  cbn [app on_spine] in *. destruct S as (c & E & L & S).
  exists c. repeat split; try assumption. apply IH, S.
Qed.

Lemma builder_inv_step (token : Token.t) (b b' : TreeBuilder.t) (w : list LogEntry)
      (leaves : list string) :
  builder_inv b leaves ->
  TreeBuilder.consume_token token b = Ok (b', w) ->
  builder_inv b' (leaves ++ token_text token).
Proof.
  intros (r & Hr & Hl & Hs) H.
  unfold TreeBuilder.consume_token, token_text in *.
  destruct (Token.type token).
  - (* Open *)
    unfold TreeBuilder.attach, rbind in H. rewrite Hr in H.
    destruct (TreeBuilder.current b) as [ p | ]; [ | discriminate ].
    destruct (get_node r p) as [ n | ] eqn:G; [ | discriminate ].
    match type of H with
    | context [update_node (add_child ?new) r p] =>
        destruct (spine_add_child new p r n Hs G) as (r' & U & Hl' & S1 & S2);
        assert (Hn : content_leaves new = [])
          by (destruct (Token.element token); reflexivity)
    end.
    rewrite U in H. injection H as <- <-.
    exists r'. cbn [TreeBuilder.root TreeBuilder.current].
    repeat split; [ | exact S2 ].
    now rewrite Hl', Hn, Hl.
  - (* Close *)
    unfold TreeBuilder.deref_current, rbind in H. rewrite Hr in H.
    destruct (TreeBuilder.current b) as [ p | ]; [ | discriminate ].
    destruct (get_node r p) as [ n | ]; [ | discriminate ].
    destruct (negb _); [ discriminate | ]. injection H as <- <-.
    exists r. cbn [TreeBuilder.root TreeBuilder.current].
    rewrite app_nil_r. repeat split; try assumption.
    destruct (parent p) as [ q | ] eqn:P; [ | exact I ].
    destruct (exists_last (l := p)) as (q' & j & E); [ intros ->; discriminate | ].
    subst p. rewrite parent_snoc in P. injection P as <-.
    apply (spine_parent _ _ _ Hs).
  - (* Content *)
    unfold TreeBuilder.attach, rbind in H. rewrite Hr in H.
    destruct (TreeBuilder.current b) as [ p | ]; [ | discriminate ].
    destruct (get_node r p) as [ n | ] eqn:G; [ | discriminate ].
    match type of H with
    | context [update_node (add_child ?new) r p] =>
        destruct (spine_add_child new p r n Hs G) as (r' & U & Hl' & S1 & S2)
    end.
    rewrite U in H. injection H as <- <-.
    exists r'. cbn [TreeBuilder.root TreeBuilder.current].
    repeat split; [ | exact S1 ].
    now rewrite Hl', Hl.
  - (* EOF *)
    injection H as <- <-. rewrite app_nil_r. exists r. repeat split; assumption.
Qed.

Lemma consume_tokens_inv (tokens : list Token.t) :
  forall (b b' : TreeBuilder.t) (leaves : list string),
    builder_inv b leaves ->
    consume_tokens tokens b = Ok b' ->
    builder_inv b' (leaves ++ flat_map token_text tokens).
Proof.
  induction tokens as [ | token rest IH ]; intros b b' leaves Hi H.
  - cbn in H. injection H as <-. cbn. now rewrite app_nil_r.
  - cbn [consume_tokens] in H. unfold rbind in H.
    destruct (TreeBuilder.consume_token token b) as [ [b1 w] | ] eqn:E; [ | discriminate ].
    cbn [flat_map]. rewrite app_assoc.
    apply (IH b1 b' _ (builder_inv_step _ _ _ _ _ Hi E) H).
Qed.

(** X3: the builder keeps the document order.  Whatever tokens a fresh
    builder has consumed, the Content leaves of its tree, read in document
    order, are the texts of the Content tokens in the order they came. *)
Theorem builder_keeps_document_order (tokens : list Token.t) (b : TreeBuilder.t) :
  consume_tokens tokens TreeBuilder.init = Ok b ->
  exists r : Node,
    TreeBuilder.root b = Some r
    /\ content_leaves r = flat_map token_text tokens.
Proof.
  intros H.
  assert (Hi : builder_inv TreeBuilder.init []).
  { exists (mkNode DOCSTART [] [] PlainNode). repeat split. }
  destruct (consume_tokens_inv tokens _ _ _ Hi H) as (r & Hr & Hl & _).
  exists r. split; assumption.
Qed.

Lemma builder_keeps_document_order_witness :
  exists r : Node,
    Some (Element DOCSTART []
            [Element Paragraph [] [Text "a"; Element Span [] [Text "b"]; Text "c"]]) = Some r
    /\ content_leaves r = ["a"; "b"; "c"]%string.
Proof.
  exact (builder_keeps_document_order
           [Token3 OpenToken Paragraph ""; Token3 ContentToken Content "a";
            Token3 OpenToken Span ""; Token3 ContentToken Content "b";
            Token3 CloseToken Span ""; Token3 ContentToken Content "c"]
           _ eq_refl).
Defined.

(** X4: closing the root.  A Close token for the root's element, consumed
    with [current] on the root, leaves [current] null (with a warning when
    the element is DOCSTART).  From then on the three guarded methods throw
    "Error during tree parsing", and an Open, Close or Content token
    dereferences the null pointer. *)
Theorem builder_close_root (r : Node) (text : string) :
  let b := TreeBuilder.mk (Some r) (Some []) in
  let b' := TreeBuilder.mk (Some r) None in
  TreeBuilder.consume_token (Token3 CloseToken (element r) text) b =
    Ok (b', if ElementType_eqb (element r) DOCSTART
            then [TreeBuilder.docstart_warning] else [])
  /\ TreeBuilder.get_current_element b' = Err TreeBuilder.null_current
  /\ (forall att, TreeBuilder.add_attribute att b' = Err TreeBuilder.null_current)
  /\ (forall sub, TreeBuilder.append_subtree sub b' = Err TreeBuilder.null_current)
  /\ (forall token,
         Token.type token = EOF_Token
         \/ TreeBuilder.consume_token token b' = Err undefined_behaviour).
Proof.
  cbv zeta. split; [ | repeat split ].
  - unfold TreeBuilder.consume_token, TreeBuilder.deref_current, Token3.
    cbn [Token.type Token.element TreeBuilder.root TreeBuilder.current get_node rbind parent].
    assert (Rf : ElementType_eqb (element r) (element r) = true)
      by (destruct (element r); reflexivity).
    rewrite Rf. reflexivity.
  - intros token. unfold TreeBuilder.consume_token.
    destruct (Token.type token); [ right | right | right | left ]; reflexivity.
Qed.

(** ** The dispatch vector *)

(** X5: [state_handlers] follows the order of the [State] enum: the entry
    at the index of a state is keyed by that state, for each of the thirty
    states, and the vector has no other entry.  So the driver's lookup
    [state_handlers[context.state]] stays in bounds and its test
    [state_key != context.state] never fails. *)
Theorem state_handlers_follow_the_enum :
  length state_handlers = 30%nat
  /\ forall s : State,
       exists h : handlers.handler,
         nth_error state_handlers (State_to_nat s) = Some (s, h).
Proof.
  split; [ reflexivity | ].
  intros s; destruct s; eexists; reflexivity.
Qed.

(** ** The table manager *)

Lemma update_node_ext (f g : Node -> Node) (p : path) :
  (forall n : Node, f n = g n) ->
  forall r : Node, update_node f r p = update_node g r p.
Proof.
  intros E. induction p as [ | i p IH ]; intros r; cbn [update_node].
  - now rewrite E.
  - destruct (nth_error (children r) i); [ now rewrite IH | reflexivity ].
Qed.

Lemma update_node_at (f g : Node -> Node) (p : path) :
  forall r n : Node,
    get_node r p = Some n ->
    f n = g n ->
    update_node f r p = update_node g r p.
Proof.
  induction p as [ | i p IH ]; intros r n G E; cbn [update_node get_node] in *.
  - injection G as ->. now rewrite E.
  - destruct (nth_error (children r) i) as [ c | ]; [ | reflexivity ].
    now rewrite (IH c n G E).
Qed.

Lemma pad_row_children (n : nat) :
  forall row : Node,
    TableManager.pad_row n row = add_children (repeat padding_cell n) row.
Proof.
  induction n as [ | n IH ]; intros [e a ch d]; cbn [TableManager.pad_row repeat].
  - unfold add_children, set_children. cbn. now rewrite app_nil_r.
  - rewrite IH. unfold add_children, set_children, add_child. cbn.
    now rewrite <- app_assoc.
Qed.

Lemma table_ascend (r : Node) (p : path) (n : Node) (d : Z) :
  get_node r p = Some n ->
  TableManager.ascend (TableManager.mk (Some r) (Some p) d) =
    Ok (TableManager.mk (Some r) (parent p) d).
Proof.
  intros G. unfold TableManager.ascend, TableManager.deref_current.
  cbn [TableManager.table_root TableManager.current TableManager.col_dims].
  rewrite G. reflexivity.
Qed.

(** X6: a closed body row is as wide as the header.  With the column count
    set, the Close of a Table_Row fills the row up to that count with
    cells that have no children and no attribute (a row that is already
    as wide is left alone) and moves the cursor to the row's parent. *)
Theorem table_body_row_close_pads (tm : TableManager.t) (r : Node) (p : path)
        (row : Node) (text : string) :
  TableManager.table_root tm = Some r ->
  TableManager.current tm = Some p ->
  get_node r p = Some row ->
  (TableManager.col_dims tm =? 0) = false ->
  exists r' : Node,
    update_node
      (add_children
         (repeat padding_cell
            (Z.to_nat (TableManager.col_dims tm - Z.of_nat (length (children row))))))
      r p = Some r'
    /\ TableManager.consume_token (Token3 CloseToken Table_Row text) tm =
         Ok (TableManager.mk (Some r') (parent p) (TableManager.col_dims tm)).
Proof.
  intros Hr Hp G Hd.
  destruct (update_node_get
              (add_children
                 (repeat padding_cell
                    (Z.to_nat (TableManager.col_dims tm
                               - Z.of_nat (length (children row))))))
              p r row G) as (r' & U & G').
  exists r'. split; [ exact U | ].
  unfold TableManager.consume_token, Token3, TableManager.is_open.
  cbn [Token.element Token.type TokenType_eqb]. rewrite Hd. cbn [negb].
  unfold TableManager.deref_current, TableManager.update_current.
  rewrite Hr, Hp, G. cbn [rbind].
  rewrite (update_node_ext _ _ p (pad_row_children _)), U. cbn [rbind].
  apply (table_ascend _ _ _ _ G').
Qed.

Lemma table_body_row_close_pads_witness :
  exists r' : Node,
    update_node
      (add_children (repeat padding_cell (Z.to_nat (2 - Z.of_nat 1))))
      (Element Table [TableStyle]
         [Element Table_Row [TableRow]
            [Element Table_Head [TableHeader] [Text "A"];
             Element Table_Head [TableHeader] [Text "B"]];
          Element Table_Row [TableRow] [Element Table_Cell [TableCell] [Text "1"]]])
      [1%nat] = Some r'
    /\ TableManager.consume_token (Token3 CloseToken Table_Row "")
         (TableManager.mk
            (Some (Element Table [TableStyle]
                     [Element Table_Row [TableRow]
                        [Element Table_Head [TableHeader] [Text "A"];
                         Element Table_Head [TableHeader] [Text "B"]];
                      Element Table_Row [TableRow]
                        [Element Table_Cell [TableCell] [Text "1"]]]))
            (Some [1%nat]) 2) =
         Ok (TableManager.mk (Some r') (Some []) 2).
Proof.
  exact (table_body_row_close_pads
           (TableManager.mk
              (Some (Element Table [TableStyle]
                       [Element Table_Row [TableRow]
                          [Element Table_Head [TableHeader] [Text "A"];
                           Element Table_Head [TableHeader] [Text "B"]];
                        Element Table_Row [TableRow]
                          [Element Table_Cell [TableCell] [Text "1"]]]))
              (Some [1%nat]) 2)
           _ _ _ "" eq_refl eq_refl eq_refl eq_refl).
Defined.

(** X7: a cell beyond the header's width leaves no trace.  With the cursor
    on a row that already has as many cells as the table has columns, the
    Open of a Table_Cell, a Content token and the Close of a Table_Cell are
    all accepted and none of them changes the table. *)
Theorem table_cell_beyond_the_header (tm : TableManager.t) (row : Node) (text : string) :
  TableManager.deref_current tm = Ok row ->
  element row = Table_Row ->
  TableManager.col_dims tm <= Z.of_nat (length (children row)) ->
  TableManager.consume_token (Token3 OpenToken Table_Cell "") tm = Ok tm
  /\ TableManager.consume_token (Token3 ContentToken Content text) tm = Ok tm
  /\ TableManager.consume_token (Token3 CloseToken Table_Cell "") tm = Ok tm.
Proof.
  intros D E L.
  unfold TableManager.consume_token, Token3, TableManager.is_open.
  cbn [Token.element Token.type TokenType_eqb]. rewrite D. cbn [rbind]. rewrite E.
  cbn [ElementType_eqb ElementType_to_int Z.eqb Pos.eqb].
  repeat split.
  destruct (Z.ltb_spec (Z.of_nat (length (children row))) (TableManager.col_dims tm));
    [ lia | reflexivity ].
Qed.

Lemma table_cell_beyond_the_header_witness :
  TableManager.consume_token (Token3 OpenToken Table_Cell "") full_row_table
    = Ok full_row_table
  /\ TableManager.consume_token (Token3 ContentToken Content "3") full_row_table
     = Ok full_row_table
  /\ TableManager.consume_token (Token3 CloseToken Table_Cell "") full_row_table
     = Ok full_row_table.
Proof.
  apply (table_cell_beyond_the_header full_row_table
           (Element Table_Row [TableRow]
              [Element Table_Cell [TableCell] [Text "1"];
               Element Table_Cell [TableCell] [Text "2"]]) "3");
    [ reflexivity | reflexivity | vm_compute; discriminate ].
Defined.

(** X8: the Close of the header row.  While the column count is still 0,
    the Close of a Table_Row drops the row's last child (the header cell
    opened after the last pipe) and takes the number of cells left as the
    column count; when none is left it throws "Table header should not be
    empty". *)
Theorem table_header_row_close (tm : TableManager.t) (r : Node) (p : path)
        (row : Node) (cells : list Node) (last : Node) (text : string) :
  TableManager.table_root tm = Some r ->
  TableManager.current tm = Some p ->
  get_node r p = Some row ->
  children row = cells ++ [last] ->
  TableManager.col_dims tm = 0 ->
  match cells with
  | [] =>
      TableManager.consume_token (Token3 CloseToken Table_Row text) tm =
        Err (runtime_error "Table header should not be empty")
  | _ :: _ =>
      exists r' : Node,
        update_node (set_children cells) r p = Some r'
        /\ TableManager.consume_token (Token3 CloseToken Table_Row text) tm =
             Ok (TableManager.mk (Some r') (parent p) (Z.of_nat (length cells)))
  end.
Proof.
  intros Hr Hp G Hc Hd.
  unfold TableManager.consume_token, Token3, TableManager.is_open.
  cbn [Token.element Token.type TokenType_eqb]. rewrite Hd. cbn [Z.eqb negb].
  unfold TableManager.deref_current, TableManager.update_current.
  rewrite Hr, Hp, G. cbn [rbind].
  rewrite (update_node_at _ (set_children cells) p r row G)
    by (now rewrite Hc, removelast_last).
  rewrite Hc, removelast_last.
  destruct cells as [ | c0 cells ]; cbn [app].
  { destruct (update_node_get (set_children []) p r row G) as (r' & -> & _).
    reflexivity. }
  destruct (update_node_get (set_children (c0 :: cells)) p r row G) as (r' & U & G').
  exists r'. split; [ exact U | ].
  rewrite U. cbn [rbind length].
  cbn [TableManager.table_root TableManager.current].
  replace (Z.of_nat (S (length cells)) =? 0) with false
    by (symmetry; apply Z.eqb_neq; lia).
  apply (table_ascend _ _ _ _ G').
Qed.

Lemma table_header_row_close_witness :
  exists r' : Node,
    update_node (set_children [Element Table_Head [TableHeader] [Text "A"]])
      (Element Table [TableStyle]
         [Element Table_Row [TableRow]
            [Element Table_Head [TableHeader] [Text "A"];
             Element Table_Head [TableHeader] []]])
      [0%nat] = Some r'
    /\ TableManager.consume_token (Token3 CloseToken Table_Row "")
         (TableManager.mk
            (Some (Element Table [TableStyle]
                     [Element Table_Row [TableRow]
                        [Element Table_Head [TableHeader] [Text "A"];
                         Element Table_Head [TableHeader] []]]))
            (Some [0%nat]) 0) =
         Ok (TableManager.mk (Some r') (Some []) (Z.of_nat 1)).
Proof.
  exact (table_header_row_close
           (TableManager.mk
              (Some (Element Table [TableStyle]
                       [Element Table_Row [TableRow]
                          [Element Table_Head [TableHeader] [Text "A"];
                           Element Table_Head [TableHeader] []]]))
              (Some [0%nat]) 0)
           _ _ _ [Element Table_Head [TableHeader] [Text "A"]]
           (Element Table_Head [TableHeader] []) ""
           eq_refl eq_refl eq_refl eq_refl eq_refl).
Defined.

Lemma update_node_twice (f g : Node -> Node) (p : path) :
  forall r r1 : Node,
    update_node f r p = Some r1 ->
    update_node g r1 p = update_node (fun n => g (f n)) r p.
Proof.
  induction p as [ | i p IH ]; intros r r1 U; cbn [update_node] in *.
  - injection U as <-. reflexivity.
  - destruct (nth_error (children r) i) as [ c | ] eqn:E; [ | discriminate ].
    destruct (update_node f c p) as [ c1 | ] eqn:U1; [ | discriminate ].
    injection U as <-. cbn [set_children children].
    assert (R : nth_error (replace_nth i c1 (children r)) i = Some c1).
    { clear - E. revert i E. induction (children r) as [ | y l IHl ]; intros [ | i ] E;
        cbn in *; try discriminate; [ reflexivity | apply IHl, E ]. }
    rewrite R, (IH c c1 U1).
    destruct (update_node (fun n => g (f n)) c p) as [ c2 | ]; [ | reflexivity ].
    f_equal. unfold set_children. cbn. f_equal.
    clear. revert i. induction (children r) as [ | y l IHl ]; intros [ | i ];
      cbn; try reflexivity. now rewrite IHl.
Qed.

Lemma update_node_same (p : path) :
  forall r n : Node,
    get_node r p = Some n -> update_node (fun m => m) r p = Some r.
Proof.
  induction p as [ | i p IH ]; intros r n G; cbn [update_node get_node] in *;
    [ reflexivity | ].
  destruct (nth_error (children r) i) as [ c | ] eqn:E; [ | discriminate ].
  rewrite (IH c n G). f_equal. destruct r as [e a ch d].
  unfold set_children. cbn in *. f_equal. clear - E. revert i E.
  induction ch as [ | y l IHl ]; intros [ | i ] E; cbn in *; try discriminate.
  - now injection E as ->.
  - f_equal. apply IHl, E.
Qed.

Lemma add_children_nil (r n : Node) (p : path) :
  get_node r p = Some n -> update_node (add_children []) r p = Some r.
Proof.
  intros G. rewrite (update_node_ext _ (fun m => m) p); [ apply (update_node_same p r n G) | ].
  intros [e a ch d]. unfold add_children, set_children. cbn. now rewrite app_nil_r.
Qed.

Lemma add_children_twice (xs ys : list Node) (r r1 : Node) (p : path) :
  update_node (add_children xs) r p = Some r1 ->
  update_node (add_children ys) r1 p = update_node (add_children (xs ++ ys)) r p.
Proof.
  intros U. rewrite (update_node_twice _ _ p r r1 U).
  apply update_node_ext. intros m. unfold add_children, set_children. cbn.
  now rewrite app_assoc.
Qed.

(** [append_subtree] on a builder with sound pointers. *)
Lemma append_subtree_sound (sub : Node) (r : Node) (p : path) (n : Node) :
  get_node r p = Some n ->
  exists r' : Node,
    update_node (add_children [sub]) r p = Some r'
    /\ get_node r' p = Some (add_children [sub] n)
    /\ TreeBuilder.append_subtree (Some sub) (TreeBuilder.mk (Some r) (Some p)) =
         Ok (TreeBuilder.mk (Some r') (Some p)).
Proof.
  intros G.
  destruct (attach_sound sub false (TreeBuilder.mk (Some r) (Some p)) r p n
              eq_refl eq_refl G) as (r' & U & G' & E).
  exists r'. repeat split; assumption.
Qed.

Lemma emit_row_as_paragraph_sound (last : Node) (r : Node) (p : path) (n : Node) :
  get_node r p = Some n ->
  exists r' : Node,
    update_node
      (add_children match children last with
                    | [] => []
                    | _ :: _ => [row_as_paragraph last]
                    end) r p = Some r'
    /\ TableManager.emit_row_as_paragraph last (TreeBuilder.mk (Some r) (Some p)) =
         Ok (TreeBuilder.mk (Some r') (Some p)).
Proof.
  intros G. unfold TableManager.emit_row_as_paragraph, row_as_paragraph.
  destruct (children last) as [ | cell cells ] eqn:El.
  - exists r. split; [ apply (add_children_nil r n p G) | reflexivity ].
  - match goal with
    | |- context [TreeBuilder.append_subtree (Some ?sub) _] =>
        destruct (append_subtree_sound sub r p n G) as (r' & U & _ & E)
    end.
    cbn [set_element set_children element attributes children data] in *.
    rewrite El in U, E. rewrite ?El.
    exists r'. split; [ exact U | exact E ].
Qed.

(** X9: what a failed table leaves in the document.  When the table has
    rows [rows ++ [last]], [emit_on_failure] appends to the builder's
    current node the table with the rows [rows], if there are any, and
    then the last row as a Paragraph, if it has cells: the Paragraph keeps
    the row's attributes, and its children are the children of the cells,
    those of each cell after a "|" leaf.  The manager is left without a
    table and with no column count; the builder's cursor does not move. *)
Theorem emit_on_failure_emits (tm : TableManager.t) (troot : Node)
        (rows : list Node) (last : Node) (r : Node) (p : path) (n : Node) :
  TableManager.table_root tm = Some troot ->
  children troot = rows ++ [last] ->
  get_node r p = Some n ->
  exists r' : Node,
    update_node (add_children (failure_subtrees troot rows last)) r p = Some r'
    /\ TableManager.emit_on_failure tm (TreeBuilder.mk (Some r) (Some p)) =
         Ok (TableManager.mk None (TableManager.current tm) 0,
             TreeBuilder.mk (Some r') (Some p)).
Proof.
  intros Ht Hc G.
  unfold TableManager.emit_on_failure, remove_last_child. rewrite Ht, Hc.
  rewrite rev_app_distr, removelast_last. cbn [rev app].
  cbn [set_children children].
  unfold TableManager.emit_on_success.
  cbn [TableManager.table_root TableManager.current TableManager.col_dims].
  unfold failure_subtrees.
  destruct rows as [ | row0 rows ]; cbn [length Nat.eqb negb rbind].
  - destruct (emit_row_as_paragraph_sound last r p n G) as (r' & U & E).
    exists r'. split; [ exact U | ]. rewrite E. reflexivity.
  - destruct (append_subtree_sound (set_children (row0 :: rows) troot) r p n G)
      as (r1 & U1 & G1 & E1).
    rewrite E1. cbn [rbind].
    cbn [TableManager.table_root TableManager.current TableManager.col_dims].
    destruct (emit_row_as_paragraph_sound last r1 p _ G1) as (r2 & U2 & E2).
    exists r2. split.
    + rewrite <- U2. symmetry. apply (add_children_twice _ _ r r1 p U1).
    + rewrite E2. reflexivity.
Qed.

Lemma emit_on_failure_emits_witness :
  exists r' : Node,
    update_node
      (add_children
         (failure_subtrees
            (Element Table [TableStyle]
               [Element Table_Row [TableRow] [Element Table_Head [TableHeader] [Text "A"]];
                Element Table_Row [TableRow] [Element Table_Cell [TableCell] [Text "1"]]])
            [Element Table_Row [TableRow] [Element Table_Head [TableHeader] [Text "A"]]]
            (Element Table_Row [TableRow] [Element Table_Cell [TableCell] [Text "1"]])))
      (Element DOCSTART [] []) [] = Some r'
    /\ TableManager.emit_on_failure
         (TableManager.mk
            (Some (Element Table [TableStyle]
                     [Element Table_Row [TableRow]
                        [Element Table_Head [TableHeader] [Text "A"]];
                      Element Table_Row [TableRow]
                        [Element Table_Cell [TableCell] [Text "1"]]]))
            (Some [1%nat; 0%nat]) 1)
         (TreeBuilder.mk (Some (Element DOCSTART [] [])) (Some [])) =
         Ok (TableManager.mk None (Some [1%nat; 0%nat]) 0,
             TreeBuilder.mk (Some r') (Some [])).
Proof.
  exact (emit_on_failure_emits
           (TableManager.mk
              (Some (Element Table [TableStyle]
                       [Element Table_Row [TableRow]
                          [Element Table_Head [TableHeader] [Text "A"]];
                        Element Table_Row [TableRow]
                          [Element Table_Cell [TableCell] [Text "1"]]]))
              (Some [1%nat; 0%nat]) 1)
           _
           [Element Table_Row [TableRow] [Element Table_Head [TableHeader] [Text "A"]]]
           (Element Table_Row [TableRow] [Element Table_Cell [TableCell] [Text "1"]])
           (Element DOCSTART [] []) [] _ eq_refl eq_refl eq_refl).
Defined.

(** ** One round, in two steps *)

Lemma round_char (ch : ascii) (line : Z) (c : Context) :
  is_escaped c = false ->
  ((ch =? backslash)%char && Md_Parser.escapes_in (state c)) = false ->
  EOF_Reached c = false ->
  Md_Parser.round (Some ch) (Md_Parser.mk line c) =
    (c1 <- dispatch c ch ;;
     Ok (Md_Parser.mk (next_line ch line) (after_handler ch (next_line ch line) c1),
         false))%result.
Proof.
  intros Hesc Hbs Heof. unfold Md_Parser.round, dispatch, after_handler, next_line.
  cbn [Md_Parser.context Md_Parser.curr_line]. rewrite Hesc, Hbs.
  destruct (nth_error state_handlers _) as [ [key h] | ] eqn:E; [ | reflexivity ].
  destruct (negb (State_eqb key _)); [ reflexivity | ].
  unfold rbind. destruct (h c ch) as [ c1 | ] eqn:Eh; [ | reflexivity ].
  apply (state_handlers_keep_eof _ _ _ E ch) in Eh.
  rewrite eof_drain_warning, Eh, Heof. reflexivity.
Qed.

(** The round at the end of the stream, no escape pending. *)
Lemma round_eof (line : Z) (c : Context) :
  is_escaped c = false ->
  Md_Parser.round None (Md_Parser.mk line c) =
    (c1 <- dispatch (set_EOF_Reached true c) newline ;;
     Ok (Md_Parser.mk (size_t_of_int (line + 1))
           (Md_Parser.drain_warning (size_t_of_int (line + 1)) c1),
         true))%result.
Proof.
  intros Hesc. unfold Md_Parser.round, dispatch.
  cbn [Md_Parser.context Md_Parser.curr_line is_escaped set_EOF_Reached state].
  rewrite Hesc. cbn [Ascii.eqb newline backslash Bool.eqb andb].
  destruct (nth_error state_handlers _) as [ [key h] | ] eqn:E; [ | reflexivity ].
  destruct (negb (State_eqb key _)); [ reflexivity | ].
  unfold rbind. destruct (h _ newline) as [ c1 | ] eqn:Eh; [ | reflexivity ].
  apply (state_handlers_keep_eof _ _ _ E newline) in Eh. cbn in Eh.
  rewrite eof_drain_warning, Eh. reflexivity.
Qed.

Lemma rounds_at_eof_unescaped (line : Z) (c : Context) :
  is_escaped c = false ->
  Md_Parser.rounds_at_eof (Md_Parser.mk line c) =
    (c1 <- dispatch (set_EOF_Reached true c) newline ;;
     Ok (Md_Parser.mk (size_t_of_int (line + 1))
           (Md_Parser.drain_warning (size_t_of_int (line + 1)) c1)))%result.
Proof.
  intros Hesc. unfold Md_Parser.rounds_at_eof. rewrite (round_eof _ _ Hesc).
  destruct (dispatch _ _); reflexivity.
Qed.

(** The handler's answer is computed; what the driver does after it is
    read off the answer. *)
Ltac round_compute :=
  match goal with
  | |- context [Md_Parser.round (Some ?ch) (Md_Parser.mk ?line ?c)] =>
      rewrite (round_char ch line c) by reflexivity;
      let r := eval vm_compute in (dispatch c ch) in
      change (dispatch c ch) with r;
      cbn [rbind];
      unfold after_handler, Md_Parser.drain_warning;
      cbn [warning_msg newline_counter empty negb andb Z.eqb Ascii.eqb Bool.eqb newline
           next_line]
  end.

Ltac eof_compute :=
  match goal with
  | |- context [Md_Parser.rounds_at_eof (Md_Parser.mk ?line ?c)] =>
      rewrite (rounds_at_eof_unescaped line c) by reflexivity;
      let r := eval vm_compute in (dispatch (set_EOF_Reached true c) newline) in
      change (dispatch (set_EOF_Reached true c) newline) with r;
      cbn [rbind];
      unfold Md_Parser.drain_warning;
      cbn [warning_msg empty negb]
  end.

(** The context of the next round, written as [c']. *)
Ltac fold_context c' :=
  match goal with
  | |- context [Md_Parser.round _ (Md_Parser.mk ?line ?c)] => change c with c'
  | |- context [Md_Parser.rounds _ (Md_Parser.mk ?line ?c)] => change c with c'
  end.

(** ** Code blocks *)

Lemma rounds_code_block_open (rest : list ascii) :
  Md_Parser.rounds (list_ascii_of_string "```" ++ rest) Md_Parser.init =
    Md_Parser.rounds rest (Md_Parser.mk 1 (code_block_context "")).
Proof.
  cbn [list_ascii_of_string app Md_Parser.rounds]. unfold Md_Parser.init.
  do 3 round_compute. reflexivity.
Qed.

Lemma round_code_block (ch : ascii) (x : string) (line : Z) :
  (ch =? "`")%char = false ->
  Md_Parser.round (Some ch) (Md_Parser.mk line (code_block_context x)) =
    Ok (Md_Parser.mk (next_line ch line) (code_block_context (push_back x ch)), false).
Proof.
  intros H. rewrite round_char; [ | reflexivity | apply Bool.andb_false_r | reflexivity ].
  unfold dispatch. cbn [state code_block_context State_to_nat nth_error state_handlers
                        State_eqb Nat.eqb negb].
  unfold handlers.handleCodeBlock. rewrite H. reflexivity.
Qed.

Lemma rounds_code_block (l rest : list ascii) :
  forall (x : string) (line : Z),
    forallb (fun c => negb (c =? "`")%char) l = true ->
    Md_Parser.rounds (l ++ rest) (Md_Parser.mk line (code_block_context x)) =
      Md_Parser.rounds rest
        (Md_Parser.mk (lines_after l line)
           (code_block_context (x ++ string_of_list_ascii l))).
Proof.
  induction l as [ | ch l IH ]; intros x line H.
  - cbn. now rewrite string_app_nil_r.
  - cbn [forallb] in H. apply andb_prop in H. destruct H as [Hc Hl].
    apply negb_true_iff in Hc.
    cbn [app Md_Parser.rounds]. rewrite round_code_block by exact Hc. cbn [rbind].
    rewrite IH by exact Hl. unfold push_back, str.
    rewrite string_app_assoc. reflexivity.
Qed.

Lemma rounds_code_block_close (x : string) (line : Z) :
  exists p : Md_Parser.t,
    Md_Parser.rounds (list_ascii_of_string "```")
      (Md_Parser.mk line (code_block_context x)) = Ok p
    /\ TreeBuilder.root (Token_Emitter.builder (emitter (Md_Parser.context p))) =
         Some (Element DOCSTART [] [Element Codeblock [Block] [Text x]]).
Proof.
  cbn [list_ascii_of_string Md_Parser.rounds]. unfold code_block_context.
  do 3 round_compute. eof_compute.
  eexists. split; reflexivity.
Qed.

(** X10: a code block is verbatim.  Three backticks, any text without a
    backtick (newlines, backslashes and Markdown sigils included) and
    three backticks give one Codeblock with the attribute Block, whose one
    Content leaf is the text as it was written. *)
Theorem code_block_is_verbatim (x : string) :
  free_of "`" x = true ->
  Md_Parser.parse_document ("```" ++ x ++ "```") =
    Ok (Element DOCSTART [] [Element Codeblock [Block] [Text x]]).
Proof.
  intros H.
  unfold Md_Parser.parse_document, Md_Parser.parse.
  rewrite !list_ascii_of_string_app, rounds_code_block_open.
  rewrite rounds_code_block by exact H. cbn [String.append].
  rewrite string_of_list_ascii_of_string.
  destruct (rounds_code_block_close x (lines_after (list_ascii_of_string x) 1))
    as (p & -> & Hr).
  cbn [rbind TreeBuilder.get_root fst]. rewrite Hr. reflexivity.
Qed.

Lemma code_block_is_verbatim_witness :
  Md_Parser.parse_document ("```" ++ ("# x" ++ nl ++ "*y* | z") ++ "```") =
    Ok (Element DOCSTART [] [Element Codeblock [Block] [Text ("# x" ++ nl ++ "*y* | z")]]).
Proof. apply (code_block_is_verbatim ("# x" ++ nl ++ "*y* | z")). reflexivity. Defined.

(** ** Inline code *)

Lemma free_of_cons (ch c : ascii) (s : string) :
  free_of ch (String c s) = negb (c =? ch)%char && free_of ch s.
Proof. reflexivity. Qed.

(** A round in a state where the driver takes a backslash for text. *)
Ltac round_verbatim :=
  rewrite round_char; [ | reflexivity | apply Bool.andb_false_r | reflexivity ];
  unfold dispatch;
  cbn [state span_context State_to_nat nth_error state_handlers State_eqb Nat.eqb negb].

(** A round in a state where a backslash starts an escape, on a character
    that is none ([H] says so). *)
Ltac round_plain_char H :=
  rewrite round_char; [ | reflexivity | rewrite H; reflexivity | reflexivity ];
  unfold dispatch;
  cbn [state span_context State_to_nat nth_error state_handlers State_eqb Nat.eqb negb].

Lemma round_backtick_first (ch : ascii) (line : Z) :
  (ch =? "`")%char = false ->
  (ch =? newline)%char = false ->
  Md_Parser.round (Some ch) (Md_Parser.mk line (span_context DataBacktick "")) =
    Ok (Md_Parser.mk line (span_context CodeInline (str ch)), false).
Proof.
  intros H1 H2. round_verbatim.
  unfold handlers.handleDataBacktick. rewrite H1, H2.
  unfold next_line. rewrite H2.
  destruct (ch =? "|")%char; reflexivity.
Qed.

Lemma round_code_inline (ch : ascii) (x : string) (line : Z) :
  (ch =? "`")%char = false ->
  (ch =? newline)%char = false ->
  Md_Parser.round (Some ch) (Md_Parser.mk line (span_context CodeInline x)) =
    Ok (Md_Parser.mk line (span_context CodeInline (push_back x ch)), false).
Proof.
  intros H1 H2. round_verbatim.
  unfold handlers.handleCodeInlineState. rewrite H1, H2.
  unfold next_line. rewrite H2.
  destruct (ch =? "|")%char; reflexivity.
Qed.

Lemma rounds_code_inline (l rest : list ascii) :
  forall (x : string) (line : Z),
    forallb (fun c => negb (c =? "`")%char) l = true ->
    forallb (fun c => negb (c =? newline)%char) l = true ->
    Md_Parser.rounds (l ++ rest) (Md_Parser.mk line (span_context CodeInline x)) =
      Md_Parser.rounds rest
        (Md_Parser.mk line (span_context CodeInline (x ++ string_of_list_ascii l))).
Proof.
  induction l as [ | ch l IH ]; intros x line H1 H2.
  - cbn. now rewrite string_app_nil_r.
  - cbn [forallb] in H1, H2.
    apply andb_prop in H1. destruct H1 as [Hc1 Hl1]. apply negb_true_iff in Hc1.
    apply andb_prop in H2. destruct H2 as [Hc2 Hl2]. apply negb_true_iff in Hc2.
    cbn [app Md_Parser.rounds]. rewrite round_code_inline by assumption. cbn [rbind].
    rewrite IH by assumption. unfold push_back, str.
    rewrite string_app_assoc. reflexivity.
Qed.

(** X11: inline code is verbatim.  A backtick, text without backtick or
    newline and a backtick give one Codeblock with the attribute Inline,
    directly under DocStart, whose one Content leaf is the text as it was
    written (a backslash is no escape there). *)
Theorem inline_code_is_verbatim (x : string) :
  code_text x = true ->
  Md_Parser.parse_document ("`" ++ x ++ "`") =
    Ok (Element DOCSTART [] [Element Codeblock [Inline] [Text x]]).
Proof.
  unfold code_text. intros H.
  apply andb_prop in H. destruct H as [H Hn].
  apply andb_prop in H. destruct H as [He Hb].
  destruct x as [ | c0 x ]; [ discriminate | ].
  rewrite free_of_cons in Hb, Hn.
  apply andb_prop in Hb. destruct Hb as [Hb0 Hb]. apply negb_true_iff in Hb0.
  apply andb_prop in Hn. destruct Hn as [Hn0 Hn]. apply negb_true_iff in Hn0.
  unfold Md_Parser.parse_document, Md_Parser.parse.
  cbn [String.append list_ascii_of_string Md_Parser.rounds]. unfold Md_Parser.init.
  round_compute. cbn [rbind].
  fold_context (span_context DataBacktick "").
  rewrite round_backtick_first by assumption. cbn [rbind].
  rewrite list_ascii_of_string_app.
  rewrite rounds_code_inline by assumption.
  rewrite string_of_list_ascii_of_string.
  cbn [String.append str list_ascii_of_string Md_Parser.rounds].
  unfold span_context. round_compute. eof_compute.
  reflexivity.
Qed.

Lemma inline_code_is_verbatim_witness :
  Md_Parser.parse_document ("`" ++ "a*b\c|d" ++ "`") =
    Ok (Element DOCSTART [] [Element Codeblock [Inline] [Text "a*b\c|d"]]).
Proof. apply (inline_code_is_verbatim "a*b\c|d"). reflexivity. Defined.

(** ** Emphasis *)

Lemma emphasis_char_inv (ch : ascii) :
  emphasis_char ch = true ->
  (ch =? "*")%char = false /\ (ch =? newline)%char = false
  /\ (ch =? backslash)%char = false.
Proof.
  unfold emphasis_char. intros H.
  apply andb_prop in H. destruct H as [H H3].
  apply andb_prop in H. destruct H as [H1 H2].
  repeat split; now apply negb_true_iff.
Qed.

Lemma round_emphasis_first (ch : ascii) (line : Z) :
  emphasis_char ch = true ->
  Md_Parser.round (Some ch) (Md_Parser.mk line (span_context DataAsterisk "")) =
    Ok (Md_Parser.mk line (span_context DataAsteriskData (str ch)), false)
  /\ Md_Parser.round (Some ch) (Md_Parser.mk line (span_context DataDoubleAsterisk "")) =
       Ok (Md_Parser.mk line (span_context DataDoubleAsteriskData (str ch)), false)
  /\ Md_Parser.round (Some ch) (Md_Parser.mk line (span_context DataTripleAsterisk "")) =
       Ok (Md_Parser.mk line (span_context DataTripleAsteriskData (str ch)), false).
Proof.
  intros H. destruct (emphasis_char_inv ch H) as (H1 & H2 & H3).
  repeat split; round_plain_char H3;
    unfold handlers.handleDataAsterisk, handlers.handleDoubleAsterisk,
      handlers.handleDataTripleAsterisk;
    rewrite H1, H2; unfold next_line; rewrite H2;
    destruct (ch =? "|")%char; reflexivity.
Qed.

Lemma round_emphasis_data (st : State) (ch : ascii) (x : string) (line : Z) :
  emphasis_data st = true ->
  emphasis_char ch = true ->
  Md_Parser.round (Some ch) (Md_Parser.mk line (span_context st x)) =
    Ok (Md_Parser.mk line (span_context st (push_back x ch)), false).
Proof.
  intros Hst H. destruct (emphasis_char_inv ch H) as (H1 & H2 & H3).
  destruct st; try discriminate Hst; round_plain_char H3;
    unfold handlers.handleAsteriskData, handlers.handleDataDoubleAsteriskData,
      handlers.handleDataTripleAsteriskData;
    rewrite H1, H2; unfold next_line; rewrite H2;
    destruct (ch =? "|")%char; reflexivity.
Qed.

Lemma rounds_emphasis_data (st : State) (l rest : list ascii) :
  emphasis_data st = true ->
  forall (x : string) (line : Z),
    forallb emphasis_char l = true ->
    Md_Parser.rounds (l ++ rest) (Md_Parser.mk line (span_context st x)) =
      Md_Parser.rounds rest
        (Md_Parser.mk line (span_context st (x ++ string_of_list_ascii l))).
Proof.
  intros Hst. induction l as [ | ch l IH ]; intros x line H.
  - cbn. now rewrite string_app_nil_r.
  - cbn [forallb] in H. apply andb_prop in H. destruct H as [Hc Hl].
    cbn [app Md_Parser.rounds]. rewrite round_emphasis_data by assumption. cbn [rbind].
    rewrite IH by assumption. unfold push_back, str.
    rewrite string_app_assoc. reflexivity.
Qed.

(** X12: emphasis.  For text that is not empty and has no asterisk, newline
    or backslash, one asterisk on each side gives a Span with the attribute
    Italic, two give a Span with Bold, three a Span with Bold and Italic;
    the Span is a child of DocStart and its one Content leaf is the text. *)
Theorem emphasis_spans (x : string) :
  emphasis_text x = true ->
  Md_Parser.parse_document ("*" ++ x ++ "*") =
    Ok (Element DOCSTART [] [Element Span [Italic] [Text x]])
  /\ Md_Parser.parse_document ("**" ++ x ++ "**") =
       Ok (Element DOCSTART [] [Element Span [Bold] [Text x]])
  /\ Md_Parser.parse_document ("***" ++ x ++ "***") =
       Ok (Element DOCSTART [] [Element Span [Bold; Italic] [Text x]]).
Proof.
  unfold emphasis_text. intros H.
  apply andb_prop in H. destruct H as [He H].
  destruct x as [ | c0 x ]; [ discriminate | ].
  cbn [list_ascii_of_string forallb] in H.
  apply andb_prop in H. destruct H as [H0 H].
  destruct (round_emphasis_first c0 1 H0) as (R1 & R2 & R3).
  unfold Md_Parser.parse_document, Md_Parser.parse.
  repeat split.
  - cbn [String.append list_ascii_of_string Md_Parser.rounds]. unfold Md_Parser.init.
    round_compute. fold_context (span_context DataAsterisk "").
    rewrite R1. cbn [rbind].
    rewrite list_ascii_of_string_app.
    rewrite (rounds_emphasis_data DataAsteriskData) by (reflexivity || assumption).
    rewrite string_of_list_ascii_of_string.
    cbn [String.append str list_ascii_of_string Md_Parser.rounds].
    unfold span_context. round_compute. eof_compute. reflexivity.
  - cbn [String.append list_ascii_of_string Md_Parser.rounds]. unfold Md_Parser.init.
    do 2 round_compute. fold_context (span_context DataDoubleAsterisk "").
    rewrite R2. cbn [rbind].
    rewrite list_ascii_of_string_app.
    rewrite (rounds_emphasis_data DataDoubleAsteriskData) by (reflexivity || assumption).
    rewrite string_of_list_ascii_of_string.
    cbn [String.append str list_ascii_of_string Md_Parser.rounds].
    unfold span_context. do 2 round_compute. eof_compute. reflexivity.
  - cbn [String.append list_ascii_of_string Md_Parser.rounds]. unfold Md_Parser.init.
    do 3 round_compute. fold_context (span_context DataTripleAsterisk "").
    rewrite R3. cbn [rbind].
    rewrite list_ascii_of_string_app.
    rewrite (rounds_emphasis_data DataTripleAsteriskData) by (reflexivity || assumption).
    rewrite string_of_list_ascii_of_string.
    cbn [String.append str list_ascii_of_string Md_Parser.rounds].
    unfold span_context. do 3 round_compute. eof_compute. reflexivity.
Qed.

Lemma emphasis_spans_witness :
  Md_Parser.parse_document ("*" ++ "so it is" ++ "*") =
    Ok (Element DOCSTART [] [Element Span [Italic] [Text "so it is"]])
  /\ Md_Parser.parse_document ("**" ++ "so it is" ++ "**") =
       Ok (Element DOCSTART [] [Element Span [Bold] [Text "so it is"]])
  /\ Md_Parser.parse_document ("***" ++ "so it is" ++ "***") =
       Ok (Element DOCSTART [] [Element Span [Bold; Italic] [Text "so it is"]]).
Proof. apply (emphasis_spans "so it is"). reflexivity. Defined.

(** ** Horizontal rules *)

Lemma list_of_replicate (n : nat) (c : ascii) :
  list_ascii_of_string (replicate n c) = repeat c n.
Proof. induction n as [ | n IH ]; cbn; [ reflexivity | now rewrite IH ]. Qed.

Lemma round_dash (cnt line : Z) :
  0 <= cnt < 32767 ->
  Md_Parser.round (Some "-"%char) (Md_Parser.mk line (dashes_context cnt)) =
    Ok (Md_Parser.mk line (dashes_context (cnt + 1)), false).
Proof.
  intros H. rewrite round_char by reflexivity.
  unfold dispatch.
  cbn [state dashes_context State_to_nat nth_error state_handlers State_eqb Nat.eqb negb].
  unfold handlers.handleHorizontalLine. cbn [Ascii.eqb Bool.eqb].
  unfold incr_counter, dashes_context, set_counter. cbn [counter rbind].
  unfold short_of_int.
  replace ((cnt + 1 + 32768) mod 65536 - 32768) with (cnt + 1)
    by (rewrite Z.mod_small; lia).
  reflexivity.
Qed.

Lemma rounds_dashes (n : nat) (rest : list ascii) :
  forall cnt line : Z,
    0 <= cnt -> cnt + Z.of_nat n <= 32767 ->
    Md_Parser.rounds (repeat "-"%char n ++ rest) (Md_Parser.mk line (dashes_context cnt)) =
      Md_Parser.rounds rest (Md_Parser.mk line (dashes_context (cnt + Z.of_nat n))).
Proof.
  induction n as [ | n IH ]; intros cnt line H0 H.
  - cbn [repeat app Z.of_nat]. now rewrite Z.add_0_r.
  - cbn [repeat app Md_Parser.rounds]. rewrite round_dash by lia. cbn [rbind].
    rewrite IH by lia. do 3 f_equal. lia.
Qed.

Lemma round_dashes_newline (cnt line : Z) :
  3 <= cnt ->
  exists c : Context,
    Md_Parser.round (Some newline) (Md_Parser.mk line (dashes_context cnt)) =
      Ok (Md_Parser.mk (size_t_of_int (line + 1)) c, false)
    /\ is_escaped c = false
    /\ dispatch (set_EOF_Reached true c) newline = Ok (set_EOF_Reached true c)
    /\ warning_msg c = ""
    /\ TreeBuilder.root (Token_Emitter.builder (emitter c)) =
         Some (Element DOCSTART [] [Element Horizontalline [] []]).
Proof.
  intros H. rewrite round_char by reflexivity.
  unfold dispatch.
  cbn [state dashes_context State_to_nat nth_error state_handlers State_eqb Nat.eqb negb].
  unfold handlers.handleHorizontalLine.
  cbn [Ascii.eqb Bool.eqb newline counter dashes_context].
  replace (cnt >=? 3) with true by (symmetry; apply Z.geb_le; lia).
  match goal with
  | |- context [rbind ?a _] =>
      let r := eval vm_compute in a in change a with r
  end.
  cbn [rbind]. eexists. split; [ reflexivity | ].
  repeat split.
Qed.

(** X13: a horizontal rule.  A line of three or more dashes (up to 32767,
    the largest value of the [short] that counts them) gives one
    Horizontalline node without children under DocStart. *)
Theorem horizontal_rule (k : nat) :
  3 <= Z.of_nat k <= 32767 ->
  Md_Parser.parse_document (replicate k "-" ++ nl) =
    Ok (Element DOCSTART [] [Element Horizontalline [] []]).
Proof.
  intros H. destruct k as [ | k ]; [ lia | ].
  unfold Md_Parser.parse_document, Md_Parser.parse.
  rewrite list_ascii_of_string_app, list_of_replicate.
  cbn [repeat app Md_Parser.rounds]. unfold Md_Parser.init.
  round_compute. fold_context (dashes_context 1).
  rewrite rounds_dashes by lia.
  cbn [nl list_ascii_of_string Md_Parser.rounds].
  destruct (round_dashes_newline (1 + Z.of_nat k) 1) as (c & -> & Hesc & Hd & Hw & Hr);
    [ lia | ].
  cbn [rbind]. rewrite rounds_at_eof_unescaped by exact Hesc.
  rewrite Hd. cbn [rbind Md_Parser.context].
  unfold Md_Parser.drain_warning. cbn [warning_msg set_EOF_Reached]. rewrite Hw.
  cbn [empty negb emitter set_EOF_Reached TreeBuilder.get_root fst]. rewrite Hr.
  reflexivity.
Qed.

Lemma horizontal_rule_witness :
  Md_Parser.parse_document (replicate 5 "-" ++ nl) =
    Ok (Element DOCSTART [] [Element Horizontalline [] []]).
Proof. apply (horizontal_rule 5). cbn. lia. Defined.

(** ** Links and images *)

Lemma round_link_alt (img : bool) (ch : ascii) (a : string) (line : Z) :
  alt_char ch = true ->
  Md_Parser.round (Some ch) (Md_Parser.mk line (link_context AltOpenSquared img a "" "")) =
    Ok (Md_Parser.mk line (link_context AltOpenSquared img (push_back a ch) "" ""), false).
Proof.
  unfold alt_char. intros H.
  apply andb_prop in H. destruct H as [H H3]. apply negb_true_iff in H3.
  apply andb_prop in H. destruct H as [H1 H2].
  apply negb_true_iff in H1. apply negb_true_iff in H2.
  rewrite round_char; [ | reflexivity | rewrite H3; reflexivity | reflexivity ].
  unfold dispatch.
  cbn [state link_context State_to_nat nth_error state_handlers State_eqb Nat.eqb negb].
  unfold handlers.handleAltOpenSquared. rewrite H1, H2.
  unfold next_line. rewrite H2.
  destruct img; destruct (ch =? "|")%char; reflexivity.
Qed.

Lemma round_link_url (img : bool) (ch : ascii) (a u : string) (line : Z) :
  url_char ch = true ->
  Md_Parser.round (Some ch) (Md_Parser.mk line (link_context UrlOpenRound img a u "")) =
    Ok (Md_Parser.mk line (link_context UrlOpenRound img a (push_back u ch) ""), false).
Proof.
  unfold url_char. intros H.
  apply andb_prop in H. destruct H as [H H4]. apply negb_true_iff in H4.
  apply andb_prop in H. destruct H as [H H3]. apply negb_true_iff in H3.
  apply andb_prop in H. destruct H as [H1 H2].
  apply negb_true_iff in H1. apply negb_true_iff in H2.
  rewrite round_char; [ | reflexivity | rewrite H4; reflexivity | reflexivity ].
  unfold dispatch.
  cbn [state link_context State_to_nat nth_error state_handlers State_eqb Nat.eqb negb].
  unfold handlers.handleUrlOpenRound. rewrite H1, H2, H3.
  unfold next_line. rewrite H3.
  destruct img; destruct (ch =? "|")%char; reflexivity.
Qed.

Lemma round_link_title (img : bool) (ch : ascii) (a u t : string) (line : Z) :
  title_char ch = true ->
  Md_Parser.round (Some ch) (Md_Parser.mk line (link_context TitleConsuming img a u t)) =
    Ok (Md_Parser.mk line (link_context TitleConsuming img a u (push_back t ch)), false).
Proof.
  unfold title_char. intros H.
  apply andb_prop in H. destruct H as [H H3]. apply negb_true_iff in H3.
  apply andb_prop in H. destruct H as [H1 H2].
  apply negb_true_iff in H1. apply negb_true_iff in H2.
  rewrite round_char; [ | reflexivity | rewrite H3; reflexivity | reflexivity ].
  unfold dispatch.
  cbn [state link_context State_to_nat nth_error state_handlers State_eqb Nat.eqb negb].
  unfold handlers.handleTitleConsuming. rewrite H1, H2.
  unfold next_line. rewrite H2.
  destruct img; destruct (ch =? "|")%char; reflexivity.
Qed.

Lemma push_back_list (x : string) (ch : ascii) (l : list ascii) :
  (push_back x ch ++ string_of_list_ascii l)%string
  = (x ++ string_of_list_ascii (ch :: l))%string.
Proof. unfold push_back, str. now rewrite string_app_assoc. Qed.

Lemma rounds_link_alt (img : bool) (l rest : list ascii) :
  forall (a : string) (line : Z),
    forallb alt_char l = true ->
    Md_Parser.rounds (l ++ rest)
      (Md_Parser.mk line (link_context AltOpenSquared img a "" "")) =
      Md_Parser.rounds rest
        (Md_Parser.mk line
           (link_context AltOpenSquared img (a ++ string_of_list_ascii l) "" "")).
Proof.
  induction l as [ | ch l IH ]; intros a line H.
  - cbn. now rewrite string_app_nil_r.
  - cbn [forallb] in H. apply andb_prop in H. destruct H as [Hc Hl].
    cbn [app Md_Parser.rounds]. rewrite round_link_alt by assumption. cbn [rbind].
    rewrite IH by assumption. now rewrite push_back_list.
Qed.

Lemma rounds_link_url (img : bool) (l rest : list ascii) :
  forall (a u : string) (line : Z),
    forallb url_char l = true ->
    Md_Parser.rounds (l ++ rest)
      (Md_Parser.mk line (link_context UrlOpenRound img a u "")) =
      Md_Parser.rounds rest
        (Md_Parser.mk line
           (link_context UrlOpenRound img a (u ++ string_of_list_ascii l) "")).
Proof.
  induction l as [ | ch l IH ]; intros a u line H.
  - cbn. now rewrite string_app_nil_r.
  - cbn [forallb] in H. apply andb_prop in H. destruct H as [Hc Hl].
    cbn [app Md_Parser.rounds]. rewrite round_link_url by assumption. cbn [rbind].
    rewrite IH by assumption. now rewrite push_back_list.
Qed.

Lemma rounds_link_title (img : bool) (l rest : list ascii) :
  forall (a u t : string) (line : Z),
    forallb title_char l = true ->
    Md_Parser.rounds (l ++ rest)
      (Md_Parser.mk line (link_context TitleConsuming img a u t)) =
      Md_Parser.rounds rest
        (Md_Parser.mk line
           (link_context TitleConsuming img a u (t ++ string_of_list_ascii l))).
Proof.
  induction l as [ | ch l IH ]; intros a u t line H.
  - cbn. now rewrite string_app_nil_r.
  - cbn [forallb] in H. apply andb_prop in H. destruct H as [Hc Hl].
    cbn [app Md_Parser.rounds]. rewrite round_link_title by assumption. cbn [rbind].
    rewrite IH by assumption. now rewrite push_back_list.
Qed.

(** From the start of the document to the address of a link or image. *)
Lemma rounds_link_to_url (img : bool) (a : string) (rest : list ascii) :
  all_chars alt_char a = true ->
  Md_Parser.rounds
    (list_ascii_of_string ((if img then "!" else "") ++ "[" ++ a ++ "](") ++ rest)
    Md_Parser.init =
    Md_Parser.rounds rest (Md_Parser.mk 1 (link_context UrlOpenRound img a "" "")).
Proof.
  intros Ha. unfold Md_Parser.init.
  destruct img; cbn [String.append list_ascii_of_string app Md_Parser.rounds].
  - do 2 round_compute. fold_context (link_context AltOpenSquared true "" "" "").
    rewrite list_ascii_of_string_app, <- app_assoc.
    rewrite rounds_link_alt by exact Ha.
    rewrite string_of_list_ascii_of_string.
    cbn [String.append list_ascii_of_string app Md_Parser.rounds].
    unfold link_context. do 2 round_compute. reflexivity.
  - round_compute. fold_context (link_context AltOpenSquared false "" "" "").
    rewrite list_ascii_of_string_app, <- app_assoc.
    rewrite rounds_link_alt by exact Ha.
    rewrite string_of_list_ascii_of_string.
    cbn [String.append list_ascii_of_string app Md_Parser.rounds].
    unfold link_context. do 2 round_compute. reflexivity.
Qed.

(** X14: links and images.  [[a](u)] gives one Hyperlink node under DocStart
    with the address [u], the displayed text [a] and an empty title;
    [![a](u)] gives one Image node with the source [u] and the alternative
    text [a].  With [ "t"] after the address the node has the title [t].
    The texts may be empty; [a] has no closing bracket, [u] no closing
    parenthesis and no space, [t] no double quote, and none has a newline
    or a backslash. *)
Theorem links_and_images (img : bool) (a u t : string) :
  all_chars alt_char a = true ->
  all_chars url_char u = true ->
  all_chars title_char t = true ->
  Md_Parser.parse_document (link_source img a u) =
    Ok (Element DOCSTART [] [link_node img u a ""])
  /\ Md_Parser.parse_document (titled_link_source img a u t) =
       Ok (Element DOCSTART [] [link_node img u a t]).
Proof.
  intros Ha Hu Ht. split;
    unfold Md_Parser.parse_document, Md_Parser.parse, link_source, titled_link_source.
  - replace ((if img then "!" else "") ++ "[" ++ a ++ "](" ++ u ++ ")")%string
      with (((if img then "!" else "") ++ "[" ++ a ++ "](") ++ u ++ ")")%string
      by (destruct img; cbn [String.append]; rewrite ?string_app_assoc; reflexivity).
    rewrite list_ascii_of_string_app, rounds_link_to_url by exact Ha.
    rewrite list_ascii_of_string_app, rounds_link_url by exact Hu.
    rewrite string_of_list_ascii_of_string.
    cbn [String.append list_ascii_of_string Md_Parser.rounds].
    unfold link_context. destruct img; round_compute; eof_compute; reflexivity.
  - replace ((if img then "!" else "") ++ "[" ++ a ++ "](" ++ u ++ " " ++ str dquote
               ++ t ++ str dquote ++ ")")%string
      with (((if img then "!" else "") ++ "[" ++ a ++ "](") ++ u
              ++ (" " ++ str dquote) ++ t ++ str dquote ++ ")")%string
      by (destruct img; cbn [String.append]; rewrite ?string_app_assoc; reflexivity).
    rewrite list_ascii_of_string_app, rounds_link_to_url by exact Ha.
    rewrite list_ascii_of_string_app, rounds_link_url by exact Hu.
    rewrite string_of_list_ascii_of_string.
    rewrite (list_ascii_of_string_app (" " ++ str dquote)).
    cbn [String.append str list_ascii_of_string app Md_Parser.rounds].
    unfold link_context at 1.
    destruct img.
    + do 2 round_compute. fold_context (link_context TitleConsuming true a u "").
      rewrite list_ascii_of_string_app, rounds_link_title by exact Ht.
      rewrite string_of_list_ascii_of_string.
      cbn [String.append list_ascii_of_string Md_Parser.rounds].
      unfold link_context. do 2 round_compute. eof_compute. reflexivity.
    + do 2 round_compute. fold_context (link_context TitleConsuming false a u "").
      rewrite list_ascii_of_string_app, rounds_link_title by exact Ht.
      rewrite string_of_list_ascii_of_string.
      cbn [String.append list_ascii_of_string Md_Parser.rounds].
      unfold link_context. do 2 round_compute. eof_compute. reflexivity.
Qed.

Lemma links_and_images_witness :
  Md_Parser.parse_document (link_source true "a cat" "cat.png") =
    Ok (Element DOCSTART [] [link_node true "cat.png" "a cat" ""])
  /\ Md_Parser.parse_document (titled_link_source true "a cat" "cat.png" "Tom") =
       Ok (Element DOCSTART [] [link_node true "cat.png" "a cat" "Tom"]).
Proof. apply (links_and_images true "a cat" "cat.png" "Tom"); reflexivity. Defined.

(** ** Emphasis that is not closed *)

(** X15: an emphasis that is not closed before the end of the line comes out
    with its text twice.  [*x] and a newline give a Paragraph whose one
    leaf is [x*x]: the handler hands ['*' + consumed] to
    [handle_unexpected_newline], which appends it to [consumed].  [**x]
    and a newline give the leaf [**x**x]: there the handler puts the
    asterisks back into [consumed] and hands over [consumed] itself.  In
    both cases one warning is logged, with the number of the line after
    the one the text is on. *)
Theorem unclosed_emphasis_repeats_the_text (x : string) :
  emphasis_text x = true ->
  (exists p : Md_Parser.t,
      Md_Parser.parse ("*" ++ x ++ nl) = Ok p
      /\ final_root p =
           Some (Element DOCSTART [] [Element Paragraph [] [Text (x ++ "*" ++ x)]])
      /\ final_log p = [log_warning (handlers.asterisk_warning "") 2])
  /\ (exists p : Md_Parser.t,
         Md_Parser.parse ("**" ++ x ++ nl) = Ok p
         /\ final_root p =
              Some (Element DOCSTART []
                      [Element Paragraph [] [Text ("**" ++ x ++ "**" ++ x)]])
         /\ final_log p = [log_warning (handlers.asterisk_warning "") 2]).
Proof.
  unfold emphasis_text. intros H.
  apply andb_prop in H. destruct H as [He H].
  destruct x as [ | c0 x ]; [ discriminate | ].
  cbn [list_ascii_of_string forallb] in H.
  apply andb_prop in H. destruct H as [H0 H].
  destruct (round_emphasis_first c0 1 H0) as (R1 & R2 & _).
  unfold Md_Parser.parse, final_root, final_log.
  split.
  - cbn [String.append list_ascii_of_string Md_Parser.rounds]. unfold Md_Parser.init.
    round_compute. fold_context (span_context DataAsterisk "").
    rewrite R1. cbn [rbind].
    rewrite list_ascii_of_string_app.
    rewrite (rounds_emphasis_data DataAsteriskData) by (reflexivity || assumption).
    rewrite string_of_list_ascii_of_string.
    cbn [String.append str nl list_ascii_of_string Md_Parser.rounds].
    unfold span_context. round_compute. eof_compute.
    eexists. split; [ reflexivity | ]. split; reflexivity.
  - cbn [String.append list_ascii_of_string Md_Parser.rounds]. unfold Md_Parser.init.
    do 2 round_compute. fold_context (span_context DataDoubleAsterisk "").
    rewrite R2. cbn [rbind].
    rewrite list_ascii_of_string_app.
    rewrite (rounds_emphasis_data DataDoubleAsteriskData) by (reflexivity || assumption).
    rewrite string_of_list_ascii_of_string.
    cbn [String.append str nl list_ascii_of_string Md_Parser.rounds].
    unfold span_context. round_compute. eof_compute.
    eexists. split; [ reflexivity | ]. split; reflexivity.
Qed.

Lemma unclosed_emphasis_repeats_the_text_witness :
  (exists p : Md_Parser.t,
      Md_Parser.parse ("*" ++ "ab" ++ nl) = Ok p
      /\ final_root p =
           Some (Element DOCSTART [] [Element Paragraph [] [Text ("ab" ++ "*" ++ "ab")]])
      /\ final_log p = [log_warning (handlers.asterisk_warning "") 2])
  /\ (exists p : Md_Parser.t,
         Md_Parser.parse ("**" ++ "ab" ++ nl) = Ok p
         /\ final_root p =
              Some (Element DOCSTART []
                      [Element Paragraph [] [Text ("**" ++ "ab" ++ "**" ++ "ab")]])
         /\ final_log p = [log_warning (handlers.asterisk_warning "") 2]).
Proof. apply (unclosed_emphasis_repeats_the_text "ab"). reflexivity. Defined.

(** ** A header row without cells *)

Lemma blank_char (ch : ascii) :
  ((ch =? " ")%char || (ch =? tab)%char) = true -> ch = " "%char \/ ch = tab.
Proof.
  intros H. apply orb_prop in H. destruct H as [H | H]; apply Ascii.eqb_eq in H; tauto.
Qed.

Lemma round_blank (ch : ascii) (w : string) (line : Z) :
  ((ch =? " ")%char || (ch =? tab)%char) = true ->
  Md_Parser.round (Some ch) (Md_Parser.mk line (blanks_context w)) =
    Ok (Md_Parser.mk line (blanks_context (push_back w ch)), false)
  /\ Md_Parser.round (Some ch) (Md_Parser.mk line (first_head_context w)) =
       Ok (Md_Parser.mk line (first_head_context (push_back w ch)), false).
Proof.
  intros H. destruct (blank_char ch H) as [ -> | -> ]; split;
    rewrite round_char by reflexivity; unfold dispatch;
    cbn [state blanks_context first_head_context State_to_nat nth_error state_handlers
         State_eqb Nat.eqb negb];
    unfold handlers.handleData, handlers.handleTableHeaderNames;
    cbn [Ascii.eqb Bool.eqb tab newline isdigit int_of_char];
    rewrite ?Bool.andb_false_r; reflexivity.
Qed.

Lemma rounds_blanks (l rest : list ascii) :
  forall (w : string) (line : Z),
    forallb (fun ch => (ch =? " ")%char || (ch =? tab)%char) l = true ->
    Md_Parser.rounds (l ++ rest) (Md_Parser.mk line (blanks_context w)) =
      Md_Parser.rounds rest
        (Md_Parser.mk line (blanks_context (w ++ string_of_list_ascii l)))
    /\ Md_Parser.rounds (l ++ rest) (Md_Parser.mk line (first_head_context w)) =
         Md_Parser.rounds rest
           (Md_Parser.mk line (first_head_context (w ++ string_of_list_ascii l))).
Proof.
  induction l as [ | ch l IH ]; intros w line H.
  - cbn. now rewrite string_app_nil_r.
  - cbn [forallb] in H. apply andb_prop in H. destruct H as [Hc Hl].
    destruct (round_blank ch w line Hc) as [R1 R2].
    destruct (IH (push_back w ch) line Hl) as [I1 I2].
    cbn [app Md_Parser.rounds]. rewrite R1, R2. cbn [rbind].
    rewrite I1, I2, push_back_list. split; reflexivity.
Qed.

Lemma round_first_pipe (w : string) (line : Z) :
  only_whitespace w = true ->
  Md_Parser.round (Some "|"%char) (Md_Parser.mk line (blanks_context w)) =
    Ok (Md_Parser.mk line (first_head_context ""), false).
Proof.
  intros H. rewrite round_char by reflexivity. unfold dispatch.
  cbn [state blanks_context State_to_nat nth_error state_handlers State_eqb Nat.eqb negb].
  unfold handlers.handleData. cbn [Ascii.eqb Bool.eqb].
  unfold consumed_only_whitespace, blanks_context. cbn [consumed]. rewrite H.
  match goal with
  | |- context [rbind ?a _] => let r := eval vm_compute in a in change a with r
  end.
  reflexivity.
Qed.

Lemma empty_header_row (w : string) :
  only_whitespace w = true ->
  dispatch (first_head_context w) newline = Err empty_header
  /\ dispatch (set_EOF_Reached true (first_head_context w)) newline = Err empty_header.
Proof.
  intros H. unfold dispatch.
  cbn [state set_EOF_Reached first_head_context State_to_nat nth_error state_handlers
       State_eqb Nat.eqb negb].
  unfold handlers.handleTableHeaderNames. cbn [Ascii.eqb Bool.eqb newline].
  unfold consumed_only_whitespace.
  cbn [consumed set_EOF_Reached first_head_context]. rewrite H.
  split; vm_compute; reflexivity.
Qed.

(** X16: a header row without cells stops the parse.  When the first line of
    the document is one pipe, with blanks or nothing around it, the Close
    of the header row finds no cell and throws "Table header should not be
    empty": [parse_document] fails with it whatever follows, and also when
    the input ends in that line. *)
Theorem lone_pipe_line_fails (w1 w2 rest : string) :
  only_whitespace w1 = true ->
  only_whitespace w2 = true ->
  Md_Parser.parse_document (w1 ++ "|" ++ w2 ++ nl ++ rest) = Err empty_header
  /\ Md_Parser.parse_document (w1 ++ "|" ++ w2) = Err empty_header.
Proof.
  intros H1 H2. unfold Md_Parser.parse_document, Md_Parser.parse, Md_Parser.init.
  fold (blanks_context "").
  split.
  - rewrite list_ascii_of_string_app.
    rewrite (proj1 (rounds_blanks _ _ "" 1 H1)).
    rewrite string_of_list_ascii_of_string.
    cbn [String.append list_ascii_of_string Md_Parser.rounds].
    rewrite round_first_pipe by exact H1. cbn [rbind].
    rewrite list_ascii_of_string_app.
    rewrite (proj2 (rounds_blanks _ _ "" 1 H2)).
    rewrite string_of_list_ascii_of_string.
    cbn [String.append nl list_ascii_of_string Md_Parser.rounds].
    rewrite round_char by reflexivity.
    rewrite (proj1 (empty_header_row w2 H2)). reflexivity.
  - rewrite list_ascii_of_string_app.
    rewrite (proj1 (rounds_blanks _ _ "" 1 H1)).
    rewrite string_of_list_ascii_of_string.
    cbn [String.append list_ascii_of_string Md_Parser.rounds].
    rewrite round_first_pipe by exact H1. cbn [rbind].
    rewrite <- (app_nil_r (list_ascii_of_string w2)).
    rewrite (proj2 (rounds_blanks _ _ "" 1 H2)).
    rewrite string_of_list_ascii_of_string.
    cbn [String.append Md_Parser.rounds].
    rewrite rounds_at_eof_unescaped by reflexivity.
    rewrite (proj2 (empty_header_row w2 H2)). reflexivity.
Qed.

Lemma lone_pipe_line_fails_witness :
  Md_Parser.parse_document (" " ++ "|" ++ " " ++ nl ++ "text") = Err empty_header
  /\ Md_Parser.parse_document (" " ++ "|" ++ " ") = Err empty_header.
Proof. apply (lone_pipe_line_fails " " " " "text"); reflexivity. Defined.

(** ** Lists *)

Lemma list_fetch_open (kind : ElementType) (done kids : list Node) :
  Token_Emitter.fetch_current_element (list_emitter kind done (Some kids)) =
    Ok List_Element.
Proof.
  unfold Token_Emitter.fetch_current_element, TreeBuilder.get_current_element,
    TreeBuilder.deref_current, list_emitter, Element.
  cbn [Token_Emitter.builder TreeBuilder.root TreeBuilder.current get_node nth_error
       children].
  rewrite nth_error_snoc. reflexivity.
Qed.

Lemma list_fetch_closed (kind : ElementType) (done : list Node) :
  Token_Emitter.fetch_current_element (list_emitter kind done None) = Ok kind.
Proof. reflexivity. Qed.

Lemma list_emit_content (kind : ElementType) (done kids : list Node) (text : string) :
  Token_Emitter.emit_token (Token.mk ContentToken Content text "" "")
    (list_emitter kind done (Some kids)) =
    Ok (list_emitter kind done (Some (kids ++ [Text text])), []).
Proof.
  unfold Token_Emitter.emit_token, list_emitter, Element, Text.
  cbn [Token_Emitter.table_parsing_flag Token.element ElementType_eqb ElementType_to_int
       Z.eqb Pos.eqb Token_Emitter.builder Token_Emitter.table_manager].
  unfold TreeBuilder.consume_token, TreeBuilder.attach.
  cbn [Token.type Token.element Token.content TreeBuilder.root TreeBuilder.current
       get_node update_node nth_error children].
  rewrite nth_error_snoc.
  cbn [update_node set_children add_child element attributes children data replace_nth
       rbind].
  rewrite replace_nth_snoc. reflexivity.
Qed.

Lemma list_emit_close_item (kind : ElementType) (done kids : list Node) :
  Token_Emitter.emit_token (Token.mk CloseToken List_Element "" "" "")
    (list_emitter kind done (Some kids)) =
    Ok (list_emitter kind (done ++ [Element List_Element [] kids]) None, []).
Proof.
  unfold Token_Emitter.emit_token, list_emitter, Element.
  cbn [Token_Emitter.table_parsing_flag Token.element ElementType_eqb ElementType_to_int
       Z.eqb Pos.eqb Token_Emitter.builder Token_Emitter.table_manager].
  unfold TreeBuilder.consume_token, TreeBuilder.deref_current.
  cbn [Token.type Token.element TreeBuilder.root TreeBuilder.current
       get_node nth_error children].
  rewrite nth_error_snoc.
  cbn [rbind element ElementType_eqb ElementType_to_int Z.eqb Pos.eqb negb parent
       removelast].
  rewrite app_nil_r. reflexivity.
Qed.

Lemma list_emit_open_item (kind : ElementType) (done : list Node) :
  Token_Emitter.emit_token (Token.mk OpenToken List_Element "" "" "")
    (list_emitter kind done None) =
    Ok (list_emitter kind done (Some []), []).
Proof.
  unfold Token_Emitter.emit_token, list_emitter, Element.
  cbn [Token_Emitter.table_parsing_flag Token.element ElementType_eqb ElementType_to_int
       Z.eqb Pos.eqb Token_Emitter.builder Token_Emitter.table_manager].
  unfold TreeBuilder.consume_token, TreeBuilder.attach.
  cbn [Token.type Token.element TreeBuilder.root TreeBuilder.current
       get_node update_node nth_error children set_children add_child element attributes
       data replace_nth rbind app].
  rewrite app_nil_r. reflexivity.
Qed.

(** Rounds that only collect text. *)
Lemma rounds_collect (P : ascii -> bool) (ctx : string -> Context) :
  (forall (ch : ascii) (x : string) (line : Z),
      P ch = true ->
      Md_Parser.round (Some ch) (Md_Parser.mk line (ctx x)) =
        Ok (Md_Parser.mk (next_line ch line) (ctx (push_back x ch)), false)) ->
  forall (l rest : list ascii) (x : string) (line : Z),
    forallb P l = true ->
    Md_Parser.rounds (l ++ rest) (Md_Parser.mk line (ctx x)) =
      Md_Parser.rounds rest
        (Md_Parser.mk (lines_after l line) (ctx (x ++ string_of_list_ascii l)%string)).
Proof.
  intros Hstep l rest. induction l as [ | ch l IH ]; intros x line H.
  - cbn. now rewrite string_app_nil_r.
  - cbn [forallb] in H. apply andb_prop in H. destruct H as [Hc Hl].
    cbn [app Md_Parser.rounds]. rewrite Hstep by exact Hc. cbn [rbind].
    rewrite IH by exact Hl. now rewrite push_back_list.
Qed.

Lemma lines_after_no_newline (l : list ascii) (line : Z) :
  forallb (fun c => negb (c =? newline)%char) l = true ->
  lines_after l line = line.
Proof.
  revert line. induction l as [ | ch l IH ]; intros line H; [ reflexivity | ].
  cbn [forallb] in H. apply andb_prop in H. destruct H as [Hc Hl].
  apply negb_true_iff in Hc. unfold lines_after. cbn [fold_left].
  unfold next_line at 2. rewrite Hc. apply IH, Hl.
Qed.

(** A plain character inside an item, after the first one. *)
Lemma round_item_char (kind : ElementType) (prep : State) (done : list Node)
      (c0 : ascii) (ch : ascii) (x : string) (line : Z) :
  plain_char ch && negb (ch =? newline)%char = true ->
  Md_Parser.round (Some ch)
    (Md_Parser.mk line (item_context kind prep done (String c0 x))) =
    Ok (Md_Parser.mk (next_line ch line)
          (item_context kind prep done (push_back (String c0 x) ch)), false).
Proof.
  intros H. apply andb_prop in H. destruct H as [Hp Hn]. apply negb_true_iff in Hn.
  destruct (plain_char_not_special ch Hp)
    as (H1 & H2 & H3 & H4 & H5 & H6 & H7 & H8 & H9 & H10).
  rewrite round_char; [ | reflexivity | rewrite H9; reflexivity | reflexivity ].
  unfold dispatch.
  cbn [state item_context State_to_nat nth_error state_handlers State_eqb Nat.eqb negb].
  unfold handlers.handleData. rewrite H1, H2, H3, H4, H5, H6, H7, H8, Hn.
  cbn [consumed empty andb rbind].
  unfold after_handler, Md_Parser.drain_warning, append_consumed, set_consumed.
  cbn [warning_msg newline_counter empty negb andb Z.eqb consumed].
  reflexivity.
Qed.

(** The first character of an item: no digit. *)
Lemma round_item_first (kind : ElementType) (prep : State) (done : list Node)
      (ch : ascii) (line : Z) :
  plain_char ch = true ->
  (ch =? newline)%char = false ->
  isdigit ch = false ->
  Md_Parser.round (Some ch) (Md_Parser.mk line (item_context kind prep done "")) =
    Ok (Md_Parser.mk line (item_context kind prep done (str ch)), false).
Proof.
  intros Hp Hn Hd.
  destruct (plain_char_not_special ch Hp)
    as (H1 & H2 & H3 & H4 & H5 & H6 & H7 & H8 & H9 & H10).
  rewrite round_char; [ | reflexivity | rewrite H9; reflexivity | reflexivity ].
  unfold dispatch.
  cbn [state item_context State_to_nat nth_error state_handlers State_eqb Nat.eqb negb].
  unfold handlers.handleData. rewrite H1, H2, H3, H4, H5, H6, H7, H8, Hn.
  cbn [consumed empty andb rbind]. rewrite Hd.
  unfold after_handler, Md_Parser.drain_warning, append_consumed, set_consumed, next_line.
  rewrite Hn.
  cbn [warning_msg newline_counter empty negb andb Z.eqb consumed].
  reflexivity.
Qed.

(** The newline that ends an item. *)
Lemma round_item_newline (kind : ElementType) (prep : State) (done : list Node)
      (c0 : ascii) (x : string) (line : Z) :
  Md_Parser.round (Some newline)
    (Md_Parser.mk line (item_context kind prep done (String c0 x))) =
    Ok (Md_Parser.mk (size_t_of_int (line + 1))
          (between_items kind prep (done ++ [item_node (String c0 x)]) ""), false).
Proof.
  rewrite round_char by reflexivity.
  unfold dispatch.
  cbn [state item_context State_to_nat nth_error state_handlers State_eqb Nat.eqb negb].
  unfold handlers.handleData. cbn [Ascii.eqb Bool.eqb newline].
  unfold item_context, emit_content_token, fetch_current_element, emit_token.
  ctx_norm. cbn [empty]. rewrite list_fetch_open. ctx_norm.
  rewrite list_emit_content. ctx_norm.
  rewrite list_emit_close_item. ctx_norm.
  unfold after_handler, Md_Parser.drain_warning.
  cbn [warning_msg newline_counter empty negb andb Z.eqb next_line Ascii.eqb Bool.eqb
       newline].
  reflexivity.
Qed.

Lemma item_text_inv (x : string) :
  item_text x = true ->
  exists (c0 : ascii) (x' : string),
    x = String c0 x'
    /\ plain_char c0 = true /\ (c0 =? newline)%char = false /\ isdigit c0 = false
    /\ forallb (fun ch => plain_char ch && negb (ch =? newline)%char)
         (list_ascii_of_string x') = true.
Proof.
  unfold item_text, plain_text, newline_free. intros H.
  apply andb_prop in H. destruct H as [H Hn].
  apply andb_prop in H. destruct H as [Hd Hp].
  destruct x as [ | c0 x' ]; [ discriminate | ].
  exists c0, x'. cbn [list_ascii_of_string forallb] in Hp, Hn.
  apply andb_prop in Hp. destruct Hp as [Hp0 Hp].
  apply andb_prop in Hn. destruct Hn as [Hn0 Hn].
  apply negb_true_iff in Hn0. apply negb_true_iff in Hd.
  repeat split; try assumption.
  clear - Hp Hn. induction (list_ascii_of_string x') as [ | ch l IH ]; [ reflexivity | ].
  cbn [forallb] in *.
  apply andb_prop in Hp. destruct Hp as [Hp0 Hp].
  apply andb_prop in Hn. destruct Hn as [Hn0 Hn].
  rewrite Hp0, Hn0, (IH Hp Hn). reflexivity.
Qed.

Lemma forallb_weaken {A : Type} (P Q : A -> bool) (l : list A) :
  (forall a, P a = true -> Q a = true) -> forallb P l = true -> forallb Q l = true.
Proof.
  intros W. induction l as [ | a l IH ]; [ reflexivity | ].
  cbn [forallb]. intros H. apply andb_prop in H. destruct H as [H1 H2].
  now rewrite (W a H1), (IH H2).
Qed.

(** The text of an item and the newline after it. *)
Lemma rounds_item_text (kind : ElementType) (prep : State) (done : list Node)
      (x : string) (rest : list ascii) (line : Z) :
  item_text x = true ->
  Md_Parser.rounds (list_ascii_of_string x ++ newline :: rest)
    (Md_Parser.mk line (item_context kind prep done "")) =
    Md_Parser.rounds rest
      (Md_Parser.mk (size_t_of_int (line + 1))
         (between_items kind prep (done ++ [item_node x]) "")).
Proof.
  intros H. destruct (item_text_inv x H) as (c0 & x' & -> & Hp & Hn & Hd & Hl).
  cbn [list_ascii_of_string app Md_Parser.rounds].
  rewrite round_item_first by assumption. cbn [rbind].
  rewrite (rounds_collect (fun ch => plain_char ch && negb (ch =? newline)%char)
             (fun s => item_context kind prep done (String c0 s))
             (fun ch s l' Hc => round_item_char kind prep done c0 ch s l' Hc)
             _ _ "" line Hl).
  rewrite lines_after_no_newline
    by (apply (forallb_weaken _ _ _ (fun a Ha => proj2 (andb_prop _ _ Ha)) Hl)).
  cbn [String.append]. rewrite string_of_list_ascii_of_string.
  cbn [Md_Parser.rounds]. rewrite round_item_newline. reflexivity.
Qed.

Lemma dedent_at_level_0 (c : Context) :
  counter c = 0 ->
  indent_level c = 0 ->
  handlers.dedent c = Ok (set_counter 0 (set_indent_level 0 c)).
Proof.
  intros H1 H2. unfold handlers.dedent. rewrite H1.
  change (negb (Z.rem 0 INDENTATION =? 0)) with false. cbv iota zeta.
  rewrite H1, H2. reflexivity.
Qed.

(** The marker of a further item of an unordered list. *)
Lemma rounds_unordered_marker (done : list Node) (rest : list ascii) (line : Z) :
  Md_Parser.rounds ("-"%char :: " "%char :: rest)
    (Md_Parser.mk line (between_items List_Unordered UnorderedListPrep done "")) =
    Md_Parser.rounds rest
      (Md_Parser.mk line (item_context List_Unordered UnorderedListPrep done "")).
Proof.
  cbn [Md_Parser.rounds]. unfold between_items at 1.
  round_compute. fold_context (between_items List_Unordered UnorderedList done "").
  rewrite round_char by reflexivity. unfold dispatch.
  cbn [state between_items State_to_nat nth_error state_handlers State_eqb Nat.eqb negb].
  unfold handlers.handleUnorderedList. cbn [Ascii.eqb Bool.eqb tab orb].
  change (counter (between_items List_Unordered UnorderedList done "")
          >=? indent_level (between_items List_Unordered UnorderedList done "")
              + INDENTATION) with false.
  cbv iota. unfold seq at 1 2 3 4.
  rewrite dedent_at_level_0 by reflexivity.
  unfold between_items, handlers.open_blockquote_in_list, emit_token, push,
    ReturnStateStack.push.
  ctx_norm.
  rewrite list_emit_open_item. ctx_norm.
  cbn [blockquote_in_list ReturnStateStack.is_a_return_state
       ReturnStateStack.allowed_return_states existsb State_eqb State_to_nat Nat.eqb
       orb negb]. ctx_norm.
  unfold after_handler, Md_Parser.drain_warning.
  cbn [warning_msg newline_counter empty negb andb Z.eqb next_line Ascii.eqb Bool.eqb
       newline].
  reflexivity.
Qed.

(** The end of the stream between two items: the list is closed. *)
Lemma rounds_at_eof_between_items (done : list Node) (line : Z) :
  (exists p : Md_Parser.t,
      Md_Parser.rounds_at_eof
        (Md_Parser.mk line (between_items List_Unordered UnorderedListPrep done "")) = Ok p
      /\ final_root p = Some (Element DOCSTART [] [Element List_Unordered [] done]))
  /\ (exists p : Md_Parser.t,
         Md_Parser.rounds_at_eof
           (Md_Parser.mk line (between_items List_Ordered OrderedListPrep done "")) = Ok p
         /\ final_root p = Some (Element DOCSTART [] [Element List_Ordered [] done])).
Proof.
  split; rewrite rounds_at_eof_unescaped by reflexivity; unfold dispatch;
    cbn [state set_EOF_Reached between_items State_to_nat nth_error state_handlers
         State_eqb Nat.eqb negb];
    unfold handlers.handleUnorderedListPrep, handlers.handleOrderedListPrep;
    cbn [Ascii.eqb Bool.eqb newline];
    unfold handlers.leave_lists, move_up_rounds, between_items;
    ctx_norm; cbn [rounds_le Z.ltb Z.leb Z.compare];
    change (Z.to_nat (Z.quot 0 INDENTATION + 1)) with 1%nat;
    cbn [repeat_action]; ctx_norm;
    unfold move_up_the_tree, fetch_current_element, emit_token; ctx_norm;
    rewrite list_fetch_closed; ctx_norm;
    unfold Token_Emitter.emit_token, list_emitter, TreeBuilder.consume_token,
      TreeBuilder.deref_current;
    ctx_norm;
    cbn [get_node nth_error children Element parent removelast];
    ctx_norm;
    (eexists; split; [ reflexivity | ]);
    unfold final_root, Md_Parser.drain_warning, setup_list_parsing; ctx_norm;
    cbn [Md_Parser.context empty negb]; ctx_norm; reflexivity.
Qed.

Lemma concat_all_cons (s : string) (l : list string) :
  concat_all (s :: l) = (s ++ concat_all l)%string.
Proof. reflexivity. Qed.

Lemma rounds_unordered_items (items : list string) :
  forall (done : list Node) (line : Z),
    forallb item_text items = true ->
    exists line' : Z,
      Md_Parser.rounds (list_ascii_of_string (unordered_source items))
        (Md_Parser.mk line (between_items List_Unordered UnorderedListPrep done "")) =
        Md_Parser.rounds_at_eof
          (Md_Parser.mk line'
             (between_items List_Unordered UnorderedListPrep
                (done ++ map item_node items) "")).
Proof.
  induction items as [ | x items IH ]; intros done line H.
  - exists line. cbn [unordered_source map concat_all list_ascii_of_string Md_Parser.rounds].
    now rewrite app_nil_r.
  - cbn [forallb] in H. apply andb_prop in H. destruct H as [Hx Hl].
    destruct (IH (done ++ [item_node x]) (size_t_of_int (line + 1)) Hl) as (line' & E).
    exists line'. unfold unordered_source in *. cbn [map]. rewrite concat_all_cons.
    set (tail := concat_all (map _ items)) in *.
    rewrite list_ascii_of_string_app.
    cbn [String.append list_ascii_of_string app].
    rewrite rounds_unordered_marker.
    rewrite list_ascii_of_string_app, <- app_assoc.
    cbn [nl list_ascii_of_string app].
    rewrite rounds_item_text by exact Hx.
    rewrite E. rewrite <- app_assoc. reflexivity.
Qed.

(** X17: an unordered list.  Lines that begin with a dash and a space, each
    followed by plain text (no sigil, no digit in front) and a newline,
    give one List_Unordered under DocStart with one List_Element for each
    line, in order; the text of a line is the one Content leaf of its
    item, without a Paragraph around it. *)
Theorem unordered_list_items (x : string) (more : list string) :
  forallb item_text (x :: more) = true ->
  Md_Parser.parse_document (unordered_source (x :: more)) =
    Ok (Element DOCSTART [] [Element List_Unordered [] (map item_node (x :: more))]).
Proof.
  intros H. cbn [forallb] in H. apply andb_prop in H. destruct H as [Hx Hl].
  unfold Md_Parser.parse_document, Md_Parser.parse, unordered_source.
  cbn [map]. rewrite concat_all_cons.
  set (tail := concat_all (map _ more)).
  rewrite list_ascii_of_string_app.
  cbn [String.append list_ascii_of_string app Md_Parser.rounds].
  unfold Md_Parser.init. do 2 round_compute.
  fold_context (item_context List_Unordered UnorderedListPrep [] "").
  rewrite list_ascii_of_string_app, <- app_assoc.
  cbn [nl list_ascii_of_string app].
  rewrite rounds_item_text by exact Hx.
  destruct (rounds_unordered_items more ([] ++ [item_node x]) (size_t_of_int (1 + 1)) Hl)
    as (line' & E).
  unfold unordered_source in E. fold tail in E. rewrite E.
  destruct (proj1 (rounds_at_eof_between_items
                     (([] ++ [item_node x]) ++ map item_node more) line'))
    as (p & -> & Hr).
  cbn [rbind TreeBuilder.get_root fst]. unfold final_root in Hr. rewrite Hr.
  reflexivity.
Qed.

Lemma unordered_list_items_witness :
  Md_Parser.parse_document (unordered_source ["tea"; "milk and sugar"]) =
    Ok (Element DOCSTART []
          [Element List_Unordered [] (map item_node ["tea"; "milk and sugar"])]).
Proof. apply (unordered_list_items "tea" ["milk and sugar"]). reflexivity. Defined.

(** *** Ordered lists *)

Lemma digit_not_special (d : ascii) :
  isdigit d = true ->
  (d =? "#")%char = false /\ (d =? "*")%char = false /\ (d =? "-")%char = false
  /\ (d =? "`")%char = false /\ (d =? ">")%char = false /\ (d =? "[")%char = false
  /\ (d =? "!")%char = false /\ (d =? "|")%char = false
  /\ (d =? backslash)%char = false /\ (d =? ".")%char = false
  /\ (d =? newline)%char = false /\ (d =? tab)%char = false /\ (d =? " ")%char = false
  /\ (d =? "+")%char = false.
Proof.
  destruct d as [[] [] [] [] [] [] [] []]; vm_compute; intros H;
    try discriminate H; repeat split.
Qed.

(** The marker of a further item of an ordered list: a digit, a dot and a
    space. *)
Lemma rounds_ordered_marker (d : ascii) (done : list Node) (rest : list ascii) (line : Z) :
  isdigit d = true ->
  Md_Parser.rounds (d :: "."%char :: " "%char :: rest)
    (Md_Parser.mk line (between_items List_Ordered OrderedListPrep done "")) =
    Md_Parser.rounds rest
      (Md_Parser.mk line (item_context List_Ordered OrderedListPrep done "")).
Proof.
  intros Hd.
  destruct (digit_not_special d Hd)
    as (H1 & H2 & H3 & H4 & H5 & H6 & H7 & H8 & H9 & H10 & H11 & H12 & H13 & H14).
  cbn [Md_Parser.rounds].
  (* the digit *)
  rewrite round_char; [ | reflexivity | rewrite H9; reflexivity | reflexivity ].
  unfold dispatch.
  cbn [state between_items State_to_nat nth_error state_handlers State_eqb Nat.eqb negb].
  unfold handlers.handleOrderedListPrep, handlers.is_list_marker.
  rewrite H11, H12, H13, H2, H14, H5, H3, Hd. cbn [orb rbind].
  unfold after_handler, Md_Parser.drain_warning, next_line. rewrite H11.
  cbn [warning_msg newline_counter set_state append_consumed set_consumed empty negb andb
       Z.eqb].
  fold_context (between_items List_Ordered DataConsumingNumber done (str d)).
  (* the dot *)
  unfold between_items at 1. round_compute.
  fold_context (between_items List_Ordered DataOrdinalNumber done (String d ".")).
  (* the space *)
  rewrite round_char by reflexivity. unfold dispatch.
  cbn [state between_items State_to_nat nth_error state_handlers State_eqb Nat.eqb negb].
  unfold handlers.handleDataOrdinalNumber. cbn [Ascii.eqb Bool.eqb].
  unfold fetch_current_element at 1. cbn [emitter set_consumed between_items].
  rewrite list_fetch_closed. cbn [rbind handlers.is_list ElementType_eqb ElementType_to_int
                                   Z.eqb Pos.eqb orb].
  cbn [counter indent_level set_consumed between_items].
  change (0 >=? 0 + INDENTATION) with false. cbv iota.
  unfold seq at 1 2 3 4.
  rewrite dedent_at_level_0 by reflexivity.
  unfold between_items, handlers.open_blockquote_in_list, emit_token, push,
    ReturnStateStack.push.
  ctx_norm.
  cbn [ReturnStateStack.is_a_return_state
       ReturnStateStack.allowed_return_states existsb State_eqb State_to_nat Nat.eqb
       orb negb]. ctx_norm.
  rewrite list_emit_open_item. ctx_norm.
  cbn [blockquote_in_list]. ctx_norm.
  unfold after_handler, Md_Parser.drain_warning.
  cbn [warning_msg newline_counter empty negb andb Z.eqb next_line Ascii.eqb Bool.eqb
       newline].
  reflexivity.
Qed.

Lemma isdigit_cases (d : ascii) :
  isdigit d = true ->
  In d ["0"; "1"; "2"; "3"; "4"; "5"; "6"; "7"; "8"; "9"]%char.
Proof.
  destruct d as [[] [] [] [] [] [] [] []]; vm_compute; intros H;
    try discriminate H; tauto.
Qed.

(** The marker of the first item of an ordered list, at the start of the
    document. *)
Lemma rounds_first_ordered_marker (d : ascii) (rest : list ascii) :
  isdigit d = true ->
  Md_Parser.rounds (d :: "."%char :: " "%char :: rest) Md_Parser.init =
    Md_Parser.rounds rest
      (Md_Parser.mk 1 (item_context List_Ordered OrderedListPrep [] "")).
Proof.
  intros Hd. apply isdigit_cases in Hd. cbn [In] in Hd.
  cbn [Md_Parser.rounds]. unfold Md_Parser.init.
  repeat (destruct Hd as [ <- | Hd ];
          [ do 3 round_compute;
            fold_context (item_context List_Ordered OrderedListPrep [] "");
            reflexivity | ]).
  destruct Hd.
Qed.

Lemma rounds_ordered_items (items : list (ascii * string)) :
  forall (done : list Node) (line : Z),
    forallb (fun it => isdigit (fst it) && item_text (snd it)) items = true ->
    exists line' : Z,
      Md_Parser.rounds (list_ascii_of_string (ordered_source items))
        (Md_Parser.mk line (between_items List_Ordered OrderedListPrep done "")) =
        Md_Parser.rounds_at_eof
          (Md_Parser.mk line'
             (between_items List_Ordered OrderedListPrep
                (done ++ map (fun it => item_node (snd it)) items) "")).
Proof.
  induction items as [ | [d x] items IH ]; intros done line H.
  - exists line. cbn [ordered_source map concat_all list_ascii_of_string Md_Parser.rounds].
    now rewrite app_nil_r.
  - cbn [forallb fst snd] in H. apply andb_prop in H. destruct H as [Hx Hl].
    apply andb_prop in Hx. destruct Hx as [Hd Hx].
    destruct (IH (done ++ [item_node x]) (size_t_of_int (line + 1)) Hl) as (line' & E).
    exists line'. unfold ordered_source in *. cbn [map]. rewrite concat_all_cons.
    set (tail := concat_all (map _ items)) in *.
    rewrite list_ascii_of_string_app.
    cbn [String.append list_ascii_of_string app fst snd str].
    rewrite rounds_ordered_marker by exact Hd.
    rewrite list_ascii_of_string_app, <- app_assoc.
    cbn [nl list_ascii_of_string app].
    rewrite rounds_item_text by exact Hx.
    rewrite E. rewrite <- app_assoc. reflexivity.
Qed.

(** X18: an ordered list.  Lines that begin with one digit, a dot and a
    space, each followed by plain text and a newline, give one List_Ordered
    under DocStart with one List_Element for each line, in order.  The
    digits are not kept: whatever numbers the source has, the tree is the
    same. *)
Theorem ordered_list_items (d : ascii) (x : string) (more : list (ascii * string)) :
  forallb (fun it => isdigit (fst it) && item_text (snd it)) ((d, x) :: more) = true ->
  Md_Parser.parse_document (ordered_source ((d, x) :: more)) =
    Ok (Element DOCSTART []
          [Element List_Ordered [] (map (fun it => item_node (snd it)) ((d, x) :: more))]).
Proof.
  intros H. cbn [forallb fst snd] in H. apply andb_prop in H. destruct H as [Hx Hl].
  apply andb_prop in Hx. destruct Hx as [Hd Hx].
  unfold Md_Parser.parse_document, Md_Parser.parse, ordered_source.
  cbn [map]. rewrite concat_all_cons.
  set (tail := concat_all (map _ more)).
  rewrite list_ascii_of_string_app.
  cbn [String.append list_ascii_of_string app fst snd str].
  rewrite rounds_first_ordered_marker by exact Hd.
  rewrite list_ascii_of_string_app, <- app_assoc.
  cbn [nl list_ascii_of_string app].
  rewrite rounds_item_text by exact Hx.
  destruct (rounds_ordered_items more ([] ++ [item_node x]) (size_t_of_int (1 + 1)) Hl)
    as (line' & E).
  unfold ordered_source in E. fold tail in E. rewrite E.
  destruct (proj2 (rounds_at_eof_between_items
                     (([] ++ [item_node x]) ++ map (fun it => item_node (snd it)) more)
                     line'))
    as (p & -> & Hr).
  cbn [rbind TreeBuilder.get_root fst]. unfold final_root in Hr. rewrite Hr.
  reflexivity.
Qed.

Lemma ordered_list_items_witness :
  Md_Parser.parse_document (ordered_source [("1"%char, "tea"); ("1"%char, "milk and sugar")]) =
    Ok (Element DOCSTART []
          [Element List_Ordered []
             (map (fun it => item_node (snd it))
                  [("1"%char, "tea"); ("1"%char, "milk and sugar")])]).
Proof. apply (ordered_list_items "1"%char "tea" [("1"%char, "milk and sugar")]). reflexivity.
Defined.

(** ** Block quotes *)

(** The [>] at the start of a line opens a block quote. *)
Lemma round_quote_open (done : list Node) (line : Z) :
  Md_Parser.round (Some ">"%char) (Md_Parser.mk line (quote_between done)) =
    Ok (Md_Parser.mk line (quote_context done ""), false).
Proof.
  rewrite round_char by reflexivity. unfold dispatch.
  cbn [state quote_between State_to_nat nth_error state_handlers State_eqb Nat.eqb negb].
  unfold handlers.handleData. cbn [Ascii.eqb Bool.eqb consumed empty].
  unfold quote_between, emit_token, add_attribute, push, ReturnStateStack.push.
  ctx_norm.
  unfold Token_Emitter.emit_token, Token_Emitter.add_attribute, quote_emitter,
    TreeBuilder.consume_token, TreeBuilder.attach, TreeBuilder.add_attribute, Element.
  tree_norm.
  cbn [ReturnStateStack.is_a_return_state ReturnStateStack.allowed_return_states existsb
       State_eqb State_to_nat Nat.eqb orb negb].
  tree_norm.
  unfold after_handler, Md_Parser.drain_warning, node_add_attribute.
  cbn [warning_msg newline_counter empty negb andb Z.eqb next_line Ascii.eqb Bool.eqb
       newline attributes element children data app].
  reflexivity.
Qed.

Lemma round_quote_first (done : list Node) (ch : ascii) (line : Z) :
  plain_char ch = true ->
  (ch =? newline)%char = false ->
  isdigit ch = false ->
  Md_Parser.round (Some ch) (Md_Parser.mk line (quote_context done "")) =
    Ok (Md_Parser.mk line (quote_context done (str ch)), false).
Proof.
  intros Hp Hn Hd.
  destruct (plain_char_not_special ch Hp)
    as (H1 & H2 & H3 & H4 & H5 & H6 & H7 & H8 & H9 & H10).
  rewrite round_char; [ | reflexivity | rewrite H9; reflexivity | reflexivity ].
  unfold dispatch.
  cbn [state quote_context State_to_nat nth_error state_handlers State_eqb Nat.eqb negb].
  unfold handlers.handleData. rewrite H1, H2, H3, H4, H5, H6, H7, H8, Hn.
  cbn [consumed empty andb rbind]. rewrite Hd.
  unfold after_handler, Md_Parser.drain_warning, append_consumed, set_consumed, next_line.
  rewrite Hn.
  cbn [warning_msg newline_counter empty negb andb Z.eqb consumed].
  reflexivity.
Qed.

Lemma round_quote_char (done : list Node) (c0 : ascii) (ch : ascii) (x : string)
      (line : Z) :
  plain_char ch && negb (ch =? newline)%char = true ->
  Md_Parser.round (Some ch) (Md_Parser.mk line (quote_context done (String c0 x))) =
    Ok (Md_Parser.mk (next_line ch line)
          (quote_context done (push_back (String c0 x) ch)), false).
Proof.
  intros H. apply andb_prop in H. destruct H as [Hp Hn]. apply negb_true_iff in Hn.
  destruct (plain_char_not_special ch Hp)
    as (H1 & H2 & H3 & H4 & H5 & H6 & H7 & H8 & H9 & H10).
  rewrite round_char; [ | reflexivity | rewrite H9; reflexivity | reflexivity ].
  unfold dispatch.
  cbn [state quote_context State_to_nat nth_error state_handlers State_eqb Nat.eqb negb].
  unfold handlers.handleData. rewrite H1, H2, H3, H4, H5, H6, H7, H8, Hn.
  cbn [consumed empty andb rbind].
  unfold after_handler, Md_Parser.drain_warning, append_consumed, set_consumed.
  cbn [warning_msg newline_counter empty negb andb Z.eqb consumed].
  reflexivity.
Qed.

(** The newline closes the quote. *)
Lemma round_quote_newline (done : list Node) (c0 : ascii) (x : string) (line : Z) :
  Md_Parser.round (Some newline) (Md_Parser.mk line (quote_context done (String c0 x))) =
    Ok (Md_Parser.mk (size_t_of_int (line + 1))
          (quote_between (done ++ [quote_node (String c0 x)])), false).
Proof.
  rewrite round_char by reflexivity. unfold dispatch.
  cbn [state quote_context State_to_nat nth_error state_handlers State_eqb Nat.eqb negb].
  unfold handlers.handleData. cbn [Ascii.eqb Bool.eqb newline].
  unfold quote_context, emit_content_token, fetch_current_element, emit_token.
  ctx_norm. cbn [empty].
  unfold Token_Emitter.fetch_current_element, TreeBuilder.get_current_element,
    TreeBuilder.deref_current, Token_Emitter.emit_token, quote_emitter,
    TreeBuilder.consume_token, TreeBuilder.attach, Element.
  tree_norm. cbn [app].
  unfold TreeBuilder.deref_current. tree_norm.
  cbn [parent removelast]. tree_norm.
  unfold after_handler, Md_Parser.drain_warning.
  cbn [warning_msg newline_counter empty negb andb Z.eqb next_line Ascii.eqb Bool.eqb
       newline].
  unfold quote_between, quote_emitter, quote_node, Element, Text.
  rewrite app_nil_r. reflexivity.
Qed.

Lemma rounds_quote_text (done : list Node) (x : string) (rest : list ascii) (line : Z) :
  item_text x = true ->
  Md_Parser.rounds (list_ascii_of_string x ++ newline :: rest)
    (Md_Parser.mk line (quote_context done "")) =
    Md_Parser.rounds rest
      (Md_Parser.mk (size_t_of_int (line + 1)) (quote_between (done ++ [quote_node x]))).
Proof.
  intros H. destruct (item_text_inv x H) as (c0 & x' & -> & Hp & Hn & Hd & Hl).
  cbn [list_ascii_of_string app Md_Parser.rounds].
  rewrite round_quote_first by assumption. cbn [rbind].
  rewrite (rounds_collect (fun ch => plain_char ch && negb (ch =? newline)%char)
             (fun s => quote_context done (String c0 s))
             (fun ch s l' Hc => round_quote_char done c0 ch s l' Hc)
             _ _ "" line Hl).
  rewrite lines_after_no_newline
    by (apply (forallb_weaken _ _ _ (fun a Ha => proj2 (andb_prop _ _ Ha)) Hl)).
  cbn [String.append]. rewrite string_of_list_ascii_of_string.
  cbn [Md_Parser.rounds]. rewrite round_quote_newline. reflexivity.
Qed.

Lemma rounds_quote_lines (lines : list string) :
  forall (done : list Node) (line : Z),
    forallb item_text lines = true ->
    exists line' : Z,
      Md_Parser.rounds (list_ascii_of_string (quote_source lines))
        (Md_Parser.mk line (quote_between done)) =
        Md_Parser.rounds_at_eof
          (Md_Parser.mk line' (quote_between (done ++ map quote_node lines))).
Proof.
  induction lines as [ | x lines IH ]; intros done line H.
  - exists line. cbn [quote_source map concat_all list_ascii_of_string Md_Parser.rounds].
    now rewrite app_nil_r.
  - cbn [forallb] in H. apply andb_prop in H. destruct H as [Hx Hl].
    destruct (IH (done ++ [quote_node x]) (size_t_of_int (line + 1)) Hl) as (line' & E).
    exists line'. unfold quote_source in *. cbn [map]. rewrite concat_all_cons.
    set (tail := concat_all (map _ lines)) in *.
    rewrite list_ascii_of_string_app.
    cbn [String.append list_ascii_of_string app Md_Parser.rounds].
    rewrite round_quote_open. cbn [rbind].
    rewrite list_ascii_of_string_app, <- app_assoc.
    cbn [nl list_ascii_of_string app].
    rewrite rounds_quote_text by exact Hx.
    rewrite E. rewrite <- app_assoc. reflexivity.
Qed.

Lemma rounds_at_eof_quote_between (done : list Node) (line : Z) :
  exists p : Md_Parser.t,
    Md_Parser.rounds_at_eof (Md_Parser.mk line (quote_between done)) = Ok p
    /\ final_root p = Some (Element DOCSTART [] done).
Proof.
  rewrite rounds_at_eof_unescaped by reflexivity. unfold dispatch.
  cbn [state set_EOF_Reached quote_between State_to_nat nth_error state_handlers
       State_eqb Nat.eqb negb].
  unfold handlers.handleData. cbn [Ascii.eqb Bool.eqb newline].
  unfold quote_between, emit_content_token, fetch_current_element.
  ctx_norm. cbn [empty].
  unfold Token_Emitter.fetch_current_element, TreeBuilder.get_current_element,
    TreeBuilder.deref_current, quote_emitter, Element.
  tree_norm.
  eexists. split; [ reflexivity | ].
  unfold final_root, Md_Parser.drain_warning. ctx_norm.
  cbn [Md_Parser.context empty negb]. ctx_norm. reflexivity.
Qed.

(** X19: block quotes.  Lines that begin with [>], each followed by plain
    text (its first character no digit) and a newline, give one Span with
    the attribute BlockQuote for each line, directly under DocStart and in
    order, with the text after the [>] as its one Content leaf.  Quoted
    lines that follow one another are not joined into one block. *)
Theorem quoted_lines (x : string) (more : list string) :
  forallb item_text (x :: more) = true ->
  Md_Parser.parse_document (quote_source (x :: more)) =
    Ok (Element DOCSTART [] (map quote_node (x :: more))).
Proof.
  intros H.
  destruct (rounds_quote_lines (x :: more) [] 1 H) as (line' & E).
  destruct (rounds_at_eof_quote_between ([] ++ map quote_node (x :: more)) line')
    as (p & Ep & Hr).
  unfold Md_Parser.parse_document, Md_Parser.parse.
  change Md_Parser.init with (Md_Parser.mk 1 (quote_between [])).
  rewrite E, Ep.
  cbn [rbind TreeBuilder.get_root fst]. unfold final_root in Hr. rewrite Hr.
  reflexivity.
Qed.

Lemma quoted_lines_witness :
  Md_Parser.parse_document (quote_source [" tea"; " milk"]) =
    Ok (Element DOCSTART [] (map quote_node [" tea"; " milk"])).
Proof. apply (quoted_lines " tea" [" milk"]). reflexivity. Defined.

(** ** Tables *)

Lemma get_node_under_last (e : ElementType) (at_ : list Attribute) (kids : list Node)
      (P : Node) (d : NodeData) (p : path) :
  get_node (mkNode e at_ (kids ++ [P]) d) (length kids :: p) = get_node P p.
Proof. cbn [get_node children]. now rewrite nth_error_snoc. Qed.

Lemma update_node_under_last (f : Node -> Node) (e : ElementType) (at_ : list Attribute)
      (kids : list Node) (P : Node) (d : NodeData) (p : path) :
  update_node f (mkNode e at_ (kids ++ [P]) d) (length kids :: p) =
    match update_node f P p with
    | Some P' => Some (mkNode e at_ (kids ++ [P']) d)
    | None => None
    end.
Proof.
  cbn [update_node children]. rewrite nth_error_snoc.
  destruct (update_node f P p) as [ P' | ]; [ | reflexivity ].
  unfold set_children. cbn [element attributes children data].
  now rewrite replace_nth_snoc.
Qed.

Ltac table_norm :=
  unfold table_manager_at, row_node, Element;
  cbn [TableManager.table_root TableManager.current TableManager.col_dims];
  rewrite ?get_node_under_last, ?update_node_under_last, ?get_node_nil, ?update_node_nil;
  cbn [rbind element attributes children data].

(** A Content token with the cursor on a cell or on a header cell. *)
Lemma table_content_on_cell (rows cells : list Node) (el : ElementType)
      (attrs : list Attribute) (kids : list Node) (dims : Z) (text : string) :
  ElementType_eqb el Table_Row = false ->
  TableManager.consume_token (Token.mk ContentToken Content text "" "")
    (table_manager_at rows (on_cell cells (Element el attrs kids)) dims) =
    Ok (table_manager_at rows (on_cell cells (Element el attrs (kids ++ [Text text])))
          dims).
Proof.
  intros Hel.
  unfold TableManager.consume_token, TableManager.deref_current, TableManager.attach.
  cbn [Token.element Token.content Token.type].
  table_norm. rewrite Hel. table_norm. reflexivity.
Qed.

(** The Close of a header cell or of a cell with the cursor on it. *)
Lemma table_close_cell (rows cells : list Node) (el : ElementType)
      (attrs : list Attribute) (kids : list Node) (dims : Z) :
  el = Table_Head \/ el = Table_Cell ->
  TableManager.consume_token (Token.mk CloseToken el "" "" "")
    (table_manager_at rows (on_cell cells (Element el attrs kids)) dims) =
    Ok (table_manager_at rows (on_row (cells ++ [Element el attrs kids])) dims).
Proof.
  intros [ -> | -> ];
    unfold TableManager.consume_token, TableManager.ascend, TableManager.deref_current;
    cbn [Token.element Token.content Token.type TableManager.is_open TokenType_eqb];
    table_norm; reflexivity.
Qed.

(** The Open of a header cell with the cursor on the row. *)
Lemma table_open_head (rows cells : list Node) (dims : Z) :
  TableManager.consume_token (Token.mk OpenToken Table_Head "" "" "")
    (table_manager_at rows (on_row cells) dims) =
    Ok (table_manager_at rows (on_cell cells (Element Table_Head [TableHeader] [])) dims).
Proof.
  unfold TableManager.consume_token, TableManager.create_new_node, TableManager.attach.
  cbn [Token.element Token.content Token.type TableManager.is_open TokenType_eqb].
  table_norm. reflexivity.
Qed.

(** The Open of a cell with the cursor on the row: a cell is made while
    the row is not full. *)
Lemma table_open_cell (rows cells : list Node) (dims : Z) :
  TableManager.consume_token (Token.mk OpenToken Table_Cell "" "" "")
    (table_manager_at rows (on_row cells) dims) =
    Ok (table_manager_at rows
          (if Z.of_nat (length cells) <? dims
           then on_cell cells (Element Table_Cell [TableCell] [])
           else on_row cells)
          dims).
Proof.
  unfold TableManager.consume_token, TableManager.create_new_node, TableManager.attach,
    TableManager.deref_current.
  cbn [Token.element Token.content Token.type TableManager.is_open TokenType_eqb].
  table_norm.
  destruct (Z.of_nat (length cells) <? dims); table_norm; reflexivity.
Qed.

(** With the cursor on the row, a Content token and the Close of a cell
    change nothing. *)
Lemma table_on_full_row (rows cells : list Node) (dims : Z) (text : string) :
  TableManager.consume_token (Token.mk ContentToken Content text "" "")
    (table_manager_at rows (on_row cells) dims) =
    Ok (table_manager_at rows (on_row cells) dims)
  /\ TableManager.consume_token (Token.mk CloseToken Table_Cell "" "" "")
       (table_manager_at rows (on_row cells) dims) =
       Ok (table_manager_at rows (on_row cells) dims).
Proof.
  split;
    unfold TableManager.consume_token, TableManager.deref_current;
    cbn [Token.element Token.content Token.type TableManager.is_open TokenType_eqb];
    table_norm; reflexivity.
Qed.

(** The Close of the header row: the cell opened by the last pipe goes,
    the others are counted. *)
Lemma table_close_header_row (head : Node) (heads : list Node) (last : Node) :
  TableManager.consume_token (Token.mk CloseToken Table_Row "" "" "")
    (table_manager_at [] (on_row ((head :: heads) ++ [last])) 0) =
    Ok (table_manager_at [row_node (head :: heads)] on_table
          (Z.of_nat (length (head :: heads)))).
Proof.
  unfold TableManager.consume_token, TableManager.deref_current, TableManager.ascend,
    TableManager.update_current.
  cbn [Token.element Token.content Token.type TableManager.is_open TokenType_eqb].
  table_norm. cbn [nth_error get_node update_node children Z.eqb negb].
  destruct ((head :: heads) ++ [last]) as [ | c cs ] eqn:E0; [ discriminate E0 | ].
  rewrite <- E0. clear E0.
  unfold set_children. cbn [element attributes children data replace_nth rbind].
  rewrite removelast_last.
  cbn [rbind TableManager.table_root TableManager.current TableManager.col_dims
       get_node nth_error children].
  destruct (Z.of_nat (length (head :: heads)) =? 0) eqn:E.
  { apply Z.eqb_eq in E. cbn [length] in E. lia. }
  cbn [parent removelast]. reflexivity.
Qed.

Lemma pad_row_cells (n : nat) (cells : list Node) :
  TableManager.pad_row n (row_node cells) =
    row_node (cells ++ repeat (Element Table_Cell [] []) n).
Proof.
  revert cells. induction n as [ | n IH ]; intros cells.
  - cbn. now rewrite app_nil_r.
  - cbn [TableManager.pad_row repeat].
    change (add_child (mkNode Table_Cell [] [] PlainNode) (row_node cells))
      with (row_node (cells ++ [Element Table_Cell [] []])).
    rewrite IH, <- app_assoc. reflexivity.
Qed.

(** The Close of a body row: the row is filled up. *)
Lemma table_close_body_row (rows cells : list Node) (dims : Z) :
  (dims =? 0) = false ->
  TableManager.consume_token (Token.mk CloseToken Table_Row "" "" "")
    (table_manager_at rows (on_row cells) dims) =
    Ok (table_manager_at
          (rows ++ [row_node (cells ++ repeat (Element Table_Cell [] [])
                                         (Z.to_nat (dims - Z.of_nat (length cells))))])
          on_table dims).
Proof.
  intros Hd.
  unfold TableManager.consume_token, TableManager.deref_current, TableManager.ascend,
    TableManager.update_current.
  cbn [Token.element Token.content Token.type TableManager.is_open TokenType_eqb].
  table_norm. rewrite Hd. cbn [negb]. table_norm.
  change (mkNode Table_Row [TableRow] cells PlainNode) with (row_node cells).
  rewrite pad_row_cells.
  unfold TableManager.deref_current.
  cbn [rbind TableManager.table_root TableManager.current TableManager.col_dims].
  rewrite get_node_under_last. cbn [get_node rbind parent removelast].
  unfold row_node, Element. now rewrite app_nil_r.
Qed.

(** The Open of a row with the cursor on the table. *)
Lemma table_open_row (rows : list Node) (dims : Z) :
  TableManager.consume_token (Token.mk OpenToken Table_Row "" "" "")
    (table_manager_at rows on_table dims) =
    Ok (table_manager_at rows (on_row []) dims).
Proof.
  unfold TableManager.consume_token, TableManager.create_new_node, TableManager.attach.
  cbn [Token.element Token.content Token.type TableManager.is_open TokenType_eqb].
  table_norm. rewrite app_nil_r. table_norm. reflexivity.
Qed.

(** *** The rounds of the header row *)

Lemma table_char_inv (ch : ascii) :
  table_char ch = true ->
  (ch =? newline)%char = false /\ (ch =? "|")%char = false /\ (ch =? "*")%char = false
  /\ (ch =? "`")%char = false /\ (ch =? "[")%char = false
  /\ (ch =? backslash)%char = false.
Proof.
  unfold table_char. intros H.
  repeat (apply andb_prop in H; destruct H as [H ?]).
  repeat match goal with
         | H : negb _ = true |- _ => apply negb_true_iff in H
         end.
  repeat split; assumption.
Qed.

(** The pipe that begins the document. *)
Lemma round_table_start :
  Md_Parser.round (Some "|"%char) Md_Parser.init =
    Ok (Md_Parser.mk 1 (table_context TableHeaderNames "" 0 0 [] (on_cell [] empty_head) 0),
        false).
Proof. vm_compute. reflexivity. Qed.

(** A character of a cell, in the header row and in a body row. *)
Lemma round_table_char (st : State) (ch : ascii) (x : string) (rows : list Node)
      (cur : table_cursor) (dims : Z) (line : Z) :
  st = TableHeaderNames \/ st = TableCellData ->
  table_char ch = true ->
  Md_Parser.round (Some ch) (Md_Parser.mk line (table_context st x 0 0 rows cur dims)) =
    Ok (Md_Parser.mk (next_line ch line)
          (table_context st (push_back x ch) 0 0 rows cur dims), false).
Proof.
  intros Hst Hc. destruct (table_char_inv ch Hc) as (H1 & H2 & H3 & H4 & H5 & H6).
  rewrite round_char; [ | reflexivity | rewrite H6; reflexivity | reflexivity ].
  unfold dispatch.
  destruct Hst as [ -> | -> ];
    cbn [state table_context State_to_nat nth_error state_handlers State_eqb Nat.eqb negb];
    unfold handlers.handleTableHeaderNames, handlers.handleTableCellData;
    rewrite H1, H2, H3, H4, H5; cbn [rbind];
    unfold after_handler, Md_Parser.drain_warning, append_consumed, set_consumed;
    cbn [warning_msg newline_counter empty negb andb Z.eqb consumed];
    reflexivity.
Qed.

(** The pipe that ends a header cell. *)
Lemma round_head_pipe (x : string) (heads : list Node) (line : Z) :
  Md_Parser.round (Some "|"%char)
    (Md_Parser.mk line
       (table_context TableHeaderNames x 0 0 [] (on_cell heads empty_head) 0)) =
    Ok (Md_Parser.mk line
          (table_context TableHeaderNames "" 0 0 []
             (on_cell (heads ++ [head_node x]) empty_head) 0), false).
Proof.
  rewrite round_char by reflexivity. unfold dispatch.
  cbn [state table_context State_to_nat nth_error state_handlers State_eqb Nat.eqb negb].
  unfold handlers.handleTableHeaderNames. cbn [Ascii.eqb Bool.eqb newline].
  unfold table_context, emit_token, table_emitter, Token_Emitter.emit_token.
  ctx_norm.
  unfold empty_head.
  rewrite table_content_on_cell by reflexivity. ctx_norm.
  rewrite table_close_cell by (left; reflexivity). ctx_norm.
  rewrite table_open_head. ctx_norm.
  unfold after_handler, Md_Parser.drain_warning.
  cbn [warning_msg newline_counter empty negb andb Z.eqb next_line Ascii.eqb Bool.eqb
       newline].
  reflexivity.
Qed.

(** The newline that ends the header row. *)
Lemma round_head_newline (head : Node) (heads : list Node) (line : Z) :
  Md_Parser.round (Some newline)
    (Md_Parser.mk line
       (table_context TableHeaderNames "" 0 0 [] (on_cell (head :: heads) empty_head) 0)) =
    Ok (Md_Parser.mk (size_t_of_int (line + 1))
          (table_context TableHeaderSeparationPipeAwaiting "" 0 0
             [row_node (head :: heads)] on_table (Z.of_nat (length (head :: heads)))),
        false).
Proof.
  rewrite round_char by reflexivity. unfold dispatch.
  cbn [state table_context State_to_nat nth_error state_handlers State_eqb Nat.eqb negb].
  unfold handlers.handleTableHeaderNames. cbn [Ascii.eqb Bool.eqb newline].
  unfold consumed_only_whitespace.
  cbn [consumed table_context only_whitespace list_ascii_of_string forallb].
  unfold table_context, emit_token, table_emitter, Token_Emitter.emit_token.
  ctx_norm.
  unfold empty_head.
  rewrite table_close_cell by (left; reflexivity). ctx_norm.
  rewrite table_close_header_row. ctx_norm.
  unfold after_handler, Md_Parser.drain_warning.
  cbn [warning_msg newline_counter empty negb andb Z.eqb next_line Ascii.eqb Bool.eqb
       newline].
  reflexivity.
Qed.

(** *** The rounds of the separator line *)

(** The first pipe of the separator line. *)
Lemma round_separator_start (rows : list Node) (dims : Z) (line : Z) :
  Md_Parser.round (Some "|"%char)
    (Md_Parser.mk line
       (table_context TableHeaderSeparationPipeAwaiting "" 0 0 rows on_table dims)) =
    Ok (Md_Parser.mk line
          (table_context TableHeaderSeparation "|" 0 0 rows on_table dims), false).
Proof.
  rewrite round_char by reflexivity. reflexivity.
Qed.

(** Three dashes and a pipe: one more column. *)
Lemma rounds_separator_column (s : string) (i : nat) (rows : list Node) (dims : Z)
      (rest : list ascii) (line : Z) :
  Z.of_nat i < 32767 ->
  Md_Parser.rounds ("-"%char :: "-"%char :: "-"%char :: "|"%char :: rest)
    (Md_Parser.mk line
       (table_context TableHeaderSeparation s 0 (Z.of_nat i) rows on_table dims)) =
    Md_Parser.rounds rest
      (Md_Parser.mk line
         (table_context TableHeaderSeparation (s ++ "---|") 0 (Z.of_nat (S i)) rows
            on_table dims)).
Proof.
  intros Hi.
  assert (Hd : forall (t : string) (k : Z) (l : list ascii),
             0 <= k < 3 ->
             Md_Parser.rounds ("-"%char :: l)
               (Md_Parser.mk line
                  (table_context TableHeaderSeparation t k (Z.of_nat i) rows on_table
                     dims)) =
               Md_Parser.rounds l
                 (Md_Parser.mk line
                    (table_context TableHeaderSeparation (push_back t "-") (k + 1)
                       (Z.of_nat i) rows on_table dims))).
  { intros t k l Hk. cbn [Md_Parser.rounds].
    rewrite round_char by reflexivity. unfold dispatch.
    cbn [state table_context State_to_nat nth_error state_handlers State_eqb Nat.eqb
         negb].
    unfold handlers.handleTableHeaderSeparation. cbn [Ascii.eqb Bool.eqb newline tab orb].
    unfold incr_counter, append_consumed, table_context. ctx_norm.
    replace (short_of_int (k + 1)) with (k + 1)
      by (unfold short_of_int; rewrite Z.mod_small; lia).
    unfold after_handler, Md_Parser.drain_warning.
    cbn [warning_msg newline_counter empty negb andb Z.eqb next_line Ascii.eqb Bool.eqb
         newline].
    reflexivity. }
  rewrite (Hd s 0), (Hd _ (0 + 1)), (Hd _ (0 + 1 + 1)) by lia.
  cbn [Md_Parser.rounds Z.add Pos.add Pos.succ].
  rewrite round_char by reflexivity. unfold dispatch.
  cbn [state table_context State_to_nat nth_error state_handlers State_eqb Nat.eqb negb].
  unfold handlers.handleTableHeaderSeparation. cbn [Ascii.eqb Bool.eqb newline tab orb].
  unfold incr_alt_counter, append_consumed, table_context. ctx_norm.
  cbn [Z.ltb Z.compare Pos.compare Pos.compare_cont].
  replace (short_of_int (Z.of_nat i + 1)) with (Z.of_nat (S i))
    by (unfold short_of_int; rewrite Z.mod_small; lia).
  unfold after_handler, Md_Parser.drain_warning.
  cbn [warning_msg newline_counter empty negb andb Z.eqb next_line Ascii.eqb Bool.eqb
       newline rbind].
  do 3 f_equal. unfold push_back.
  rewrite !string_app_assoc. reflexivity.
Qed.

Lemma rounds_separator_columns (k : nat) :
  forall (s : string) (i : nat) (rows : list Node) (dims : Z) (rest : list ascii)
         (line : Z),
    Z.of_nat (i + k) <= 32767 ->
    Md_Parser.rounds (list_ascii_of_string (concat_all (repeat "---|" k)) ++ rest)
      (Md_Parser.mk line
         (table_context TableHeaderSeparation s 0 (Z.of_nat i) rows on_table dims)) =
      Md_Parser.rounds rest
        (Md_Parser.mk line
           (table_context TableHeaderSeparation (s ++ concat_all (repeat "---|" k)) 0
              (Z.of_nat (i + k)) rows on_table dims)).
Proof.
  induction k as [ | k IH ]; intros s i rows dims rest line H.
  - cbn [repeat concat_all fold_right list_ascii_of_string app].
    now rewrite string_app_nil_r, Nat.add_0_r.
  - cbn [repeat]. rewrite concat_all_cons.
    cbn [String.append list_ascii_of_string app].
    rewrite rounds_separator_column by lia.
    rewrite IH by lia.
    rewrite string_app_assoc. cbn [String.append].
    now replace (S i + k)%nat with (i + S k)%nat by lia.
Qed.

(** The newline that ends the separator line: a row is opened. *)
Lemma round_separator_newline (s : string) (n : nat) (rows : list Node) (line : Z) :
  Z.of_nat n <= 32767 ->
  Md_Parser.round (Some newline)
    (Md_Parser.mk line
       (table_context TableHeaderSeparation s 0 (Z.of_nat n) rows on_table (Z.of_nat n))) =
    Ok (Md_Parser.mk (size_t_of_int (line + 1))
          (table_context TableCellPipeAwaiting "" 0 0 rows (on_row []) (Z.of_nat n)),
        false).
Proof.
  intros Hn.
  rewrite round_char by reflexivity. unfold dispatch.
  cbn [state table_context State_to_nat nth_error state_handlers State_eqb Nat.eqb negb].
  unfold handlers.handleTableHeaderSeparation. cbn [Ascii.eqb Bool.eqb newline].
  unfold Token_Emitter.get_col_dims, TableManager.get_col_dims.
  cbn [emitter alt_counter table_context table_emitter Token_Emitter.table_manager
       table_manager_at TableManager.col_dims].
  replace (size_t_of_int (Z.of_nat n)) with (Z.of_nat n)
    by (unfold size_t_of_int; rewrite Z.mod_small; lia).
  rewrite Z.eqb_refl.
  unfold table_context, emit_token, table_emitter, Token_Emitter.emit_token.
  ctx_norm.
  rewrite table_open_row. ctx_norm.
  unfold after_handler, Md_Parser.drain_warning.
  cbn [warning_msg newline_counter empty negb andb Z.eqb next_line Ascii.eqb Bool.eqb
       newline].
  reflexivity.
Qed.

(** *** The rounds of a body row *)

(** The first pipe of a body row. *)
Lemma round_row_start (n : nat) (rows : list Node) (line : Z) :
  (0 < n)%nat ->
  Md_Parser.round (Some "|"%char)
    (Md_Parser.mk line
       (table_context TableCellPipeAwaiting "" 0 0 rows (on_row []) (Z.of_nat n))) =
    Ok (Md_Parser.mk line
          (table_context TableCellData "" 0 0 rows (row_cursor n []) (Z.of_nat n)),
        false).
Proof.
  intros Hn.
  rewrite round_char by reflexivity. unfold dispatch.
  cbn [state table_context State_to_nat nth_error state_handlers State_eqb Nat.eqb negb].
  unfold handlers.handleTableCellPipeAwaiting. cbn [Ascii.eqb Bool.eqb newline tab orb].
  unfold table_context, emit_token, table_emitter, Token_Emitter.emit_token.
  ctx_norm.
  rewrite table_open_cell. cbn [length].
  replace (Z.of_nat 0 <? Z.of_nat n) with true by (symmetry; apply Z.ltb_lt; lia).
  ctx_norm.
  unfold row_cursor. cbn [length map].
  replace (0 <? n)%nat with true by (symmetry; apply Nat.ltb_lt; exact Hn).
  unfold after_handler, Md_Parser.drain_warning.
  cbn [warning_msg newline_counter empty negb andb Z.eqb next_line Ascii.eqb Bool.eqb
       newline].
  reflexivity.
Qed.

(** The pipe that ends a cell. *)
Lemma round_cell_pipe (n : nat) (x : string) (read : list string) (rows : list Node)
      (line : Z) :
  Md_Parser.round (Some "|"%char)
    (Md_Parser.mk line
       (table_context TableCellData x 0 0 rows (row_cursor n read) (Z.of_nat n))) =
    Ok (Md_Parser.mk line
          (table_context TableCellData "" 0 0 rows (row_cursor n (read ++ [x]))
             (Z.of_nat n)),
        false).
Proof.
  rewrite round_char by reflexivity. unfold dispatch.
  cbn [state table_context State_to_nat nth_error state_handlers State_eqb Nat.eqb negb].
  unfold handlers.handleTableCellData. cbn [Ascii.eqb Bool.eqb newline].
  unfold table_context, emit_token, table_emitter, Token_Emitter.emit_token.
  ctx_norm.
  unfold row_cursor. rewrite length_app. cbn [length].
  destruct (length read <? n)%nat eqn:E.
  - apply Nat.ltb_lt in E. unfold empty_cell.
    rewrite table_content_on_cell by reflexivity. ctx_norm.
    rewrite table_close_cell by (right; reflexivity). ctx_norm.
    rewrite table_open_cell. rewrite length_app, length_map. cbn [length].
    change (Element Table_Cell [TableCell] ([] ++ [Text x])) with (cell_node x).
    rewrite map_app. cbn [map].
    destruct (length read + 1 <? n)%nat eqn:E1.
    + apply Nat.ltb_lt in E1.
      replace (Z.of_nat (length read + 1) <? Z.of_nat n) with true
        by (symmetry; apply Z.ltb_lt; lia).
      ctx_norm.
      unfold after_handler, Md_Parser.drain_warning.
      cbn [warning_msg newline_counter empty negb andb Z.eqb next_line Ascii.eqb
           Bool.eqb newline].
      reflexivity.
    + apply Nat.ltb_ge in E1.
      replace (Z.of_nat (length read + 1) <? Z.of_nat n) with false
        by (symmetry; apply Z.ltb_ge; lia).
      ctx_norm.
      rewrite firstn_all2 by (rewrite length_app; cbn [length]; lia).
      rewrite map_app. cbn [map].
      unfold after_handler, Md_Parser.drain_warning.
      cbn [warning_msg newline_counter empty negb andb Z.eqb next_line Ascii.eqb
           Bool.eqb newline].
      reflexivity.
  - apply Nat.ltb_ge in E.
    destruct (table_on_full_row rows (map cell_node (firstn n read)) (Z.of_nat n) x)
      as [Hc Hk].
    rewrite Hc. ctx_norm. rewrite Hk. ctx_norm.
    rewrite table_open_cell. rewrite length_map, length_firstn.
    replace (Z.of_nat (Nat.min n (length read)) <? Z.of_nat n) with false
      by (symmetry; apply Z.ltb_ge; lia).
    replace (length read + 1 <? n)%nat with false
      by (symmetry; apply Nat.ltb_ge; lia).
    rewrite firstn_app. replace (n - length read)%nat with 0%nat by lia.
    cbn [firstn]. rewrite app_nil_r.
    ctx_norm.
    unfold after_handler, Md_Parser.drain_warning.
    cbn [warning_msg newline_counter empty negb andb Z.eqb next_line Ascii.eqb Bool.eqb
         newline].
    reflexivity.
Qed.

(** The newline that ends a body row: the row is closed and filled up,
    and the next row is opened. *)
Lemma round_row_newline (n : nat) (r : list string) (rows : list Node) (line : Z) :
  (0 < n)%nat ->
  Md_Parser.round (Some newline)
    (Md_Parser.mk line
       (table_context TableCellData "" 0 0 rows (row_cursor n r) (Z.of_nat n))) =
    Ok (Md_Parser.mk (size_t_of_int (line + 1))
          (table_context TableCellPipeAwaiting "" 0 0 (rows ++ [body_row n r]) (on_row [])
             (Z.of_nat n)),
        false).
Proof.
  intros Hn.
  assert (Hd : (Z.of_nat n =? 0) = false) by (apply Z.eqb_neq; lia).
  rewrite round_char by reflexivity. unfold dispatch.
  cbn [state table_context State_to_nat nth_error state_handlers State_eqb Nat.eqb negb].
  unfold handlers.handleTableCellData. cbn [Ascii.eqb Bool.eqb newline].
  unfold consumed_only_whitespace.
  cbn [consumed table_context only_whitespace list_ascii_of_string forallb negb].
  unfold table_context, emit_token, table_emitter, Token_Emitter.emit_token.
  ctx_norm.
  unfold row_cursor, body_row.
  destruct (length r <? n)%nat eqn:E.
  - apply Nat.ltb_lt in E.
    replace (n <=? length r)%nat with false by (symmetry; apply Nat.leb_gt; exact E).
    unfold empty_cell.
    rewrite table_close_cell by (right; reflexivity). ctx_norm.
    rewrite table_close_body_row by exact Hd. ctx_norm.
    rewrite table_open_row. ctx_norm.
    rewrite length_app, length_map. cbn [length].
    replace (Z.to_nat (Z.of_nat n - Z.of_nat (length r + 1))) with (n - length r - 1)%nat
      by lia.
    rewrite <- app_assoc. cbn [app].
    unfold after_handler, Md_Parser.drain_warning.
    cbn [warning_msg newline_counter empty negb andb Z.eqb next_line Ascii.eqb Bool.eqb
         newline].
    reflexivity.
  - apply Nat.ltb_ge in E.
    replace (n <=? length r)%nat with true by (symmetry; apply Nat.leb_le; exact E).
    destruct (table_on_full_row rows (map cell_node (firstn n r)) (Z.of_nat n) "")
      as [_ Hk].
    rewrite Hk. ctx_norm.
    rewrite table_close_body_row by exact Hd. ctx_norm.
    rewrite table_open_row. ctx_norm.
    rewrite length_map, length_firstn.
    replace (Z.to_nat (Z.of_nat n - Z.of_nat (Nat.min n (length r)))) with 0%nat by lia.
    cbn [repeat]. rewrite app_nil_r.
    unfold after_handler, Md_Parser.drain_warning.
    cbn [warning_msg newline_counter empty negb andb Z.eqb next_line Ascii.eqb Bool.eqb
         newline].
    reflexivity.
Qed.

Lemma table_chars_no_newline (x : string) :
  all_chars table_char x = true ->
  forallb (fun c => negb (c =? newline)%char) (list_ascii_of_string x) = true.
Proof.
  apply forallb_weaken. intros a Ha.
  destruct (table_char_inv a Ha) as [H _]. now rewrite H.
Qed.

(** The text of a cell and the pipe after it, in a body row ... *)
Lemma rounds_cell (n : nat) (x : string) (read : list string) (rows : list Node)
      (rest : list ascii) (line : Z) :
  all_chars table_char x = true ->
  Md_Parser.rounds (list_ascii_of_string (x ++ "|") ++ rest)
    (Md_Parser.mk line
       (table_context TableCellData "" 0 0 rows (row_cursor n read) (Z.of_nat n))) =
    Md_Parser.rounds rest
      (Md_Parser.mk line
         (table_context TableCellData "" 0 0 rows (row_cursor n (read ++ [x]))
            (Z.of_nat n))).
Proof.
  intros Hx. rewrite list_ascii_of_string_app, <- app_assoc.
  rewrite (rounds_collect table_char
             (fun s => table_context TableCellData s 0 0 rows (row_cursor n read)
                         (Z.of_nat n))
             (fun ch s l' Hc =>
                round_table_char TableCellData ch s rows _ _ l' (or_intror eq_refl) Hc)
             _ _ "" line Hx).
  rewrite lines_after_no_newline by (apply table_chars_no_newline, Hx).
  cbn [String.append list_ascii_of_string app Md_Parser.rounds].
  rewrite string_of_list_ascii_of_string, round_cell_pipe. reflexivity.
Qed.

(** ... and in the header row. *)
Lemma rounds_head (x : string) (heads : list Node) (rest : list ascii) (line : Z) :
  all_chars table_char x = true ->
  Md_Parser.rounds (list_ascii_of_string (x ++ "|") ++ rest)
    (Md_Parser.mk line
       (table_context TableHeaderNames "" 0 0 [] (on_cell heads empty_head) 0)) =
    Md_Parser.rounds rest
      (Md_Parser.mk line
         (table_context TableHeaderNames "" 0 0 []
            (on_cell (heads ++ [head_node x]) empty_head) 0)).
Proof.
  intros Hx. rewrite list_ascii_of_string_app, <- app_assoc.
  rewrite (rounds_collect table_char
             (fun s => table_context TableHeaderNames s 0 0 [] (on_cell heads empty_head) 0)
             (fun ch s l' Hc =>
                round_table_char TableHeaderNames ch s [] _ _ l' (or_introl eq_refl) Hc)
             _ _ "" line Hx).
  rewrite lines_after_no_newline by (apply table_chars_no_newline, Hx).
  cbn [String.append list_ascii_of_string app Md_Parser.rounds].
  rewrite string_of_list_ascii_of_string, round_head_pipe. reflexivity.
Qed.

Lemma rounds_cells (n : nat) (r : list string) :
  forall (read : list string) (rows : list Node) (rest : list ascii) (line : Z),
    forallb (all_chars table_char) r = true ->
    Md_Parser.rounds
      (list_ascii_of_string (concat_all (map (fun x => (x ++ "|")%string) r)) ++ rest)
      (Md_Parser.mk line
         (table_context TableCellData "" 0 0 rows (row_cursor n read) (Z.of_nat n))) =
      Md_Parser.rounds rest
        (Md_Parser.mk line
           (table_context TableCellData "" 0 0 rows (row_cursor n (read ++ r))
              (Z.of_nat n))).
Proof.
  induction r as [ | x r IH ]; intros read rows rest line H.
  - cbn [map concat_all fold_right list_ascii_of_string app]. now rewrite app_nil_r.
  - cbn [forallb] in H. apply andb_prop in H. destruct H as [Hx Hr].
    cbn [map]. rewrite concat_all_cons, list_ascii_of_string_app, <- app_assoc.
    rewrite rounds_cell by exact Hx.
    rewrite IH by exact Hr.
    now rewrite <- app_assoc.
Qed.

Lemma rounds_heads (r : list string) :
  forall (heads : list Node) (rest : list ascii) (line : Z),
    forallb (all_chars table_char) r = true ->
    Md_Parser.rounds
      (list_ascii_of_string (concat_all (map (fun x => (x ++ "|")%string) r)) ++ rest)
      (Md_Parser.mk line
         (table_context TableHeaderNames "" 0 0 [] (on_cell heads empty_head) 0)) =
      Md_Parser.rounds rest
        (Md_Parser.mk line
           (table_context TableHeaderNames "" 0 0 []
              (on_cell (heads ++ map head_node r) empty_head) 0)).
Proof.
  induction r as [ | x r IH ]; intros heads rest line H.
  - cbn [map concat_all fold_right list_ascii_of_string app]. now rewrite app_nil_r.
  - cbn [forallb] in H. apply andb_prop in H. destruct H as [Hx Hr].
    cbn [map]. rewrite concat_all_cons, list_ascii_of_string_app, <- app_assoc.
    rewrite rounds_head by exact Hx.
    rewrite IH by exact Hr.
    now rewrite <- app_assoc.
Qed.

(** A body row. *)
Lemma rounds_row (n : nat) (r : list string) (rows : list Node) (rest : list ascii)
      (line : Z) :
  (0 < n)%nat ->
  forallb (all_chars table_char) r = true ->
  Md_Parser.rounds (list_ascii_of_string (row_source r) ++ rest)
    (Md_Parser.mk line
       (table_context TableCellPipeAwaiting "" 0 0 rows (on_row []) (Z.of_nat n))) =
    Md_Parser.rounds rest
      (Md_Parser.mk (size_t_of_int (line + 1))
         (table_context TableCellPipeAwaiting "" 0 0 (rows ++ [body_row n r]) (on_row [])
            (Z.of_nat n))).
Proof.
  intros Hn Hr. unfold row_source.
  cbn [String.append list_ascii_of_string app Md_Parser.rounds].
  rewrite round_row_start by exact Hn. cbn [rbind].
  rewrite list_ascii_of_string_app, <- app_assoc.
  rewrite rounds_cells by exact Hr.
  cbn [nl list_ascii_of_string app Md_Parser.rounds].
  rewrite round_row_newline by exact Hn. reflexivity.
Qed.

Lemma rounds_rows (n : nat) (rs : list (list string)) :
  forall (rows : list Node) (line : Z),
    (0 < n)%nat ->
    forallb (forallb (all_chars table_char)) rs = true ->
    exists line' : Z,
      Md_Parser.rounds (list_ascii_of_string (concat_all (map row_source rs)))
        (Md_Parser.mk line
           (table_context TableCellPipeAwaiting "" 0 0 rows (on_row []) (Z.of_nat n))) =
        Md_Parser.rounds_at_eof
          (Md_Parser.mk line'
             (table_context TableCellPipeAwaiting "" 0 0 (rows ++ map (body_row n) rs)
                (on_row []) (Z.of_nat n))).
Proof.
  induction rs as [ | r rs IH ]; intros rows line Hn H.
  - exists line. cbn [map concat_all fold_right list_ascii_of_string Md_Parser.rounds].
    now rewrite app_nil_r.
  - cbn [forallb] in H. apply andb_prop in H. destruct H as [Hr Hrs].
    destruct (IH (rows ++ [body_row n r]) (size_t_of_int (line + 1)) Hn Hrs)
      as (line' & E).
    exists line'. cbn [map]. rewrite concat_all_cons, list_ascii_of_string_app.
    rewrite rounds_row by assumption.
    rewrite E, <- app_assoc. reflexivity.
Qed.

(** The end of the stream at the start of a row: the table goes to the
    document, without the row that was opened last. *)
Lemma rounds_at_eof_table (row : Node) (rows : list Node) (dims : Z) (line : Z) :
  exists p : Md_Parser.t,
    Md_Parser.rounds_at_eof
      (Md_Parser.mk line
         (table_context TableCellPipeAwaiting "" 0 0 (row :: rows) (on_row []) dims)) =
      Ok p
    /\ final_root p =
         Some (Element DOCSTART [] [Element Table [TableStyle] (row :: rows)]).
Proof.
  rewrite rounds_at_eof_unescaped by reflexivity. unfold dispatch.
  cbn [state set_EOF_Reached table_context State_to_nat nth_error state_handlers
       State_eqb Nat.eqb negb].
  unfold handlers.handleTableCellPipeAwaiting. cbn [Ascii.eqb Bool.eqb newline].
  unfold table_context, handle_flag, table_emitter, Token_Emitter.handle_flag,
    TableManager.emit_on_failure, table_manager_at, remove_last_child, Element.
  ctx_norm.
  cbn [TableManager.table_root TableManager.current TableManager.col_dims children].
  rewrite rev_app_distr, removelast_last. cbn [rev app].
  unfold set_children. cbn [element attributes children data length Nat.eqb negb].
  unfold TableManager.emit_on_success, TableManager.emit_row_as_paragraph,
    TreeBuilder.append_subtree, TreeBuilder.attach, TreeBuilder.init, row_node, Element.
  cbn [TableManager.table_root TableManager.current TableManager.col_dims children rbind].
  tree_norm.
  eexists. split; [ reflexivity | ].
  unfold final_root, Md_Parser.drain_warning. ctx_norm.
  cbn [Md_Parser.context empty negb]. ctx_norm. reflexivity.
Qed.

(** X20: tables.  A header line, a separator line with three dashes for
    each column, and any number of body lines, every line beginning with a
    pipe and every cell followed by one, give one Table with the attribute
    TableStyle under DocStart: a row of header cells, then one row for each
    body line, its cells holding the text between the pipes (which may be
    empty or blank).  Every body row has as many cells as the header: the
    cells of a line beyond that number are dropped with their text, and a
    line with fewer cells gets one more cell with the attribute TableCell,
    the one opened by its last pipe, and then cells without an attribute.
    The texts have no newline, pipe, asterisk, backtick, opening bracket
    or backslash; the header has from 1 to 32767 cells. *)
Theorem table_rows_and_columns (h : string) (heads : list string)
        (rows : list (list string)) :
  forallb (all_chars table_char) (h :: heads) = true ->
  forallb (forallb (all_chars table_char)) rows = true ->
  Z.of_nat (length (h :: heads)) <= 32767 ->
  Md_Parser.parse_document (table_source (h :: heads) rows) =
    Ok (Element DOCSTART [] [table_node (h :: heads) rows]).
Proof.
  intros Hh Hr Hn.
  set (n := length (h :: heads)) in *.
  assert (Hpos : (0 < n)%nat) by (subst n; cbn [length]; lia).
  destruct (rounds_rows n rows [row_node (map head_node (h :: heads))]
              (size_t_of_int (size_t_of_int (1 + 1) + 1)) Hpos Hr) as (line' & E).
  destruct (rounds_at_eof_table (row_node (map head_node (h :: heads)))
              (map (body_row n) rows) (Z.of_nat n) line') as (p & Ep & Hroot).
  unfold Md_Parser.parse_document, Md_Parser.parse, table_source.
  fold n. unfold row_source at 1. unfold separator_source.
  rewrite !list_ascii_of_string_app.
  cbn [String.append list_ascii_of_string app Md_Parser.rounds].
  rewrite round_table_start. cbn [rbind].
  rewrite <- !app_assoc.
  rewrite rounds_heads by exact Hh.
  cbn [nl list_ascii_of_string app Md_Parser.rounds map].
  rewrite round_head_newline. cbn [rbind].
  replace (length (head_node h :: map head_node heads)) with n
    by (subst n; cbn [length]; now rewrite length_map).
  cbn [Md_Parser.rounds].
  rewrite round_separator_start. cbn [rbind].
  rewrite (rounds_separator_columns n "|" 0) by (cbn [Nat.add]; exact Hn).
  cbn [Nat.add list_ascii_of_string app Md_Parser.rounds].
  rewrite round_separator_newline by exact Hn. cbn [rbind].
  change (head_node h :: map head_node heads) with (map head_node (h :: heads)).
  rewrite E.
  change ([row_node (map head_node (h :: heads))] ++ map (body_row n) rows)
    with (row_node (map head_node (h :: heads)) :: map (body_row n) rows).
  rewrite Ep.
  cbn [rbind TreeBuilder.get_root fst]. unfold final_root in Hroot. rewrite Hroot.
  reflexivity.
Qed.

Lemma table_rows_and_columns_witness :
  Md_Parser.parse_document
    (table_source ["A"; "B"; "C"] [["1"; "2"; "3"]; ["4"]; ["5"; "6"; "7"; "8"]]) =
    Ok (Element DOCSTART []
          [table_node ["A"; "B"; "C"] [["1"; "2"; "3"]; ["4"]; ["5"; "6"; "7"; "8"]]]).
Proof.
  apply (table_rows_and_columns "A" ["B"; "C"]
           [["1"; "2"; "3"]; ["4"]; ["5"; "6"; "7"; "8"]]);
    [ reflexivity | reflexivity | cbn; lia ].
Defined.

(** ** Links and inline code that are not closed *)

(** X21: a link that is not closed comes out twice, and without its
    address.  When the line ends inside the square brackets of a link or
    of an image, the Paragraph's one leaf is the text so far two times:
    the handler builds that text in [consumed] and hands [consumed] itself
    to [handle_unexpected_newline], which appends it to [consumed].  When
    the line ends inside the parentheses, the leaf is the text up to the
    opening parenthesis two times; the address read so far, which is kept
    in [src], is in neither.  No warning is logged. *)
Theorem unclosed_link_repeats_the_text (img : bool) (a u : string) :
  all_chars alt_char a = true ->
  all_chars url_char u = true ->
  (exists p : Md_Parser.t,
      Md_Parser.parse (link_open img a ++ nl) = Ok p
      /\ final_root p = Some (one_paragraph (link_open img a ++ link_open img a))
      /\ final_log p = [])
  /\ (exists p : Md_Parser.t,
         Md_Parser.parse (link_address_open img a ++ u ++ nl) = Ok p
         /\ final_root p =
              Some (one_paragraph (link_address_open img a ++ link_address_open img a))
         /\ final_log p = []).
Proof.
  intros Ha Hu. unfold Md_Parser.parse, final_root, final_log, one_paragraph. split.
  - unfold link_open, Md_Parser.init.
    destruct img; cbn [String.append list_ascii_of_string app Md_Parser.rounds].
    + do 2 round_compute. fold_context (link_context AltOpenSquared true "" "" "").
      rewrite list_ascii_of_string_app.
      rewrite rounds_link_alt by exact Ha.
      rewrite string_of_list_ascii_of_string.
      cbn [String.append nl list_ascii_of_string app Md_Parser.rounds].
      unfold link_context. round_compute. eof_compute.
      eexists. split; [ reflexivity | ]. split; reflexivity.
    + round_compute. fold_context (link_context AltOpenSquared false "" "" "").
      rewrite list_ascii_of_string_app.
      rewrite rounds_link_alt by exact Ha.
      rewrite string_of_list_ascii_of_string.
      cbn [String.append nl list_ascii_of_string app Md_Parser.rounds].
      unfold link_context. round_compute. eof_compute.
      eexists. split; [ reflexivity | ]. split; reflexivity.
  - unfold link_address_open.
    rewrite list_ascii_of_string_app, rounds_link_to_url by exact Ha.
    rewrite list_ascii_of_string_app, rounds_link_url by exact Hu.
    rewrite string_of_list_ascii_of_string.
    cbn [String.append nl list_ascii_of_string Md_Parser.rounds].
    unfold link_context. destruct img; round_compute; eof_compute;
      (eexists; split; [ reflexivity | ]; split; reflexivity).
Qed.

Lemma unclosed_link_repeats_the_text_witness :
  (exists p : Md_Parser.t,
      Md_Parser.parse (link_open false "a cat" ++ nl) = Ok p
      /\ final_root p =
           Some (one_paragraph (link_open false "a cat" ++ link_open false "a cat"))
      /\ final_log p = [])
  /\ (exists p : Md_Parser.t,
         Md_Parser.parse (link_address_open false "a cat" ++ "cat.html" ++ nl) = Ok p
         /\ final_root p =
              Some (one_paragraph
                      (link_address_open false "a cat" ++ link_address_open false "a cat"))
         /\ final_log p = []).
Proof.
  apply (unclosed_link_repeats_the_text false "a cat" "cat.html"); reflexivity.
Defined.

(** X22: inline code that is not closed before the end of the line comes
    out with its text twice.  A backtick, the text [x] and a newline give a
    Paragraph whose one leaf is [x`x]: the handler hands ['`' + consumed]
    to [handle_unexpected_newline], which appends it to [consumed], where
    [x] still is.  One warning is logged, with the number of the line
    after the one the text is on. *)
Theorem unclosed_inline_code_repeats_the_text (x : string) :
  code_text x = true ->
  exists p : Md_Parser.t,
    Md_Parser.parse ("`" ++ x ++ nl) = Ok p
    /\ final_root p = Some (one_paragraph (x ++ "`" ++ x))
    /\ final_log p = [log_warning handlers.backtick_warning 2].
Proof.
  unfold code_text. intros H.
  apply andb_prop in H. destruct H as [H Hn].
  apply andb_prop in H. destruct H as [He Hb].
  destruct x as [ | c0 x ]; [ discriminate | ].
  rewrite free_of_cons in Hb, Hn.
  apply andb_prop in Hb. destruct Hb as [Hb0 Hb]. apply negb_true_iff in Hb0.
  apply andb_prop in Hn. destruct Hn as [Hn0 Hn]. apply negb_true_iff in Hn0.
  unfold Md_Parser.parse, final_root, final_log, one_paragraph.
  cbn [String.append list_ascii_of_string Md_Parser.rounds]. unfold Md_Parser.init.
  round_compute. cbn [rbind].
  fold_context (span_context DataBacktick "").
  rewrite round_backtick_first by assumption. cbn [rbind].
  rewrite list_ascii_of_string_app.
  rewrite rounds_code_inline by assumption.
  rewrite string_of_list_ascii_of_string.
  cbn [String.append str nl list_ascii_of_string Md_Parser.rounds].
  unfold span_context. round_compute. eof_compute.
  eexists. split; [ reflexivity | ]. split; reflexivity.
Qed.

Lemma unclosed_inline_code_repeats_the_text_witness :
  exists p : Md_Parser.t,
    Md_Parser.parse ("`" ++ "ab" ++ nl) = Ok p
    /\ final_root p = Some (one_paragraph ("ab" ++ "`" ++ "ab"))
    /\ final_log p = [log_warning handlers.backtick_warning 2].
Proof. apply (unclosed_inline_code_repeats_the_text "ab"). reflexivity. Defined.

(** ** A sigil and the character after it *)

Lemma round_data_char (img : bool) (cnt : Z) (c0 : ascii) (ch : ascii) (x : string) (line : Z) :
  plain_char ch && negb (ch =? newline)%char = true ->
  Md_Parser.round (Some ch) (Md_Parser.mk line (data_context img cnt (String c0 x))) =
    Ok (Md_Parser.mk (next_line ch line)
          (data_context img cnt (push_back (String c0 x) ch)), false).
Proof.
  intros H. apply andb_prop in H. destruct H as [Hp Hn]. apply negb_true_iff in Hn.
  destruct (plain_char_not_special ch Hp)
    as (H1 & H2 & H3 & H4 & H5 & H6 & H7 & H8 & H9 & H10).
  rewrite round_char; [ | reflexivity | rewrite H9; reflexivity | reflexivity ].
  unfold dispatch.
  cbn [state data_context State_to_nat nth_error state_handlers State_eqb Nat.eqb negb].
  unfold handlers.handleData. rewrite H1, H2, H3, H4, H5, H6, H7, H8, Hn.
  cbn [consumed empty andb rbind].
  unfold after_handler, Md_Parser.drain_warning, append_consumed, set_consumed.
  cbn [warning_msg newline_counter empty negb andb Z.eqb consumed].
  reflexivity.
Qed.

(** The rest of the first line and the end of the input after it: one
    Paragraph with the text. *)
Lemma rounds_data_line (img : bool) (cnt : Z) (c0 : ascii) (x y : string) :
  plain_rest y = true ->
  exists p : Md_Parser.t,
    Md_Parser.rounds (list_ascii_of_string (y ++ nl))
      (Md_Parser.mk 1 (data_context img cnt (String c0 x))) = Ok p
    /\ final_root p = Some (one_paragraph (String c0 x ++ y)).
Proof.
  unfold plain_rest, plain_text, newline_free. intros H.
  apply andb_prop in H. destruct H as [Hp Hn].
  assert (Hl : forallb (fun ch => plain_char ch && negb (ch =? newline)%char)
                 (list_ascii_of_string y) = true).
  { clear - Hp Hn. induction (list_ascii_of_string y) as [ | ch l IH ]; [ reflexivity | ].
    cbn [forallb] in *.
    apply andb_prop in Hp. destruct Hp as [Hp0 Hp].
    apply andb_prop in Hn. destruct Hn as [Hn0 Hn].
    now rewrite Hp0, Hn0, (IH Hp Hn). }
  rewrite list_ascii_of_string_app.
  rewrite (rounds_collect (fun ch => plain_char ch && negb (ch =? newline)%char)
             (fun s => data_context img cnt (String c0 s))
             (fun ch s l' Hc => round_data_char img cnt c0 ch s l' Hc)
             _ _ x 1 Hl).
  rewrite lines_after_no_newline by exact Hn.
  rewrite string_of_list_ascii_of_string.
  cbn [nl list_ascii_of_string Md_Parser.rounds].
  unfold data_context. round_compute. eof_compute.
  eexists. split; reflexivity.
Qed.

(** X23: an exclamation mark swallows the character after it.  When the
    character after [!] is not an opening bracket, [consumed = '!' + next]
    adds the two characters as integers and stores the one byte of value
    (33 + next) mod 256: for the line [!], a character [ch] and plain text
    [y], the Paragraph's text is that byte followed by [y]; neither the
    exclamation mark nor [ch] is in it. *)
Theorem exclamation_mark_merges_with_next (ch : ascii) (y : string) :
  other_than ["["%char] ch = true ->
  plain_rest y = true ->
  Md_Parser.parse_document ("!" ++ str ch ++ y ++ nl) =
    Ok (one_paragraph (str (char_plus_char "!" ch) ++ y)).
Proof.
  unfold other_than. cbn [existsb orb]. intros Hc Hy.
  apply andb_prop in Hc. destruct Hc as [Hc Hb]. apply negb_true_iff in Hb.
  apply andb_prop in Hc. destruct Hc as [Ho Hn]. apply negb_true_iff in Hn.
  rewrite Bool.orb_false_r in Ho. apply negb_true_iff in Ho.
  destruct (rounds_data_line true 0 (char_plus_char "!" ch) "" y Hy) as (p & Ep & Hr).
  unfold Md_Parser.parse_document, Md_Parser.parse.
  cbn [String.append str list_ascii_of_string Md_Parser.rounds]. unfold Md_Parser.init.
  round_compute.
  rewrite round_char; [ | reflexivity | rewrite Hb; reflexivity | reflexivity ].
  unfold dispatch.
  cbn [state State_to_nat nth_error state_handlers State_eqb Nat.eqb negb].
  unfold handlers.handleImage. rewrite Ho, Hn. ctx_norm.
  unfold after_handler, Md_Parser.drain_warning, next_line. rewrite Hn.
  cbn [warning_msg newline_counter empty negb andb Z.eqb rbind].
  fold_context (data_context true 0 (str (char_plus_char "!" ch))).
  unfold str at 1. rewrite Ep.
  cbn [rbind TreeBuilder.get_root fst]. unfold final_root in Hr. rewrite Hr.
  reflexivity.
Qed.

Lemma exclamation_mark_merges_with_next_witness :
  Md_Parser.parse_document ("!" ++ str " " ++ "there" ++ nl) =
    Ok (one_paragraph (str (char_plus_char "!" " ") ++ "there")).
Proof. apply (exclamation_mark_merges_with_next " " "there"); reflexivity. Defined.

(** The character after the hashes, when it is neither a hash nor a
    space. *)
Lemma round_hash_other (k : nat) (ch : ascii) (line : Z) :
  (1 <= k <= 6)%nat ->
  other_than ["#"; " "]%char ch = true ->
  Md_Parser.round (Some ch) (Md_Parser.mk line (hash_context (Z.of_nat k))) =
    Ok (Md_Parser.mk line (data_context false (Z.of_nat k) (hashes k)), false).
Proof.
  unfold other_than. cbn [existsb orb]. intros Hk Hc.
  apply andb_prop in Hc. destruct Hc as [Hc Hb]. apply negb_true_iff in Hb.
  apply andb_prop in Hc. destruct Hc as [Ho Hn]. apply negb_true_iff in Hn.
  rewrite Bool.orb_false_r in Ho. apply negb_true_iff in Ho.
  apply Bool.orb_false_elim in Ho. destruct Ho as [Hh Hs].
  rewrite round_char; [ | reflexivity | rewrite Hb; reflexivity | reflexivity ].
  unfold dispatch.
  cbn [state hash_context State_to_nat nth_error state_handlers State_eqb Nat.eqb negb].
  unfold handlers.handleHashtag. rewrite Hh, Hs, Hn. cbn [andb].
  unfold after_handler, Md_Parser.drain_warning, next_line. rewrite Hn.
  header_levels k Hk; reflexivity.
Qed.

(** X24: hashes without a space lose the character after them.  When one
    to six hashes at the start of the line are followed by a character
    that is neither a hash nor a space, the handler puts the hashes into
    [consumed] and goes back to [Data] without the character: for the line
    of the hashes, a character [ch] and plain text [y], the Paragraph's
    text is the hashes followed by [y]. *)
Theorem hashes_without_space_lose_next (k : nat) (ch : ascii) (y : string) :
  (1 <= k <= 6)%nat ->
  other_than ["#"; " "]%char ch = true ->
  plain_rest y = true ->
  Md_Parser.parse_document (hashes k ++ str ch ++ y ++ nl) =
    Ok (one_paragraph (hashes k ++ y)).
Proof.
  intros Hk Hc Hy.
  assert (E : Md_Parser.rounds (list_ascii_of_string (hashes k ++ str ch ++ y ++ nl))
                Md_Parser.init =
              Md_Parser.rounds (list_ascii_of_string (y ++ nl))
                (Md_Parser.mk 1 (data_context false (Z.of_nat k) (hashes k)))).
  { rewrite list_ascii_of_string_app.
    transitivity
      (Md_Parser.rounds (list_ascii_of_string (str ch ++ y ++ nl))
         (Md_Parser.mk 1 (hash_context (Z.of_nat k)))).
    - pose proof Hk as Hk'. unfold Md_Parser.init.
      header_levels k Hk';
        cbn [hashes list_ascii_of_string app Md_Parser.rounds];
        repeat round_compute; reflexivity.
    - cbn [str String.append list_ascii_of_string Md_Parser.rounds].
      rewrite round_hash_other by assumption. reflexivity. }
  assert (Hx : exists x', hashes k = String "#" x').
  { destruct k as [ | k' ]; [ lia | ]. now exists (hashes k'). }
  destruct Hx as (x' & Hx).
  unfold Md_Parser.parse_document, Md_Parser.parse. rewrite E, Hx.
  destruct (rounds_data_line false (Z.of_nat k) "#" x' y Hy) as (p & Ep & Hr).
  rewrite Ep.
  cbn [rbind TreeBuilder.get_root fst]. unfold final_root in Hr. rewrite Hr.
  reflexivity.
Qed.

Lemma hashes_without_space_lose_next_witness :
  Md_Parser.parse_document (hashes 1 ++ str "h" ++ "ashtag" ++ nl) =
    Ok (one_paragraph (hashes 1 ++ "ashtag")).
Proof.
  apply (hashes_without_space_lose_next 1 "h" "ashtag"); [ lia | | ]; reflexivity.
Defined.

(** ** The HTML and the CSS *)

Lemma Node_induction (P : Node -> Prop) :
  (forall el attrs kids d, Forall P kids -> P (mkNode el attrs kids d)) ->
  forall n, P n.
Proof.
  intros H. fix IH 1. intros [el attrs kids d]. apply H.
  induction kids as [ | k kids IHk ]; constructor; [ apply IH | exact IHk ].
Qed.

(** [visit(Node&)] in one equation, the loop over the children by its
    name. *)
Lemma accept_PlainNode (el : ElementType) (attrs : list Attribute) (kids : list Node)
      (indent : Z) (v : HTML_Visitor.t) :
  HTML_Visitor.accept (mkNode el attrs kids PlainNode) indent v =
    match element_to_html_name el with
    | None => Err (runtime_error "unknown element")
    | Some name =>
        let v1 := HTML_Visitor.open_tag name indent
                    (HTML_Visitor.set_prev_token_content false v) in
        if ElementType_eqb el Horizontalline
        then Ok (HTML_Visitor.write "/>" v1)
        else
          (v2 <- HTML_Visitor.before_children el attrs v1 ;;
           v3 <- HTML_Visitor.accept_children kids indent v2 ;;
           HTML_Visitor.after_children el attrs name indent v3)%result
    end.
Proof.
  cbn [HTML_Visitor.accept].
  destruct (element_to_html_name el) as [ name | ]; [ | reflexivity ].
  cbv zeta. destruct (ElementType_eqb el Horizontalline); [ reflexivity | ].
  destruct (HTML_Visitor.before_children el attrs _) as [ v2 | e ]; [ | reflexivity ].
  cbn [rbind]. f_equal.
  generalize v2. clear.
  induction kids as [ | k kids IH ]; intros v; [ reflexivity | ].
  cbn [HTML_Visitor.accept_children].
  destruct (HTML_Visitor.accept k _ v) as [ v' | e ]; [ | reflexivity ].
  cbn [rbind]. apply IH.
Qed.

Ltac visitor_norm :=
  repeat first
    [ progress unfold HTML_Visitor.open_tag
    | progress unfold HTML_Visitor.fill_in_indenting
    | progress unfold HTML_Visitor.write
    | progress unfold HTML_Visitor.set_prev_token_indent
    | progress unfold HTML_Visitor.set_prev_token_content
    | progress unfold HTML_Visitor.set_css_builder
    | progress cbn [HTML_Visitor.stream HTML_Visitor.css_builder
                    HTML_Visitor.prev_token_content HTML_Visitor.prev_token_indent
                    HTML_Visitor.SPACE_INDENT] ].

(** [visit(ContentNode&)] in one equation: the text, on a new line when
    the last thing written was not a Content leaf of the same indent. *)
Lemma visit_ContentNode_eq (x : string) (indent : Z) (v : HTML_Visitor.t) :
  HTML_Visitor.visit_ContentNode x indent v =
    HTML_Visitor.mk
      (HTML_Visitor.stream v
       ++ (if negb (HTML_Visitor.prev_token_content v)
              || negb (HTML_Visitor.prev_token_indent v =? indent)
           then nl ++ HTML_Visitor.spaces (Z.to_nat indent)
           else "")
       ++ x)
      (HTML_Visitor.css_builder v) true indent (HTML_Visitor.SPACE_INDENT v).
Proof.
  destruct v as [ s c content_before indent_before space ].
  unfold HTML_Visitor.visit_ContentNode.
  cbn [HTML_Visitor.prev_token_content HTML_Visitor.prev_token_indent].
  destruct content_before; cbn [negb orb].
  - destruct (indent_before =? indent) eqn:E; cbn [negb]; visitor_norm.
    + apply Z.eqb_eq in E. now subst.
    + now rewrite !string_app_assoc.
  - visitor_norm. now rewrite !string_app_assoc.
Qed.

Lemma visit_ContentNode_keeps_indent (x : string) (indent : Z) (v : HTML_Visitor.t) :
  HTML_Visitor.SPACE_INDENT (HTML_Visitor.visit_ContentNode x indent v) =
    HTML_Visitor.SPACE_INDENT v.
Proof. now rewrite visit_ContentNode_eq. Qed.

(** Two Content leaves in a row are written as one. *)
Lemma visit_ContentNode_twice (x y : string) (indent : Z) (v : HTML_Visitor.t) :
  HTML_Visitor.visit_ContentNode y indent (HTML_Visitor.visit_ContentNode x indent v) =
    HTML_Visitor.visit_ContentNode (x ++ y) indent v.
Proof.
  rewrite (visit_ContentNode_eq x), (visit_ContentNode_eq (x ++ y)), visit_ContentNode_eq.
  cbn [HTML_Visitor.stream HTML_Visitor.css_builder HTML_Visitor.prev_token_content
       HTML_Visitor.prev_token_indent HTML_Visitor.SPACE_INDENT].
  rewrite Z.eqb_refl. cbn [negb orb String.append].
  now rewrite !string_app_assoc.
Qed.

(** X25: a run of Content leaves is one line of the HTML.  Leaves that
    follow one another under the same parent (the root or any other node)
    are written without a line break or a space between them: the output
    is the one for a single leaf that holds their texts joined, whatever
    was written before and whatever comes after. *)
Theorem content_run_is_one_line (x : string) (more : list string) (rest : list Node)
        (indent : Z) (v : HTML_Visitor.t) :
  HTML_Visitor.accept_all (map Text (x :: more) ++ rest) indent v =
    HTML_Visitor.accept_all (Text (concat_all (x :: more)) :: rest) indent v
  /\ HTML_Visitor.accept_children (map Text (x :: more) ++ rest) indent v =
       HTML_Visitor.accept_children (Text (concat_all (x :: more)) :: rest) indent v.
Proof.
  split.
  - revert x v. induction more as [ | y more IH ]; intros x v.
    + cbn [map app concat_all fold_right]. now rewrite string_app_nil_r.
    + change (map Text (x :: y :: more) ++ rest)%list
        with (Text x :: (map Text (y :: more) ++ rest))%list.
      cbn [HTML_Visitor.accept_all]. unfold Text at 1. cbn [HTML_Visitor.accept rbind].
      rewrite IH.
      cbn [HTML_Visitor.accept_all]. unfold Text. cbn [HTML_Visitor.accept rbind].
      rewrite visit_ContentNode_twice.
      change (concat_all (x :: y :: more)) with (x ++ concat_all (y :: more))%string.
      reflexivity.
  - revert x v. induction more as [ | y more IH ]; intros x v.
    + cbn [map app concat_all fold_right]. now rewrite string_app_nil_r.
    + change (map Text (x :: y :: more) ++ rest)%list
        with (Text x :: (map Text (y :: more) ++ rest))%list.
      cbn [HTML_Visitor.accept_children]. unfold Text at 1.
      cbn [HTML_Visitor.accept rbind].
      rewrite IH.
      cbn [HTML_Visitor.accept_children]. unfold Text. cbn [HTML_Visitor.accept rbind].
      rewrite !visit_ContentNode_keeps_indent, visit_ContentNode_twice.
      reflexivity.
Qed.

(** *** The classes of the CSS file *)

Lemma Attribute_eqb_eq (a b : Attribute) : Attribute_eqb a b = true <-> a = b.
Proof.
  split; [ destruct a, b; (reflexivity || discriminate) | ].
  intros ->. destruct b; reflexivity.
Qed.

Lemma existsb_Attribute_eqb (a : Attribute) (l : list Attribute) :
  existsb (Attribute_eqb a) l = true <-> In a l.
Proof.
  rewrite existsb_exists. split.
  - intros (b & Hb & E). apply Attribute_eqb_eq in E. now subst.
  - intros H. exists a. split; [ exact H | now apply Attribute_eqb_eq ].
Qed.

Lemma add_css_attr_class_eq (attr : Attribute) (c : CSS_Constructor.t) :
  CSS_Constructor.add_css_attr_class attr c =
    Ok (if existsb (Attribute_eqb attr) (CSS_Constructor.used_attributes c)
        then c
        else CSS_Constructor.mk (CSS_Constructor.used_attributes c ++ [attr])
               (CSS_Constructor.styles_stream c ++ css_class attr)).
Proof.
  unfold CSS_Constructor.add_css_attr_class.
  destruct (existsb _ _); [ reflexivity | ].
  unfold CSS_Constructor.setup_css_class, css_class.
  cbn [CSS_Constructor.used_attributes CSS_Constructor.styles_stream].
  destruct (CSS_Constructor.attr_to_css attr) as [ css | ] eqn:E;
    [ | destruct attr; discriminate E ].
  now rewrite !string_app_assoc.
Qed.

Lemma css_grows_refl (c : CSS_Constructor.t) : css_grows c c [].
Proof. split; [ auto | intros a; cbn [In]; tauto ]. Qed.

Lemma css_grows_trans (c1 c2 c3 : CSS_Constructor.t) (l1 l2 : list Attribute) :
  css_grows c1 c2 l1 -> css_grows c2 c3 l2 -> css_grows c1 c3 (l1 ++ l2).
Proof.
  intros [I1 M1] [I2 M2]. split; [ auto | ].
  intros a. rewrite M2, M1, in_app_iff. tauto.
Qed.

Lemma css_grows_add (attr : Attribute) (c c' : CSS_Constructor.t) :
  CSS_Constructor.add_css_attr_class attr c = Ok c' -> css_grows c c' [attr].
Proof.
  rewrite add_css_attr_class_eq. intros E. injection E as <-.
  destruct (existsb _ _) eqn:Ex.
  - apply existsb_Attribute_eqb in Ex. split; [ auto | ].
    intros a. cbn [In]. split; [ tauto | intros [ H | [ <- | [] ] ]; assumption ].
  - assert (Hn : ~ In attr (CSS_Constructor.used_attributes c)).
    { intros H. apply existsb_Attribute_eqb in H. congruence. }
    split.
    + intros base [Hd Hs]. split; cbn [CSS_Constructor.used_attributes
                                       CSS_Constructor.styles_stream].
      * apply NoDup_app; [ exact Hd | repeat constructor; intros [] | ].
        intros a Ha [ <- | [] ]. now apply Hn.
      * rewrite Hs. unfold css_text. rewrite map_app, concat_all_app.
        cbn [map concat_all fold_right].
        now rewrite string_app_nil_r, string_app_assoc.
    + intros a. cbn [CSS_Constructor.used_attributes]. rewrite in_app_iff. tauto.
Qed.

Lemma write_attributes_css (attrs : list Attribute) :
  forall (first : bool) (v : HTML_Visitor.t),
  exists v' : HTML_Visitor.t,
    HTML_Visitor.write_attributes first attrs v = Ok v'
    /\ css_grows (HTML_Visitor.css_builder v) (HTML_Visitor.css_builder v') attrs.
Proof.
  induction attrs as [ | attr attrs IH ]; intros first v.
  - exists v. split; [ reflexivity | apply css_grows_refl ].
  - cbn [HTML_Visitor.write_attributes]. cbv zeta.
    rewrite add_css_attr_class_eq. cbn [rbind].
    match goal with
    | |- context [HTML_Visitor.write_attributes false attrs ?w] =>
        destruct (IH false w) as (v' & E & G)
    end.
    exists v'. split; [ exact E | ].
    change (attr :: attrs) with ([attr] ++ attrs)%list.
    refine (css_grows_trans _ _ _ _ _ _ G).
    revert G. visitor_norm. intros _.
    apply css_grows_add. rewrite add_css_attr_class_eq.
    destruct first; reflexivity.
Qed.

Lemma write_class_css (attrs : list Attribute) (v : HTML_Visitor.t) :
  exists v' : HTML_Visitor.t,
    HTML_Visitor.write_class attrs v = Ok v'
    /\ css_grows (HTML_Visitor.css_builder v) (HTML_Visitor.css_builder v') attrs.
Proof.
  destruct attrs as [ | attr attrs ].
  - exists v. split; [ reflexivity | apply css_grows_refl ].
  - unfold HTML_Visitor.write_class.
    match goal with
    | |- context [HTML_Visitor.write_attributes true ?l ?w] =>
        destruct (write_attributes_css l true w) as (v' & -> & G)
    end.
    cbn [rbind]. eexists. split; [ reflexivity | exact G ].
Qed.

Lemma before_children_css (el : ElementType) (attrs : list Attribute)
      (v v' : HTML_Visitor.t) :
  HTML_Visitor.before_children el attrs v = Ok v' ->
  css_grows (HTML_Visitor.css_builder v) (HTML_Visitor.css_builder v') attrs.
Proof.
  unfold HTML_Visitor.before_children.
  destruct (write_class_css attrs v) as (v2 & -> & G). cbn [rbind].
  destruct (HTML_Visitor.is_block_code el attrs) as [ pre | e ]; [ | discriminate ].
  cbn [rbind]. intros E. injection E as <-.
  destruct pre; exact G.
Qed.

Lemma after_children_css (el : ElementType) (attrs : list Attribute) (name : string)
      (indent : Z) (v v' : HTML_Visitor.t) :
  HTML_Visitor.after_children el attrs name indent v = Ok v' ->
  HTML_Visitor.css_builder v' = HTML_Visitor.css_builder v.
Proof.
  unfold HTML_Visitor.after_children. cbv zeta.
  destruct (HTML_Visitor.is_block_code el attrs) as [ post | e ]; [ | discriminate ].
  cbn [rbind]. intros E. injection E as <-.
  destruct post; reflexivity.
Qed.

Lemma accept_css (n : Node) :
  forall (indent : Z) (v v' : HTML_Visitor.t),
    HTML_Visitor.accept n indent v = Ok v' ->
    css_grows (HTML_Visitor.css_builder v) (HTML_Visitor.css_builder v')
      (styled_attributes n).
Proof.
  induction n as [ el attrs kids d IH ] using Node_induction. intros indent v v'.
  destruct d as [ | content | src alt title | href displayed title ].
  - rewrite accept_PlainNode. cbn [styled_attributes].
    destruct (element_to_html_name el) as [ name | ]; [ | discriminate ].
    cbv zeta. destruct (ElementType_eqb el Horizontalline).
    { intros E. injection E as <-. apply css_grows_refl. }
    destruct (HTML_Visitor.before_children el attrs _) as [ v2 | e ] eqn:E2;
      [ | discriminate ].
    cbn [rbind]. apply before_children_css in E2. revert E2. visitor_norm. intros G2.
    destruct (HTML_Visitor.accept_children kids indent v2) as [ v3 | e ] eqn:E3;
      [ | discriminate ].
    cbn [rbind]. intros E4. apply after_children_css in E4. rewrite E4.
    refine (css_grows_trans _ _ _ _ _ G2 _).
    clear - IH E3. revert v2 E3.
    induction kids as [ | k kids IHk ]; intros v2 E3.
    + injection E3 as <-. apply css_grows_refl.
    + cbn [HTML_Visitor.accept_children] in E3.
      destruct (HTML_Visitor.accept k _ v2) as [ v2' | e ] eqn:Ek; [ | discriminate ].
      cbn [rbind flat_map] in *.
      refine (css_grows_trans _ _ _ _ _ _ _).
      * exact (Forall_inv IH _ _ _ Ek).
      * exact (IHk (Forall_inv_tail IH) _ E3).
  - cbn [HTML_Visitor.accept styled_attributes]. intros E. injection E as <-.
    unfold HTML_Visitor.visit_ContentNode. cbv zeta.
    destruct (_ || _); apply css_grows_refl.
  - cbn [HTML_Visitor.accept styled_attributes]. unfold HTML_Visitor.visit_ImageNode.
    cbv zeta. rewrite add_css_attr_class_eq. cbn [rbind].
    intros E. injection E as <-. visitor_norm.
    apply css_grows_add, add_css_attr_class_eq.
  - cbn [HTML_Visitor.accept styled_attributes]. intros E. injection E as <-.
    apply css_grows_refl.
Qed.

Lemma accept_all_css (kids : list Node) :
  forall (indent : Z) (v v' : HTML_Visitor.t),
    HTML_Visitor.accept_all kids indent v = Ok v' ->
    css_grows (HTML_Visitor.css_builder v) (HTML_Visitor.css_builder v')
      (flat_map styled_attributes kids).
Proof.
  induction kids as [ | k kids IH ]; intros indent v v' E.
  - injection E as <-. apply css_grows_refl.
  - cbn [HTML_Visitor.accept_all] in E.
    destruct (HTML_Visitor.accept k indent v) as [ v1 | e ] eqn:Ek; [ | discriminate ].
    cbn [rbind flat_map] in *.
    exact (css_grows_trans _ _ _ _ _ (accept_css _ _ _ _ Ek) (IH _ _ _ E)).
Qed.

(** X26: every class once.  When [build_document] has written a tree with
    a CSS constructor that was set on the stream text [styles], the CSS
    file is [styles], the rule for the body, and then one class for each
    attribute that the visitor met under the root (for an image,
    ImageAttr), none of them twice. *)
Theorem css_has_each_class_once (output_stream stylesheet_name styles html : string)
        (root : Node) (b b' : HTML_Builder.t) :
  HTML_Builder.build_document output_stream stylesheet_name root
    (HTML_Builder.set_css_builder styles b) = Ok (html, b') ->
  exists used : list Attribute,
    HTML_Builder.css_builder b' =
      Some (CSS_Constructor.mk used (styles ++ default_styling ++ css_text used))
    /\ NoDup used
    /\ forall a : Attribute,
         In a used <-> In a (flat_map styled_attributes (children root)).
Proof.
  unfold HTML_Builder.build_document.
  destruct (negb _); [ discriminate | ].
  cbn [HTML_Builder.css_builder HTML_Builder.set_css_builder]. cbv zeta.
  destruct (HTML_Visitor.accept_all _ _ _) as [ v | e ] eqn:E; [ | discriminate ].
  cbn [rbind]. intros H. injection H as _ <-.
  apply accept_all_css in E. destruct E as [Hi Hm].
  destruct (Hi (styles ++ default_styling)%string) as [Hd Hs].
  { split; [ constructor | ].
    cbn. unfold default_styling. now rewrite string_app_nil_r. }
  exists (CSS_Constructor.used_attributes (HTML_Visitor.css_builder v)).
  cbn [HTML_Builder.css_builder]. split; [ | split; [ exact Hd | ] ].
  - destruct (HTML_Visitor.css_builder v) as [ used s ].
    cbn [CSS_Constructor.used_attributes CSS_Constructor.styles_stream] in *.
    now rewrite Hs, string_app_assoc.
  - intros a. rewrite Hm. cbn. tauto.
Qed.

Lemma css_has_each_class_once_witness :
  exists (html : string) (b' : HTML_Builder.t),
    HTML_Builder.build_document "" "styles.css"
      (Element DOCSTART []
         [Element Span [Bold] [Text "a"]; Element Span [Bold; Italic] [Text "b"]])
      (HTML_Builder.set_css_builder "" HTML_Builder.init) = Ok (html, b')
    /\ exists used : list Attribute,
         HTML_Builder.css_builder b' =
           Some (CSS_Constructor.mk used ("" ++ default_styling ++ css_text used))
         /\ NoDup used
         /\ forall a : Attribute,
              In a used <->
              In a (flat_map styled_attributes
                      (children
                         (Element DOCSTART []
                            [Element Span [Bold] [Text "a"];
                             Element Span [Bold; Italic] [Text "b"]]))).
Proof.
  eexists. eexists. split; [ vm_compute; reflexivity | ].
  eapply (css_has_each_class_once "" "styles.css" "" _ _ HTML_Builder.init).
  vm_compute. reflexivity.
Defined.

(** *** What the builder can write *)

Lemma is_block_code_cases (el : ElementType) (attrs : list Attribute) :
  if ElementType_eqb el Codeblock && empty_attributes attrs
  then HTML_Visitor.is_block_code el attrs = Err undefined_behaviour
  else exists pre : bool, HTML_Visitor.is_block_code el attrs = Ok pre.
Proof.
  unfold HTML_Visitor.is_block_code.
  destruct (ElementType_eqb el Codeblock); [ | cbn; eauto ].
  destruct attrs; cbn; eauto.
Qed.

Lemma accept_visitable (n : Node) :
  forall (indent : Z) (v : HTML_Visitor.t),
    match HTML_Visitor.accept n indent v with
    | Ok _ => visitable n = true
    | Err e =>
        visitable n = false
        /\ (e = undefined_behaviour \/ e = runtime_error "unknown element")
    end.
Proof.
  induction n as [ el attrs kids d IH ] using Node_induction. intros indent v.
  destruct d as [ | content | src alt title | href displayed title ];
    [ | reflexivity | | reflexivity ].
  - rewrite accept_PlainNode. cbn [visitable].
    destruct (element_to_html_name el) as [ name | ]; [ | now split; [ | right ] ].
    cbv zeta. destruct (ElementType_eqb el Horizontalline); [ reflexivity | ].
    cbn [orb]. unfold HTML_Visitor.before_children, HTML_Visitor.after_children.
    match goal with
    | |- context [HTML_Visitor.write_class attrs ?w] =>
        destruct (write_class_css attrs w) as (v2 & -> & _)
    end.
    cbn [rbind]. cbv zeta.
    pose proof (is_block_code_cases el attrs) as Hb.
    destruct (ElementType_eqb el Codeblock && empty_attributes attrs).
    { rewrite Hb. cbn [rbind negb andb]. now split; [ | left ]. }
    destruct Hb as (pre & ->). cbn [rbind negb andb].
    match goal with
    | |- context [HTML_Visitor.accept_children kids indent ?w] => generalize w
    end.
    clear v2. induction kids as [ | k kids IHk ]; intros w.
    + reflexivity.
    + cbn [HTML_Visitor.accept_children forallb].
      pose proof (Forall_inv IH (size_t_of_int (indent + HTML_Visitor.SPACE_INDENT w)) w)
        as Hk.
      destruct (HTML_Visitor.accept k _ w) as [ w' | e ].
      * rewrite Hk. cbn [rbind andb]. apply (IHk (Forall_inv_tail IH)).
      * destruct Hk as [-> He]. cbn [rbind andb]. now split.
  - cbn [HTML_Visitor.accept visitable]. unfold HTML_Visitor.visit_ImageNode. cbv zeta.
    rewrite add_css_attr_class_eq. reflexivity.
Qed.

Lemma accept_all_visitable (kids : list Node) :
  forall (indent : Z) (v : HTML_Visitor.t),
    match HTML_Visitor.accept_all kids indent v with
    | Ok _ => forallb visitable kids = true
    | Err e =>
        forallb visitable kids = false
        /\ (e = undefined_behaviour \/ e = runtime_error "unknown element")
    end.
Proof.
  induction kids as [ | k kids IH ]; intros indent v; [ reflexivity | ].
  cbn [HTML_Visitor.accept_all forallb].
  pose proof (accept_visitable k indent v) as Hk.
  destruct (HTML_Visitor.accept k indent v) as [ v' | e ].
  - rewrite Hk. cbn [rbind andb]. apply IH.
  - destruct Hk as [-> He]. cbn [rbind andb]. now split.
Qed.

(** X27: when the builder fails.  [build_document] writes the document
    exactly when the root is DocStart, a CSS constructor was set and, of
    the nodes that the visitor reaches (it does not go below a
    Horizontalline), each plain one has an element with a name (all but
    EOF_Reached) and each Codeblock an attribute.  In every other case it
    ends in the error "unknown element" or in undefined behaviour (a null
    or indeterminate pointer, an index out of bounds); the errors "unknown
    attribute" and "doc not starting with DOCTYPE" are never the
    outcome. *)
Theorem build_document_fails_only_when (output_stream stylesheet_name : string)
        (root : Node) (b : HTML_Builder.t) :
  match HTML_Builder.build_document output_stream stylesheet_name root b with
  | Ok _ => buildable root b = true
  | Err e =>
      buildable root b = false
      /\ (e = undefined_behaviour \/ e = runtime_error "unknown element")
  end.
Proof.
  unfold HTML_Builder.build_document, buildable.
  destruct (ElementType_eqb (element root) DOCSTART); cbn [negb andb];
    [ | now split; [ | left ] ].
  destruct (HTML_Builder.css_builder b) as [ css | ]; [ | now split; [ | left ] ].
  cbv zeta.
  match goal with
  | |- context [HTML_Visitor.accept_all ?k ?i ?w] =>
      pose proof (accept_all_visitable k i w) as H;
      destruct (HTML_Visitor.accept_all k i w) as [ v | e ]
  end; cbn [rbind]; exact H.
Qed.

(** *** From the Markdown to the two files *)

(** Texts with unknown parts in them are compared in one form: the
    appends nested to the right, the known characters pushed out. *)
Ltac text_norm :=
  repeat (progress cbn
          || rewrite string_app_assoc
          || match goal with
             | |- context [Pos.to_nat ?p] =>
                 let n := eval vm_compute in (Pos.to_nat p) in
                 change (Pos.to_nat p) with n
             end).

(** A heading whose text is one lone digit: the digit is kept twice. *)
Lemma header_of_lone_digit (k : nat) (d : ascii) :
  (1 <= k <= 6)%nat ->
  isdigit d = true ->
  Md_Parser.parse_document (hashes k ++ " " ++ str d ++ nl) =
    Ok (Element DOCSTART []
          [Element (header_of k) [Bold; fontsize_of k] [Text (str d ++ str d)]]).
Proof.
  intros Hk Hd. apply isdigit_cases in Hd. cbn [In] in Hd.
  header_levels k Hk;
    repeat (destruct Hd as [ <- | Hd ]; [ vm_compute; reflexivity | ]);
    destruct Hd.
Qed.

(** X28: a header, from the Markdown to the files.  For a line of one to
    six hashes, a space and a text [x] that is not empty and has only
    plain characters (ASCII, none of the escapable characters) and no
    newline, the program writes an HTML page whose body is the element h1
    to h6 of that level, with the classes Bold and FontSize of the level
    and the text on a line of its own, indented by four spaces; a text of
    one lone digit is written twice there.  The CSS file has the rule for
    the body and the two classes. *)
Theorem header_to_html (k : nat) (x styles_file : string) :
  (1 <= k <= 6)%nat ->
  plain_text x = true ->
  newline_free x = true ->
  x <> "" ->
  main_try (hashes k ++ " " ++ x ++ nl) styles_file =
    Ok (html_page styles_file (header_html k (heading_text x)),
        (default_styling ++ css_text [Bold; fontsize_of k])%string).
Proof.
  intros Hk Hp Hl Hx. unfold main_try, heading_text.
  destruct (lone_digit x) eqn:Hd.
  - destruct x as [ | d [ | ] ]; try discriminate Hd. cbn [lone_digit] in Hd.
    fold (str d).
    rewrite (header_of_lone_digit k d Hk Hd). cbn [rbind].
    unfold html_page, header_html, header_tag, css_text, default_styling,
      HTML_Builder.setup_html_meta_tags.
    header_levels k Hk; text_norm; reflexivity.
  - rewrite (one_to_six_hashes_make_header k x Hk Hp Hl Hx Hd). cbn [rbind].
    unfold html_page, header_html, header_tag, css_text, default_styling,
      HTML_Builder.setup_html_meta_tags.
    header_levels k Hk; text_norm; reflexivity.
Qed.

Lemma header_to_html_witness :
  main_try (hashes 2 ++ " " ++ "Tea" ++ nl) "styles.css" =
    Ok (html_page "styles.css" (header_html 2 "Tea"),
        (default_styling ++ css_text [Bold; fontsize_of 2])%string)
  /\ main_try (hashes 1 ++ " " ++ "7" ++ nl) "styles.css" =
      Ok (html_page "styles.css" (header_html 1 "77"),
          (default_styling ++ css_text [Bold; fontsize_of 1])%string).
Proof.
  split.
  - apply (header_to_html 2 "Tea" "styles.css");
      [ lia | reflexivity | reflexivity | discriminate ].
  - apply (header_to_html 1 "7" "styles.css");
      [ lia | reflexivity | reflexivity | discriminate ].
Defined.

(** ** The arguments of the program *)

Lemma parse_loop_option (stoul : string -> stoul_result) (o : written_option)
      (rest : list string) (last_type : Arg_Types) (parsed : Arguments) :
  ArgumentParser.parse_loop stoul (option_args o ++ rest) false last_type parsed =
    match ArgumentParser.set_parsed_arg stoul parsed (option_value o) (option_type o) with
    | Returned parsed' =>
        ArgumentParser.parse_loop stoul rest false (option_type o) parsed'
    | Uncaught_out_of_range => Uncaught_out_of_range
    end.
Proof.
  destruct o as [ type c val | type val ]; destruct type; reflexivity.
Qed.

(** X29: the two ways to write an option.  An option written as one
    argument, the value right after the flag, and the same option written
    as two arguments are read alike, wherever a flag is expected and
    whatever follows; the value is not looked at (it may begin with a
    dash). *)
Theorem joined_and_separate_agree (stoul : string -> stoul_result) (type : Arg_Types)
        (c : ascii) (val : string) (rest : list string) (last_type : Arg_Types)
        (parsed : Arguments) :
  ArgumentParser.parse_loop stoul ((flag type ++ String c val)%string :: rest) false last_type
    parsed =
    ArgumentParser.parse_loop stoul (flag type :: String c val :: rest) false last_type
      parsed
  /\ ArgumentParser.parse_arguments stoul ((flag type ++ String c val)%string :: rest) =
       ArgumentParser.parse_arguments stoul (flag type :: String c val :: rest).
Proof.
  assert (E : forall lt p,
             ArgumentParser.parse_loop stoul ((flag type ++ String c val)%string :: rest) false
               lt p =
               ArgumentParser.parse_loop stoul (flag type :: String c val :: rest) false
                 lt p).
  { intros lt p.
    exact (eq_trans (parse_loop_option stoul (joined type c val) rest lt p)
             (eq_sym (parse_loop_option stoul (separate type (String c val)) rest lt p))). }
  split; [ apply E | ].
  unfold ArgumentParser.parse_arguments. now rewrite E.
Qed.

(** X30: the options in order.  For a command line that is a sequence of
    options, each written in one argument or in two, the loop of
    [parse_arguments] never returns [nullopt]: it sets the fields in the
    order of the options, so of two values for a file the later one stays.
    An exception of the number conversion for [-v] that is not
    [invalid_argument] leaves the function. *)
Theorem options_are_set_in_order (stoul : string -> stoul_result)
        (options : list written_option) (last_type : Arg_Types) (parsed : Arguments) :
  ArgumentParser.parse_loop stoul (flat_map option_args options) false last_type parsed =
    match set_all stoul options parsed with
    | Returned parsed' => Returned (Some parsed')
    | Uncaught_out_of_range => Uncaught_out_of_range
    end.
Proof.
  revert last_type parsed.
  induction options as [ | o options IH ]; intros last_type parsed; [ reflexivity | ].
  cbn [flat_map set_all]. rewrite parse_loop_option.
  destruct (ArgumentParser.set_parsed_arg stoul parsed (option_value o) (option_type o));
    [ apply IH | reflexivity ].
Qed.
